(** * Receipt field extraction: a shallow embedding of the parsing core

    The development follows the Python sources

      - [app/parsing/currency_parser.py]  (class [CurrencyParser])
      - [app/ocr/ocr_engine.py]           (class [OCRResult], [get_text_lines])
      - [app/parsing/extractors.py]       (the three extractors and the orchestrator)
      - [app/config.py]                   (keyword lists, date patterns, month table)

    Modelling conventions.

      - Text is a list of 8-bit characters read as ASCII ([str]).  Python's
        classification of code points above 127 is not modelled: such
        characters count as symbols that are neither digit, letter nor space.
      - A Python [float] is the rational number that the binary64 value
        denotes ([Q]).  Where the source computes with floats, the result is
        rounded as the machine rounds it ([Binary64.b64]: to the nearest
        binary64 number, halves to the even significand): in [float(...)],
        in the subtraction of [get_text_lines], in the sum, the quotient and
        the blend of [extract_all], and in [int(len(text_lines) * 0.7)].  A
        float literal of the source is written as its decimal ([0.9] is
        [9 # 10]) and [round(x, 3)] as the decimal with three places that it
        prints; an operation that computes with such a value reads it
        through [b64].  The corner means [center_y] and [center_x] are the
        exact means, which is what the machine computes for coordinates
        whose sum it forms without rounding, as for whole pixels.  Infinities
        and NaN are outside the model, which concerns numbers of 309 and
        more digits.  Values are kept in lowest terms so that they compare
        with [=].
      - A Python exception is a value [Raise e] of the result type [res];
        [try/except] is written out where the source has one.
      - [date.today()] is an explicit argument [today].
      - A regular expression is kept both as the source text of the pattern and
        as the syntax tree that [re_compile] builds from it
        ([patterns_compiled]); matching is a backtracking matcher with the
        priorities of Python's [re].
      - A detection carries the identity of its Python object ([oid]), since
        [list.index] compares detections by identity. *)

From Stdlib Require Import Ascii String.
From Stdlib Require Import List Bool Arith ZArith QArith Qround Qabs Qpower Lia Lqa.
From Stdlib Require Import Permutation Sorted.
Import ListNotations.

Set Implicit Arguments.

Close Scope Q_scope.
Local Open Scope list_scope.

(** ** Text *)

Definition str := list ascii.

Definition py (s : string) : str := list_ascii_of_string s.

Definition code (c : ascii) : N := N_of_ascii c.

Definition in_range (lo hi : N) (c : ascii) : bool :=
  (N.leb lo (code c) && N.leb (code c) hi)%bool.

(** [str.isdigit] / [\d] on ASCII. *)
Definition is_digit (c : ascii) : bool := in_range 48 57 c.

(** [str.isspace] / [\s] on ASCII: tab, LF, VT, FF, CR, FS, GS, RS, US, space. *)
Definition is_space (c : ascii) : bool :=
  (in_range 9 13 c || in_range 28 32 c)%bool.

Definition is_upper (c : ascii) : bool := in_range 65 90 c.
Definition is_lower (c : ascii) : bool := in_range 97 122 c.
Definition is_alpha (c : ascii) : bool := (is_upper c || is_lower c)%bool.

(** [\w] on ASCII: letters, digits and the underscore. *)
Definition is_word (c : ascii) : bool :=
  (is_alpha c || is_digit c || Ascii.eqb c "_")%bool.

Definition to_lower (c : ascii) : ascii :=
  if is_upper c then ascii_of_N (code c + 32) else c.

Definition to_upper (c : ascii) : ascii :=
  if is_lower c then ascii_of_N (code c - 32) else c.

(** [s.lower()] *)
Definition lower (s : str) : str := map to_lower s.

Fixpoint lstrip (s : str) : str :=
  match s with
  | c :: s' => if is_space c then lstrip s' else s
  | [] => []
  end.

Definition rstrip (s : str) : str := rev (lstrip (rev s)).

(** [s.strip()] *)
Definition strip (s : str) : str := rstrip (lstrip s).

(** [s.count(c)] for a one-character [c]. *)
Fixpoint count (c : ascii) (s : str) : nat :=
  match s with
  | [] => 0
  | x :: s' => (if Ascii.eqb x c then 1 else 0) + count c s'
  end.

(** [s.replace(c, by)] for a one-character [c]. *)
Fixpoint replace (c : ascii) (by_ : str) (s : str) : str :=
  match s with
  | [] => []
  | x :: s' => (if Ascii.eqb x c then by_ else [x]) ++ replace c by_ s'
  end.

(** [s.split(c)] for a one-character separator: the pieces between the
    occurrences of [c], one more than there are occurrences. *)
Fixpoint split (c : ascii) (s : str) : list str :=
  match s with
  | [] => [[]]
  | x :: s' =>
      if Ascii.eqb x c then [] :: split c s'
      else match split c s' with
           | p :: ps => (x :: p) :: ps
           | [] => [[x]]
           end
  end.

(** [s.rfind(c)]: the index of the last occurrence of [c], or -1. *)
Fixpoint rfind_from (c : ascii) (i : Z) (last : Z) (s : str) : Z :=
  match s with
  | [] => last
  | x :: s' => rfind_from c (i + 1) (if Ascii.eqb x c then i else last) s'
  end.

Definition rfind (c : ascii) (s : str) : Z := rfind_from c 0 (-1) s.

Fixpoint str_eqb (a b : str) : bool :=
  match a, b with
  | [], [] => true
  | x :: a', y :: b' => (Ascii.eqb x y && str_eqb a' b')%bool
  | _, _ => false
  end.

Fixpoint starts_with (p s : str) : bool :=
  match p, s with
  | [], _ => true
  | x :: p', y :: s' => (Ascii.eqb x y && starts_with p' s')%bool
  | _ :: _, [] => false
  end.

(** [p in s] for strings. *)
Fixpoint contains (p s : str) : bool :=
  (starts_with p s ||
   match s with
   | [] => false
   | _ :: s' => contains p s'
   end)%bool.

(** [s.find(p) == 0] *)
Definition found_at_0 (p s : str) : bool := starts_with p s.

(** [sep.join(parts)] *)
Fixpoint join (sep : str) (parts : list str) : str :=
  match parts with
  | [] => []
  | [p] => p
  | p :: ps => p ++ sep ++ join sep ps
  end.

(** [s.isdigit()]: non-empty and all digits. *)
Definition isdigit (s : str) : bool :=
  (negb (Nat.eqb (length s) 0) && forallb is_digit s)%bool.

(** [s.isupper()]: at least one cased character and no lowercase one. *)
Definition isupper (s : str) : bool :=
  (existsb is_upper s && negb (existsb is_lower s))%bool.

(** [any(c.isalpha() for c in s)] *)
Definition any_alpha (s : str) : bool := existsb is_alpha s.

(** ** Exceptions *)

Inductive exn : Type :=
| ValueError
| IndexError
| TypeError
| AttributeError
| Fault (msg : string).

Inductive res (A : Type) : Type :=
| Ok (a : A)
| Raise (e : exn).

Arguments Ok {A} a.
Arguments Raise {A} e.

Definition bind {A B : Type} (m : res A) (f : A -> res B) : res B :=
  match m with
  | Ok a => f a
  | Raise e => Raise e
  end.

Notation "x <- m ;; f" := (bind m (fun x => f))
  (at level 61, m at next level, right associativity).
Notation "' p <- m ;; f" := (bind m (fun x => let p := x in f))
  (at level 61, p pattern, m at next level, right associativity).

(** A [for] loop whose body may [return]: [Ok None] means the loop fell
    through, [Ok (Some b)] that the body returned [b]. *)
Fixpoint for_first {A B : Type} (body : A -> res (option B)) (l : list A)
  : res (option B) :=
  match l with
  | [] => Ok None
  | x :: l' =>
      match body x with
      | Raise e => Raise e
      | Ok (Some b) => Ok (Some b)
      | Ok None => for_first body l'
      end
  end.

(** The same loop for a body that cannot raise. *)
Fixpoint first_some {A B : Type} (body : A -> option B) (l : list A) : option B :=
  match l with
  | [] => None
  | x :: l' =>
      match body x with
      | Some b => Some b
      | None => first_some body l'
      end
  end.

(** ** Regular expressions

    The fragment of Python's [re] syntax that the patterns of the repository
    use.  A repetition ( [*], [+], [{m,n}] ) is always applied to a
    one-character class in these patterns; [?] is also applied to a group. *)

Inductive citem : Type :=
| CChr (c : ascii)            (* a character listed in a set *)
| CRange (lo hi : ascii)      (* [lo-hi] *)
| CDigit                      (* \d *)
| CSpace                      (* \s *)
| CWord.                      (* \w *)

Inductive regex : Type :=
| REmpty
| RChr (c : ascii)                                   (* a literal character *)
| RSet (neg : bool) (items : list citem)             (* [...], [^...], \d, \s, \w *)
| RBol                                               (* ^ *)
| REol                                               (* $ *)
| RWordB                                             (* \b *)
| RSeq (r1 r2 : regex)
| RAlt (r1 r2 : regex)                               (* r1|r2, r1 tried first *)
| ROpt (r : regex)                                   (* r?, greedy *)
| RRep (lo : nat) (hi : option nat) (neg : bool) (items : list citem)
                                                     (* greedy class{lo,hi} *)
| RGroup (n : nat) (r : regex).                      (* capturing group number n *)

Definition in_item (x : ascii) (it : citem) : bool :=
  match it with
  | CChr c => Ascii.eqb x c
  | CRange lo hi => in_range (code lo) (code hi) x
  | CDigit => is_digit x
  | CSpace => is_space x
  | CWord => is_word x
  end.

(** With [re.IGNORECASE] a set also accepts a character whose other case is
    in the set. *)
Definition in_items (ic : bool) (items : list citem) (x : ascii) : bool :=
  (existsb (in_item x) items
   || (ic && (existsb (in_item (to_lower x)) items
              || existsb (in_item (to_upper x)) items)))%bool.

Definition in_set (ic neg : bool) (items : list citem) (x : ascii) : bool :=
  xorb neg (in_items ic items x).

Definition chr_eq (ic : bool) (c x : ascii) : bool :=
  if ic then Ascii.eqb (to_lower c) (to_lower x) else Ascii.eqb c x.

Definition captures := list (nat * str).

Fixpoint get_cap (n : nat) (caps : captures) : option str :=
  match caps with
  | [] => None
  | (k, v) :: caps' => if Nat.eqb k n then Some v else get_cap n caps'
  end.

(** [$] without [re.MULTILINE]: the end of the text, or just before a final
    newline. *)
Definition at_end (s : str) : bool :=
  match s with
  | [] => true
  | [c] => Ascii.eqb c (ascii_of_N 10)
  | _ => false
  end.

Definition word_opt (c : option ascii) : bool :=
  match c with
  | Some x => is_word x
  | None => false
  end.

(** [\b]: exactly one of the neighbouring characters is a word character. *)
Definition at_boundary (prev : option ascii) (s : str) : bool :=
  xorb (word_opt prev) (word_opt (hd_error s)).

Section Matcher.

Variable A : Type.
Variable ic : bool.     (* re.IGNORECASE *)

(** The continuation receives the character before the new position, the
    text that is left, and the groups captured so far. *)
Definition kont := option ascii -> str -> captures -> option A.

(** Greedy repetition of a one-character test: take as many characters as
    allowed, and give them back one at a time while the rest fails. *)
Fixpoint rep_greedy (p : ascii -> bool) (lo : nat) (hi : option nat)
         (prev : option ascii) (s : str) (caps : captures) (k : kont)
         {struct s} : option A :=
  let stop := match lo with O => k prev s caps | S _ => None end in
  let more := match hi with Some O => false | _ => true end in
  match s with
  | x :: s' =>
      if (p x && more)%bool then
        match rep_greedy p (Nat.pred lo) (option_map Nat.pred hi) (Some x) s' caps k with
        | Some a => Some a
        | None => stop
        end
      else stop
  | [] => stop
  end.

Fixpoint rmatch (r : regex) (prev : option ascii) (s : str) (caps : captures)
         (k : kont) {struct r} : option A :=
  match r with
  | REmpty => k prev s caps
  | RChr c =>
      match s with
      | x :: s' => if chr_eq ic c x then k (Some x) s' caps else None
      | [] => None
      end
  | RSet neg items =>
      match s with
      | x :: s' => if in_set ic neg items x then k (Some x) s' caps else None
      | [] => None
      end
  | RBol => match prev with None => k prev s caps | Some _ => None end
  | REol => if at_end s then k prev s caps else None
  | RWordB => if at_boundary prev s then k prev s caps else None
  | RSeq r1 r2 =>
      rmatch r1 prev s caps (fun p' s' c' => rmatch r2 p' s' c' k)
  | RAlt r1 r2 =>
      match rmatch r1 prev s caps k with
      | Some a => Some a
      | None => rmatch r2 prev s caps k
      end
  | ROpt r1 =>
      match rmatch r1 prev s caps k with
      | Some a => Some a
      | None => k prev s caps
      end
  | RRep lo hi neg items => rep_greedy (in_set ic neg items) lo hi prev s caps k
  | RGroup n r1 =>
      rmatch r1 prev s caps
        (fun p' s' c' => k p' s' ((n, firstn (length s - length s') s) :: c'))
  end.

End Matcher.

(** A match object: [group(0)], the captured groups, and the text after the
    match. *)
Record match_obj : Type := MkMatch {
  m_group0 : str;
  m_caps : captures;
  m_after : str
}.

Definition match_at (ic : bool) (r : regex) (prev : option ascii) (s : str)
  : option match_obj :=
  rmatch ic r prev s []
    (fun _ s' caps =>
       Some (MkMatch (firstn (length s - length s') s) caps s')).

(** [re.match(r, s)] *)
Definition re_match (ic : bool) (r : regex) (s : str) : option match_obj :=
  match_at ic r None s.

(** [re.search(r, s)]: the match at the leftmost position that has one. *)
Fixpoint search_from (ic : bool) (r : regex) (prev : option ascii) (s : str)
  : option match_obj :=
  match match_at ic r prev s with
  | Some m => Some m
  | None =>
      match s with
      | [] => None
      | x :: s' => search_from ic r (Some x) s'
      end
  end.

Definition re_search (ic : bool) (r : regex) (s : str) : option match_obj :=
  search_from ic r None s.

(** [re.sub(r, "", s)]: every leftmost non-overlapping match is deleted.
    [skip] counts the characters of the current match still to be dropped.
    (An empty match deletes nothing, so only non-empty matches count.) *)
Fixpoint sub_del (ic : bool) (r : regex) (skip : nat) (prev : option ascii)
         (s : str) {struct s} : str :=
  match s with
  | [] => []
  | x :: s' =>
      match skip with
      | S n => sub_del ic r n (Some x) s'
      | O =>
          match match_at ic r prev s with
          | Some m =>
              match length (m_group0 m) with
              | S n => sub_del ic r n (Some x) s'
              | O => x :: sub_del ic r 0 (Some x) s'
              end
          | None => x :: sub_del ic r 0 (Some x) s'
          end
      end
  end.

Definition re_sub_del (ic : bool) (r : regex) (s : str) : str :=
  sub_del ic r 0 None s.

(** [m.groups()] for a pattern with [n] groups: [None] for a group that took
    no part in the match. *)
Definition groups (n : nat) (m : match_obj) : list (option str) :=
  map (fun i => get_cap i (m_caps m)) (seq 1 n).

(** Pattern-building shorthands. *)
Fixpoint lit_l (s : str) : regex :=
  match s with
  | [] => REmpty
  | [c] => RChr c
  | c :: s' => RSeq (RChr c) (lit_l s')
  end.

Definition lit (s : string) : regex := lit_l (py s).

(** Concatenation, nested to the right as [re_compile] builds it. *)
Fixpoint cat (r1 r2 : regex) : regex :=
  match r1 with
  | RSeq a b => RSeq a (cat b r2)
  | _ => RSeq r1 r2
  end.

Fixpoint seqs (l : list regex) : regex :=
  match l with
  | [] => REmpty
  | [r] => r
  | r :: l' => cat r (seqs l')
  end.

Fixpoint alts (l : list regex) : regex :=
  match l with
  | [] => REmpty
  | [r] => r
  | r :: l' => RAlt r (alts l')
  end.

Definition digit_ : regex := RSet false [CDigit].                     (* \d *)
Definition digits (lo : nat) (hi : option nat) : regex :=
  RRep lo hi false [CDigit].                                          (* \d{lo,hi} *)
Definition star (neg : bool) (items : list citem) : regex :=
  RRep 0 None neg items.                                              (* [...]* *)
Definition plus (neg : bool) (items : list citem) : regex :=
  RRep 1 None neg items.                                              (* [...]+ *)

(** A compiled pattern together with its source text. *)
Record pattern : Type := MkPattern {
  src : string;
  ast : regex
}.

(** ** re.compile

    The reader of pattern text, for the syntax above: alternation,
    concatenation, groups numbered by their opening parenthesis, sets with
    ranges and escapes, the escapes [\d \s \w \b] and escaped literals, the
    anchors, and the quantifiers [* + ? {m} {m,} {m,n}].  A repetition of
    anything but a one-character set, and an unescaped dot, are not in the
    fragment and give [None]. *)

Definition esc_item (e : ascii) : citem :=
  match e with
  | "d"%char => CDigit
  | "s"%char => CSpace
  | "w"%char => CWord
  | _ => CChr e
  end.

(** The items of a set, up to the closing bracket. *)
Fixpoint p_items (s : str) : option (list citem * str) :=
  match s with
  | [] => None
  | "]"%char :: s' => Some ([], s')
  | "\"%char :: e :: s' =>
      match p_items s' with
      | Some (items, rest) => Some (esc_item e :: items, rest)
      | None => None
      end
  | c :: s' =>
      match s' with
      | "-"%char :: d :: s'' =>
          if Ascii.eqb d "]" then
            match p_items s' with
            | Some (items, rest) => Some (CChr c :: items, rest)
            | None => None
            end
          else
            match p_items s'' with
            | Some (items, rest) => Some (CRange c d :: items, rest)
            | None => None
            end
      | _ =>
          match p_items s' with
          | Some (items, rest) => Some (CChr c :: items, rest)
          | None => None
          end
      end
  end.

Fixpoint read_nat (acc : nat) (s : str) : nat * str :=
  match s with
  | c :: s' =>
      if is_digit c then read_nat (acc * 10 + (N.to_nat (code c) - 48)) s'
      else (acc, s)
  | [] => (acc, [])
  end.

(** A counted quantifier, if one starts the text. *)
Definition p_quant (s : str) : option (option (nat * option nat * str)) :=
  match s with
  | "*"%char :: s' => Some (Some (0, None, s'))
  | "+"%char :: s' => Some (Some (1, None, s'))
  | "{"%char :: s' =>
      let '(n, s1) := read_nat 0 s' in
      match s1 with
      | "}"%char :: s2 => Some (Some (n, Some n, s2))
      | ","%char :: "}"%char :: s2 => Some (Some (n, None, s2))
      | ","%char :: s2 =>
          let '(m, s3) := read_nat 0 s2 in
          match s3 with
          | "}"%char :: s4 => Some (Some (n, Some m, s4))
          | _ => None
          end
      | _ => None
      end
  | _ => Some None
  end.

Definition quantify (a : regex) (s : str) : option (regex * str) :=
  match s with
  | "?"%char :: s' => Some (ROpt a, s')
  | _ =>
      match p_quant s with
      | None => None
      | Some None => Some (a, s)
      | Some (Some (lo, hi, s')) =>
          match a with
          | RSet neg items => Some (RRep lo hi neg items, s')
          | _ => None
          end
      end
  end.

Definition then_ (a rest : regex) : regex :=
  match rest with
  | REmpty => a
  | _ => RSeq a rest
  end.

(** [g] is the number of the next group. *)
Fixpoint p_alt (fuel : nat) (s : str) (g : nat) : option (regex * str * nat) :=
  match fuel with
  | O => None
  | S f =>
      match p_seq f s g with
      | Some (r1, "|"%char :: s1, g1) =>
          match p_alt f s1 g1 with
          | Some (r2, s2, g2) => Some (RAlt r1 r2, s2, g2)
          | None => None
          end
      | other => other
      end
  end
with p_seq (fuel : nat) (s : str) (g : nat) : option (regex * str * nat) :=
  match fuel with
  | O => None
  | S f =>
      match s with
      | [] => Some (REmpty, s, g)
      | ")"%char :: _ => Some (REmpty, s, g)
      | "|"%char :: _ => Some (REmpty, s, g)
      | _ :: _ =>
          match p_atom f s g with
          | Some (a, s1, g1) =>
              match quantify a s1 with
              | Some (a', s2) =>
                  match p_seq f s2 g1 with
                  | Some (rest, s3, g2) => Some (then_ a' rest, s3, g2)
                  | None => None
                  end
              | None => None
              end
          | None => None
          end
      end
  end
with p_atom (fuel : nat) (s : str) (g : nat) : option (regex * str * nat) :=
  match fuel with
  | O => None
  | S f =>
      match s with
      | [] => None
      | "("%char :: s' =>
          match p_alt f s' (S g) with
          | Some (r, ")"%char :: s1, g1) => Some (RGroup g r, s1, g1)
          | _ => None
          end
      | "["%char :: "^"%char :: s' =>
          match p_items s' with
          | Some (items, s1) => Some (RSet true items, s1, g)
          | None => None
          end
      | "["%char :: s' =>
          match p_items s' with
          | Some (items, s1) => Some (RSet false items, s1, g)
          | None => None
          end
      | "\"%char :: "b"%char :: s' => Some (RWordB, s', g)
      | "\"%char :: e :: s' =>
          match esc_item e with
          | CChr c => Some (RChr c, s', g)
          | item => Some (RSet false [item], s', g)
          end
      | "^"%char :: s' => Some (RBol, s', g)
      | "$"%char :: s' => Some (REol, s', g)
      | c :: s' =>
          if existsb (Ascii.eqb c) (py ".*+?{}]\")
          then None
          else Some (RChr c, s', g)
      end
  end.

(** [re.compile(text)] *)
Definition re_compile (text : string) : option regex :=
  match p_alt (4 * String.length text + 4) (py text) 1 with
  | Some (r, [], _) => Some r
  | _ => None
  end.

Definition compiled (p : pattern) : Prop := re_compile (src p) = Some (ast p).

(** ** Binary64

    The rounding of IEEE 754 double precision, the format of Python's
    [float]: 53 significant bits, exponents down to -1022 and subnormal
    numbers below, results rounded to the nearest representable number and
    to the one with the even significand when two are equally near. *)

Module Binary64.

Definition pow2 (e : Z) : Q := (2 ^ e)%Q.

(** The integer part of the binary logarithm of a positive number. *)
Definition ilog2 (x : Q) : Z :=
  let k := (Z.log2 (Qnum x) - Z.log2 (Zpos (Qden x)))%Z in
  if Qle_bool (pow2 k) x then k else (k - 1)%Z.

(** The nearest integer, the even one of two that are equally near. *)
Definition nearest_even (q : Q) : Z :=
  let f := Qfloor q in
  let d := (q - inject_Z f)%Q in
  if negb (Qle_bool (1 # 2) d) then f
  else if negb (Qle_bool d (1 # 2)) then (f + 1)%Z
  else if Z.even f then f else (f + 1)%Z.

(** The binary exponent of [x], and -1022 for the subnormal numbers; the
    unit in the last place of the binary64 numbers around [x] has the
    exponent 52 below it. *)
Definition exponent (x : Q) : Z := Z.max (ilog2 (Qabs x)) (-1022).

Definition quantum (x : Q) : Z := (exponent x - 52)%Z.

(** The binary64 number nearest to [x], in lowest terms.  (Numbers of
    magnitude 2^1024 and more, which the machine rounds to an infinity, are
    outside the model.) *)
Definition b64 (x : Q) : Q :=
  let q := quantum x in
  Qred (inject_Z (nearest_even (x / pow2 q)) * pow2 q).

(** The binary64 numbers: the numbers [m * 2^e] with a significand [m] of
    at most 53 bits and an exponent [e] of at least -1074.  (The bound on
    the exponent from above concerns numbers from 2^1024 on.) *)
Definition representable (x : Q) : Prop :=
  exists m e : Z,
    (Z.abs m < 2 ^ 53)%Z /\ (-1074 <= e)%Z /\ (x == inject_Z m * pow2 e)%Q.

(** The numbers that round to a finite binary64 number: those below the
    midpoint between the largest one and 2^1024. *)
Definition finite (x : Q) : Prop := (Qabs x < pow2 1024 - pow2 970)%Q.

(** The arithmetic of floats: the exact result, rounded. *)
Definition fadd (x y : Q) : Q := b64 (x + y).
Definition fsub (x y : Q) : Q := b64 (x - y).
Definition fmul (x y : Q) : Q := b64 (x * y).
Definition fdiv (x y : Q) : Q := b64 (x / y).

End Binary64.

(** ** Numbers *)

(** The value of a string of decimal digits. *)
Fixpoint digits_val (acc : Z) (s : str) : Z :=
  match s with
  | [] => acc
  | c :: s' => digits_val (acc * 10 + (Z.of_N (code c) - 48)) s'
  end.

Definition is_empty (s : str) : bool :=
  match s with [] => true | _ :: _ => false end.

(** [float(s)] on the strings that the currency parser hands to it, which
    consist of digits and dots only: the binary64 number nearest to the
    value of [ddd], [ddd.ddd], [ddd.] or [.ddd] with at least one digit, and
    [ValueError] for anything else in that alphabet.  (Signs, exponents,
    underscores, [inf] and [nan], which [float] also reads, contain other
    characters and are answered with [ValueError] here.) *)
Definition decimal (ip fp : str) : res Q :=
  if (forallb is_digit ip && forallb is_digit fp
      && negb (is_empty ip && is_empty fp))%bool
  then Ok (Binary64.b64 (Qmake (digits_val 0 (ip ++ fp))
                               (Z.to_pos (10 ^ Z.of_nat (length fp)))))
  else Raise ValueError.

Definition py_float (s : str) : res Q :=
  match split "." s with
  | [ip] => decimal ip []
  | [ip; fp] => decimal ip fp
  | _ => Raise ValueError
  end.

(** [int(s)] on a string of digits. *)
Definition py_int (s : str) : res Z :=
  if isdigit s then Ok (digits_val 0 s) else Raise ValueError.

(** [l[i]] *)
Definition index_at {A : Type} (l : list A) (i : nat) : res A :=
  match nth_error l i with
  | Some a => Ok a
  | None => Raise IndexError
  end.

(** [try: ... except ValueError: return None] *)
Definition except_ValueError {A : Type} (m : res (option A)) : res (option A) :=
  match m with
  | Raise ValueError => Ok None
  | other => other
  end.

Definition Qleb (a b : Q) : bool := Qle_bool a b.
Definition Qltb (a b : Q) : bool := negb (Qle_bool b a).

(** ** app/parsing/currency_parser.py *)

Module CurrencyParser.

Definition CURRENCY_PREFIXES : list pattern := [
  MkPattern "[Rr][Pp]\.?\s*"
    (seqs [RSet false [CChr "R"; CChr "r"]; RSet false [CChr "P"; CChr "p"];
           ROpt (RChr "."); star false [CSpace]]);
  MkPattern "[Ii][Dd][Rr]\s*"
    (seqs [RSet false [CChr "I"; CChr "i"]; RSet false [CChr "D"; CChr "d"];
           RSet false [CChr "R"; CChr "r"]; star false [CSpace]]);
  MkPattern "\$\s*"
    (seqs [RChr "$"; star false [CSpace]]);
  MkPattern "[Uu][Ss][Dd]\s*"
    (seqs [RSet false [CChr "U"; CChr "u"]; RSet false [CChr "S"; CChr "s"];
           RSet false [CChr "D"; CChr "d"]; star false [CSpace]])
].

Definition number_class : list citem := [CDigit; CChr "."; CChr ","; CSpace].

Definition NUMBER_PATTERN : pattern :=
  MkPattern "^[^\d]*([\d.,\s]+)[^\d]*$"
    (seqs [RBol; star true [CDigit]; RGroup 1 (plus false number_class);
           star true [CDigit]; REol]).

Definition WHITESPACE : pattern := MkPattern "\s+" (plus false [CSpace]).

Definition to_float (s : str) : res (option Q) :=
  v <- py_float s ;; Ok (Some v).

(** The branch taken when both separators occur (and the source's final
    [else], which repeats it). *)
Definition mixed (number_str : str) : res (option Q) :=
  let last_dot := rfind "." number_str in
  let last_comma := rfind "," number_str in
  if (last_dot <? last_comma)%Z then
    to_float (replace "," (py ".") (replace "." [] number_str))
  else
    to_float (replace "," [] number_str).

Definition _parse_number_string (number_str : str) : res (option Q) :=
  let number_str := re_sub_del false (ast WHITESPACE) number_str in
  if is_empty number_str then Ok None else
  let dots := count "." number_str in
  let commas := count "," number_str in
  except_ValueError
    (if ((dots =? 0) && (commas =? 0))%bool%nat then
       to_float number_str
     else if ((dots =? 0) && (commas =? 1))%bool%nat then
       let parts := split "," number_str in
       p1 <- index_at parts 1 ;;
       if (length p1 =? 2)%nat then
         to_float (replace "," (py ".") number_str)
       else if (length p1 =? 3)%nat then
         to_float (replace "," [] number_str)
       else
         to_float (replace "," (py ".") number_str)
     else if ((dots =? 1) && (commas =? 0))%bool%nat then
       let parts := split "." number_str in
       p1 <- index_at parts 1 ;;
       if (length p1 =? 2)%nat then
         to_float number_str
       else if (length p1 =? 3)%nat then
         to_float (replace "." [] number_str)
       else
         to_float number_str
     else if ((1 <=? dots) && (1 <=? commas))%bool%nat then
       mixed number_str
     else if ((1 <? dots) && (commas =? 0))%bool%nat then
       to_float (replace "." [] number_str)
     else if ((dots =? 0) && (1 <? commas))%bool%nat then
       to_float (replace "," [] number_str)
     else
       mixed number_str).

(** [m.group(1).strip()]: a group that took no part in the match is [None],
    on which [.strip()] raises [AttributeError]. *)
Definition group1_strip (m : match_obj) : res str :=
  match get_cap 1 (m_caps m) with
  | Some g => Ok (strip g)
  | None => Raise AttributeError
  end.

(** The text that [NUMBER_PATTERN] is matched against: [cleaned] in the
    source, after prefix removal and the second [strip]. *)
Definition cleaned_of (original : str) : str :=
  strip (fold_left (fun cleaned p => re_sub_del true (ast p) cleaned)
                   CURRENCY_PREFIXES original).

(** [parse(currency_string)]; the argument is [None] or a string. *)
Definition parse (currency_string : option str) : res (option Q * str) :=
  match currency_string with
  | None => Ok (None, [])
  | Some [] => Ok (None, [])
  | Some cs =>
      let original := strip cs in
      let cleaned := cleaned_of original in
      if is_empty cleaned then Ok (None, original) else
      match re_match false (ast NUMBER_PATTERN) cleaned with
      | None => Ok (None, original)
      | Some m =>
          number_str <- group1_strip m ;;
          value <- _parse_number_string number_str ;;
          match value with
          | Some v => Ok (Some v, original)
          | None => Ok (None, original)
          end
      end
  end.

(** [format_as_integer]: [int(round(value))], rounding halves to even. *)
Definition round_half_even (q : Q) : Z :=
  let f := Qfloor q in
  let d := (q - inject_Z f)%Q in
  if Qltb d (1 # 2) then f
  else if Qltb (1 # 2) d then (f + 1)%Z
  else if Z.even f then f else (f + 1)%Z.

Definition format_as_integer (value : option Q) : option Z :=
  option_map round_half_even value.

Definition is_valid_amount (value : option Q) (min_value max_value : Q) : bool :=
  match value with
  | None => false
  | Some v => (Qleb min_value v && Qleb v max_value)%bool
  end.

End CurrencyParser.


(** ** Sorting

    [list.sort(key=..., reverse=...)] is a stable sort that compares keys with
    [<] only.  Insertion from the right gives the same list: an element goes
    behind the elements whose key is strictly smaller (strictly larger when
    [reverse=True]) and stays in front of the later elements with an equal
    key. *)

Section Sort.

Variables (A K : Type).
Variable lt : K -> K -> bool.
Variable key : A -> K.

Fixpoint insert_by (x : A) (l : list A) : list A :=
  match l with
  | [] => [x]
  | y :: l' => if lt (key y) (key x) then y :: insert_by x l' else x :: l
  end.

Definition sort_by (l : list A) : list A := fold_right insert_by [] l.

(** [before a b]: the sort may leave [a] in front of [b]. *)
Definition before (a b : A) : Prop := lt (key b) (key a) = false.

End Sort.

Definition py_sort {A K : Type} (lt : K -> K -> bool) (key : A -> K)
           (reverse : bool) (l : list A) : list A :=
  if reverse then sort_by (fun a b => lt b a) key l else sort_by lt key l.

(** [<] on pairs of floats: the first components decide unless they are
    equal. *)
Definition pair_ltb (a b : Q * Q) : bool :=
  if Qeq_bool (fst a) (fst b) then Qltb (snd a) (snd b)
  else Qltb (fst a) (fst b).

(** ** app/ocr/ocr_engine.py *)

(** A detection.  [bbox] is the normalised box (the four corner points that
    [_normalize_bbox] stores).  [oid] is the identity of the Python object:
    the class defines no [__eq__], so [==] on detections compares
    identities. *)
Record OCRResult : Type := MkOCR {
  oid : nat;
  text : str;
  confidence : Q;
  bbox : list (Q * Q);
  line_index : Z
}.

Definition Qsum (l : list Q) : Q := fold_left Qplus l 0%Q.

(** [sum(...)] over floats: the terms are added from left to right and
    every partial sum is rounded.  (This is the sum of CPython up to 3.11;
    later versions carry a compensation term along.) *)
Definition fsum (l : list Q) : Q := fold_left Binary64.fadd l 0%Q.

Definition len_Q {A : Type} (l : list A) : Q := inject_Z (Z.of_nat (length l)).

Definition Qminimum (l : list Q) : option Q :=
  match l with
  | [] => None
  | x :: l' => Some (fold_left (fun m y => if Qltb y m then y else m) l' x)
  end.

(** The property [center_y]: the mean of the corner ordinates, and 0.0 when
    the division fails. *)
Definition center_y (r : OCRResult) : Q :=
  match bbox r with
  | [] => 0%Q
  | _ :: _ => (Qsum (map snd (bbox r)) / len_Q (bbox r))%Q
  end.

(** The property [left_x]: the least corner abscissa, and 0.0 when [min]
    fails. *)
Definition left_x (r : OCRResult) : Q :=
  match Qminimum (map fst (bbox r)) with
  | Some x => x
  | None => 0%Q
  end.

Module ReceiptOCR.

Definition sort_line (line : list OCRResult) : list OCRResult :=
  py_sort Qltb left_x false line.

(** The state of the loop of [get_text_lines]. *)
Record lines_state : Type := MkLines {
  lines : list (list OCRResult);
  current_line : list OCRResult;
  current_y : Q
}.

(** [abs(result.center_y - current_y) <= line_threshold], the difference
    being the float that the subtraction yields. *)
Definition same_line (line_threshold : Q) (st : lines_state) (result : OCRResult) : bool :=
  Qleb (Qabs (Binary64.fsub (center_y result) (current_y st))) line_threshold.

Definition step (line_threshold : Q) (st : lines_state) (result : OCRResult)
  : lines_state :=
  if same_line line_threshold st result then
    MkLines (lines st) (current_line st ++ [result]) (current_y st)
  else
    MkLines (lines st ++ [sort_line (current_line st)]) [result] (center_y result).

Definition get_text_lines (results : list OCRResult) (line_threshold : Q)
  : list (list OCRResult) :=
  match results with
  | [] => []
  | first :: rest =>
      let st := fold_left (step line_threshold) rest
                          (MkLines [] [first] (center_y first)) in
      match current_line st with
      | [] => lines st
      | _ :: _ => lines st ++ [sort_line (current_line st)]
      end
  end.

Definition default_line_threshold : Q := 20.

Definition get_average_confidence (results : list OCRResult) : Q :=
  match results with
  | [] => 0
  | _ :: _ => Binary64.fdiv (fsum (map confidence results))
                            (Binary64.b64 (len_Q results))
  end.

End ReceiptOCR.

(** ** app/config.py *)

Module ExtractionConfig.

Definition TOTAL_KEYWORDS : list str := map py [
  "grand total"; "total"; "jumlah"; "bayar"; "amount"; "tunai"; "cash";
  "subtotal"; "sub total"; "pembayaran"; "tagihan"; "total bayar";
  "total belanja"
]%string.

Definition EXCLUDE_KEYWORDS : list str := map py [
  "diskon"; "discount"; "ppn"; "tax"; "pajak"; "kembalian"; "change";
  "item"; "qty"; "quantity"
]%string.

Definition date_sep : regex := RSet false [CChr "/"; CChr "-"; CChr "."].
Definition spaces1 : regex := plus false [CSpace].

(** The four patterns of [DATE_PATTERNS], in the order of the list. *)
Definition PATTERN_DMY : pattern :=               (* DD/MM/YYYY or DD-MM-YYYY *)
  MkPattern "\b(\d{1,2})[/\-.](\d{1,2})[/\-.](\d{4})\b"
    (seqs [RWordB; RGroup 1 (digits 1 (Some 2)); date_sep;
           RGroup 2 (digits 1 (Some 2)); date_sep;
           RGroup 3 (digits 4 (Some 4)); RWordB]).

Definition PATTERN_YMD : pattern :=               (* YYYY/MM/DD or YYYY-MM-DD *)
  MkPattern "\b(\d{4})[/\-.](\d{1,2})[/\-.](\d{1,2})\b"
    (seqs [RWordB; RGroup 1 (digits 4 (Some 4)); date_sep;
           RGroup 2 (digits 1 (Some 2)); date_sep;
           RGroup 3 (digits 1 (Some 2)); RWordB]).

Definition PATTERN_D_MON_Y : pattern :=           (* DD MMM YYYY *)
  MkPattern "\b(\d{1,2})\s+(jan|feb|mar|apr|may|mei|jun|jul|aug|agu|sep|oct|okt|nov|dec|des)\w*\s+(\d{4})\b"
    (seqs [RWordB; RGroup 1 (digits 1 (Some 2)); spaces1;
           RGroup 2 (alts (map lit ["jan"; "feb"; "mar"; "apr"; "may"; "mei";
                                    "jun"; "jul"; "aug"; "agu"; "sep"; "oct";
                                    "okt"; "nov"; "dec"; "des"]%string));
           star false [CWord]; spaces1;
           RGroup 3 (digits 4 (Some 4)); RWordB]).

Definition PATTERN_D_MONTH_Y : pattern :=
  MkPattern "\b(\d{1,2})\s+(january|february|march|april|may|june|july|august|september|october|november|december)\s+(\d{4})\b"
    (seqs [RWordB; RGroup 1 (digits 1 (Some 2)); spaces1;
           RGroup 2 (alts (map lit ["january"; "february"; "march"; "april";
                                    "may"; "june"; "july"; "august";
                                    "september"; "october"; "november";
                                    "december"]%string));
           spaces1; RGroup 3 (digits 4 (Some 4)); RWordB]).

Definition DATE_PATTERNS : list pattern :=
  [PATTERN_DMY; PATTERN_YMD; PATTERN_D_MON_Y; PATTERN_D_MONTH_Y].

Definition MONTH_MAP : list (string * Z) := [
  ("jan", 1); ("january", 1); ("januari", 1);
  ("feb", 2); ("february", 2); ("februari", 2);
  ("mar", 3); ("march", 3); ("maret", 3);
  ("apr", 4); ("april", 4);
  ("may", 5); ("mei", 5);
  ("jun", 6); ("june", 6); ("juni", 6);
  ("jul", 7); ("july", 7); ("juli", 7);
  ("aug", 8); ("august", 8); ("agu", 8); ("agustus", 8);
  ("sep", 9); ("september", 9);
  ("oct", 10); ("october", 10); ("okt", 10); ("oktober", 10);
  ("nov", 11); ("november", 11);
  ("dec", 12); ("december", 12); ("des", 12); ("desember", 12)
]%string%Z.

(** [MONTH_MAP.get(k)] *)
Fixpoint get (m : list (string * Z)) (k : str) : option Z :=
  match m with
  | [] => None
  | (k', v) :: m' => if str_eqb (py k') k then Some v else get m' k
  end.

End ExtractionConfig.

(** ** datetime.date *)

Record date : Type := MkDate {
  year : Z;
  month : Z;
  day : Z
}.

Definition is_leap (y : Z) : bool :=
  ((y mod 4 =? 0) && (negb (y mod 100 =? 0) || (y mod 400 =? 0)))%bool%Z.

Definition days_in_month (y m : Z) : Z :=
  if (m =? 2)%Z then (if is_leap y then 29 else 28)
  else if ((m =? 4) || (m =? 6) || (m =? 9) || (m =? 11))%bool%Z then 30
  else 31.

(** [date(y, m, d)]: [ValueError] unless the year is in 1..9999 and the
    month and day exist. *)
Definition date_new (y m d : Z) : res date :=
  if ((1 <=? y) && (y <=? 9999) && (1 <=? m) && (m <=? 12)
      && (1 <=? d) && (d <=? days_in_month y m))%bool%Z
  then Ok (MkDate y m d)
  else Raise ValueError.

Definition date_ltb (a b : date) : bool :=
  ((year a <? year b)
   || ((year a =? year b)
       && ((month a <? month b)
           || ((month a =? month b) && (day a <? day b)))))%bool%Z.

Definition digit_char (d : Z) : ascii := ascii_of_N (Z.to_N (48 + d mod 10)).

(** [w] decimal digits of [n], zero-padded. *)
Fixpoint zpad (w : nat) (n : Z) : str :=
  match w with
  | O => []
  | S w' => zpad w' (n / 10) ++ [digit_char n]
  end.

(** [d.isoformat()] *)
Definition isoformat (d : date) : str :=
  zpad 4 (year d) ++ py "-" ++ zpad 2 (month d) ++ py "-" ++ zpad 2 (day d).

(** ** app/parsing/extractors.py *)

Module MerchantExtractor.

Definition dash_or_slash : regex := RSet false [CChr "/"; CChr "-"].

Definition EXCLUDE_PATTERNS : list pattern := [
  MkPattern "^\d{2}[/\-]\d{2}[/\-]\d{2,4}$"
    (seqs [RBol; digits 2 (Some 2); dash_or_slash; digits 2 (Some 2);
           dash_or_slash; digits 2 (Some 4); REol]);
  MkPattern "^\d{2}:\d{2}(:\d{2})?$"
    (seqs [RBol; digits 2 (Some 2); RChr ":"; digits 2 (Some 2);
           ROpt (RGroup 1 (RSeq (RChr ":") (digits 2 (Some 2)))); REol]);
  MkPattern "^\+?\d[\d\s\-]{8,}$"
    (seqs [RBol; ROpt (RChr "+"); digit_;
           RRep 8 None false [CDigit; CSpace; CChr "-"]; REol]);
  MkPattern "^(jl\.|jalan|alamat|address)\b"
    (seqs [RBol;
           RGroup 1 (alts [lit "jl."; lit "jalan"; lit "alamat"; lit "address"]);
           RWordB]);
  MkPattern "^(telp?|phone|hp|whatsapp)\b"
    (seqs [RBol;
           RGroup 1 (alts [seqs [lit "tel"; ROpt (RChr "p")]; lit "phone";
                           lit "hp"; lit "whatsapp"]);
           RWordB]);
  MkPattern "^wa\s*:"
    (seqs [RBol; lit "wa"; star false [CSpace]; RChr ":"]);
  MkPattern "^(npwp|nik)\b"
    (seqs [RBol; RGroup 1 (alts [lit "npwp"; lit "nik"]); RWordB]);
  MkPattern "^no\s*:"
    (seqs [RBol; lit "no"; star false [CSpace]; RChr ":"]);
  MkPattern "^[\-=_\*]{3,}$"
    (seqs [RBol; RRep 3 None false [CChr "-"; CChr "="; CChr "_"; CChr "*"];
           REol]);
  MkPattern "^(struk|receipt|invoice|nota)\b"
    (seqs [RBol;
           RGroup 1 (alts [lit "struk"; lit "receipt"; lit "invoice"; lit "nota"]);
           RWordB])
].

Definition is_some {A : Type} (o : option A) : bool :=
  match o with Some _ => true | None => false end.

Definition _should_exclude (text : str) : bool :=
  let text_lower := lower text in
  existsb (fun p => is_some (re_match false (ast p) text_lower)) EXCLUDE_PATTERNS.

Definition _score_merchant_candidate (text : str) (result : OCRResult) : Q :=
  let score := 0%Q in
  let score := if (isupper text && (3 <? length text)%nat)%bool
               then (score + 2)%Q else score in
  let score := if ((3 <=? length text) && (length text <=? 50))%bool%nat
               then (score + 1)%Q else score in
  let score := (score + inject_Z (Z.max 0 (3 - line_index result)))%Q in
  let score := if isdigit text then (score - 5)%Q else score in
  let score := if any_alpha text then (score + 1)%Q else score in
  score.

(** The candidate triples [(text, score, confidence)] of the first loop. *)
Fixpoint candidates_of (results : list OCRResult) : list (str * Q * Q) :=
  match results with
  | [] => []
  | result :: rest =>
      let text := strip (text result) in
      if (is_empty text || (length text <? 2)%nat)%bool then candidates_of rest
      else if _should_exclude text then candidates_of rest
      else (text, _score_merchant_candidate text result, confidence result)
             :: candidates_of rest
  end.

Definition candidate_key (c : str * Q * Q) : Q * Q := (snd (fst c), snd c).

Definition extract (ocr_results : list OCRResult) (top_n_lines : nat)
  : option str :=
  match ocr_results with
  | [] => None
  | _ :: _ =>
      let candidates := candidates_of (firstn top_n_lines ocr_results) in
      match candidates with
      | [] =>
          first_some
            (fun result =>
               if is_empty (strip (text result)) then None
               else Some (strip (text result)))
            (firstn 3 ocr_results)
      | _ :: _ =>
          match py_sort pair_ltb candidate_key true candidates with
          | best :: _ => Some (fst (fst best))
          | [] => None
          end
      end
  end.

Definition default_top_n_lines : nat := 5.

End MerchantExtractor.

Module DateExtractor.

Import ExtractionConfig.

(** [except (ValueError, IndexError, TypeError)]: the function goes on to
    its final [return None]. *)
Definition except_parse {A : Type} (m : res (option A)) : res (option A) :=
  match m with
  | Raise ValueError | Raise IndexError | Raise TypeError => Ok None
  | other => other
  end.

Fixpoint valid_only (gs : list (option str)) : list str :=
  match gs with
  | [] => []
  | Some g :: gs' => g :: valid_only gs'
  | None :: gs' => valid_only gs'
  end.

(** [nums]: the groups that are digit strings, converted by [int]. *)
Fixpoint nums_of (gs : list str) : res (list Z) :=
  match gs with
  | [] => Ok []
  | g :: gs' =>
      if isdigit g then
        n <- py_int g ;; ns <- nums_of gs' ;; Ok (n :: ns)
      else nums_of gs'
  end.

Definition is_text_month_pattern (pattern : pattern) : bool :=
  existsb (fun month => contains (py month) (lower (py (src pattern))))
          ["jan"; "feb"; "mar"]%string.

Definition is_year_first_pattern (pattern : pattern) : bool :=
  (contains (py "YYYY") (py (src pattern))
   && found_at_0 (py "YYYY") (py (src pattern)))%bool.

(** The three date patterns all have three groups. *)
Definition n_groups : nat := 3.

Definition _parse_date_match (m : match_obj) (pattern : pattern)
  : res (option date) :=
  let groups := groups n_groups m in
  except_parse
    (let valid_groups := valid_only groups in
     if is_text_month_pattern pattern then
       if (3 <=? length valid_groups)%nat then
         g0 <- index_at valid_groups 0 ;;
         day <- py_int g0 ;;
         g1 <- index_at valid_groups 1 ;;
         let month_str := lower g1 in
         g2 <- index_at valid_groups 2 ;;
         year <- py_int g2 ;;
         match get MONTH_MAP month_str with
         | Some month =>
             if (month =? 0)%Z then Ok None
             else d <- date_new year month day ;; Ok (Some d)
         | None => Ok None
         end
       else Ok None
     else if (3 <=? length valid_groups)%nat then
       nums <- nums_of valid_groups ;;
       if (3 <=? length nums)%nat then
         n0 <- index_at nums 0 ;;
         n1 <- index_at nums 1 ;;
         n2 <- index_at nums 2 ;;
         let '(year, month, day) :=
           if is_year_first_pattern pattern then (n0, n1, n2)
           else (n2, n1, n0) in
         let year :=
           if (year <? 100)%Z
           then (year + (if (year <? 50)%Z then 2000 else 1900))%Z
           else year in
         d <- date_new year month day ;; Ok (Some d)
       else Ok None
     else Ok None).

Definition _is_valid_date (today d : date) : res bool :=
  if date_ltb today d then Ok false
  else
    min_date <- date_new (year today - 5) 1 1 ;;
    if date_ltb d min_date then Ok false
    else Ok true.

(** The body of the loop over [DATE_PATTERNS]. *)
Definition try_pattern (today : date) (full_text : str) (pattern : pattern)
  : res (option (str * date)) :=
  match re_search true (ast pattern) full_text with
  | None => Ok None
  | Some m =>
      let raw_string := m_group0 m in
      parsed_date <- _parse_date_match m pattern ;;
      match parsed_date with
      | None => Ok None
      | Some d =>
          ok <- _is_valid_date today d ;;
          if ok then Ok (Some (raw_string, d)) else Ok None
      end
  end.

Definition extract_from (today : date) (full_text : str) (patterns : list pattern)
  : res (option str * option date) :=
  found <- for_first (try_pattern today full_text) patterns ;;
  match found with
  | Some (raw_string, d) => Ok (Some raw_string, Some d)
  | None => Ok (None, None)
  end.

Definition full_text_of (ocr_results : list OCRResult) : str :=
  join (py " ") (map text ocr_results).

Definition extract (today : date) (ocr_results : list OCRResult)
  : res (option str * option date) :=
  extract_from today (full_text_of ocr_results) DATE_PATTERNS.

End DateExtractor.

Definition total_result : Type := option str * option Q * Q.

Definition no_total : total_result := (None, None, 0%Q).

Module TotalAmountExtractor.

Import ExtractionConfig.

(** [==] on detections is identity; on lists it is element-wise. *)
Definition result_eqb (a b : OCRResult) : bool := Nat.eqb (oid a) (oid b).

Fixpoint line_eqb (a b : list OCRResult) : bool :=
  match a, b with
  | [], [] => true
  | x :: a', y :: b' => (result_eqb x y && line_eqb a' b')%bool
  | _, _ => false
  end.

(** [text_lines.index(line)]: the position of the first element equal to
    [line]; [ValueError] when there is none. *)
Fixpoint index_of (line : list OCRResult) (text_lines : list (list OCRResult))
  : res nat :=
  match text_lines with
  | [] => Raise ValueError
  | l :: rest =>
      if line_eqb l line then Ok O
      else i <- index_of line rest ;; Ok (S i)
  end.

(** [" ".join(r.text for r in line).lower()] *)
Definition line_text_of (line : list OCRResult) : str :=
  lower (join (py " ") (map text line)).

Definition has_keyword (kws : list str) (line_text : str) : bool :=
  existsb (fun kw => contains kw line_text) kws.

(** The scan of the keyword line, right to left. *)
Definition scan_keyword_line (line : list OCRResult) : res (option total_result) :=
  for_first
    (fun result =>
       '(parsed, raw) <- CurrencyParser.parse (Some (text result)) ;;
       match parsed with
       | Some v =>
           if Qltb 0 v then
             if Qleb 100 v then Ok (Some (Some raw, Some v, 9 # 10)%Q)
             else Ok None
           else Ok None
       | None => Ok None
       end)
    (rev line).

(** The scan of the line after the keyword line, left to right. *)
Definition scan_next_line (next_line : list OCRResult) : res (option total_result) :=
  for_first
    (fun result =>
       '(parsed, raw) <- CurrencyParser.parse (Some (text result)) ;;
       match parsed with
       | Some v =>
           if Qleb 100 v then Ok (Some (Some raw, Some v, 85 # 100)%Q)
           else Ok None
       | None => Ok None
       end)
    next_line.

(** What is done for a keyword found in the line. *)
Definition on_keyword (text_lines : list (list OCRResult)) (line : list OCRResult)
  : res (option total_result) :=
  found <- scan_keyword_line line ;;
  match found with
  | Some r => Ok (Some r)
  | None =>
      line_idx <- index_of line text_lines ;;
      if (line_idx + 1 <? length text_lines)%nat then
        next_line <- index_at text_lines (line_idx + 1) ;;
        scan_next_line next_line
      else Ok None
  end.

(** The body of the loop over the lines. *)
Definition on_line (text_lines : list (list OCRResult)) (line : list OCRResult)
  : res (option total_result) :=
  let line_text := line_text_of line in
  if has_keyword EXCLUDE_KEYWORDS line_text then Ok None
  else
    for_first
      (fun keyword =>
         if contains keyword line_text then on_keyword text_lines line
         else Ok None)
      TOTAL_KEYWORDS.

Definition _extract_by_keyword (text_lines : list (list OCRResult))
  : res total_result :=
  found <- for_first (on_line text_lines) (rev text_lines) ;;
  match found with
  | Some r => Ok r
  | None => Ok no_total
  end.

(** The amounts [(raw, parsed, confidence)] of at least 100 among the
    detections that pass [keep]. *)
Fixpoint amounts_of (keep : OCRResult -> bool) (results : list OCRResult)
  : res (list (str * Q * Q)) :=
  match results with
  | [] => Ok []
  | result :: rest =>
      '(parsed, raw) <- CurrencyParser.parse (Some (text result)) ;;
      more <- amounts_of keep rest ;;
      match parsed with
      | Some v =>
          if (Qleb 100 v && keep result)%bool
          then Ok ((raw, v, confidence result) :: more)
          else Ok more
      | None => Ok more
      end
  end.

Fixpoint amounts_of_lines (ls : list (list OCRResult)) : res (list (str * Q * Q)) :=
  match ls with
  | [] => Ok []
  | line :: rest =>
      if has_keyword EXCLUDE_KEYWORDS (line_text_of line) then amounts_of_lines rest
      else
        here <- amounts_of (fun _ => true) line ;;
        more <- amounts_of_lines rest ;;
        Ok (here ++ more)
  end.

(** [int(n * 0.7)] for a length [n].  The rounding of binary64 changes the
    result on small inputs already ([int(90 * 0.7)] is 62); the product is
    computed on integers as the machine computes it: [0.7] is the double
    [3152519739159347 * 2^-52]; the exact product is rounded to 53
    significant bits, ties to even, and truncated. *)
Definition double_07 : Z := 3152519739159347.

Definition int_times_07 (n : nat) : nat :=
  let p := (Z.of_nat n * double_07)%Z in
  let shift := (Z.log2 p + 1 - 53)%Z in
  if (shift <=? 0)%Z then Z.to_nat (p / 2 ^ 52)
  else
    let q := (p / 2 ^ shift)%Z in
    let r := (p mod 2 ^ shift)%Z in
    let half := (2 ^ (shift - 1))%Z in
    let q' := if (r <? half)%Z then q
              else if (half <? r)%Z then (q + 1)%Z
              else if Z.even q then q else (q + 1)%Z in
    Z.to_nat (q' * 2 ^ shift / 2 ^ 52).

(** [amounts.sort(key=lambda x: x[1], reverse=True); best = amounts[0]] *)
Definition best_of (amounts : list (str * Q * Q)) (conf : Q) : total_result :=
  match py_sort Qltb (fun x : str * Q * Q => snd (fst x)) true amounts with
  | best :: _ => (Some (fst (fst best)), Some (snd (fst best)), conf)
  | [] => no_total
  end.

Definition _extract_by_position (ocr_results : list OCRResult)
           (text_lines : list (list OCRResult)) : res total_result :=
  match text_lines with
  | [] => Ok no_total
  | _ :: _ =>
      let bottom_start := int_times_07 (length text_lines) in
      let bottom_lines := skipn bottom_start text_lines in
      amounts <- amounts_of_lines bottom_lines ;;
      Ok (best_of amounts (75 # 100)%Q)
  end.

Definition upper_AZ : list citem := [CRange "A" "Z"].

Definition DATE_SHAPE : pattern :=
  MkPattern "^\d{2}[/\-]\d{2}[/\-]\d{2,4}$"
    (seqs [RBol; digits 2 (Some 2); MerchantExtractor.dash_or_slash;
           digits 2 (Some 2); MerchantExtractor.dash_or_slash;
           digits 2 (Some 4); REol]).

Definition TIME_SHAPE : pattern :=
  MkPattern "^\d{2}:\d{2}(:\d{2})?$"
    (seqs [RBol; digits 2 (Some 2); RChr ":"; digits 2 (Some 2);
           ROpt (RGroup 1 (RSeq (RChr ":") (digits 2 (Some 2)))); REol]).

Definition ID_SHAPE : pattern :=
  MkPattern "^[A-Z]{2,}\d{6,}$"
    (seqs [RBol; RRep 2 None false upper_AZ; digits 6 None; REol]).

Definition looks_like (p : pattern) (text : str) : bool :=
  MerchantExtractor.is_some (re_match false (ast p) text).

Definition _looks_like_date_or_id (text : str) : bool :=
  if looks_like DATE_SHAPE text then true
  else if looks_like TIME_SHAPE text then true
  else if looks_like ID_SHAPE text then true
  else false.

Definition _extract_max_value (ocr_results : list OCRResult) : res total_result :=
  amounts <- amounts_of (fun result => negb (_looks_like_date_or_id (text result)))
                        ocr_results ;;
  Ok (best_of amounts (6 # 10)%Q).

Definition value_of (r : total_result) : option Q := snd (fst r).

Definition extract (ocr_results : list OCRResult)
           (text_lines : list (list OCRResult)) : res total_result :=
  match ocr_results with
  | [] => Ok no_total
  | _ :: _ =>
      keyword_result <- _extract_by_keyword text_lines ;;
      match value_of keyword_result with
      | Some _ => Ok keyword_result
      | None =>
          position_result <- _extract_by_position ocr_results text_lines ;;
          match value_of position_result with
          | Some _ => Ok position_result
          | None =>
              max_result <- _extract_max_value ocr_results ;;
              match value_of max_result with
              | Some _ => Ok max_result
              | None => Ok no_total
              end
          end
      end
  end.

End TotalAmountExtractor.

(** [round(x, ndigits)] of a float [x]: the decimal number with [ndigits]
    places that is nearest to [x], the one with the even last digit when [x]
    lies halfway between two.  The float that [round] returns is the one
    nearest to this decimal, and prints as the decimal; the model gives the
    decimal. *)
Definition py_round (x : Q) (ndigits : nat) : Q :=
  let scale := inject_Z (10 ^ Z.of_nat ndigits) in
  Qred (inject_Z (CurrencyParser.round_half_even (x * scale)) / scale)%Q.

(** The dictionary that [extract_all] returns. *)
Record extraction : Type := MkExtraction {
  merchant_name : option str;
  transaction_date_raw : option str;
  transaction_date : option str;
  total_amount_raw : option str;
  total_amount_value : option Q;
  confidence_score : Q
}.

(** An instance of [ReceiptExtractor]: the three extractor objects that
    [__init__] stores in [self]. *)
Record ReceiptExtractor : Type := MkReceiptExtractor {
  merchant_extractor : list OCRResult -> res (option str);
  date_extractor : list OCRResult -> res (option str * option date);
  total_extractor : list OCRResult -> list (list OCRResult) -> res total_result
}.

Module Orchestrator.

(** [ReceiptExtractor()] *)
Definition __init__ (today : date) : ReceiptExtractor :=
  MkReceiptExtractor
    (fun ocr_results =>
       Ok (MerchantExtractor.extract ocr_results
                                     MerchantExtractor.default_top_n_lines))
    (DateExtractor.extract today)
    TotalAmountExtractor.extract.

(** [sum(r.confidence for r in ocr_results) / len(ocr_results) if
    ocr_results else 0] *)
Definition ocr_avg_confidence_of (ocr_results : list OCRResult) : Q :=
  match ocr_results with
  | [] => 0%Q
  | _ :: _ => Binary64.fdiv (fsum (map confidence ocr_results))
                            (Binary64.b64 (len_Q ocr_results))
  end.

(** [(ocr_avg_confidence * 0.3) + (total_confidence * 0.7)]: two products
    and a sum of floats.  The literals [0.3] and [0.7], and the confidence
    that the total extractor returns, which is a literal as well, are the
    floats nearest to these decimals. *)
Definition overall_confidence_of (ocr_avg_confidence total_confidence : Q) : Q :=
  Binary64.fadd
    (Binary64.fmul ocr_avg_confidence (Binary64.b64 (3 # 10)))
    (Binary64.fmul (Binary64.b64 total_confidence) (Binary64.b64 (7 # 10))).

Definition extract_all (self : ReceiptExtractor) (ocr_results : list OCRResult)
           (text_lines : list (list OCRResult)) : res extraction :=
  merchant_name <- merchant_extractor self ocr_results ;;
  '(date_raw, date_parsed) <- date_extractor self ocr_results ;;
  '(total_raw, total_value, total_confidence) <-
     total_extractor self ocr_results text_lines ;;
  let ocr_avg_confidence := ocr_avg_confidence_of ocr_results in
  let overall_confidence :=
    overall_confidence_of ocr_avg_confidence total_confidence in
  Ok (MkExtraction merchant_name
                   date_raw
                   (option_map isoformat date_parsed)
                   total_raw
                   total_value
                   (py_round overall_confidence 3)).

End Orchestrator.

(** ** Line clustering, as the specification words it *)

Module Clustering.

Import ReceiptOCR.

(** [within thr a d]: [d] is within [thr] of the ordinate of [a]. *)
Definition within (thr : Q) (a d : OCRResult) : bool :=
  Qleb (Qabs (center_y d - center_y a)) thr.

(** The same test on the float that the machine forms of the difference,
    which is the test of [get_text_lines]. *)
Definition rounded_within (thr : Q) (a d : OCRResult) : bool :=
  Qleb (Qabs (Binary64.fsub (center_y d) (center_y a))) thr.

(** The clustering as the specification words it, for a test [near] of a
    detection against an anchor: a line is opened by a detection, its
    anchor; the following detections join it while they are near the
    anchor; the first one that is not closes the line, which is then sorted,
    and opens the next; the last open line is closed at the end of the
    input. *)
Fixpoint cluster_from (near : OCRResult -> OCRResult -> bool) (anchor : OCRResult)
         (open : list OCRResult) (rest : list OCRResult) : list (list OCRResult) :=
  match rest with
  | [] => [sort_line open]
  | d :: rest' =>
      if near anchor d then cluster_from near anchor (open ++ [d]) rest'
      else sort_line open :: cluster_from near d [d] rest'
  end.

Definition clusters (near : OCRResult -> OCRResult -> bool)
           (detections : list OCRResult) : list (list OCRResult) :=
  match detections with
  | [] => []
  | d :: rest => cluster_from near d [d] rest
  end.

(** The specification's test is [within]. *)
Definition groupIntoLines (detections : list OCRResult) (thr : Q)
  : list (list OCRResult) :=
  clusters (within thr) detections.

(** A chunk of the input that forms one line: an anchor followed by
    detections near it. *)
Definition chunk_ok (near : OCRResult -> OCRResult -> bool) (c : list OCRResult)
  : Prop :=
  match c with
  | [] => False
  | a :: rest => Forall (fun d => near a d = true) rest
  end.

(** Each chunk ends because the detection that opens the next one is not
    near its anchor. *)
Fixpoint breaks (near : OCRResult -> OCRResult -> bool)
         (chunks : list (list OCRResult)) : Prop :=
  match chunks with
  | (a :: _) :: (((b :: _) :: _) as tl) => near a b = false /\ breaks near tl
  | [_] | [] => True
  | _ => False
  end.

Definition sorted_by_left_x (line : list OCRResult) : Prop :=
  StronglySorted (fun a b => (left_x a <= left_x b)%Q) line.

End Clustering.

(** ** Date plausibility, as the specification words it

    "The date must not be in the future and must not be more than 5 years
    before today."  Five years before [today] is the same month and day five
    years earlier; the comparison is the lexicographic one of [date]. *)

Module Plausibility.

Definition five_years_before (today : date) : date :=
  MkDate (year today - 5) (month today) (day today).

Definition plausible (today d : date) : bool :=
  (negb (date_ltb today d) && negb (date_ltb d (five_years_before today)))%bool.

(** What the source compares with instead: the first of January of the year
    five before the current one. *)
Definition min_date_of (today : date) : date := MkDate (year today - 5) 1 1.

End Plausibility.

(** ** Merchant choice, as the specification words it *)

Module MerchantSpec.

(** [key_le a b]: the pair [a] of score and confidence does not beat [b]:
    its score is lower, or equal with a confidence that is not higher. *)
Definition key_le (a b : Q * Q) : Prop :=
  (fst a < fst b)%Q \/ ((fst a == fst b)%Q /\ (snd a <= snd b)%Q).

Definition bonus (b : bool) (q : Q) : Q := if b then q else 0%Q.

(** +2 for all-uppercase text over 3 characters, +1 for a length in [3,50],
    the proximity bonus [max(0, 3 - line_index)], -5 if purely numeric, +1 if
    there is a letter. *)
Definition score (text : str) (line_index : Z) : Q :=
  (bonus (isupper text && (3 <? length text)%nat) 2
   + bonus ((3 <=? length text) && (length text <=? 50))%nat 1
   + inject_Z (Z.max 0 (3 - line_index))
   - bonus (isdigit text) 5
   + bonus (any_alpha text) 1)%Q.

End MerchantSpec.

(** ** What a regular expression matches

    [matches ic r prev w after caps caps']: in a text where the character
    before the current position is [prev] and the text from the current
    position on is [w ++ after], the expression [r] can match [w], turning
    the captured groups [caps] into [caps']. *)

Definition prev_after (prev : option ascii) (w : str) : option ascii :=
  fold_left (fun _ x => Some x) w prev.

Inductive matches (ic : bool)
  : regex -> option ascii -> str -> str -> captures -> captures -> Prop :=
| M_empty prev after caps :
    matches ic REmpty prev [] after caps caps
| M_chr c x prev after caps :
    chr_eq ic c x = true ->
    matches ic (RChr c) prev [x] after caps caps
| M_set neg items x prev after caps :
    in_set ic neg items x = true ->
    matches ic (RSet neg items) prev [x] after caps caps
| M_bol after caps :
    matches ic RBol None [] after caps caps
| M_eol prev after caps :
    at_end after = true ->
    matches ic REol prev [] after caps caps
| M_wordb prev after caps :
    at_boundary prev after = true ->
    matches ic RWordB prev [] after caps caps
| M_seq r1 r2 prev w1 w2 after caps caps1 caps2 :
    matches ic r1 prev w1 (w2 ++ after) caps caps1 ->
    matches ic r2 (prev_after prev w1) w2 after caps1 caps2 ->
    matches ic (RSeq r1 r2) prev (w1 ++ w2) after caps caps2
| M_alt_l r1 r2 prev w after caps caps' :
    matches ic r1 prev w after caps caps' ->
    matches ic (RAlt r1 r2) prev w after caps caps'
| M_alt_r r1 r2 prev w after caps caps' :
    matches ic r2 prev w after caps caps' ->
    matches ic (RAlt r1 r2) prev w after caps caps'
| M_opt_some r prev w after caps caps' :
    matches ic r prev w after caps caps' ->
    matches ic (ROpt r) prev w after caps caps'
| M_opt_none r prev after caps :
    matches ic (ROpt r) prev [] after caps caps
| M_rep lo hi neg items prev w after caps :
    Forall (fun x => in_set ic neg items x = true) w ->
    (lo <= length w)%nat ->
    (forall h, hi = Some h -> (length w <= h)%nat) ->
    matches ic (RRep lo hi neg items) prev w after caps caps
| M_group n r prev w after caps caps' :
    matches ic r prev w after caps caps' ->
    matches ic (RGroup n r) prev w after caps ((n, w) :: caps').

(** ** Currency strings, as the specification words them *)

Definition non_digit (c : ascii) : Prop := is_digit c = false.

(** A digit, dot, comma or whitespace character. *)
Definition number_char (c : ascii) : Prop :=
  in_set false false CurrencyParser.number_class c = true.

(** The second component of the result of [parse]: the variable [original]
    of the source, which is the argument stripped of surrounding whitespace,
    and the empty string for [None]. *)
Definition raw_of (currency_string : option str) : str :=
  match currency_string with
  | None => []
  | Some cs => strip cs
  end.

(** ** The keyword strategy, as the specification words it *)

Module TotalSpec.

Import TotalAmountExtractor.

(** A detection read as a currency amount of at least 100. *)
Definition amount (r : OCRResult) : option (str * Q) :=
  match CurrencyParser.parse (Some (text r)) with
  | Ok (Some v, raw) => if Qleb 100 v then Some (raw, v) else None
  | _ => None
  end.

(** The first such amount in a list of detections. *)
Definition first_amount (rs : list OCRResult) : option (str * Q) :=
  first_some amount rs.

Definition excluded (line : list OCRResult) : bool :=
  has_keyword ExtractionConfig.EXCLUDE_KEYWORDS (line_text_of line).

(** A line that is not skipped and contains a total keyword. *)
Definition keyword_line (line : list OCRResult) : bool :=
  (negb (excluded line)
   && has_keyword ExtractionConfig.TOTAL_KEYWORDS (line_text_of line))%bool.

Definition with_confidence (conf : Q) (a : str * Q) : total_result :=
  (Some (fst a), Some (snd a), conf).

(** Confidences are in [0,1]. *)
Definition unit_confidence (r : total_result) : Prop :=
  (0 <= snd r <= 1)%Q.

(** The keyword strategy as the specification words it.  The lines are
    visited from the bottom: [above] holds the lines still to visit, the
    lowest first, and [below] the lines under them, the nearest first.  A
    line that is excluded or has no total keyword is passed over.  On a
    keyword line the rightmost amount of at least 100 is the total, with
    confidence 0.9; when the line has none, the leftmost such amount of the
    line immediately below is the total, with confidence 0.85; when that
    line has none either, or there is no line below, the visit goes on
    upwards. *)
Fixpoint keyword_scan (below above : list (list OCRResult)) : total_result :=
  match above with
  | [] => no_total
  | line :: above' =>
      if keyword_line line then
        match first_amount (rev line) with
        | Some a => with_confidence (9 # 10) a
        | None =>
            match option_map first_amount (hd_error below) with
            | Some (Some a) => with_confidence (85 # 100) a
            | _ => keyword_scan (line :: below) above'
            end
        end
      else keyword_scan (line :: below) above'
  end.

Definition keyword_strategy (text_lines : list (list OCRResult)) : total_result :=
  keyword_scan [] (rev text_lines).

End TotalSpec.

(** A computation that returns or raises one of the exceptions that
    [_parse_date_match] catches. *)
Definition caught_by_parse {A : Type} (m : res A) : Prop :=
  match m with
  | Ok _ | Raise ValueError | Raise IndexError | Raise TypeError => True
  | Raise _ => False
  end.

(** ** The orchestrator, as the specification words it *)

Module OrchestratorSpec.

(** The mean of the detection confidences, 0 when there is no detection. *)
Definition mean_confidence (ocr_results : list OCRResult) : Q :=
  match ocr_results with
  | [] => 0%Q
  | _ :: _ => (Qsum (map confidence ocr_results) / len_Q ocr_results)%Q
  end.

(** The result with every field absent. *)
Definition all_absent : extraction :=
  MkExtraction None None None None None 0%Q.

(** An instance whose total extractor has an internal fault, the other two
    extractors being those of the repository. *)
Definition with_faulty_total (today : date) (e : exn) : ReceiptExtractor :=
  MkReceiptExtractor
    (merchant_extractor (Orchestrator.__init__ today))
    (date_extractor (Orchestrator.__init__ today))
    (fun _ _ => Raise e).

End OrchestratorSpec.

(** All the digits of [s] lie in one run of number characters: [s] is
    digit-free text, then a non-empty run of digits, dots, commas and
    whitespace, then digit-free text. *)
Definition one_run (s : str) : Prop :=
  exists pre run post,
    s = pre ++ run ++ post /\
    Forall non_digit pre /\
    Forall number_char run /\ run <> [] /\
    Forall non_digit post.

(** Two digits of [s] have between them a character that is not a number
    character. *)
Definition interrupted (s : str) : Prop :=
  exists (i j k : nat) (d1 x d2 : ascii),
    (i < j < k)%nat /\
    nth_error s i = Some d1 /\ nth_error s j = Some x /\ nth_error s k = Some d2 /\
    is_digit d1 = true /\ is_digit d2 = true /\ ~ number_char x.

(** ** Mixed separators, as the specification words them

    "Whichever separator occurs last in the string is the decimal separator;
    all other occurrences of either separator are stripped as thousands
    separators." *)

Module SeparatorSpec.

Definition is_sep (c : ascii) : bool := (Ascii.eqb c "." || Ascii.eqb c ",")%bool.

(** A string of digits, dots and commas. *)
Definition numeric (s : str) : Prop :=
  Forall (fun c => is_digit c = true \/ is_sep c = true) s.

(** The text before the last separator, that separator, and the text after
    it. *)
Fixpoint split_last_sep (s : str) : option (str * ascii * str) :=
  match s with
  | [] => None
  | c :: s' =>
      match split_last_sep s' with
      | Some (b, sep, a) => Some (c :: b, sep, a)
      | None => if is_sep c then Some ([], c, s') else None
      end
  end.

Definition strip_seps (s : str) : str := filter (fun c => negb (is_sep c)) s.

(** The string handed to the conversion: the last separator becomes the
    decimal point and every other separator is removed. *)
Definition by_last_separator (s : str) : str :=
  match split_last_sep s with
  | Some (b, _, a) => strip_seps b ++ "."%char :: a
  | None => s
  end.

(** The value that the sentence gives to [s]. *)
Definition claimed (s : str) : res (option Q) :=
  except_ValueError (CurrencyParser.to_float (by_last_separator s)).

End SeparatorSpec.

(** A character with which no currency prefix ([Rp], [IDR], [$], [USD], in
    either case) starts. *)
Definition no_prefix_start (c : ascii) : Prop :=
  existsb (Ascii.eqb (to_lower c)) (py "riu$") = false.

(** * The rest of the parsing core

    The definitions below cover the parts of the same sources that the
    sections above leave out, and the vocabulary in which their properties
    are stated. *)

(** ** Numbers in currency strings *)

(** A digit, a dot or a comma. *)
Definition digit_or_sep (c : ascii) : Prop :=
  is_digit c = true \/ c = "."%char \/ c = ","%char.

Definition all_digits (s : str) : Prop := Forall (fun c => is_digit c = true) s.

Definition all_spaces (s : str) : Prop := Forall (fun c => is_space c = true) s.

(** The number that the digits [ip], a decimal point and the digits [fp]
    denote, in lowest terms. *)
Definition number_of (ip fp : str) : Q :=
  Qred (inject_Z (digits_val 0 (ip ++ fp)) / inject_Z (10 ^ Z.of_nat (length fp))).

(** The four patterns of [CURRENCY_PREFIXES]. *)
Definition P_rp : regex :=
  ast (nth 0 CurrencyParser.CURRENCY_PREFIXES (MkPattern "" REmpty)).
Definition P_idr : regex :=
  ast (nth 1 CurrencyParser.CURRENCY_PREFIXES (MkPattern "" REmpty)).
Definition P_dollar : regex :=
  ast (nth 2 CurrencyParser.CURRENCY_PREFIXES (MkPattern "" REmpty)).
Definition P_usd : regex :=
  ast (nth 3 CurrencyParser.CURRENCY_PREFIXES (MkPattern "" REmpty)).

(** The texts that a pattern of [CURRENCY_PREFIXES] matches from end to end:
    [Rp], [IDR], [$] or [USD] in either case, a dot after [Rp] if there is
    one, and whitespace. *)
Inductive currency_prefix : str -> Prop :=
| prefix_rp c1 c2 dot sp :
    to_lower c1 = "r"%char -> to_lower c2 = "p"%char ->
    dot = [] \/ dot = ["."%char] ->
    all_spaces sp ->
    currency_prefix (c1 :: c2 :: dot ++ sp)
| prefix_idr c1 c2 c3 sp :
    to_lower c1 = "i"%char -> to_lower c2 = "d"%char -> to_lower c3 = "r"%char ->
    all_spaces sp ->
    currency_prefix (c1 :: c2 :: c3 :: sp)
| prefix_dollar sp :
    all_spaces sp ->
    currency_prefix ("$"%char :: sp)
| prefix_usd c1 c2 c3 sp :
    to_lower c1 = "u"%char -> to_lower c2 = "s"%char -> to_lower c3 = "d"%char ->
    all_spaces sp ->
    currency_prefix (c1 :: c2 :: c3 :: sp).

(** No prefix, or one. *)
Definition optional_prefix (pre : str) : Prop := pre = [] \/ currency_prefix pre.

(** The characters with which no prefix pattern can start a match. *)
Definition starts_none (c : ascii) : Prop :=
  in_set true false [CChr "R"; CChr "r"] c = false /\
  in_set true false [CChr "I"; CChr "i"] c = false /\
  chr_eq true "$" c = false /\
  in_set true false [CChr "U"; CChr "u"] c = false.

(** The branches of the [if]/[elif] chain of [_parse_number_string], in the
    order of the source. *)
Inductive separator_branch : Type :=
| PlainNumber        (* dots == 0 and commas == 0 *)
| SingleComma        (* dots == 0 and commas == 1 *)
| SingleDot          (* dots == 1 and commas == 0 *)
| MixedSeparators    (* dots >= 1 and commas >= 1 *)
| SeveralDots        (* dots > 1 and commas == 0 *)
| SeveralCommas      (* dots == 0 and commas > 1 *)
| Ambiguous.         (* else *)

Definition separator_branch_of (dots commas : nat) : separator_branch :=
  if ((dots =? 0) && (commas =? 0))%bool%nat then PlainNumber
  else if ((dots =? 0) && (commas =? 1))%bool%nat then SingleComma
  else if ((dots =? 1) && (commas =? 0))%bool%nat then SingleDot
  else if ((1 <=? dots) && (1 <=? commas))%bool%nat then MixedSeparators
  else if ((1 <? dots) && (commas =? 0))%bool%nat then SeveralDots
  else if ((dots =? 0) && (1 <? commas))%bool%nat then SeveralCommas
  else Ambiguous.

(** The body of each branch. *)
Definition branch_body (b : separator_branch) (number_str : str) : res (option Q) :=
  match b with
  | PlainNumber => CurrencyParser.to_float number_str
  | SingleComma =>
      p1 <- index_at (split "," number_str) 1 ;;
      if (length p1 =? 2)%nat then
        CurrencyParser.to_float (replace "," (py ".") number_str)
      else if (length p1 =? 3)%nat then
        CurrencyParser.to_float (replace "," [] number_str)
      else
        CurrencyParser.to_float (replace "," (py ".") number_str)
  | SingleDot =>
      p1 <- index_at (split "." number_str) 1 ;;
      if (length p1 =? 2)%nat then CurrencyParser.to_float number_str
      else if (length p1 =? 3)%nat then
        CurrencyParser.to_float (replace "." [] number_str)
      else CurrencyParser.to_float number_str
  | MixedSeparators => CurrencyParser.mixed number_str
  | SeveralDots => CurrencyParser.to_float (replace "." [] number_str)
  | SeveralCommas => CurrencyParser.to_float (replace "," [] number_str)
  | Ambiguous => CurrencyParser.mixed number_str
  end.

(** ** app/ocr/ocr_engine.py: the class [OCRResult]

    A bounding box reaches [OCRResult.__init__] as a Python value.  The
    values modelled are [None], numbers, and lists and tuples of such
    values; a numpy array is given by the nested list that its [tolist()]
    returns.  (Strings, and arrays inside lists, are outside the model; a
    number is the rational it denotes.) *)

#[warnings="-register-all"] Inductive pyval : Type :=
| VNone
| VNum (q : Q)
| VList (l : list pyval)
| VTuple (l : list pyval).

Inductive bbox_arg : Type :=
| Plain (v : pyval)
| NdArray (tolist : pyval).

Definition zero_box : list (Q * Q) := [(0, 0); (0, 0); (0, 0); (0, 0)]%Q.

(** [bool(v)] *)
Definition truthy (v : pyval) : bool :=
  match v with
  | VNone => false
  | VNum q => negb (Qeq_bool q 0)
  | VList l | VTuple l => negb (Nat.eqb (length l) 0)
  end.

(** [float(v)] *)
Definition float_of (v : pyval) : res Q :=
  match v with
  | VNum q => Ok q
  | _ => Raise TypeError
  end.

(** [v[i]] *)
Definition item (v : pyval) (i : nat) : res pyval :=
  match v with
  | VList l | VTuple l => index_at l i
  | _ => Raise TypeError
  end.

(** [[float(p[0]), float(p[1])]] *)
Definition point_of (p : pyval) : res (Q * Q) :=
  p0 <- item p 0 ;; x <- float_of p0 ;;
  p1 <- item p 1 ;; y <- float_of p1 ;;
  Ok (x, y).

Fixpoint points_of (ps : list pyval) : res (list (Q * Q)) :=
  match ps with
  | [] => Ok []
  | p :: ps' => pt <- point_of p ;; pts <- points_of ps' ;; Ok (pt :: pts)
  end.

(** [[float(v) for v in l]] *)
Fixpoint floats_of (l : list pyval) : res (list Q) :=
  match l with
  | [] => Ok []
  | v :: l' => x <- float_of v ;; xs <- floats_of l' ;; Ok (x :: xs)
  end.

(** [isinstance(first, (list, tuple)) and len(first) >= 2] *)
Definition is_point (first : pyval) : bool :=
  match first with
  | VList f | VTuple f => (2 <=? length f)%nat
  | _ => false
  end.

(** The body of the [try] of [_normalize_bbox], after the conversion of an
    array. *)
Definition normalize (bbox : pyval) : res (list (Q * Q)) :=
  if negb (truthy bbox) then Ok zero_box else
  match bbox with
  | VList l =>
      if ((4 <=? length l)%nat
          && match l with first :: _ => is_point first | [] => false end)%bool
      then points_of (firstn 4 l)
      else if (8 <=? length l)%nat then
        b0 <- index_at l 0 ;; x0 <- float_of b0 ;;
        b1 <- index_at l 1 ;; y0 <- float_of b1 ;;
        b2 <- index_at l 2 ;; x1 <- float_of b2 ;;
        b3 <- index_at l 3 ;; y1 <- float_of b3 ;;
        b4 <- index_at l 4 ;; x2 <- float_of b4 ;;
        b5 <- index_at l 5 ;; y2 <- float_of b5 ;;
        b6 <- index_at l 6 ;; x3 <- float_of b6 ;;
        b7 <- index_at l 7 ;; y3 <- float_of b7 ;;
        Ok [(x0, y0); (x1, y1); (x2, y2); (x3, y3)]
      else if (length l =? 4)%nat then
        vs <- floats_of l ;;
        match vs with
        | [x1; y1; x2; y2] => Ok [(x1, y1); (x2, y1); (x2, y2); (x1, y2)]
        | _ => Raise ValueError
        end
      else Ok zero_box
  | _ => Ok zero_box
  end.

(** [_normalize_bbox]: any exception gives the zero box. *)
Definition _normalize_bbox (bbox : bbox_arg) : list (Q * Q) :=
  let bbox := match bbox with Plain v => v | NdArray tolist => tolist end in
  match normalize bbox with
  | Ok box => box
  | Raise _ => zero_box
  end.





(** A corner point as a list or as a tuple, with any further items. *)
Definition corner (as_tuple : bool) (x y : Q) (more : list pyval) : pyval :=
  if as_tuple then VTuple (VNum x :: VNum y :: more)
  else VList (VNum x :: VNum y :: more).

Definition all_numbers (l : list pyval) : Prop :=
  Forall (fun v => exists q, v = VNum q) l.

(** ** app/ocr/ocr_engine.py: the class [ReceiptOCR] *)

(** [result.line_index = i]: the same object with a new index. *)
Definition with_line_index (r : OCRResult) (i : Z) : OCRResult :=
  MkOCR (oid r) (text r) (confidence r) (bbox r) i.

Fixpoint enumerate_from {A : Type} (i : Z) (l : list A) : list (Z * A) :=
  match l with
  | [] => []
  | x :: l' => (i, x) :: enumerate_from (i + 1) l'
  end.

(** The end of [extract_text], once the detections are built from the
    engine's output: they are sorted by [center_y] and numbered. *)
Definition sort_and_number (ocr_results : list OCRResult) : list OCRResult :=
  let ocr_results := py_sort Qltb center_y false ocr_results in
  map (fun '(i, result) => with_line_index result i) (enumerate_from 0 ocr_results).

Definition newline : ascii := ascii_of_N 10.

(** [get_full_text] *)
Definition get_full_text (results : list OCRResult) : str :=
  let lines := ReceiptOCR.get_text_lines results ReceiptOCR.default_line_threshold in
  let text_lines := map (fun line => join (py " ") (map text line)) lines in
  join [newline] text_lines.

(** What [line_index] is not: the other attributes of a detection. *)
Definition unnumbered (r : OCRResult) : nat * str * Q * list (Q * Q) :=
  (oid r, text r, confidence r, bbox r).

Definition by_center_y (a b : OCRResult) : Prop := (center_y a <= center_y b)%Q.

(** A detection whose text is empty or whitespace. *)
Definition blank (r : OCRResult) : Prop := strip (text r) = [].

Definition first_text (result : OCRResult) : option str :=
  if is_empty (strip (text result)) then None else Some (strip (text result)).

(** A separator of the numeric date patterns: [/], [-] or [.]. *)
Definition is_date_sep (c : ascii) : Prop :=
  c = "/"%char \/ c = "-"%char \/ c = "."%char.

(** The text ends here, or goes on with a character that is no word
    character. *)
Definition word_ends (post : str) : Prop :=
  post = [] \/ exists x t, post = x :: t /\ is_word x = false.

(** The year of [_parse_date_match] for a year number [y]: a number below
    100 is moved to 2000-2049 or 1950-1999. *)
Definition full_year (y : Z) : Z :=
  if (y <? 100)%Z then (y + (if (y <? 50)%Z then 2000 else 1900))%Z else y.

(** [reports r d c]: the result [r] is the amount read from the detection
    [d], an amount of at least 100, with the confidence [c]. *)
Definition reports (r : total_result) (d : OCRResult) (c : Q) : Prop :=
  exists (raw : str) (v : Q),
    r = (Some raw, Some v, c) /\
    CurrencyParser.parse (Some (text d)) = Ok (Some v, raw) /\
    (100 <= v)%Q.

(** ** app/parsing/currency_parser.py: [extract_all_amounts]

    The pattern of [extract_all_amounts], compiled with [re.IGNORECASE], is
    an optional prefix, [[Rr][Pp]\.?\s*] or [[Ii][Dd][Rr]\s*], followed by
    group 1, which has two alternatives: [\d{1,3}], any number of rounds of
    [[.,]\d{3}] and an optional [[.,]\d{1,2}]; or [\d+] and an optional
    [[.,]\d{1,2}].

    It repeats a group, the rounds of [[.,]\d{3}], which the syntax trees of
    the other patterns do not need.  The pattern is therefore written with
    the continuations of the matcher: the pieces that are syntax trees are
    run by [rmatch], the repeated group by [thousands]. *)

(** The optional prefix. *)
Definition amount_prefix : regex :=
  ROpt (RAlt (seqs [RSet false [CChr "R"; CChr "r"]; RSet false [CChr "P"; CChr "p"];
                    ROpt (RChr "."); star false [CSpace]])
             (seqs [RSet false [CChr "I"; CChr "i"]; RSet false [CChr "D"; CChr "d"];
                    RSet false [CChr "R"; CChr "r"]; star false [CSpace]])).

(** The optional [[.,]\d{1,2}]. *)
Definition amount_decimals : regex :=
  ROpt (RSeq (RSet false [CChr "."; CChr ","]) (digits 1 (Some 2))).

(** The rounds of [[.,]\d{3}], greedy.  One round takes a separator and three
    digits, which it can do in one way only; the rounds are taken as long
    as the text has them, and given back one at a time while the rest of
    the pattern fails. *)
Fixpoint thousands {A : Type} (prev : option ascii) (s : str) (caps : captures)
         (k : kont A) {struct s} : option A :=
  match s with
  | x :: d1 :: d2 :: d3 :: s' =>
      if (in_set true false [CChr "."; CChr ","] x
          && in_set true false [CDigit] d1 && in_set true false [CDigit] d2
          && in_set true false [CDigit] d3)%bool
      then
        match thousands (Some d3) s' caps k with
        | Some a => Some a
        | None => k prev s caps
        end
      else k prev s caps
  | _ => k prev s caps
  end.

(** Group 1 at [s1], behind the prefix of a match that started at [s]: the
    two alternatives, the first one tried first.  The group ends the
    pattern, so what follows it builds the match object. *)
Definition amount_number (s : str) : kont match_obj :=
  fun p1 s1 c1 =>
    let finish : kont match_obj :=
      fun _ s' c' =>
        Some (MkMatch (firstn (length s - length s') s)
                      ((1%nat, firstn (length s1 - length s') s1) :: c') s') in
    match rmatch true (digits 1 (Some 3)) p1 s1 c1
            (fun p2 s2 c2 =>
               thousands p2 s2 c2
                 (fun p3 s3 c3 => rmatch true amount_decimals p3 s3 c3 finish))
    with
    | Some m => Some m
    | None => rmatch true (RSeq (digits 1 None) amount_decimals) p1 s1 c1 finish
    end.

(** A match of the pattern at the start of [s]. *)
Definition amount_at (prev : option ascii) (s : str) : option match_obj :=
  rmatch true amount_prefix prev s [] (amount_number s).

(** [pattern.finditer(text)]: the matches from left to right, each with its
    start; the scan goes on at the end of a match.  [skip] counts the
    characters of the current match that are still to be passed.  (The
    pattern needs a digit, so no match is empty.) *)
Fixpoint finditer (skip : nat) (prev : option ascii) (pos : nat) (s : str)
         {struct s} : list (nat * match_obj) :=
  match skip with
  | S n =>
      match s with
      | x :: s' => finditer n (Some x) (S pos) s'
      | [] => []
      end
  | O =>
      match amount_at prev s with
      | Some m =>
          (pos, m) :: match s with
                      | x :: s' => finditer (Nat.pred (length (m_group0 m))) (Some x) (S pos) s'
                      | [] => []
                      end
      | None =>
          match s with
          | x :: s' => finditer 0 (Some x) (S pos) s'
          | [] => []
          end
      end
  end.

(** The loop of [extract_all_amounts] over the matches. *)
Fixpoint amounts_of_matches (ms : list (nat * match_obj)) : res (list (str * Q * nat)) :=
  match ms with
  | [] => Ok []
  | (start_pos, m) :: rest =>
      let raw_string := m_group0 m in
      '(parsed_value, _) <- CurrencyParser.parse (Some raw_string) ;;
      results <- amounts_of_matches rest ;;
      match parsed_value with
      | Some v =>
          if Qltb 0 v then Ok ((raw_string, v, start_pos) :: results) else Ok results
      | None => Ok results
      end
  end.

(** [extract_all_amounts(text)]: the list of
    [(raw_string, parsed_value, start_position)]. *)
Definition extract_all_amounts (text : str) : res (list (str * Q * nat)) :=
  amounts_of_matches (finditer 0 None 0 text).

(** A text made of rounds of a separator and three digits. *)
Inductive grouped : str -> Prop :=
| grouped_nil : grouped []
| grouped_round x d1 d2 d3 w :
    x = "."%char \/ x = ","%char ->
    is_digit d1 = true -> is_digit d2 = true -> is_digit d3 = true ->
    grouped w -> grouped (x :: d1 :: d2 :: d3 :: w).

(** A separator and one or two digits, or nothing. *)
Definition decimal_part (w : str) : Prop :=
  w = [] \/
  exists x f, w = x :: f /\ (x = "."%char \/ x = ","%char) /\ all_digits f /\
              (1 <= length f <= 2)%nat.

(** The numbers of the first alternative of group 1. *)
Definition grouped_number (num : str) : Prop :=
  exists h g dec,
    num = h ++ g ++ dec /\ all_digits h /\ (1 <= length h <= 3)%nat /\
    grouped g /\ decimal_part dec.

(** The prefixes of the pattern: none, [Rp] or [IDR]. *)
Definition amount_prefix_of (pre : str) : Prop :=
  pre = [] \/
  (exists c1 c2 dot sp,
      pre = c1 :: c2 :: dot ++ sp /\ to_lower c1 = "r"%char /\ to_lower c2 = "p"%char /\
      (dot = [] \/ dot = ["."%char]) /\ all_spaces sp) \/
  (exists c1 c2 c3 sp,
      pre = c1 :: c2 :: c3 :: sp /\ to_lower c1 = "i"%char /\ to_lower c2 = "d"%char /\
      to_lower c3 = "r"%char /\ all_spaces sp).

(** [a] ends before [b] starts. *)
Definition match_before (a b : nat * match_obj) : Prop :=
  (fst a + length (m_group0 (snd a)) <= fst b)%nat.

Definition amount_before (a b : str * Q * nat) : Prop :=
  (snd a + length (fst (fst a)) <= snd b)%nat.

(** [pm] is a match of the amount pattern in [s], the text from position
    [pos] on: a prefix and a number, found at its start position. *)
Definition match_in (s : str) (pos : nat) (pm : nat * match_obj) : Prop :=
  (pos <= fst pm)%nat /\
  exists pre num after,
    skipn (fst pm - pos) s = pre ++ num ++ after /\
    snd pm = MkMatch (pre ++ num) [(1%nat, num)] after /\
    amount_prefix_of pre /\ grouped_number num.

(** [a] is an amount of [text]: a prefix and a number that stand at the
    position, with the positive value that [parse] reads from them. *)
Definition amount_in (text : str) (a : str * Q * nat) : Prop :=
  let '(raw, v, pos) := a in
  exists pre num after,
    skipn pos text = pre ++ num ++ after /\ raw = pre ++ num /\
    amount_prefix_of pre /\ grouped_number num /\
    (0 < v)%Q /\ CurrencyParser.parse (Some raw) = Ok (Some v, raw).


(** No more than three digits in a row: [k] counts the digits just passed. *)
Fixpoint digit_runs_le3 (k : nat) (s : str) : bool :=
  match s with
  | [] => true
  | x :: t => if is_digit x then ((k <? 3)%nat && digit_runs_le3 (S k) t)%bool
              else digit_runs_le3 0 t
  end.

(** The keys of [MONTH_MAP] that have three letters, with their months. *)
Definition three_letter_months : list (str * Z) :=
  map (fun kv => (py (fst kv), snd kv))
      (filter (fun kv => Nat.eqb (String.length (fst kv)) 3) ExtractionConfig.MONTH_MAP).

(** No separator of a numeric date stands between two digits. *)
Fixpoint no_digit_sep_digit (s : str) : bool :=
  match s with
  | d1 :: t =>
      (negb (is_digit d1
             && match t with
                | x :: d2 :: _ =>
                    (Ascii.eqb x "/" || Ascii.eqb x "-" || Ascii.eqb x ".") && is_digit d2
                | _ => false
                end)
       && no_digit_sep_digit t)%bool
  | [] => true
  end.

(** * Properties *)

Unset Implicit Arguments.

(** ** Comparisons on [Q] *)

Lemma Qleb_true (a b : Q) : Qleb a b = true <-> (a <= b)%Q.
Proof. unfold Qleb. apply Qle_bool_iff. Qed.

Lemma Qleb_false (a b : Q) : Qleb a b = false <-> (b < a)%Q.
Proof.
  unfold Qleb. split; intro H.
  - apply Qnot_le_lt. intro Hle. apply Qle_bool_iff in Hle. congruence.
  - destruct (Qle_bool a b) eqn:E; [|reflexivity].
    apply Qle_bool_iff in E. exfalso. exact (Qlt_not_le _ _ H E).
Qed.

Lemma Qltb_true (a b : Q) : Qltb a b = true <-> (a < b)%Q.
Proof.
  unfold Qltb. rewrite negb_true_iff. apply (Qleb_false b a).
Qed.

Lemma Qltb_false (a b : Q) : Qltb a b = false <-> (b <= a)%Q.
Proof.
  unfold Qltb. rewrite negb_false_iff. apply (Qleb_true b a).
Qed.

(** ** Binary64 rounding *)

Section Binary64Facts.

Import Binary64.

(** *** Powers of two *)

Lemma two_neq_0 : ~ (2 == 0)%Q.
Proof. discriminate. Qed.

Lemma pow2_pos (e : Z) : (0 < pow2 e)%Q.
Proof. apply Qpower_0_lt. reflexivity. Qed.

Lemma pow2_plus (a b : Z) : (pow2 (a + b) == pow2 a * pow2 b)%Q.
Proof. apply Qpower_plus. exact two_neq_0. Qed.

Lemma pow2_le (a b : Z) : (a <= b)%Z -> (pow2 a <= pow2 b)%Q.
Proof. intros H. apply Qpower_le_compat_l; [exact H | discriminate]. Qed.

Lemma pow2_lt (a b : Z) : (a < b)%Z -> (pow2 a < pow2 b)%Q.
Proof. intros H. apply Qpower_lt_compat_l; [exact H | reflexivity]. Qed.

Lemma pow2_Z (n : Z) : (0 <= n)%Z -> (pow2 n == inject_Z (2 ^ n))%Q.
Proof. intros H. unfold pow2. rewrite Zpower_Qpower by exact H. reflexivity. Qed.

Lemma pow2_div (x : Q) (a b : Z) : (x * pow2 a / pow2 b == x * pow2 (a - b))%Q.
Proof.
  unfold Z.sub. rewrite pow2_plus. unfold pow2 at 4. rewrite Qpower_opp.
  fold (pow2 b). field. pose proof (pow2_pos b). lra.
Qed.

Lemma pow2_inv (a : Z) : (pow2 a * pow2 (- a) == 1)%Q.
Proof. rewrite <- pow2_plus, Z.add_opp_diag_r. reflexivity. Qed.


Lemma pow2_succ (e : Z) : (pow2 (e + 1) == 2 * pow2 e)%Q.
Proof. rewrite pow2_plus. change (pow2 1) with 2%Q. ring. Qed.

(** *** The binary logarithm *)

Lemma Q_as_fraction (x : Q) : (x * inject_Z (Zpos (Qden x)) == inject_Z (Qnum x))%Q.
Proof.
  destruct x as [n d]. unfold Qeq, Qmult, inject_Z. cbn [Qnum Qden]. 
  rewrite !Z.mul_1_r, Pos.mul_1_r. reflexivity.
Qed.

Lemma ilog2_spec (x : Q) :
  (0 < x)%Q -> (pow2 (ilog2 x) <= x < pow2 (ilog2 x + 1))%Q.
Proof.
  intros Hx.
  pose proof (Q_as_fraction x) as F.
  set (n := Qnum x) in *. set (d := Zpos (Qden x)) in *.
  assert (Hn : (0 < n)%Z).
  { destruct x as [xn xd]. unfold Qlt in Hx. cbn in Hx. subst n. cbn. lia. }
  assert (Hd : (0 < d)%Z) by (subst d; lia).
  pose proof (Z.log2_spec n Hn) as [Ln Un].
  pose proof (Z.log2_spec d Hd) as [Ld Ud].
  pose proof (Z.log2_nonneg n) as Nn. pose proof (Z.log2_nonneg d) as Nd.
  set (a := Z.log2 n) in *. set (b := Z.log2 d) in *.
  assert (Qd : (0 < inject_Z d)%Q).
  { change 0%Q with (inject_Z 0). rewrite <- Zlt_Qlt. exact Hd. }
  assert (Lnq : (pow2 a <= inject_Z n)%Q).
  { rewrite pow2_Z by exact Nn. rewrite <- Zle_Qle. exact Ln. }
  assert (Unq : (inject_Z n < pow2 (a + 1))%Q).
  { rewrite pow2_Z by lia. rewrite <- Zlt_Qlt. rewrite Z.add_1_r. exact Un. }
  assert (Ldq : (pow2 b <= inject_Z d)%Q).
  { rewrite pow2_Z by exact Nd. rewrite <- Zle_Qle. exact Ld. }
  assert (Udq : (inject_Z d < pow2 (b + 1))%Q).
  { rewrite pow2_Z by lia. rewrite <- Zlt_Qlt. rewrite Z.add_1_r. exact Ud. }
  assert (Up : (x < pow2 (a - b + 1))%Q).
  { apply (Qmult_lt_r _ _ (inject_Z d) Qd). rewrite F.
    eapply Qlt_le_trans; [exact Unq|].
    replace (a + 1)%Z with ((a - b + 1) + b)%Z by lia. rewrite pow2_plus.
    apply Qmult_le_l; [apply pow2_pos | exact Ldq]. }
  assert (Lo : (pow2 (a - b - 1) < x)%Q).
  { apply (Qmult_lt_r _ _ (inject_Z d) Qd). rewrite F.
    eapply Qlt_le_trans; [|exact Lnq].
    replace a with ((a - b - 1) + (b + 1))%Z at 2 by lia. rewrite pow2_plus.
    apply Qmult_lt_l; [apply pow2_pos | exact Udq]. }
  unfold ilog2. fold n d a b.
  destruct (Qle_bool (pow2 (a - b)) x) eqn:E.
  - apply Qle_bool_iff in E. split; assumption.
  - assert (E' : (x < pow2 (a - b))%Q).
    { apply Qnot_le_lt. intro H. apply Qle_bool_iff in H. congruence. }
    replace (a - b - 1 + 1)%Z with (a - b)%Z by lia.
    split; [apply Qlt_le_weak; exact Lo | exact E'].
Qed.

Lemma ilog2_unique (x : Q) (e : Z) :
  (pow2 e <= x < pow2 (e + 1))%Q -> ilog2 x = e.
Proof.
  intros [L U].
  assert (Hx : (0 < x)%Q) by (pose proof (pow2_pos e); lra).
  destruct (ilog2_spec x Hx) as [L' U'].
  destruct (Z.lt_trichotomy (ilog2 x) e) as [H | [H | H]]; [|exact H|].
  - assert (pow2 (ilog2 x + 1) <= pow2 e)%Q by (apply pow2_le; lia). lra.
  - assert (pow2 (e + 1) <= pow2 (ilog2 x))%Q by (apply pow2_le; lia). lra.
Qed.

Lemma ilog2_comp (x y : Q) : (0 < x)%Q -> (x == y)%Q -> ilog2 x = ilog2 y.
Proof.
  intros Hx E. symmetry. apply ilog2_unique. rewrite <- E. apply ilog2_spec. exact Hx.
Qed.

Lemma ilog2_le (x y : Q) : (0 < x)%Q -> (x <= y)%Q -> (ilog2 x <= ilog2 y)%Z.
Proof.
  intros Hx Hxy.
  destruct (ilog2_spec x Hx) as [L _].
  destruct (ilog2_spec y) as [_ U]; [lra|].
  destruct (Z_le_gt_dec (ilog2 x) (ilog2 y)) as [H | H]; [exact H|].
  assert (pow2 (ilog2 y + 1) <= pow2 (ilog2 x))%Q by (apply pow2_le; lia). lra.
Qed.

(** *** Rounding to the nearest integer, halves to even *)

Lemma inject_Z_minus (a b : Z) : (inject_Z (a - b) == inject_Z a - inject_Z b)%Q.
Proof. unfold Z.sub. rewrite inject_Z_plus, inject_Z_opp. reflexivity. Qed.

Lemma Qle_bool_false (a b : Q) : Qle_bool a b = false <-> (b < a)%Q.
Proof.
  split.
  - intros H. apply Qnot_le_lt. intro L. apply Qle_bool_iff in L. congruence.
  - intros H. destruct (Qle_bool a b) eqn:E; [|reflexivity].
    apply Qle_bool_iff in E. lra.
Qed.

Lemma nearest_even_cases (q : Q) :
  let f := Qfloor q in
  let d := (q - inject_Z f)%Q in
  (nearest_even q = f /\ (d < 1 # 2)%Q) \/
  (nearest_even q = (f + 1)%Z /\ (1 # 2 < d)%Q) \/
  ((d == 1 # 2)%Q /\ nearest_even q = (if Z.even f then f else f + 1)%Z).
Proof.
  intros f d. unfold nearest_even. fold f. fold d.
  destruct (Qle_bool (1 # 2) d) eqn:E1; cbn [negb].
  - apply Qle_bool_iff in E1.
    destruct (Qle_bool d (1 # 2)) eqn:E2; cbn [negb].
    + apply Qle_bool_iff in E2. right. right. split; [lra | reflexivity].
    + apply Qle_bool_false in E2. right. left. split; [reflexivity | exact E2].
  - apply Qle_bool_false in E1. left. split; [reflexivity | exact E1].
Qed.

Lemma floor_bounds (q : Q) : (inject_Z (Qfloor q) <= q < inject_Z (Qfloor q) + 1)%Q.
Proof.
  pose proof (Qfloor_le q) as L. pose proof (Qlt_floor q) as U.
  rewrite inject_Z_plus in U. change (inject_Z 1) with 1%Q in U. split; assumption.
Qed.

Lemma nearest_even_near (q : Q) :
  (inject_Z (nearest_even q) - (1 # 2) <= q <= inject_Z (nearest_even q) + (1 # 2))%Q.
Proof.
  pose proof (floor_bounds q) as B.
  destruct (nearest_even_cases q) as [[-> H] | [[-> H] | [H ->]]].
  - lra.
  - rewrite inject_Z_plus. change (inject_Z 1) with 1%Q. lra.
  - destruct (Z.even (Qfloor q)); [lra|].
    rewrite inject_Z_plus. change (inject_Z 1) with 1%Q. lra.
Qed.

Lemma nearest_even_tie (q : Q) :
  (q == inject_Z (nearest_even q) - (1 # 2)
   \/ q == inject_Z (nearest_even q) + (1 # 2))%Q ->
  Z.even (nearest_even q) = true.
Proof.
  pose proof (floor_bounds q) as B.
  destruct (nearest_even_cases q) as [[-> H] | [[-> H] | [H ->]]].
  - intros [E | E]; lra.
  - rewrite inject_Z_plus. change (inject_Z 1) with 1%Q. intros [E | E]; lra.
  - intros _. destruct (Z.even (Qfloor q)) eqn:Ev; [exact Ev|].
    rewrite Z.even_add, Ev. reflexivity.
Qed.

(** The nearest integer is the only one at distance at most 1/2 that is
    even when the distance is 1/2. *)
Lemma nearest_even_unique (q : Q) (n : Z) :
  (inject_Z n - (1 # 2) <= q <= inject_Z n + (1 # 2))%Q ->
  ((q == inject_Z n - (1 # 2) \/ q == inject_Z n + (1 # 2))%Q -> Z.even n = true) ->
  nearest_even q = n.
Proof.
  intros Hn Tn.
  pose proof (nearest_even_near q) as Hm. pose proof (nearest_even_tie q) as Tm.
  set (m := nearest_even q) in *.
  assert (D : (inject_Z m - inject_Z n <= 1 /\ inject_Z n - inject_Z m <= 1)%Q) by lra.
  destruct D as [D1 D2].
  rewrite <- inject_Z_minus in D1, D2. change 1%Q with (inject_Z 1) in D1, D2.
  rewrite <- Zle_Qle in D1, D2.
  destruct (Z.eq_dec m n) as [E | NE]; [exact E | exfalso].
  assert (C : m = (n + 1)%Z \/ n = (m + 1)%Z) by lia.
  destruct C as [C | C].
  - assert (Eq1 : (q == inject_Z m - (1 # 2))%Q).
    { rewrite C, inject_Z_plus in *. change (inject_Z 1) with 1%Q in *. lra. }
    assert (Eq2 : (q == inject_Z n + (1 # 2))%Q).
    { rewrite C, inject_Z_plus in *. change (inject_Z 1) with 1%Q in *. lra. }
    specialize (Tm (or_introl Eq1)). specialize (Tn (or_intror Eq2)).
    rewrite C, Z.even_add, Tn in Tm. discriminate.
  - assert (Eq1 : (q == inject_Z m + (1 # 2))%Q).
    { rewrite C, inject_Z_plus in *. change (inject_Z 1) with 1%Q in *. lra. }
    assert (Eq2 : (q == inject_Z n - (1 # 2))%Q).
    { rewrite C, inject_Z_plus in *. change (inject_Z 1) with 1%Q in *. lra. }
    specialize (Tm (or_intror Eq1)). specialize (Tn (or_introl Eq2)).
    rewrite C, Z.even_add, Tm in Tn. discriminate.
Qed.

Lemma nearest_even_comp (p q : Q) : (p == q)%Q -> nearest_even p = nearest_even q.
Proof.
  intros E. apply nearest_even_unique.
  - rewrite E. apply nearest_even_near.
  - rewrite E. apply nearest_even_tie.
Qed.

Lemma nearest_even_Z (n : Z) : nearest_even (inject_Z n) = n.
Proof.
  apply nearest_even_unique; [lra|]. intros [E | E]; lra.
Qed.

Lemma nearest_even_opp (q : Q) : nearest_even (- q) = (- nearest_even q)%Z.
Proof.
  pose proof (nearest_even_near q) as H. pose proof (nearest_even_tie q) as T.
  apply nearest_even_unique.
  - rewrite inject_Z_opp. lra.
  - rewrite inject_Z_opp, Z.even_opp. intros [E | E]; apply T; [right | left]; lra.
Qed.

Lemma nearest_even_le (p q : Q) : (p <= q)%Q -> (nearest_even p <= nearest_even q)%Z.
Proof.
  intros Hpq.
  pose proof (nearest_even_near p) as Hp. pose proof (nearest_even_tie p) as Tp.
  pose proof (nearest_even_near q) as Hq. pose proof (nearest_even_tie q) as Tq.
  set (m := nearest_even p) in *. set (n := nearest_even q) in *.
  assert (D : (inject_Z m - inject_Z n <= 1)%Q) by lra.
  rewrite <- inject_Z_minus in D. change 1%Q with (inject_Z 1) in D.
  rewrite <- Zle_Qle in D.
  destruct (Z_le_gt_dec m n) as [H | H]; [exact H | exfalso].
  assert (C : m = (n + 1)%Z) by lia.
  assert (Eq1 : (p == inject_Z m - (1 # 2))%Q).
  { rewrite C, inject_Z_plus in *. change (inject_Z 1) with 1%Q in *. lra. }
  assert (Eq2 : (q == inject_Z n + (1 # 2))%Q).
  { rewrite C, inject_Z_plus in *. change (inject_Z 1) with 1%Q in *. lra. }
  specialize (Tp (or_introl Eq1)). specialize (Tq (or_intror Eq2)).
  rewrite C, Z.even_add, Tq in Tp. discriminate.
Qed.

Lemma nearest_even_upper (q : Q) (n : Z) : (q <= inject_Z n)%Q -> (nearest_even q <= n)%Z.
Proof.
  intros H. rewrite <- (nearest_even_Z n). apply nearest_even_le. exact H.
Qed.

Lemma nearest_even_lower (q : Q) (n : Z) : (inject_Z n <= q)%Q -> (n <= nearest_even q)%Z.
Proof.
  intros H. rewrite <- (nearest_even_Z n) at 1. apply nearest_even_le. exact H.
Qed.

(** *** Rounding to binary64 *)

Lemma b64_eq (x : Q) :
  (b64 x == inject_Z (nearest_even (x / pow2 (quantum x))) * pow2 (quantum x))%Q.
Proof. unfold b64. apply Qred_correct. Qed.

Lemma Qabs_pos_lt (x : Q) : ~ (x == 0)%Q -> (0 < Qabs x)%Q.
Proof.
  intros H. pose proof (Qabs_nonneg x) as N.
  destruct (Qlt_le_dec 0 (Qabs x)) as [L | L]; [exact L | exfalso].
  apply H. apply Qabs_Qle_condition in L. lra.
Qed.

Lemma quantum_comp (x y : Q) : ~ (x == 0)%Q -> (x == y)%Q -> quantum x = quantum y.
Proof.
  intros H E. unfold quantum, exponent.
  rewrite (ilog2_comp (Qabs x) (Qabs y)); [reflexivity | apply Qabs_pos_lt; exact H |].
  rewrite E. reflexivity.
Qed.

Lemma b64_zero (x : Q) : (x == 0)%Q -> b64 x = 0%Q.
Proof.
  intros E. unfold b64. change 0%Q with (Qred 0). apply Qred_complete.
  rewrite (nearest_even_comp (x / pow2 (quantum x)) (inject_Z 0)).
  - rewrite nearest_even_Z. change (inject_Z 0) with 0%Q. ring.
  - set (p := pow2 (quantum x)). clearbody p. rewrite E.
    change (inject_Z 0) with 0%Q. unfold Qdiv. ring.
Qed.

Lemma b64_comp (x y : Q) : (x == y)%Q -> b64 x = b64 y.
Proof.
  intros E. destruct (Qeq_dec x 0) as [Z | NZ].
  - rewrite (b64_zero x Z), (b64_zero y); [reflexivity | rewrite <- E; exact Z].
  - unfold b64. rewrite <- (quantum_comp x y NZ E). apply Qred_complete.
    rewrite (nearest_even_comp (x / pow2 (quantum x)) (y / pow2 (quantum x))).
    + reflexivity.
    + set (p := pow2 (quantum x)). clearbody p. rewrite E. reflexivity.
Qed.

Lemma quantum_opp (x : Q) : ~ (x == 0)%Q -> quantum (- x) = quantum x.
Proof.
  intros H. unfold quantum, exponent.
  rewrite (ilog2_comp (Qabs (- x)) (Qabs x)); [reflexivity | | apply Qabs_opp].
  apply Qabs_pos_lt. intro E. apply H. lra.
Qed.

Lemma b64_opp (x : Q) : b64 (- x) = (- b64 x)%Q.
Proof.
  destruct (Qeq_dec x 0) as [Z | NZ].
  - rewrite (b64_zero x Z), (b64_zero (- x)); [reflexivity | lra].
  - unfold b64. rewrite (quantum_opp x NZ), <- Qred_opp. apply Qred_complete.
    rewrite (nearest_even_comp (- x / pow2 (quantum x)) (- (x / pow2 (quantum x)))).
    + rewrite nearest_even_opp, inject_Z_opp. ring.
    + unfold Qdiv. ring.
Qed.

Lemma b64_nonneg (x : Q) : (0 <= x)%Q -> (0 <= b64 x)%Q.
Proof.
  intros H. rewrite b64_eq.
  pose proof (pow2_pos (quantum x)) as P.
  apply Qmult_le_0_compat; [|lra].
  change 0%Q with (inject_Z 0). rewrite <- Zle_Qle.
  apply nearest_even_lower. change (inject_Z 0) with 0%Q.
  apply Qle_shift_div_l; [exact P | lra].
Qed.

Lemma b64_nonpos (x : Q) : (x <= 0)%Q -> (b64 x <= 0)%Q.
Proof.
  intros H. assert (N : (0 <= b64 (- x))%Q) by (apply b64_nonneg; lra).
  rewrite b64_opp in N. lra.
Qed.

Lemma b64_abs (x : Q) : (Qabs (b64 x) == b64 (Qabs x))%Q.
Proof.
  destruct (Qlt_le_dec x 0) as [N | P].
  - rewrite (b64_comp (Qabs x) (- x)) by (apply Qabs_neg; lra).
    rewrite b64_opp. apply Qabs_neg. apply b64_nonpos. lra.
  - rewrite (b64_comp (Qabs x) x) by (apply Qabs_pos; exact P).
    apply Qabs_pos. apply b64_nonneg. exact P.
Qed.

Lemma quantum_exponent (x : Q) : quantum x = (exponent x - 52)%Z.
Proof. reflexivity. Qed.

Lemma scaled_lt (x : Q) :
  (0 < x)%Q -> (x / pow2 (quantum x) < inject_Z (2 ^ 53))%Q.
Proof.
  intros Hx. pose proof (pow2_pos (quantum x)) as P.
  apply Qlt_shift_div_r; [exact P|].
  rewrite <- (pow2_Z 53) by lia. rewrite <- pow2_plus.
  destruct (ilog2_spec x Hx) as [_ U].
  eapply Qlt_le_trans; [exact U|]. apply pow2_le.
  unfold quantum, exponent. rewrite (ilog2_comp (Qabs x) x); [lia | apply Qabs_pos_lt; lra |].
  apply Qabs_pos. lra.
Qed.

Lemma b64_upper (x : Q) : (0 < x)%Q -> (b64 x <= pow2 (exponent x + 1))%Q.
Proof.
  intros Hx. rewrite b64_eq. pose proof (pow2_pos (quantum x)) as P.
  replace (exponent x + 1)%Z with (53 + quantum x)%Z by (rewrite quantum_exponent; lia).
  rewrite pow2_plus. apply Qmult_le_r; [exact P|].
  rewrite (pow2_Z 53) by lia. rewrite <- Zle_Qle.
  apply nearest_even_upper. apply Qlt_le_weak. apply scaled_lt. exact Hx.
Qed.

Lemma b64_lower (x : Q) :
  (0 < x)%Q -> (-1022 <= ilog2 x)%Z -> (pow2 (ilog2 x) <= b64 x)%Q.
Proof.
  intros Hx Hn. rewrite b64_eq. pose proof (pow2_pos (quantum x)) as P.
  assert (E : ilog2 (Qabs x) = ilog2 x).
  { apply ilog2_comp; [apply Qabs_pos_lt; lra | apply Qabs_pos; lra]. }
  assert (Q : quantum x = (ilog2 x - 52)%Z) by (unfold quantum, exponent; rewrite E; lia).
  replace (ilog2 x) with (52 + quantum x)%Z at 1 by lia.
  rewrite pow2_plus. apply Qmult_le_r; [exact P|].
  rewrite (pow2_Z 52) by lia. rewrite <- Zle_Qle.
  apply nearest_even_lower. apply Qle_shift_div_l; [exact P|].
  rewrite <- (pow2_Z 52) by lia. rewrite <- pow2_plus.
  replace (52 + quantum x)%Z with (ilog2 x) by lia.
  apply ilog2_spec. exact Hx.
Qed.

Lemma exponent_pos (x : Q) : (0 < x)%Q -> exponent x = Z.max (ilog2 x) (-1022).
Proof.
  intros Hx. unfold exponent. f_equal.
  apply ilog2_comp; [apply Qabs_pos_lt; lra | apply Qabs_pos; lra].
Qed.

Lemma b64_le_pos (x y : Q) : (0 < x)%Q -> (x <= y)%Q -> (b64 x <= b64 y)%Q.
Proof.
  intros Hx Hxy. assert (Hy : (0 < y)%Q) by lra.
  pose proof (ilog2_le x y Hx Hxy) as L.
  pose proof (exponent_pos x Hx) as Ex. pose proof (exponent_pos y Hy) as Ey.
  destruct (Z.eq_dec (exponent x) (exponent y)) as [E | NE].
  - rewrite (b64_eq x), (b64_eq y), !quantum_exponent, E.
    pose proof (pow2_pos (exponent y - 52)) as P.
    apply Qmult_le_r; [exact P|]. rewrite <- Zle_Qle. apply nearest_even_le.
    apply Qmult_le_r; [apply Qinv_lt_0_compat; exact P | exact Hxy].
  - assert (S : (exponent x + 1 <= ilog2 y)%Z) by lia.
    eapply Qle_trans; [apply b64_upper; exact Hx|].
    eapply Qle_trans; [apply pow2_le; exact S|].
    apply b64_lower; [exact Hy | lia].
Qed.

(** Rounding is monotone. *)
Lemma b64_le (x y : Q) : (x <= y)%Q -> (b64 x <= b64 y)%Q.
Proof.
  intros Hxy.
  destruct (Qlt_le_dec 0 x) as [Px | Nx].
  - apply b64_le_pos; assumption.
  - destruct (Qlt_le_dec y 0) as [Ny | Py].
    + assert (H : (b64 (- y) <= b64 (- x))%Q) by (apply b64_le_pos; lra).
      rewrite !b64_opp in H. lra.
    + pose proof (b64_nonpos x Nx). pose proof (b64_nonneg y Py). lra.
Qed.

(** The distance to the rounded value is at most half the quantum. *)
Lemma b64_error (x : Q) : (Qabs (b64 x - x) <= pow2 (quantum x) / 2)%Q.
Proof.
  pose proof (pow2_pos (quantum x)) as P.
  pose proof (nearest_even_near (x / pow2 (quantum x))) as N.
  assert (E : (x == x / pow2 (quantum x) * pow2 (quantum x))%Q) by (field; lra).
  apply Qabs_Qle_condition. rewrite b64_eq.
  set (p := pow2 (quantum x)) in *.
  set (s := (x / p)%Q) in *.
  set (n := inject_Z (nearest_even s)) in *.
  clearbody n s p.
  split.
  - rewrite E. setoid_replace (n * p - s * p)%Q with ((n - s) * p)%Q by ring.
    setoid_replace (- (p / 2))%Q with ((- (1 # 2)) * p)%Q by field.
    apply Qmult_le_r; [exact P | lra].
  - rewrite E. setoid_replace (n * p - s * p)%Q with ((n - s) * p)%Q by ring.
    setoid_replace (p / 2)%Q with ((1 # 2) * p)%Q by field.
    apply Qmult_le_r; [exact P | lra].
Qed.

(** In the normal range the relative error is at most 2^-53. *)
Lemma b64_relative_error (x : Q) :
  (pow2 (-1022) <= Qabs x)%Q -> (Qabs (b64 x - x) <= Qabs x * pow2 (-53))%Q.
Proof.
  intros H. eapply Qle_trans; [apply b64_error|].
  assert (Hx : (0 < Qabs x)%Q) by (pose proof (pow2_pos (-1022)); lra).
  assert (L : (-1022 <= ilog2 (Qabs x))%Z).
  { rewrite <- (ilog2_unique (pow2 (-1022)) (-1022)).
    - apply ilog2_le; [apply pow2_pos | exact H].
    - split; [lra | apply pow2_lt; lia]. }
  destruct (ilog2_spec (Qabs x) Hx) as [Lo _].
  unfold quantum, exponent. rewrite Z.max_l by exact L.
  replace (ilog2 (Qabs x) - 52)%Z with ((ilog2 (Qabs x) + -53) + 1)%Z by lia.
  rewrite pow2_succ, pow2_plus.
  pose proof (pow2_pos (-53)) as P.
  setoid_replace (2 * (pow2 (ilog2 (Qabs x)) * pow2 (-53)) / 2)%Q
    with (pow2 (ilog2 (Qabs x)) * pow2 (-53))%Q by field.
  apply Qmult_le_r; [exact P | exact Lo].
Qed.

(** Numbers [m * 2^e] with [|m| < 2^53] and [e >= -1074] are binary64
    numbers: rounding leaves them as they are. *)
Lemma b64_exact (m e : Z) :
  (Z.abs m < 2 ^ 53)%Z -> (-1074 <= e)%Z ->
  (b64 (inject_Z m * pow2 e) == inject_Z m * pow2 e)%Q.
Proof.
  intros Hm He. set (x := (inject_Z m * pow2 e)%Q).
  pose proof (pow2_pos e) as Pe.
  destruct (Z.eq_dec m 0) as [-> | NZ].
  { rewrite (b64_zero x); [|subst x; change (inject_Z 0) with 0%Q; ring].
    subst x. change (inject_Z 0) with 0%Q. ring. }
  assert (A : (Qabs x == inject_Z (Z.abs m) * pow2 e)%Q).
  { subst x. rewrite Qabs_Qmult, (Qabs_pos (pow2 e)) by lra.
    apply Qmult_comp; [|reflexivity].
    unfold inject_Z. rewrite <- Zabs_Qabs. reflexivity. }
  assert (Hx : (0 < Qabs x)%Q).
  { rewrite A. apply Qmult_lt_0_compat; [|exact Pe].
    change 0%Q with (inject_Z 0). rewrite <- Zlt_Qlt. lia. }
  assert (U : (Qabs x < pow2 (53 + e))%Q).
  { rewrite A, pow2_plus. apply Qmult_lt_r; [exact Pe|].
    rewrite (pow2_Z 53) by lia. rewrite <- Zlt_Qlt. exact Hm. }
  assert (L : (ilog2 (Qabs x) < 53 + e)%Z).
  { destruct (ilog2_spec (Qabs x) Hx) as [Lo _].
    destruct (Z_lt_ge_dec (ilog2 (Qabs x)) (53 + e)) as [H | H]; [exact H | exfalso].
    assert (pow2 (53 + e) <= pow2 (ilog2 (Qabs x)))%Q by (apply pow2_le; lia). lra. }
  assert (Hq : (quantum x <= e)%Z) by (unfold quantum, exponent; lia).
  pose proof (pow2_pos (quantum x)) as Pq.
  rewrite b64_eq.
  rewrite (nearest_even_comp (x / pow2 (quantum x))
             (inject_Z (m * 2 ^ (e - quantum x)))).
  - rewrite nearest_even_Z, inject_Z_mult, <- (pow2_Z (e - quantum x)) by lia.
    rewrite <- Qmult_assoc, <- pow2_plus.
    replace (e - quantum x + quantum x)%Z with e by lia. reflexivity.
  - rewrite inject_Z_mult, <- (pow2_Z (e - quantum x)) by lia.
    subst x. apply pow2_div.
Qed.

Lemma Qred_inject (n : Z) : Qred (inject_Z n) = inject_Z n.
Proof.
  unfold Qred, inject_Z. destruct (Z.ggcd n 1) as [g [a b]] eqn:G.
  pose proof (Z.ggcd_correct_divisors n 1) as D. rewrite G in D.
  pose proof (Z.ggcd_gcd n 1) as C. rewrite G in C. cbn [fst] in C.
  rewrite Z.gcd_1_r in C. subst g. destruct D as [D1 D2].
  rewrite Z.mul_1_l in D1, D2. subst. reflexivity.
Qed.

(** Integers up to 2^53 in magnitude are binary64 numbers. *)
Lemma b64_integer (n : Z) : (Z.abs n <= 2 ^ 53)%Z -> b64 (inject_Z n) = inject_Z n.
Proof.
  intros Hn. rewrite <- (Qred_inject n) at 2.
  unfold b64 at 1. apply Qred_complete. rewrite <- b64_eq.
  destruct (Z_lt_ge_dec (Z.abs n) (2 ^ 53)) as [S | B].
  - rewrite (b64_comp (inject_Z n) (inject_Z n * pow2 0)).
    + rewrite b64_exact by lia. change (pow2 0) with 1%Q. ring.
    + change (pow2 0) with 1%Q. ring.
  - remember (Z.sgn n * 2 ^ 52)%Z as k eqn:K.
    assert (E : n = (k * 2)%Z) by lia.
    assert (Hk : (Z.abs k < 2 ^ 53)%Z) by lia.
    clear K Hn B. subst n.
    rewrite (b64_comp (inject_Z (k * 2)) (inject_Z k * pow2 1)).
    + rewrite b64_exact by lia. rewrite inject_Z_mult. reflexivity.
    + rewrite inject_Z_mult. reflexivity.
Qed.

(** A bound that is itself a binary64 number is kept by rounding. *)
Lemma b64_le_exact (x y : Q) : b64 y = y -> (x <= y)%Q -> (b64 x <= y)%Q.
Proof. intros E H. rewrite <- E. apply b64_le. exact H. Qed.

Lemma b64_ge_exact (x y : Q) : b64 y = y -> (y <= x)%Q -> (y <= b64 x)%Q.
Proof. intros E H. rewrite <- E. apply b64_le. exact H. Qed.

(** Between 16 and 32 the binary64 numbers are the multiples of 2^-48; the
    numbers that round to at most 20 are those up to the midpoint between 20
    and its successor, the midpoint included since 20 is the even
    neighbour. *)
Lemma b64_le_20 (x : Q) : (b64 x <= 20 <-> x <= 20 + (1 # 2 ^ 49))%Q.
Proof.
  change (1 # 2 ^ 49)%Q with (1 # 562949953421312)%Q.
  split.
  - intros H. apply Qnot_lt_le. intros F.
    destruct (Qlt_le_dec x 32) as [S | B].
    + assert (E : ilog2 (Qabs x) = 4%Z).
      { apply ilog2_unique. rewrite (Qabs_pos x) by lra.
        change (pow2 4) with 16%Q. change (pow2 (4 + 1)) with 32%Q. lra. }
      assert (Q : quantum x = (-48)%Z) by (unfold quantum, exponent; rewrite E; reflexivity).
      rewrite b64_eq, Q in H.
      pose proof (nearest_even_near (x / pow2 (-48))) as [_ N].
      set (n := nearest_even (x / pow2 (-48))) in *.
      assert (X : (x / pow2 (-48) == x * 281474976710656)%Q).
      { change (pow2 (-48)) with (1 # 281474976710656)%Q. field. }
      rewrite X in N.
      assert (Hn : (inject_Z 5629499534213120 < inject_Z n)%Q).
      { change (inject_Z 5629499534213120) with 5629499534213120%Q. lra. }
      rewrite <- Zlt_Qlt in Hn.
      assert (Hn' : (inject_Z 5629499534213121 <= inject_Z n)%Q) by (rewrite <- Zle_Qle; lia).
      change (pow2 (-48)) with (1 # 281474976710656)%Q in H.
      change (inject_Z 5629499534213121) with 5629499534213121%Q in Hn'. lra.
    + assert (H32 : (32 <= b64 x)%Q) by (apply b64_ge_exact; [reflexivity | exact B]).
      lra.
  - intros H. apply Qle_trans with (b64 (20 + (1 # 562949953421312)))%Q.
    + apply b64_le. exact H.
    + vm_compute. discriminate.
Qed.

(** A number of magnitude at most 2^e is rounded with an error of at most
    2^(e-53). *)
Lemma b64_error_upto (x : Q) (e : Z) :
  (-1022 <= e)%Z -> (Qabs x <= pow2 e)%Q ->
  (Qabs (b64 x - x) <= pow2 (e - 53))%Q.
Proof.
  intros He Hx.
  pose proof (pow2_pos (e - 53)) as Pe.
  destruct (Qeq_dec x 0) as [Z0 | NZ].
  { rewrite (b64_zero x Z0). rewrite Z0. change (Qabs (0 - 0)) with 0%Q. lra. }
  destruct (Qlt_le_dec (Qabs x) (pow2 e)) as [S | B].
  - pose proof (Qabs_pos_lt x NZ) as Hp.
    destruct (ilog2_spec (Qabs x) Hp) as [Lo _].
    assert (L : (ilog2 (Qabs x) < e)%Z).
    { destruct (Z_lt_ge_dec (ilog2 (Qabs x)) e) as [H | H]; [exact H | exfalso].
      assert (pow2 e <= pow2 (ilog2 (Qabs x)))%Q by (apply pow2_le; lia). lra. }
    eapply Qle_trans; [apply b64_error|].
    assert (Hq : (quantum x - 1 <= e - 53)%Z) by (unfold quantum, exponent; lia).
    apply Qle_trans with (pow2 (quantum x - 1)); [|apply pow2_le; exact Hq].
    replace (quantum x) with ((quantum x - 1) + 1)%Z at 1 by lia.
    rewrite pow2_succ. apply Qle_lteq. right. field.
  - assert (E : (Qabs x == pow2 e)%Q) by lra.
    assert (X : (x == inject_Z 1 * pow2 e \/ x == inject_Z (-1) * pow2 e)%Q).
    { change (inject_Z 1) with 1%Q. change (inject_Z (-1)) with (-1)%Q.
      revert E. apply Qabs_case; intros H E; [left | right]; lra. }
    assert (Z1 : (Qabs (b64 x - x) == 0)%Q).
    { destruct X as [X | X].
      - rewrite (b64_comp x _ X), b64_exact by (cbn; lia).
        rewrite X. setoid_replace (inject_Z 1 * pow2 e - inject_Z 1 * pow2 e)%Q with 0%Q by ring.
        reflexivity.
      - rewrite (b64_comp x _ X), b64_exact by (cbn; lia).
        rewrite X.
        setoid_replace (inject_Z (-1) * pow2 e - inject_Z (-1) * pow2 e)%Q with 0%Q by ring.
        reflexivity. }
    rewrite Z1. lra.
Qed.

Lemma b64_error_unit (x : Q) :
  (0 <= x <= 1)%Q -> (Qabs (b64 x - x) <= 1 # 2 ^ 53)%Q.
Proof.
  intros [H0 H1]. apply (b64_error_upto x 0); [lia|].
  rewrite Qabs_pos by exact H0. exact H1.
Qed.

Lemma b64_unit (x : Q) : (0 <= x <= 1)%Q -> (0 <= b64 x <= 1)%Q.
Proof.
  intros [H0 H1]. split; [apply b64_nonneg; exact H0|].
  apply b64_le_exact; [reflexivity | exact H1].
Qed.

(** *** The rounded value is a nearest binary64 number *)

Lemma nearest_even_nearest (s : Q) (k : Z) :
  (Qabs (inject_Z (nearest_even s) - s) <= Qabs (inject_Z k - s))%Q.
Proof.
  pose proof (nearest_even_near s) as N. set (n := nearest_even s) in *.
  destruct (Z.eq_dec k n) as [-> | NE]; [lra|].
  assert (A : (Qabs (inject_Z n - s) <= 1 # 2)%Q) by (apply Qabs_Qle_condition; lra).
  eapply Qle_trans; [exact A|].
  destruct (Z_lt_ge_dec k n) as [L | G].
  - assert (B : (inject_Z k <= inject_Z n - 1)%Q).
    { change 1%Q with (inject_Z 1). rewrite <- inject_Z_minus, <- Zle_Qle. lia. }
    rewrite Qabs_neg by lra. lra.
  - assert (B : (inject_Z n + 1 <= inject_Z k)%Q).
    { change 1%Q with (inject_Z 1). rewrite <- inject_Z_plus, <- Zle_Qle. lia. }
    rewrite Qabs_pos by lra. lra.
Qed.

Lemma representable_opp (y : Q) : representable y -> representable (- y).
Proof.
  intros (m & e & Hm & He & E). exists (- m)%Z, e.
  split; [lia|]. split; [exact He|]. rewrite E, inject_Z_opp. ring.
Qed.

Lemma representable_comp (x y : Q) : (x == y)%Q -> representable x -> representable y.
Proof.
  intros E (m & e & Hm & He & X). exists m, e. split; [exact Hm|].
  split; [exact He|]. rewrite <- E. exact X.
Qed.

Lemma quantum_lower (x : Q) : (-1074 <= quantum x)%Z.
Proof. unfold quantum, exponent. lia. Qed.

Lemma b64_representable_pos (x : Q) : (0 < x)%Q -> representable (b64 x).
Proof.
  intros Hx. pose proof (scaled_lt x Hx) as U.
  pose proof (pow2_pos (quantum x)) as P.
  set (n := nearest_even (x / pow2 (quantum x))).
  assert (Hn : (0 <= n <= 2 ^ 53)%Z).
  { split.
    - apply nearest_even_lower. change (inject_Z 0) with 0%Q.
      apply Qle_shift_div_l; [exact P | lra].
    - apply nearest_even_upper. lra. }
  pose proof (quantum_lower x) as Q.
  destruct (Z_lt_ge_dec n (2 ^ 53)) as [S | B].
  - exists n, (quantum x). split; [lia|]. split; [exact Q|]. apply b64_eq.
  - exists (2 ^ 52)%Z, (quantum x + 1)%Z. split; [lia|]. split; [lia|].
    rewrite b64_eq. fold n. replace n with (2 ^ 53)%Z by lia.
    rewrite pow2_succ. change (inject_Z (2 ^ 53)) with (inject_Z (2 ^ 52) * 2)%Q. ring.
Qed.

Lemma b64_nearest_pos (x y : Q) :
  (0 < x)%Q -> representable y -> (Qabs (b64 x - x) <= Qabs (y - x))%Q.
Proof.
  intros Hx (m & f & Hm & Hf & Ey).
  set (q := quantum x). pose proof (pow2_pos q) as P.
  assert (Ex : (x == x / pow2 q * pow2 q)%Q) by (field; lra).
  set (s := (x / pow2 q)%Q) in *.
  assert (Multiple : forall k : Z,
             (Qabs (b64 x - x) <= Qabs (inject_Z k * pow2 q - x))%Q).
  { intros k. rewrite b64_eq. fold q. fold s.
    pose proof (nearest_even_nearest s k) as N.
    set (n := inject_Z (nearest_even s)) in *.
    assert (E1 : (n * pow2 q - x == (n - s) * pow2 q)%Q) by (rewrite Ex at 1; ring).
    assert (E2 : (inject_Z k * pow2 q - x == (inject_Z k - s) * pow2 q)%Q)
      by (rewrite Ex at 1; ring).
    rewrite E1, E2, !Qabs_Qmult, (Qabs_pos (pow2 q)) by lra.
    apply Qmult_le_r; [exact P | exact N]. }
  destruct (Z_le_gt_dec q f) as [A | B].
  - assert (E : (y == inject_Z (m * 2 ^ (f - q)) * pow2 q)%Q).
    { rewrite Ey, inject_Z_mult, <- (pow2_Z (f - q)) by lia.
      rewrite <- Qmult_assoc, <- pow2_plus. replace (f - q + q)%Z with f by lia.
      reflexivity. }
    rewrite E. apply Multiple.
  - assert (Hq : (-1074 < q)%Z) by lia.
    assert (He : exponent x = ilog2 x).
    { rewrite exponent_pos by exact Hx. unfold q, quantum in Hq.
      rewrite exponent_pos in Hq by exact Hx. lia. }
    assert (Q : q = (ilog2 x - 52)%Z) by (unfold q, quantum; rewrite He; reflexivity).
    destruct (ilog2_spec x Hx) as [Lo _].
    assert (Hy : (y < pow2 (ilog2 x))%Q).
    { apply Qle_lt_trans with (Qabs y); [apply Qle_Qabs|].
      rewrite Ey, Qabs_Qmult, (Qabs_pos (pow2 f)) by (pose proof (pow2_pos f); lra).
      apply Qlt_le_trans with (inject_Z (2 ^ 53) * pow2 f)%Q.
      - apply Qmult_lt_r; [apply pow2_pos|].
        assert (A : (Qabs (inject_Z m) == inject_Z (Z.abs m))%Q)
          by (unfold inject_Z; rewrite <- Zabs_Qabs; reflexivity).
        rewrite A, <- Zlt_Qlt. exact Hm.
      - rewrite <- (pow2_Z 53), <- pow2_plus by lia. apply pow2_le. lia. }
    specialize (Multiple (2 ^ 52)%Z).
    assert (E : (inject_Z (2 ^ 52) * pow2 q == pow2 (ilog2 x))%Q).
    { rewrite <- (pow2_Z 52), <- pow2_plus by lia.
      replace (52 + q)%Z with (ilog2 x) by lia. reflexivity. }
    rewrite E in Multiple.
    eapply Qle_trans; [exact Multiple|].
    rewrite (Qabs_neg (pow2 (ilog2 x) - x)), (Qabs_neg (y - x)) by lra. lra.
Qed.

(** [b64 x] is a binary64 number, and no binary64 number is nearer to [x]. *)
Theorem b64_nearest (x : Q) :
  representable (b64 x) /\
  forall y : Q, representable y -> (Qabs (b64 x - x) <= Qabs (y - x))%Q.
Proof.
  destruct (Q_dec x 0) as [[N | P] | Z0].
  - assert (Hx : (0 < - x)%Q) by lra. split.
    + apply (representable_comp (- b64 (- x))).
      * rewrite b64_opp. ring.
      * apply representable_opp. apply b64_representable_pos. exact Hx.
    + intros y Hy.
      pose proof (b64_nearest_pos (- x) (- y) Hx (representable_opp y Hy)) as H.
      rewrite b64_opp in H.
      setoid_replace (- b64 x - - x)%Q with (- (b64 x - x))%Q in H by ring.
      setoid_replace (- y - - x)%Q with (- (y - x))%Q in H by ring.
      rewrite !Qabs_opp in H. exact H.
  - split; [apply b64_representable_pos; exact P|].
    intros y Hy. apply b64_nearest_pos; assumption.
  - split.
    + rewrite (b64_zero x Z0). exists 0%Z, 0%Z. split; [reflexivity|].
      split; [lia|]. reflexivity.
    + intros y _. rewrite (b64_zero x Z0), Z0.
      change (Qabs (0 - 0)) with 0%Q. apply Qabs_nonneg.
Qed.

(** When two binary64 numbers are equally near, the one with the even
    significand is taken. *)
Lemma b64_ties_to_even (x : Q) :
  exists m : Z,
    (b64 x == inject_Z m * pow2 (quantum x))%Q /\
    ((Qabs (b64 x - x) == pow2 (quantum x) / 2)%Q -> Z.even m = true).
Proof.
  exists (nearest_even (x / pow2 (quantum x))). split; [apply b64_eq|].
  pose proof (pow2_pos (quantum x)) as P.
  pose proof (nearest_even_tie (x / pow2 (quantum x))) as T.
  assert (Ex : (x == x / pow2 (quantum x) * pow2 (quantum x))%Q) by (field; lra).
  rewrite b64_eq.
  set (p := pow2 (quantum x)) in *. set (s := (x / p)%Q) in *.
  set (n := nearest_even s) in *. clearbody n s p.
  intros H. apply T.
  assert (E1 : (inject_Z n * p - x == (inject_Z n - s) * p)%Q) by (rewrite Ex at 1; ring).
  rewrite E1, Qabs_Qmult, (Qabs_pos p) in H by lra.
  assert (H' : (Qabs (inject_Z n - s) == 1 # 2)%Q).
  { apply (Qmult_inj_r _ _ p); [lra|]. rewrite H. field. }
  revert H'. apply Qabs_case; intros S H'; [left | right]; lra.
Qed.

End Binary64Facts.

(** ** The matcher finds only matches *)

Section MatcherSound.

Variable A : Type.
Variable ic : bool.

Lemma prev_after_app (prev : option ascii) (w1 w2 : str) :
  prev_after prev (w1 ++ w2) = prev_after (prev_after prev w1) w2.
Proof. unfold prev_after. apply fold_left_app. Qed.

Lemma firstn_consumed (w after : str) :
  firstn (length (w ++ after) - length after) (w ++ after) = w.
Proof.
  rewrite length_app, Nat.add_sub.
  rewrite firstn_app, Nat.sub_diag, firstn_all. simpl. apply app_nil_r.
Qed.

Lemma rep_greedy_sound (p : ascii -> bool) (caps : captures) (k : kont A) (a : A) :
  forall (s : str) (lo : nat) (hi : option nat) (prev : option ascii),
    rep_greedy p lo hi prev s caps k = Some a ->
    exists w after,
      s = w ++ after /\
      Forall (fun x => p x = true) w /\
      (lo <= length w)%nat /\
      (forall h, hi = Some h -> (length w <= h)%nat) /\
      k (prev_after prev w) after caps = Some a.
Proof.
  assert (Hstop : forall s lo hi prev,
             match lo with O => k prev s caps | S _ => None end = Some a ->
             exists w after,
               s = w ++ after /\ Forall (fun x => p x = true) w /\
               (lo <= length w)%nat /\
               (forall h, hi = Some h -> (length w <= h)%nat) /\
               k (prev_after prev w) after caps = Some a).
  { intros s lo hi prev H. destruct lo; [|discriminate].
    exists [], s. simpl. repeat split; auto. intros h _. lia. }
  induction s as [|x s IH]; intros lo hi prev H.
  - simpl in H. apply Hstop. exact H.
  - simpl in H.
    destruct (p x && match hi with Some O => false | _ => true end)%bool eqn:E.
    + destruct (rep_greedy p (Nat.pred lo) (option_map Nat.pred hi) (Some x) s caps k)
        as [a'|] eqn:R.
      * inversion H; subst a'. clear H.
        apply IH in R. destruct R as (w & after & -> & Hw & Hlo & Hhi & Hk).
        apply andb_true_iff in E. destruct E as [Px Hmore].
        exists (x :: w), after. simpl. repeat split.
        -- constructor; assumption.
        -- lia.
        -- intros h ->. destruct h; [discriminate|].
           specialize (Hhi h eq_refl). lia.
        -- exact Hk.
      * apply Hstop. exact H.
    + apply Hstop. exact H.
Qed.

Lemma rmatch_sound (r : regex) :
  forall (prev : option ascii) (s : str) (caps : captures) (k : kont A) (a : A),
    rmatch ic r prev s caps k = Some a ->
    exists w after caps',
      s = w ++ after /\
      matches ic r prev w after caps caps' /\
      k (prev_after prev w) after caps' = Some a.
Proof.
  induction r as [ |c|neg items| | | |r1 IH1 r2 IH2|r1 IH1 r2 IH2|r1 IH1
                 |lo hi neg items|n r1 IH1];
    intros prev s caps k a H; simpl in H.
  - exists [], s, caps. repeat split; [constructor | exact H].
  - destruct s as [|x s]; [discriminate|].
    destruct (chr_eq ic c x) eqn:E; [|discriminate].
    exists [x], s, caps. repeat split; [constructor; exact E | exact H].
  - destruct s as [|x s]; [discriminate|].
    destruct (in_set ic neg items x) eqn:E; [|discriminate].
    exists [x], s, caps. repeat split; [constructor; exact E | exact H].
  - destruct prev; [discriminate|].
    exists [], s, caps. repeat split; [constructor | exact H].
  - destruct (at_end s) eqn:E; [|discriminate].
    exists [], s, caps. repeat split; [constructor; exact E | exact H].
  - destruct (at_boundary prev s) eqn:E; [|discriminate].
    exists [], s, caps. repeat split; [constructor; exact E | exact H].
  - apply IH1 in H. destruct H as (w1 & s1 & caps1 & -> & M1 & H).
    apply IH2 in H. destruct H as (w2 & after & caps2 & -> & M2 & H).
    exists (w1 ++ w2), after, caps2. repeat split.
    + apply app_assoc.
    + econstructor; eassumption.
    + rewrite prev_after_app. exact H.
  - destruct (rmatch ic r1 prev s caps k) as [a'|] eqn:E.
    + inversion H; subst a'. apply IH1 in E.
      destruct E as (w & after & caps' & -> & M & Hk).
      exists w, after, caps'. repeat split; [apply M_alt_l; exact M | exact Hk].
    + apply IH2 in H. destruct H as (w & after & caps' & -> & M & Hk).
      exists w, after, caps'. repeat split; [apply M_alt_r; exact M | exact Hk].
  - destruct (rmatch ic r1 prev s caps k) as [a'|] eqn:E.
    + inversion H; subst a'. apply IH1 in E.
      destruct E as (w & after & caps' & -> & M & Hk).
      exists w, after, caps'. repeat split; [apply M_opt_some; exact M | exact Hk].
    + exists [], s, caps. repeat split; [apply M_opt_none | exact H].
  - apply rep_greedy_sound in H.
    destruct H as (w & after & -> & Hw & Hlo & Hhi & Hk).
    exists w, after, caps. repeat split; [constructor; assumption | exact Hk].
  - apply IH1 in H. destruct H as (w & after & caps' & -> & M & Hk).
    rewrite firstn_consumed in Hk.
    exists w, after, ((n, w) :: caps'). repeat split; [constructor; exact M | exact Hk].
Qed.

End MatcherSound.

(** A match object describes a match of the expression. *)
Lemma match_at_sound (ic : bool) (r : regex) (prev : option ascii) (s : str)
      (m : match_obj) :
  match_at ic r prev s = Some m ->
  s = m_group0 m ++ m_after m /\
  matches ic r prev (m_group0 m) (m_after m) [] (m_caps m).
Proof.
  unfold match_at. intros H. apply rmatch_sound in H.
  destruct H as (w & after & caps' & -> & M & Hk).
  rewrite firstn_consumed in Hk. inversion Hk; subst m. simpl. split; [reflexivity | exact M].
Qed.

(** ** Facts about the sort *)

Section SortFacts.

Variables (A K : Type).
Variable lt : K -> K -> bool.
Variable key : A -> K.

Lemma insert_by_perm (x : A) (l : list A) :
  Permutation (insert_by lt key x l) (x :: l).
Proof.
  induction l as [|y l IH]; simpl.
  - apply Permutation_refl.
  - destruct (lt (key y) (key x)).
    + eapply Permutation_trans; [apply perm_skip, IH | apply perm_swap].
    + apply Permutation_refl.
Qed.

Lemma sort_by_perm (l : list A) : Permutation (sort_by lt key l) l.
Proof.
  induction l as [|x l IH]; simpl.
  - apply perm_nil.
  - eapply Permutation_trans; [apply insert_by_perm | apply perm_skip, IH].
Qed.

Lemma sort_by_nonempty (l : list A) : l <> [] -> sort_by lt key l <> [].
Proof.
  intros Hl Hs. pose proof (sort_by_perm l) as P. rewrite Hs in P.
  apply Permutation_nil in P. contradiction.
Qed.

Hypothesis lt_asym : forall x y, lt x y = true -> lt y x = false.
Hypothesis ge_trans :
  forall x y z, lt y x = false -> lt z y = false -> lt z x = false.

Lemma insert_by_sorted (x : A) (l : list A) :
  StronglySorted (before lt key) l -> StronglySorted (before lt key) (insert_by lt key x l).
Proof.
  induction 1 as [|y l Hs IH Hall]; simpl.
  - constructor; [constructor | constructor].
  - destruct (lt (key y) (key x)) eqn:E.
    + constructor; [exact IH|].
      eapply Permutation_Forall; [apply Permutation_sym, insert_by_perm|].
      constructor; [|exact Hall].
      unfold before. apply lt_asym. exact E.
    + constructor; [constructor; assumption|].
      constructor; [exact E|].
      eapply Forall_impl; [|exact Hall].
      intros z Hz. unfold before in *. eapply ge_trans; eassumption.
Qed.

Lemma sort_by_sorted (l : list A) : StronglySorted (before lt key) (sort_by lt key l).
Proof.
  induction l as [|x l IH]; simpl.
  - constructor.
  - apply insert_by_sorted. exact IH.
Qed.

(** The first element of a sorted list is in front of every other one. *)
Lemma sort_by_head (l : list A) (b : A) (rest : list A) :
  sort_by lt key l = b :: rest ->
  In b l /\ forall c, In c l -> c = b \/ before lt key b c.
Proof.
  intros E. pose proof (sort_by_sorted l) as S. pose proof (sort_by_perm l) as P.
  rewrite E in S, P. split.
  - eapply Permutation_in; [exact P | left; reflexivity].
  - intros c Hc. apply Permutation_sym in P.
    pose proof (Permutation_in _ P Hc) as Hc'. destruct Hc' as [->|Hc'].
    + left; reflexivity.
    + right. inversion S as [|? ? _ Hall]; subst.
      rewrite Forall_forall in Hall. apply Hall. exact Hc'.
Qed.

End SortFacts.

Lemma Qltb_asym (x y : Q) : Qltb x y = true -> Qltb y x = false.
Proof.
  rewrite Qltb_true, Qltb_false. apply Qlt_le_weak.
Qed.

Lemma Qltb_ge_trans (x y z : Q) :
  Qltb y x = false -> Qltb z y = false -> Qltb z x = false.
Proof.
  rewrite !Qltb_false. intros H1 H2. eapply Qle_trans; eassumption.
Qed.

(** ** Line clustering *)

Section ClusteringFacts.

Import ReceiptOCR Clustering.

(** [thr] is the threshold of [get_text_lines] and [near] a test that
    agrees with the one the loop makes. *)
Variable thr : Q.
Variable near : OCRResult -> OCRResult -> bool.
Hypothesis same_line_near :
  forall (ls : list (list OCRResult)) (cur : list OCRResult) (a d : OCRResult),
    same_line thr (MkLines ls cur (center_y a)) d = near a d.

Lemma sort_line_perm (line : list OCRResult) : Permutation (sort_line line) line.
Proof. apply sort_by_perm. Qed.

Lemma sort_line_nonempty (line : list OCRResult) : line <> [] -> sort_line line <> [].
Proof. apply sort_by_nonempty. Qed.

Lemma StronglySorted_weaken {A : Type} (R S : A -> A -> Prop) (l : list A) :
  (forall a b, R a b -> S a b) -> StronglySorted R l -> StronglySorted S l.
Proof.
  intros HRS. induction 1 as [|a l Hs IH Hall]; constructor.
  - exact IH.
  - eapply Forall_impl; [|exact Hall]. intros b. apply HRS.
Qed.

Lemma sort_line_sorted (line : list OCRResult) : sorted_by_left_x (sort_line line).
Proof.
  unfold sorted_by_left_x, sort_line, py_sort.
  eapply StronglySorted_weaken;
    [| apply (sort_by_sorted _ _ Qltb left_x Qltb_asym Qltb_ge_trans)].
  intros a b H. unfold before in H. apply Qltb_false in H. exact H.
Qed.

Lemma step_eq (ls : list (list OCRResult)) (a d : OCRResult) (cur : list OCRResult) :
  step thr (MkLines ls cur (center_y a)) d
  = if near a d
    then MkLines ls (cur ++ [d]) (center_y a)
    else MkLines (ls ++ [sort_line cur]) [d] (center_y d).
Proof. unfold step. rewrite same_line_near. reflexivity. Qed.

(** The loop of [get_text_lines] and the recursive clustering agree, whatever
    the state the loop starts from. *)
Lemma fold_step_cluster (rest : list OCRResult) :
  forall (ls : list (list OCRResult)) (a : OCRResult) (cur : list OCRResult),
    cur <> [] ->
    let st := fold_left (step thr) rest (MkLines ls cur (center_y a)) in
    current_line st <> [] /\
    lines st ++ [sort_line (current_line st)] = ls ++ cluster_from near a cur rest.
Proof.
  induction rest as [|d rest IH]; intros ls a cur Hcur.
  - split; [exact Hcur | reflexivity].
  - cbn [fold_left cluster_from]. rewrite step_eq.
    destruct (near a d) eqn:W.
    + apply IH. intro E. apply app_eq_nil in E. destruct E; discriminate.
    + destruct (IH (ls ++ [sort_line cur]) d [d]) as [H1 H2]; [discriminate|].
      split; [exact H1|].
      rewrite H2, <- app_assoc. reflexivity.
Qed.

Lemma get_text_lines_clusters (results : list OCRResult) :
  get_text_lines results thr = clusters near results.
Proof.
  destruct results as [|d rest]; [reflexivity|].
  unfold get_text_lines, clusters.
  destruct (fold_step_cluster rest [] d [d]) as [H1 H2]; [discriminate|].
  cbv zeta in H1, H2. simpl in H2.
  destruct (current_line _) eqn:E; [contradiction|].
  exact H2.
Qed.

Lemma cluster_from_chunks (rest : list OCRResult) :
  forall (a : OCRResult) (cur : list OCRResult),
    Forall (fun d => near a d = true) cur ->
    exists c tl,
      concat ((a :: c) :: tl) = (a :: cur) ++ rest /\
      cluster_from near a (a :: cur) rest = map sort_line ((a :: c) :: tl) /\
      Forall (chunk_ok near) ((a :: c) :: tl) /\
      breaks near ((a :: c) :: tl).
Proof.
  induction rest as [|d rest IH]; intros a cur Hcur.
  - exists cur, []. simpl. rewrite ?app_nil_r. repeat split.
    constructor; [exact Hcur | constructor].
  - simpl cluster_from. destruct (near a d) eqn:W.
    + destruct (IH a (cur ++ [d])) as (c & tl & H1 & H2 & H3 & H4).
      { apply Forall_app. split; [exact Hcur|]. constructor; [exact W | constructor]. }
      exists c, tl. repeat split; try assumption.
      rewrite H1. simpl. rewrite <- app_assoc. reflexivity.
    + destruct (IH d []) as (c & tl & H1 & H2 & H3 & H4); [constructor|].
      exists cur, ((d :: c) :: tl). repeat split.
      * change (concat ((a :: cur) :: (d :: c) :: tl))
          with ((a :: cur) ++ concat ((d :: c) :: tl)).
        rewrite H1. reflexivity.
      * rewrite H2. reflexivity.
      * constructor; [exact Hcur | exact H3].
      * exact W.
      * exact H4.
Qed.

Lemma clusters_chunks (results : list OCRResult) :
  exists chunks,
    concat chunks = results /\
    clusters near results = map sort_line chunks /\
    Forall (chunk_ok near) chunks /\
    breaks near chunks.
Proof.
  destruct results as [|d rest].
  - exists []. repeat split; constructor.
  - destruct (cluster_from_chunks rest d []) as (c & tl & H1 & H2 & H3 & H4);
      [constructor|].
    exists ((d :: c) :: tl). repeat split; assumption.
Qed.

(** The lines of [get_text_lines] are the chunks into which the test cuts
    the input, each sorted. *)
Lemma get_text_lines_chunks (results : list OCRResult) :
  exists chunks,
    concat chunks = results /\
    get_text_lines results thr = map sort_line chunks /\
    Forall (chunk_ok near) chunks /\
    breaks near chunks.
Proof. rewrite get_text_lines_clusters. apply clusters_chunks. Qed.

Lemma chunk_ok_nonempty (c : list OCRResult) : chunk_ok near c -> c <> [].
Proof. destruct c; [contradiction | discriminate]. Qed.

Lemma concat_sorted_perm (chunks : list (list OCRResult)) :
  Permutation (concat (map sort_line chunks)) (concat chunks).
Proof.
  induction chunks as [|c chunks IH]; simpl.
  - apply perm_nil.
  - apply Permutation_app; [apply sort_line_perm | exact IH].
Qed.

End ClusteringFacts.

(** The test of the loop is [rounded_within], whatever the threshold. *)
Lemma same_line_rounded (thr : Q) (ls : list (list OCRResult)) (cur : list OCRResult)
      (a d : OCRResult) :
  ReceiptOCR.same_line thr (ReceiptOCR.MkLines ls cur (center_y a)) d
  = Clustering.rounded_within thr a d.
Proof. reflexivity. Qed.

(** With the threshold 20 the rounded difference passes the test exactly
    when the difference itself is at most 20 + 2^-49: the floats from 16 to
    32 lie 2^-48 apart, and a difference up to the midpoint between 20 and
    the next float rounds to 20. *)
Lemma rounded_within_20 (a d : OCRResult) :
  Clustering.rounded_within 20 a d = Clustering.within (20 + (1 # 2 ^ 49)) a d.
Proof.
  unfold Clustering.rounded_within, Clustering.within, Binary64.fsub.
  apply eq_true_iff_eq. rewrite !Qleb_true, b64_abs. apply b64_le_20.
Qed.

Lemma same_line_20 (ls : list (list OCRResult)) (cur : list OCRResult) (a d : OCRResult) :
  ReceiptOCR.same_line 20 (ReceiptOCR.MkLines ls cur (center_y a)) d
  = Clustering.within (20 + (1 # 2 ^ 49)) a d.
Proof. rewrite same_line_rounded. apply rounded_within_20. Qed.

(** C6. Line clustering with the threshold 20: the empty input gives no
    line; the input splits into consecutive chunks, each a line's anchor
    followed by the detections that pass the test against the anchor (the
    next chunk opens with the first detection that fails it), and the
    output is these chunks, each sorted; so every line is non-empty and
    sorted by [left_x], and no detection is lost, the last open line
    included.  The test is made on the float of the difference of the two
    [center_y]: a detection passes it exactly when its [center_y] is within
    20 + 2^-49 of the anchor's, so every detection within 20 joins the line
    and none beyond 20 + 2^-49 does.  Detections at 10 and 15 share a line
    and one at 50 opens the next.  (Nothing here needs the input to be
    sorted by [center_y].) *)
Theorem line_clustering_threshold_20 :
  ReceiptOCR.get_text_lines [] ReceiptOCR.default_line_threshold = [] /\
  (forall results : list OCRResult,
      ReceiptOCR.get_text_lines results ReceiptOCR.default_line_threshold
      = Clustering.groupIntoLines results (20 + (1 # 2 ^ 49))%Q /\
      (exists chunks,
          concat chunks = results /\
          ReceiptOCR.get_text_lines results ReceiptOCR.default_line_threshold
          = map ReceiptOCR.sort_line chunks /\
          Forall (Clustering.chunk_ok (Clustering.within (20 + (1 # 2 ^ 49)))) chunks /\
          Clustering.breaks (Clustering.within (20 + (1 # 2 ^ 49))) chunks) /\
      Forall (fun line => line <> [] /\ Clustering.sorted_by_left_x line)
             (ReceiptOCR.get_text_lines results ReceiptOCR.default_line_threshold) /\
      Permutation
        (concat (ReceiptOCR.get_text_lines results ReceiptOCR.default_line_threshold))
        results) /\
  (forall a d : OCRResult,
      (Clustering.within 20 a d = true ->
       Clustering.within (20 + (1 # 2 ^ 49)) a d = true) /\
      (Clustering.within (20 + (1 # 2 ^ 49)) a d = true <->
       (Qabs (center_y d - center_y a) <= 20 + (1 # 2 ^ 49))%Q) /\
      (Clustering.within (20 + (1 # 2 ^ 49)) a d = true <->
       (Qabs (Binary64.fsub (center_y d) (center_y a)) <= 20)%Q)) /\
  (forall d1 d2 d3 : OCRResult,
      (center_y d1 == 10)%Q -> (center_y d2 == 15)%Q -> (center_y d3 == 50)%Q ->
      ReceiptOCR.get_text_lines [d1; d2; d3] ReceiptOCR.default_line_threshold
      = [ReceiptOCR.sort_line [d1; d2]; [d3]]).
Proof.
  unfold ReceiptOCR.default_line_threshold.
  split; [reflexivity|]. split; [|split].
  - intros results.
    destruct (get_text_lines_chunks 20 _ same_line_20 results)
      as (chunks & H1 & H2 & H3 & H4).
    split; [apply (get_text_lines_clusters 20 _ same_line_20)|]. split; [|split].
    + exists chunks. repeat split; assumption.
    + rewrite H2. apply Forall_forall. intros line Hin.
      apply in_map_iff in Hin. destruct Hin as (c & <- & Hc).
      rewrite Forall_forall in H3. split.
      * apply sort_line_nonempty. eapply chunk_ok_nonempty. apply H3. exact Hc.
      * apply sort_line_sorted.
    + rewrite H2, <- H1. apply concat_sorted_perm.
  - intros a d. split; [|split].
    + unfold Clustering.within. rewrite !Qleb_true. intros H.
      eapply Qle_trans; [exact H|]. vm_compute. discriminate.
    + unfold Clustering.within. apply Qleb_true.
    + rewrite <- rounded_within_20. unfold Clustering.rounded_within. apply Qleb_true.
  - intros d1 d2 d3 E1 E2 E3.
    rewrite (get_text_lines_clusters 20 _ same_line_20). simpl.
    assert (W12 : Clustering.within (20 + (1 # 2 ^ 49)) d1 d2 = true).
    { unfold Clustering.within. apply Qleb_true. rewrite E1, E2. vm_compute. discriminate. }
    assert (W13 : Clustering.within (20 + (1 # 2 ^ 49)) d1 d3 = false).
    { unfold Clustering.within. apply Qleb_false. rewrite E1, E3. vm_compute. reflexivity. }
    rewrite W12, W13. reflexivity.
Qed.

Lemma line_clustering_threshold_20_witness :
  let d1 := MkOCR 0 (py "A") 1%Q [(0, 0); (8, 0); (8, 20); (0, 20)]%Q 0 in
  let d2 := MkOCR 1 (py "B") 1%Q [(9, 5); (20, 5); (20, 25); (9, 25)]%Q 1 in
  let d3 := MkOCR 2 (py "C") 1%Q [(0, 40); (8, 40); (8, 60); (0, 60)]%Q 2 in
  ReceiptOCR.get_text_lines [d1; d2; d3] ReceiptOCR.default_line_threshold
  = [ReceiptOCR.sort_line [d1; d2]; [d3]].
Proof.
  intros d1 d2 d3.
  apply (proj2 (proj2 (proj2 line_clustering_threshold_20)) d1 d2 d3); reflexivity.
Defined.

(** C6, the claim as worded fails at the rounding of the difference: a
    detection whose [center_y] is 20 + 2^-60 below the anchor is not within
    20 of it, and the clustering of the specification opens a second line
    for it; the machine's difference is 20.0, and [get_text_lines] keeps it
    in the line of the anchor. *)
Theorem clustering_rounding_counterexample :
  let y := (- (1 # 2 ^ 60))%Q in
  let a := MkOCR 0 (py "A") 1%Q [(0, y); (8, y); (8, y); (0, y)]%Q 0 in
  let b := MkOCR 1 (py "B") 1%Q [(0, 20); (8, 20); (8, 20); (0, 20)]%Q 1 in
  (center_y a == - (1 # 2 ^ 60))%Q /\ (center_y b == 20)%Q /\
  (Qabs (center_y b - center_y a) == 20 + (1 # 2 ^ 60))%Q /\
  Clustering.within 20 a b = false /\
  Clustering.groupIntoLines [a; b] 20 = [[a]; [b]] /\
  Binary64.fsub (center_y b) (center_y a) = 20%Q /\
  ReceiptOCR.get_text_lines [a; b] ReceiptOCR.default_line_threshold = [[a; b]].
Proof. vm_compute. repeat split; intro; discriminate. Qed.

(** ** Dates *)

Lemma date_ltb_irrefl (d : date) : date_ltb d d = false.
Proof.
  unfold date_ltb. rewrite !Z.ltb_irrefl, !Z.eqb_refl. reflexivity.
Qed.

Lemma _is_valid_date_min_date (today d : date) :
  (6 <= year today <= 9999)%Z ->
  DateExtractor._is_valid_date today d
  = Ok (negb (date_ltb today d)
        && negb (date_ltb d (Plausibility.min_date_of today)))%bool.
Proof.
  intros Hy. unfold DateExtractor._is_valid_date, Plausibility.min_date_of.
  destruct (date_ltb today d); [reflexivity|].
  unfold date_new.
  replace ((1 <=? year today - 5)%Z) with true by (symmetry; apply Z.leb_le; lia).
  replace ((year today - 5 <=? 9999)%Z) with true by (symmetry; apply Z.leb_le; lia).
  simpl. destruct (date_ltb d _); reflexivity.
Qed.

(** When the first match of a pattern does not give a plausible date, the
    loop goes on with the patterns that follow. *)
Lemma extract_from_skips (today : date) (full_text : str) (p : pattern)
      (ps : list pattern) :
  DateExtractor.try_pattern today full_text p = Ok None ->
  DateExtractor.extract_from today full_text (p :: ps)
  = DateExtractor.extract_from today full_text ps.
Proof.
  intros H. unfold DateExtractor.extract_from. simpl. rewrite H. reflexivity.
Qed.

(** C8, as stated, fails: on 4 November 2026 the source accepts 1 January
    2021, which is more than five years earlier. *)
Lemma plausibility_five_years_counterexample :
  let today := MkDate 2026 11 4 in
  let d := MkDate 2021 1 1 in
  ~ (DateExtractor._is_valid_date today d = Ok true
     <-> Plausibility.plausible today d = true).
Proof.
  intros today d [H _].
  assert (E : Plausibility.plausible today d = false) by reflexivity.
  rewrite E in H. discriminate H. reflexivity.
Qed.

(** C8, amended. With the clock in the years 6..9999, [_is_valid_date]
    accepts [d] exactly when [d] is not after today and not before the first
    of January of the year five before today's.  When the first match of a
    pattern parses into a date that this check rejects, the extractor goes on
    with the next pattern of the ordered list. *)
Theorem plausibility_since_january_first :
  forall today : date,
    (6 <= year today <= 9999)%Z ->
    (forall d : date,
        DateExtractor._is_valid_date today d = Ok true
        <-> date_ltb today d = false
            /\ date_ltb d (MkDate (year today - 5) 1 1) = false) /\
    (forall (full_text : str) (p : pattern) (ps : list pattern)
            (m : match_obj) (d : date),
        re_search true (ast p) full_text = Some m ->
        DateExtractor._parse_date_match m p = Ok (Some d) ->
        DateExtractor._is_valid_date today d = Ok false ->
        DateExtractor.extract_from today full_text (p :: ps)
        = DateExtractor.extract_from today full_text ps).
Proof.
  intros today Hy. split.
  - intros d. rewrite (_is_valid_date_min_date today d Hy).
    unfold Plausibility.min_date_of.
    destruct (date_ltb today d), (date_ltb d _); simpl; split;
      try (intros [? ?]); try intro; try discriminate; auto.
  - intros full_text p ps m d Hs Hp Hv.
    apply extract_from_skips.
    unfold DateExtractor.try_pattern. rewrite Hs. simpl. rewrite Hp. simpl.
    rewrite Hv. reflexivity.
Qed.

Lemma plausibility_since_january_first_witness :
  let today := MkDate 2026 11 4 in
  let text := py "31/12/2020 or 5 Jan 2026" in
  DateExtractor.extract_from today text ExtractionConfig.DATE_PATTERNS
  = DateExtractor.extract_from today text (tl ExtractionConfig.DATE_PATTERNS).
Proof.
  intros today text.
  assert (Hy : (6 <= year today <= 9999)%Z) by (simpl; lia).
  pose proof (proj2 (plausibility_since_january_first today Hy)) as H.
  unfold ExtractionConfig.DATE_PATTERNS. simpl tl.
  eapply (H text _ _ _ (MkDate 2020 12 31)).
  - vm_compute. reflexivity.
  - vm_compute. reflexivity.
  - vm_compute. reflexivity.
Defined.

Lemma days_in_month_le_31 (y m : Z) : (days_in_month y m <= 31)%Z.
Proof.
  unfold days_in_month.
  destruct (m =? 2)%Z; [destruct (is_leap y); lia|].
  destruct ((m =? 4) || (m =? 6) || (m =? 9) || (m =? 11))%bool%Z; lia.
Qed.

Lemma date_new_day_over_31 (y m d : Z) :
  (31 < d)%Z -> date_new y m d = Raise ValueError.
Proof.
  intros H. unfold date_new. pose proof (days_in_month_le_31 y m) as L.
  replace (d <=? days_in_month y m)%Z with false by (symmetry; apply Z.leb_gt; lia).
  rewrite andb_false_r. reflexivity.
Qed.

(** Whatever the year-first pattern matches, its first group is read as the
    day: with a first group over 31, as every year of our era is, nothing is
    parsed. *)
Lemma year_first_match_unparsed (m : match_obj) (g1 g2 g3 : str) :
  groups DateExtractor.n_groups m = [Some g1; Some g2; Some g3] ->
  isdigit g1 = true -> isdigit g2 = true -> isdigit g3 = true ->
  (31 < digits_val 0 g1)%Z ->
  DateExtractor._parse_date_match m ExtractionConfig.PATTERN_YMD = Ok None.
Proof.
  intros Hg D1 D2 D3 Hday. unfold DateExtractor._parse_date_match.
  rewrite Hg.
  replace (DateExtractor.is_text_month_pattern ExtractionConfig.PATTERN_YMD)
    with false by (vm_compute; reflexivity).
  replace (DateExtractor.is_year_first_pattern ExtractionConfig.PATTERN_YMD)
    with false by (vm_compute; reflexivity).
  cbn [DateExtractor.valid_only length Nat.leb DateExtractor.nums_of].
  unfold py_int. rewrite D1, D2, D3.
  cbn [bind length Nat.leb index_at nth_error].
  rewrite date_new_day_over_31 by exact Hday. reflexivity.
Qed.

(** C4. The source reads every numeric match as day, month, year: the test
    for a year-first pattern looks for the letters YYYY in the text of the
    regular expression, where they never occur.  So for the year-first date
    2024-03-15 (valid, and plausible on 4 November 2026), which the first
    pattern does not match, the second pattern matches the whole date, the
    day is taken to be 2024, [date] raises [ValueError], and the extractor
    returns nothing, for any identity, confidence, box and index of the
    detection. *)
Theorem date_year_first_is_lost :
  Forall (fun p => DateExtractor.is_year_first_pattern p = false)
         ExtractionConfig.DATE_PATTERNS /\
  forall (o : nat) (c : Q) (b : list (Q * Q)) (i : Z),
    let today := MkDate 2026 11 4 in
    let ocr_results := [MkOCR o (py "2024-03-15") c b i] in
    let full_text := DateExtractor.full_text_of ocr_results in
    date_new 2024 3 15 = Ok (MkDate 2024 3 15) /\
    Plausibility.plausible today (MkDate 2024 3 15) = true /\
    re_search true (ast ExtractionConfig.PATTERN_DMY) full_text = None /\
    option_map m_group0 (re_search true (ast ExtractionConfig.PATTERN_YMD) full_text)
    = Some (py "2024-03-15") /\
    DateExtractor.extract today ocr_results = Ok (None, None).
Proof.
  split.
  - repeat (apply Forall_cons; [vm_compute; reflexivity|]). apply Forall_nil.
  - intros o c b i. repeat split; vm_compute; reflexivity.
Qed.

(** ** Merchant *)

Lemma pair_ltb_false (a b : Q * Q) :
  pair_ltb a b = false <-> MerchantSpec.key_le b a.
Proof.
  unfold pair_ltb, MerchantSpec.key_le.
  destruct (Qeq_bool (fst a) (fst b)) eqn:E.
  - apply Qeq_bool_iff in E. rewrite Qltb_false. split.
    + intros H. right. split; [symmetry; exact E | exact H].
    + intros [H|[_ H]]; [|exact H].
      rewrite E in H. exfalso. exact (Qlt_irrefl _ H).
  - rewrite Qltb_false. split.
    + intros H. left. apply Qle_lt_or_eq in H. destruct H as [H|H]; [exact H|].
      exfalso. apply Qeq_bool_neq in E. apply E. symmetry. exact H.
    + intros [H|[H _]]; [apply Qlt_le_weak; exact H | rewrite H; apply Qle_refl].
Qed.

Lemma pair_ltb_true (a b : Q * Q) :
  pair_ltb a b = true ->
  (fst a < fst b)%Q \/ ((fst a == fst b)%Q /\ (snd a < snd b)%Q).
Proof.
  unfold pair_ltb.
  destruct (Qeq_bool (fst a) (fst b)) eqn:E.
  - apply Qeq_bool_iff in E. rewrite Qltb_true. intros H. right. split; assumption.
  - rewrite Qltb_true. intros H. left. exact H.
Qed.

Lemma key_le_trans (a b c : Q * Q) :
  MerchantSpec.key_le a b -> MerchantSpec.key_le b c -> MerchantSpec.key_le a c.
Proof.
  unfold MerchantSpec.key_le. intros [H1|[H1 H1']] [H2|[H2 H2']].
  - left. eapply Qlt_trans; eassumption.
  - left. rewrite <- H2. exact H1.
  - left. rewrite H1. exact H2.
  - right. split; [rewrite H1; exact H2 | eapply Qle_trans; eassumption].
Qed.

Lemma pair_gtb_asym (x y : Q * Q) : pair_ltb y x = true -> pair_ltb x y = false.
Proof.
  intros H. apply pair_ltb_false. apply pair_ltb_true in H.
  destruct H as [H|[H H']]; [left; exact H | right; split; [exact H|]].
  apply Qlt_le_weak. exact H'.
Qed.

Lemma pair_gtb_ge_trans (x y z : Q * Q) :
  pair_ltb x y = false -> pair_ltb y z = false -> pair_ltb x z = false.
Proof.
  rewrite !pair_ltb_false. intros H1 H2. eapply key_le_trans; eassumption.
Qed.

Lemma key_le_refl (a : Q * Q) : MerchantSpec.key_le a a.
Proof. right. split; [reflexivity | apply Qle_refl]. Qed.

Lemma candidates_of_In (results : list OCRResult) (t : str) (s c : Q) :
  In (t, s, c) (MerchantExtractor.candidates_of results) <->
  exists r, In r results /\ t = strip (text r) /\ (2 <= length t)%nat /\
            MerchantExtractor._should_exclude t = false /\
            s = MerchantExtractor._score_merchant_candidate t r /\
            c = confidence r.
Proof.
  induction results as [|r results IH]; simpl.
  - split; [contradiction | intros (r & [] & _)].
  - destruct (is_empty (strip (text r)) || (length (strip (text r)) <? 2)%nat)%bool eqn:E1.
    + rewrite IH. split.
      * intros (r' & Hin & H). exists r'. split; [right; exact Hin | exact H].
      * intros (r' & [<-|Hin] & Ht & Hl & H); [|exists r'; split; [exact Hin | tauto]].
        subst t. apply orb_true_iff in E1. destruct E1 as [E1|E1].
        -- destruct (strip (text r)); [simpl in Hl; lia | discriminate].
        -- apply Nat.ltb_lt in E1. lia.
    + apply orb_false_iff in E1. destruct E1 as [_ E1]. apply Nat.ltb_ge in E1.
      destruct (MerchantExtractor._should_exclude (strip (text r))) eqn:E2.
      * rewrite IH. split.
        -- intros (r' & Hin & H). exists r'. split; [right; exact Hin | exact H].
        -- intros (r' & [<-|Hin] & Ht & Hl & Hx & H);
             [subst t; congruence | exists r'; split; [exact Hin | tauto]].
      * simpl. rewrite IH. split.
        -- intros [H|(r' & Hin & H)].
           ++ inversion H; subst. exists r. repeat split; auto.
           ++ exists r'. split; [right; exact Hin | exact H].
        -- intros (r' & [<-|Hin] & Ht & Hl & Hx & Hs & Hc).
           ++ left. subst. reflexivity.
           ++ right. exists r'. repeat split; assumption.
Qed.

Lemma score_as_worded (t : str) (r : OCRResult) :
  (MerchantExtractor._score_merchant_candidate t r
   == MerchantSpec.score t (line_index r))%Q.
Proof.
  unfold MerchantExtractor._score_merchant_candidate, MerchantSpec.score,
    MerchantSpec.bonus.
  destruct (isupper t && (3 <? length t)%nat)%bool,
           ((3 <=? length t) && (length t <=? 50))%bool%nat,
           (isdigit t), (any_alpha t); ring.
Qed.

Lemma proximity_bonus_range (i : Z) :
  (0 <= i)%Z -> (0 <= Z.max 0 (3 - i) <= 3)%Z.
Proof. lia. Qed.

Lemma extract_best (results : list OCRResult) (top_n : nat) :
  let cands := MerchantExtractor.candidates_of (firstn top_n results) in
  cands <> [] ->
  exists best,
    In best cands /\
    MerchantExtractor.extract results top_n = Some (fst (fst best)) /\
    forall c, In c cands ->
              MerchantSpec.key_le (MerchantExtractor.candidate_key c)
                                  (MerchantExtractor.candidate_key best).
Proof.
  intros cands Hne. unfold MerchantExtractor.extract.
  destruct results as [|r0 results].
  - exfalso. apply Hne. unfold cands. rewrite firstn_nil. reflexivity.
  - fold cands. destruct cands as [|c0 cs] eqn:Ec; [contradiction|].
    unfold py_sort.
    destruct (sort_by _ _ (c0 :: cs)) as [|best rest] eqn:Es.
    + exfalso. eapply sort_by_nonempty; [|exact Es]. discriminate.
    + destruct (sort_by_head _ _ _ _ pair_gtb_asym pair_gtb_ge_trans _ _ _ Es)
        as [Hin Hall].
      exists best. split; [exact Hin|]. split; [reflexivity|].
      intros c Hc. destruct (Hall c Hc) as [->|Hb].
      * apply key_le_refl.
      * unfold before in Hb. apply pair_ltb_false in Hb. exact Hb.
Qed.

(** In the header example no line is excluded: the address does not match
    its pattern ([\b] fails between the dot and the space), the date line
    does not match the date pattern (text follows the date).  They lose on
    score. *)
Lemma header_lines_are_candidates (o0 o1 o2 : nat) (c0 c1 c2 : Q)
      (b0 b1 b2 : list (Q * Q)) :
  MerchantExtractor.candidates_of
    [MkOCR o0 (py "INDOMARET") c0 b0 0;
     MkOCR o1 (py "Jl. Sudirman 123") c1 b1 1;
     MkOCR o2 (py "11/01/2026 14:30") c2 b2 2]
  = [(py "INDOMARET", 7%Q, c0);
     (py "Jl. Sudirman 123", 4%Q, c1);
     (py "11/01/2026 14:30", 2%Q, c2)].
Proof. vm_compute. reflexivity. Qed.

(** C5. For the three header detections, whatever their identities,
    confidences and boxes, and whatever [top_n_lines], the merchant
    extractor returns INDOMARET.  In general, when some candidate among the
    first [top_n_lines] detections survives the exclusions, the result is
    the text of a surviving candidate that no other one beats: every
    candidate has a lower score, or the same score and a confidence that is
    not higher.  The candidates are exactly the stripped texts of at least
    two characters that no exclusion pattern matches, and the score is the
    sum of the five terms.  Three receipts show the rule at work: a heading
    [STRUK BELANJA] in capitals on the first line is excluded, and the name
    below it is returned although it scores less than the heading would; a
    name in capitals on the second line beats a line in small letters above
    it; and of the two candidates of equal score the one with the higher
    confidence is returned, wherever it stands. *)
Theorem merchant_highest_score :
  (forall (o0 o1 o2 : nat) (c0 c1 c2 : Q) (b0 b1 b2 : list (Q * Q)) (top_n : nat),
      MerchantExtractor.extract
        [MkOCR o0 (py "INDOMARET") c0 b0 0;
         MkOCR o1 (py "Jl. Sudirman 123") c1 b1 1;
         MkOCR o2 (py "11/01/2026 14:30") c2 b2 2] top_n
      = Some (py "INDOMARET")) /\
  (forall (results : list OCRResult) (top_n : nat),
      MerchantExtractor.candidates_of (firstn top_n results) <> [] ->
      exists (name : str) (score conf : Q),
        In (name, score, conf) (MerchantExtractor.candidates_of (firstn top_n results)) /\
        MerchantExtractor.extract results top_n = Some name /\
        forall (t : str) (s c : Q),
          In (t, s, c) (MerchantExtractor.candidates_of (firstn top_n results)) ->
          (s < score)%Q \/ ((s == score)%Q /\ (c <= conf)%Q)) /\
  (forall (results : list OCRResult) (t : str) (s c : Q),
      In (t, s, c) (MerchantExtractor.candidates_of results) <->
      exists r, In r results /\ t = strip (text r) /\ (2 <= length t)%nat /\
                MerchantExtractor._should_exclude t = false /\
                s = MerchantExtractor._score_merchant_candidate t r /\
                c = confidence r) /\
  (forall (t : str) (r : OCRResult),
      (MerchantExtractor._score_merchant_candidate t r
       == MerchantSpec.score t (line_index r))%Q /\
      ((0 <= line_index r)%Z -> (0 <= Z.max 0 (3 - line_index r) <= 3)%Z)) /\
  (MerchantExtractor._score_merchant_candidate
     (py "STRUK BELANJA") (MkOCR 0 (py "STRUK BELANJA") (9 # 10) [] 0) == 7)%Q /\
  MerchantExtractor.candidates_of
    [MkOCR 0 (py "STRUK BELANJA") (9 # 10) [] 0; MkOCR 1 (py "Toko Maju") (8 # 10) [] 1]
  = [(py "Toko Maju", 4%Q, (8 # 10)%Q)] /\
  MerchantExtractor.extract
    [MkOCR 0 (py "STRUK BELANJA") (9 # 10) [] 0; MkOCR 1 (py "Toko Maju") (8 # 10) [] 1]
    MerchantExtractor.default_top_n_lines
  = Some (py "Toko Maju") /\
  MerchantExtractor.candidates_of
    [MkOCR 0 (py "toko kecil") (9 # 10) [] 0; MkOCR 1 (py "INDOMARET") (8 # 10) [] 1]
  = [(py "toko kecil", 5%Q, (9 # 10)%Q); (py "INDOMARET", 6%Q, (8 # 10)%Q)] /\
  MerchantExtractor.extract
    [MkOCR 0 (py "toko kecil") (9 # 10) [] 0; MkOCR 1 (py "INDOMARET") (8 # 10) [] 1]
    MerchantExtractor.default_top_n_lines
  = Some (py "INDOMARET") /\
  (forall lo hi : Q,
      (lo < hi)%Q ->
      MerchantExtractor.candidates_of
        [MkOCR 0 (py "toko maju") lo [] 0; MkOCR 1 (py "12345") 1 [] 1;
         MkOCR 2 (py "INDOMARET") hi [] 2]
      = [(py "toko maju", 5%Q, lo); (py "12345", (-2)%Q, 1%Q); (py "INDOMARET", 5%Q, hi)] /\
      MerchantExtractor.extract
        [MkOCR 0 (py "toko maju") lo [] 0; MkOCR 1 (py "12345") 1 [] 1;
         MkOCR 2 (py "INDOMARET") hi [] 2]
        MerchantExtractor.default_top_n_lines
      = Some (py "INDOMARET") /\
      MerchantExtractor.extract
        [MkOCR 0 (py "toko maju") hi [] 0; MkOCR 1 (py "12345") 1 [] 1;
         MkOCR 2 (py "INDOMARET") lo [] 2]
        MerchantExtractor.default_top_n_lines
      = Some (py "toko maju")).
Proof.
  split; [|split; [|split; [|split]]].
  - intros o0 o1 o2 c0 c1 c2 b0 b1 b2 top_n.
    unfold MerchantExtractor.extract.
    destruct top_n as [|[|[|top_n]]]; cbn [firstn]; try rewrite firstn_nil;
      vm_compute; reflexivity.
  - intros results top_n Hne.
    destruct (extract_best results top_n Hne) as ([[name score] conf] & Hin & He & Hall).
    exists name, score, conf. split; [exact Hin|]. split; [exact He|].
    intros t s c Hc. exact (Hall (t, s, c) Hc).
  - exact candidates_of_In.
  - intros t r. split; [apply score_as_worded | apply proximity_bonus_range].
  - split; [vm_compute; reflexivity|].
    split; [vm_compute; reflexivity|]. split; [vm_compute; reflexivity|].
    split; [vm_compute; reflexivity|]. split; [vm_compute; reflexivity|].
    intros lo hi Hlt.
    split; [vm_compute; reflexivity|].
    assert (K1 : pair_ltb (5%Q, lo) (5%Q, hi) = true).
    { unfold pair_ltb. cbn [fst snd]. change (Qeq_bool 5 5) with true. cbv iota.
      apply Qltb_true. exact Hlt. }
    assert (K2 : pair_ltb (5%Q, hi) (5%Q, lo) = false).
    { unfold pair_ltb. cbn [fst snd]. change (Qeq_bool 5 5) with true. cbv iota.
      apply Qltb_false. apply Qlt_le_weak. exact Hlt. }
    assert (K3 : forall c : Q, pair_ltb (5%Q, c) ((-2)%Q, 1%Q) = false)
      by (intros c; reflexivity).
    assert (K4 : forall c : Q, pair_ltb ((-2)%Q, 1%Q) (5%Q, c) = true)
      by (intros c; reflexivity).
    split.
    + unfold MerchantExtractor.extract, MerchantExtractor.default_top_n_lines.
      cbn [firstn].
      replace (MerchantExtractor.candidates_of
                 [MkOCR 0 (py "toko maju") lo [] 0; MkOCR 1 (py "12345") 1 [] 1;
                  MkOCR 2 (py "INDOMARET") hi [] 2])
        with [(py "toko maju", 5%Q, lo); (py "12345", (-2)%Q, 1%Q);
              (py "INDOMARET", 5%Q, hi)] by (vm_compute; reflexivity).
      unfold py_sort, sort_by, MerchantExtractor.candidate_key.
      cbn [fold_right insert_by fst snd].
      repeat first [rewrite K1 | rewrite K2 | rewrite K3 | rewrite K4
                   | progress cbn [insert_by fst snd]].
      reflexivity.
    + unfold MerchantExtractor.extract, MerchantExtractor.default_top_n_lines.
      cbn [firstn].
      replace (MerchantExtractor.candidates_of
                 [MkOCR 0 (py "toko maju") hi [] 0; MkOCR 1 (py "12345") 1 [] 1;
                  MkOCR 2 (py "INDOMARET") lo [] 2])
        with [(py "toko maju", 5%Q, hi); (py "12345", (-2)%Q, 1%Q);
              (py "INDOMARET", 5%Q, lo)] by (vm_compute; reflexivity).
      unfold py_sort, sort_by, MerchantExtractor.candidate_key.
      cbn [fold_right insert_by fst snd].
      repeat first [rewrite K1 | rewrite K2 | rewrite K3 | rewrite K4
                   | progress cbn [insert_by fst snd]].
      reflexivity.
Qed.

Lemma merchant_highest_score_witness :
  let results := [MkOCR 0 (py "TOKO MAJU") (9 # 10) [] 0;
                  MkOCR 1 (py "Kasir: Budi") (8 # 10) [] 1] in
  exists (name : str) (score conf : Q),
    In (name, score, conf) (MerchantExtractor.candidates_of (firstn 5 results)) /\
    MerchantExtractor.extract results 5 = Some name /\
    forall (t : str) (s c : Q),
      In (t, s, c) (MerchantExtractor.candidates_of (firstn 5 results)) ->
      (s < score)%Q \/ ((s == score)%Q /\ (c <= conf)%Q).
Proof.
  intros results.
  apply (proj1 (proj2 merchant_highest_score) results 5%nat).
  vm_compute. discriminate.
Defined.

(** ** The currency parser never raises *)

Ltac inv H := inversion H; subst; clear H.

Ltac inv_matches :=
  unfold plus, star, digits, digit_ in *;
  repeat match goal with
    | H : matches _ (RSeq _ _) _ _ _ _ _ |- _ => inv H
    | H : matches _ (RGroup _ _) _ _ _ _ _ |- _ => inv H
    | H : matches _ (RRep _ _ _ _) _ _ _ _ _ |- _ => inv H
    | H : matches _ (RChr _) _ _ _ _ _ |- _ => inv H
    | H : matches _ (RSet _ _) _ _ _ _ _ |- _ => inv H
    | H : matches _ RBol _ _ _ _ _ |- _ => inv H
    | H : matches _ REol _ _ _ _ _ |- _ => inv H
    | H : matches _ RWordB _ _ _ _ _ |- _ => inv H
    | H : matches _ REmpty _ _ _ _ _ |- _ => inv H
    end.

Lemma split_length (c : ascii) (s : str) : length (split c s) = S (count c s).
Proof.
  induction s as [|x s IH]; simpl; [reflexivity|].
  destruct (Ascii.eqb x c); simpl.
  - rewrite IH. reflexivity.
  - destruct (split c s) as [|p ps]; simpl in *; [discriminate | exact IH].
Qed.

Lemma index_at_split_1 (c : ascii) (s : str) :
  count c s = 1%nat -> exists p1, index_at (split c s) 1 = Ok p1.
Proof.
  intros H. pose proof (split_length c s) as L. rewrite H in L.
  destruct (split c s) as [|p0 [|p1 ps]]; try discriminate.
  exists p1. reflexivity.
Qed.

Lemma decimal_cases (ip fp : str) :
  (exists q, decimal ip fp = Ok q) \/ decimal ip fp = Raise ValueError.
Proof.
  unfold decimal. destruct (_ && _)%bool; [left; eexists; reflexivity | right; reflexivity].
Qed.

Lemma py_float_cases (s : str) :
  (exists q, py_float s = Ok q) \/ py_float s = Raise ValueError.
Proof.
  unfold py_float. destruct (split "." s) as [|ip [|fp [|? ?]]];
    auto using decimal_cases.
Qed.

Lemma to_float_caught (s : str) :
  exists v, except_ValueError (CurrencyParser.to_float s) = Ok v.
Proof.
  unfold CurrencyParser.to_float.
  destruct (py_float_cases s) as [[q ->] | ->]; simpl; eexists; reflexivity.
Qed.

Lemma mixed_caught (s : str) :
  exists v, except_ValueError (CurrencyParser.mixed s) = Ok v.
Proof.
  unfold CurrencyParser.mixed. destruct (_ <? _)%Z; apply to_float_caught.
Qed.

Lemma _parse_number_string_ok (number_str : str) :
  exists v, CurrencyParser._parse_number_string number_str = Ok v.
Proof.
  unfold CurrencyParser._parse_number_string.
  set (s := re_sub_del false (ast CurrencyParser.WHITESPACE) number_str).
  destruct (is_empty s); [eexists; reflexivity|].
  destruct ((count "." s =? 0)%nat && (count "," s =? 0)%nat)%bool;
    [apply to_float_caught|].
  destruct ((count "." s =? 0)%nat && (count "," s =? 1)%nat)%bool eqn:E1.
  { apply andb_true_iff in E1. destruct E1 as [_ E1]. apply Nat.eqb_eq in E1.
    destruct (index_at_split_1 "," s E1) as [p1 ->]. simpl.
    destruct (length p1 =? 2)%nat; [apply to_float_caught|].
    destruct (length p1 =? 3)%nat; apply to_float_caught. }
  destruct ((count "." s =? 1)%nat && (count "," s =? 0)%nat)%bool eqn:E2.
  { apply andb_true_iff in E2. destruct E2 as [E2 _]. apply Nat.eqb_eq in E2.
    destruct (index_at_split_1 "." s E2) as [p1 ->]. simpl.
    destruct (length p1 =? 2)%nat; [apply to_float_caught|].
    destruct (length p1 =? 3)%nat; apply to_float_caught. }
  destruct ((1 <=? count "." s)%nat && (1 <=? count "," s)%nat)%bool;
    [apply mixed_caught|].
  destruct ((1 <? count "." s)%nat && (count "," s =? 0)%nat)%bool;
    [apply to_float_caught|].
  destruct ((count "." s =? 0)%nat && (1 <? count "," s)%nat)%bool;
    [apply to_float_caught | apply mixed_caught].
Qed.

Lemma in_set_not_digit (c : ascii) :
  in_set false true [CDigit] c = true -> non_digit c.
Proof.
  unfold in_set, in_items, non_digit. simpl.
  destruct (is_digit c); [discriminate | reflexivity].
Qed.

Lemma at_end_non_digit (s : str) : at_end s = true -> Forall non_digit s.
Proof.
  destruct s as [|c [|? ?]]; simpl; try discriminate; [constructor|].
  intros H. apply Ascii.eqb_eq in H. subst c. constructor; [reflexivity | constructor].
Qed.

(** What a match of [NUMBER_PATTERN] looks like: digit-free text, a run of
    number characters, which is group 1, and digit-free text again. *)
Lemma number_pattern_shape (s : str) (m : match_obj) :
  re_match false (ast CurrencyParser.NUMBER_PATTERN) s = Some m ->
  exists pre run post,
    s = pre ++ run ++ post /\
    Forall non_digit pre /\ Forall number_char run /\ run <> [] /\
    Forall non_digit post /\
    get_cap 1 (m_caps m) = Some run.
Proof.
  unfold re_match. intros H. apply match_at_sound in H.
  destruct H as [Hs M]. simpl in M.
  inv_matches.
  lazymatch goal with
  | Hg : [] ++ ?pre ++ ?run ++ ?post ++ [] = m_group0 m,
    Hpre : Forall _ ?pre, Hrun : Forall _ ?run, Hpost : Forall _ ?post,
    Hlen : (1 <= length ?run)%nat, Hend : at_end _ = true |- _ =>
      exists pre, run, (post ++ m_after m); rewrite <- Hg; repeat split;
      [ simpl; rewrite app_nil_r, <- !app_assoc; reflexivity
      | eapply Forall_impl; [|exact Hpre]; apply in_set_not_digit
      | exact Hrun
      | intro E; subst run; simpl in Hlen; lia
      | apply Forall_app; split;
        [ eapply Forall_impl; [|exact Hpost]; apply in_set_not_digit
        | apply at_end_non_digit; exact Hend ] ]
  end.
Qed.

Lemma parse_ok (currency_string : option str) :
  exists v, CurrencyParser.parse currency_string = Ok (v, raw_of currency_string).
Proof.
  destruct currency_string as [[|c cs]|]; try (exists None; reflexivity).
  unfold CurrencyParser.parse, raw_of.
  set (original := strip (c :: cs)).
  destruct (is_empty _); [exists None; reflexivity|].
  destruct (re_match false _ _) as [m|] eqn:E; [|exists None; reflexivity].
  apply number_pattern_shape in E.
  destruct E as (pre & run & post & _ & _ & _ & _ & _ & Hcap).
  unfold CurrencyParser.group1_strip. rewrite Hcap. simpl.
  destruct (_parse_number_string_ok (strip run)) as [[v|] ->]; simpl;
    eexists; reflexivity.
Qed.

(** ** The total extractor *)

Arguments CurrencyParser.parse : simpl never.

Section TotalFacts.

Import TotalAmountExtractor TotalSpec.

Lemma for_first_if {A B : Type} (c : A -> bool) (X : res (option B)) (l : list A) :
  for_first (fun x => if c x then X else Ok None) l
  = if existsb c l then X else Ok None.
Proof.
  induction l as [|x l IH]; simpl; [reflexivity|].
  destruct (c x); simpl.
  - destruct X as [[b|]|e]; try reflexivity.
    rewrite IH. destruct (existsb c l); reflexivity.
  - exact IH.
Qed.

Lemma amount_positive (v : Q) : Qleb 100 v = true -> Qltb 0 v = true.
Proof.
  rewrite Qleb_true, Qltb_true. intros H.
  eapply Qlt_le_trans; [|exact H]. reflexivity.
Qed.

Lemma scan_keyword_line_amount (line : list OCRResult) :
  scan_keyword_line line
  = Ok (option_map (with_confidence (9 # 10)) (first_amount (rev line))).
Proof.
  unfold scan_keyword_line, first_amount.
  induction (rev line) as [|r rs IH]; simpl; [reflexivity|].
  unfold amount.
  destruct (parse_ok (Some (text r))) as [[v|] ->]; simpl; [|exact IH].
  destruct (Qleb 100 v) eqn:E.
  - rewrite (amount_positive v E). reflexivity.
  - destruct (Qltb 0 v); exact IH.
Qed.

Lemma scan_next_line_amount (next_line : list OCRResult) :
  scan_next_line next_line
  = Ok (option_map (with_confidence (85 # 100)) (first_amount next_line)).
Proof.
  unfold scan_next_line, first_amount.
  induction next_line as [|r rs IH]; simpl; [reflexivity|].
  unfold amount.
  destruct (parse_ok (Some (text r))) as [[v|] ->]; simpl; [|exact IH].
  destruct (Qleb 100 v); [reflexivity | exact IH].
Qed.

Lemma line_eqb_refl (line : list OCRResult) : line_eqb line line = true.
Proof.
  induction line as [|r line IH]; simpl; [reflexivity|].
  unfold result_eqb. rewrite Nat.eqb_refl. exact IH.
Qed.

Lemma index_of_In (line : list OCRResult) (text_lines : list (list OCRResult)) :
  In line text_lines ->
  exists i, index_of line text_lines = Ok i /\ (i < length text_lines)%nat.
Proof.
  induction text_lines as [|l ls IH]; simpl; [contradiction|].
  intros Hin. destruct (line_eqb l line) eqn:E.
  - exists 0%nat. split; [reflexivity | lia].
  - destruct Hin as [->|Hin]; [rewrite line_eqb_refl in E; discriminate|].
    destruct (IH Hin) as (i & -> & Hi). exists (S i). split; [reflexivity | lia].
Qed.

Lemma index_at_lt {A : Type} (l : list A) (i : nat) :
  (i < length l)%nat -> exists a, index_at l i = Ok a.
Proof.
  intros H. unfold index_at. destruct (nth_error l i) eqn:E.
  - eexists; reflexivity.
  - apply nth_error_None in E. lia.
Qed.

(** What [on_keyword] does once the position of the line is known. *)
Lemma on_keyword_at (text_lines : list (list OCRResult)) (line : list OCRResult)
      (i : nat) :
  index_of line text_lines = Ok i ->
  on_keyword text_lines line
  = match first_amount (rev line) with
    | Some a => Ok (Some (with_confidence (9 # 10) a))
    | None =>
        match nth_error text_lines (i + 1) with
        | Some next_line =>
            Ok (option_map (with_confidence (85 # 100)) (first_amount next_line))
        | None => Ok None
        end
    end.
Proof.
  intros Hi. unfold on_keyword. rewrite scan_keyword_line_amount. simpl.
  destruct (first_amount (rev line)); simpl; [reflexivity|].
  rewrite Hi. simpl.
  destruct (i + 1 <? length text_lines)%nat eqn:E.
  - apply Nat.ltb_lt in E. unfold index_at.
    destruct (nth_error text_lines (i + 1)) eqn:N.
    + simpl. apply scan_next_line_amount.
    + apply nth_error_None in N. lia.
  - apply Nat.ltb_ge in E. apply nth_error_None in E. rewrite E. reflexivity.
Qed.

Lemma on_line_eq (text_lines : list (list OCRResult)) (line : list OCRResult) :
  on_line text_lines line
  = if keyword_line line then on_keyword text_lines line else Ok None.
Proof.
  unfold on_line, keyword_line, excluded.
  destruct (has_keyword ExtractionConfig.EXCLUDE_KEYWORDS _); [reflexivity|].
  cbn [negb andb]. unfold has_keyword.
  apply (for_first_if (fun kw => contains kw (line_text_of line))).
Qed.

Lemma with_confidence_unit (c : Q) (a : str * Q) :
  (0 <= c <= 1)%Q -> unit_confidence (with_confidence c a).
Proof. intros H. exact H. Qed.

Lemma on_line_ok (text_lines : list (list OCRResult)) (line : list OCRResult) :
  In line text_lines ->
  exists o, on_line text_lines line = Ok o /\
            forall r, o = Some r -> unit_confidence r /\ value_of r <> None.
Proof.
  intros Hin. rewrite on_line_eq.
  destruct (keyword_line line); [|exists None; split; [reflexivity | discriminate]].
  destruct (index_of_In line text_lines Hin) as (i & Hi & _).
  rewrite (on_keyword_at _ _ _ Hi).
  destruct (first_amount (rev line)) as [a|].
  - eexists; split; [reflexivity|]. intros r E. inv E.
    split; [split; discriminate | discriminate].
  - destruct (nth_error text_lines (i + 1)) as [next|];
      [|exists None; split; [reflexivity | discriminate]].
    eexists; split; [reflexivity|]. intros r E.
    destruct (first_amount next); inv E.
    split; [split; discriminate | discriminate].
Qed.

Lemma for_first_ok {A B : Type} (P : B -> Prop) (body : A -> res (option B))
      (l : list A) :
  (forall x, In x l -> exists o, body x = Ok o /\ forall b, o = Some b -> P b) ->
  exists o, for_first body l = Ok o /\ forall b, o = Some b -> P b.
Proof.
  induction l as [|x l IH]; intros H; simpl.
  - exists None. split; [reflexivity | discriminate].
  - destruct (H x (or_introl eq_refl)) as (o & -> & Ho).
    destruct o as [b|].
    + exists (Some b). split; [reflexivity | exact Ho].
    + apply IH. intros y Hy. apply H. right. exact Hy.
Qed.

Lemma no_total_unit : unit_confidence no_total.
Proof. split; discriminate. Qed.

Lemma _extract_by_keyword_ok (text_lines : list (list OCRResult)) :
  exists r, _extract_by_keyword text_lines = Ok r /\ unit_confidence r.
Proof.
  unfold _extract_by_keyword.
  destruct (for_first_ok (fun r => unit_confidence r /\ value_of r <> None)
                         (on_line text_lines) (rev text_lines))
    as (o & -> & Ho).
  { intros x Hx. apply on_line_ok. apply in_rev. exact Hx. }
  simpl. destruct o as [r|].
  - exists r. split; [reflexivity | apply (Ho r eq_refl)].
  - exists no_total. split; [reflexivity | apply no_total_unit].
Qed.

Lemma amounts_of_ok (keep : OCRResult -> bool) (results : list OCRResult) :
  exists l, amounts_of keep results = Ok l.
Proof.
  induction results as [|r rs [l IH]]; simpl; [eexists; reflexivity|].
  destruct (parse_ok (Some (text r))) as [[v|] ->]; simpl; rewrite IH; simpl.
  - destruct (Qleb 100 v && keep r)%bool; eexists; reflexivity.
  - eexists; reflexivity.
Qed.

Lemma amounts_of_lines_ok (ls : list (list OCRResult)) :
  exists l, amounts_of_lines ls = Ok l.
Proof.
  induction ls as [|line ls [l IH]]; cbn [amounts_of_lines]; [eexists; reflexivity|].
  destruct (has_keyword ExtractionConfig.EXCLUDE_KEYWORDS (line_text_of line));
    [exists l; exact IH|].
  destruct (amounts_of_ok (fun _ => true) line) as [here ->]. simpl.
  rewrite IH. simpl. eexists; reflexivity.
Qed.

Lemma best_of_unit (amounts : list (str * Q * Q)) (conf : Q) :
  (0 <= conf <= 1)%Q -> unit_confidence (best_of amounts conf).
Proof.
  intros H. unfold best_of. destruct (py_sort _ _ _ _); [apply no_total_unit | exact H].
Qed.

(** The total extractor of the repository returns, with a confidence in
    [0,1]. *)
Lemma total_extract_ok (ocr_results : list OCRResult)
      (text_lines : list (list OCRResult)) :
  exists r, extract ocr_results text_lines = Ok r /\ unit_confidence r.
Proof.
  unfold extract. destruct ocr_results as [|r0 rs].
  - exists no_total. split; [reflexivity | apply no_total_unit].
  - destruct (_extract_by_keyword_ok text_lines) as (kr & -> & Hk). simpl.
    destruct (value_of kr); [exists kr; split; [reflexivity | exact Hk]|].
    assert (Hp : exists pr, _extract_by_position (r0 :: rs) text_lines = Ok pr
                            /\ unit_confidence pr).
    { unfold _extract_by_position. destruct text_lines as [|l ls].
      - exists no_total. split; [reflexivity | apply no_total_unit].
      - destruct (amounts_of_lines_ok (skipn (int_times_07 (length (l :: ls))) (l :: ls)))
          as [am ->].
        simpl. eexists; split; [reflexivity|]. apply best_of_unit. split; discriminate. }
    destruct Hp as (pr & -> & Hp). simpl.
    destruct (value_of pr); [exists pr; split; [reflexivity | exact Hp]|].
    unfold _extract_max_value.
    destruct (amounts_of_ok (fun result => negb (_looks_like_date_or_id (text result)))
                            (r0 :: rs)) as [am ->].
    simpl.
    destruct (value_of (best_of am (6 # 10))).
    + eexists; split; [reflexivity|]. apply best_of_unit. split; discriminate.
    + exists no_total. split; [reflexivity | apply no_total_unit].
Qed.

End TotalFacts.

(** ** The date extractor returns *)

Lemma bind_caught {A B : Type} (m : res A) (f : A -> res B) :
  caught_by_parse m -> (forall a, caught_by_parse (f a)) -> caught_by_parse (bind m f).
Proof.
  intros Hm Hf. destruct m as [a|e]; simpl; [apply Hf | exact Hm].
Qed.

Lemma py_int_caught (s : str) : caught_by_parse (py_int s).
Proof. unfold py_int. destruct (isdigit s); exact I. Qed.

Lemma index_at_caught {A : Type} (l : list A) (i : nat) : caught_by_parse (index_at l i).
Proof. unfold index_at. destruct (nth_error l i); exact I. Qed.

Lemma date_new_caught (y m d : Z) : caught_by_parse (date_new y m d).
Proof. unfold date_new. destruct (_ && _)%bool; exact I. Qed.

Lemma nums_of_caught (gs : list str) : caught_by_parse (DateExtractor.nums_of gs).
Proof.
  induction gs as [|g gs IH]; simpl; [exact I|].
  destruct (isdigit g); [|exact IH].
  apply bind_caught; [apply py_int_caught|]. intros n.
  apply bind_caught; [exact IH|]. intros ns. exact I.
Qed.

Lemma except_parse_ok {A : Type} (m : res (option A)) :
  caught_by_parse m -> exists o, DateExtractor.except_parse m = Ok o.
Proof.
  destruct m as [o|[]]; simpl; intros H; try contradiction; eexists; reflexivity.
Qed.

Ltac caught :=
  repeat first
    [ exact I
    | apply bind_caught; [|intro]
    | apply py_int_caught
    | apply index_at_caught
    | apply date_new_caught
    | apply nums_of_caught
    | match goal with
      | |- caught_by_parse (if ?b then _ else _) => destruct b
      | |- caught_by_parse (match ?o with Some _ => _ | None => _ end) => destruct o
      | |- caught_by_parse (let '(_, _) := ?p in _) => destruct p as [[? ?] ?]
      end ].

Lemma _parse_date_match_ok (m : match_obj) (p : pattern) :
  exists o, DateExtractor._parse_date_match m p = Ok o.
Proof.
  unfold DateExtractor._parse_date_match. apply except_parse_ok.
  caught.
Qed.

Lemma _is_valid_date_ok (today d : date) :
  (6 <= year today <= 9999)%Z ->
  exists b, DateExtractor._is_valid_date today d = Ok b.
Proof.
  intros Hy. rewrite (_is_valid_date_min_date today d Hy). eexists; reflexivity.
Qed.

Lemma try_pattern_ok (today : date) (full_text : str) (p : pattern) :
  (6 <= year today <= 9999)%Z ->
  exists o, DateExtractor.try_pattern today full_text p = Ok o.
Proof.
  intros Hy. unfold DateExtractor.try_pattern.
  destruct (re_search true (ast p) full_text) as [m|]; [|eexists; reflexivity].
  destruct (_parse_date_match_ok m p) as [[d|] ->]; simpl; [|eexists; reflexivity].
  destruct (_is_valid_date_ok today d Hy) as [[|] ->]; simpl; eexists; reflexivity.
Qed.

Lemma date_extract_ok (today : date) (ocr_results : list OCRResult) :
  (6 <= year today <= 9999)%Z ->
  exists r, DateExtractor.extract today ocr_results = Ok r.
Proof.
  intros Hy. unfold DateExtractor.extract, DateExtractor.extract_from.
  destruct (for_first_ok (fun _ => True)
              (DateExtractor.try_pattern today (DateExtractor.full_text_of ocr_results))
              ExtractionConfig.DATE_PATTERNS) as (o & -> & _).
  { intros p _. destruct (try_pattern_ok today (DateExtractor.full_text_of ocr_results) p Hy)
      as [o ->]. exists o. split; [reflexivity | trivial]. }
  simpl. destruct o as [[raw d]|]; eexists; reflexivity.
Qed.

(** ** The orchestrator *)

Lemma Qsum_from_bounds (l : list Q) :
  Forall (fun x => (0 <= x <= 1)%Q) l ->
  forall a : Q, (a <= fold_left Qplus l a <= a + len_Q l)%Q.
Proof.
  induction 1 as [|x l Hx Hl IH]; intros a.
  - cbn [fold_left]. change (len_Q (@nil Q)) with 0%Q. lra.
  - simpl fold_left. specialize (IH (a + x)%Q).
    assert (E : (len_Q (x :: l) == len_Q l + 1)%Q).
    { unfold len_Q. simpl length. rewrite Nat2Z.inj_succ, <- Z.add_1_r.
      rewrite inject_Z_plus. reflexivity. }
    rewrite E. lra.
Qed.

Lemma length_map_len_Q {A B : Type} (f : A -> B) (l : list A) :
  len_Q (map f l) = len_Q l.
Proof. unfold len_Q. rewrite length_map. reflexivity. Qed.

Lemma mean_confidence_unit (ocr_results : list OCRResult) :
  Forall (fun r => (0 <= confidence r <= 1)%Q) ocr_results ->
  (0 <= OrchestratorSpec.mean_confidence ocr_results <= 1)%Q.
Proof.
  intros H. unfold OrchestratorSpec.mean_confidence.
  destruct ocr_results as [|r rs]; [lra|].
  assert (Hpos : (0 < len_Q (r :: rs))%Q).
  { unfold len_Q. simpl length. rewrite Nat2Z.inj_succ.
    change 0%Q with (inject_Z 0). rewrite <- Zlt_Qlt. lia. }
  assert (Hall : Forall (fun x => (0 <= x <= 1)%Q) (map confidence (r :: rs))).
  { apply Forall_map. exact H. }
  pose proof (Qsum_from_bounds _ Hall 0%Q) as B. fold (Qsum (map confidence (r :: rs))) in B.
  rewrite length_map_len_Q in B.
  split.
  - apply Qle_shift_div_l; [exact Hpos | lra].
  - apply Qle_shift_div_r; [exact Hpos | lra].
Qed.

Lemma round_half_even_cases (q : Q) :
  CurrencyParser.round_half_even q = Qfloor q \/
  (CurrencyParser.round_half_even q = (Qfloor q + 1)%Z /\
   (inject_Z (Qfloor q) + (1 # 2) <= q)%Q).
Proof.
  unfold CurrencyParser.round_half_even.
  destruct (Qltb (q - inject_Z (Qfloor q)) (1 # 2)) eqn:E1; [left; reflexivity|].
  apply Qltb_false in E1.
  assert (H : (inject_Z (Qfloor q) + (1 # 2) <= q)%Q) by lra.
  destruct (Qltb (1 # 2) (q - inject_Z (Qfloor q))); [right; split; [reflexivity | exact H]|].
  destruct (Z.even (Qfloor q)); [left; reflexivity | right; split; [reflexivity | exact H]].
Qed.

Lemma round_half_even_nonneg (q : Q) :
  (0 <= q)%Q -> (0 <= CurrencyParser.round_half_even q)%Z.
Proof.
  intros H.
  assert (F : (0 <= Qfloor q)%Z).
  { change 0%Z with (Qfloor 0). apply Qfloor_resp_le. exact H. }
  destruct (round_half_even_cases q) as [-> | [-> _]]; lia.
Qed.

Lemma round_half_even_le (q : Q) (n : Z) :
  (q <= inject_Z n)%Q -> (CurrencyParser.round_half_even q <= n)%Z.
Proof.
  intros H.
  assert (F : (Qfloor q <= n)%Z).
  { rewrite <- (Qfloor_Z n). apply Qfloor_resp_le. exact H. }
  destruct (round_half_even_cases q) as [-> | [-> Hh]]; [exact F|].
  assert (L : (inject_Z (Qfloor q) < inject_Z n)%Q) by lra.
  rewrite <- Zlt_Qlt in L. lia.
Qed.

Lemma round_half_even_comp (p q : Q) :
  (p == q)%Q -> CurrencyParser.round_half_even p = CurrencyParser.round_half_even q.
Proof.
  intros E. unfold CurrencyParser.round_half_even.
  rewrite (Qfloor_comp _ _ E).
  assert (L1 : Qltb (p - inject_Z (Qfloor q)) (1 # 2) = Qltb (q - inject_Z (Qfloor q)) (1 # 2)).
  { destruct (Qltb (q - _) _) eqn:X.
    - apply Qltb_true. apply Qltb_true in X. lra.
    - apply Qltb_false. apply Qltb_false in X. lra. }
  assert (L2 : Qltb (1 # 2) (p - inject_Z (Qfloor q)) = Qltb (1 # 2) (q - inject_Z (Qfloor q))).
  { destruct (Qltb _ (q - _)) eqn:X.
    - apply Qltb_true. apply Qltb_true in X. lra.
    - apply Qltb_false. apply Qltb_false in X. lra. }
  rewrite L1, L2. reflexivity.
Qed.

Lemma py_round_comp (p q : Q) (n : nat) :
  (p == q)%Q -> py_round p n = py_round q n.
Proof.
  intros E. unfold py_round. apply Qred_complete.
  rewrite (round_half_even_comp (p * inject_Z (10 ^ Z.of_nat n))
                                (q * inject_Z (10 ^ Z.of_nat n))).
  - reflexivity.
  - rewrite E. reflexivity.
Qed.

Lemma py_round_3_unit (x : Q) :
  (0 <= x <= 1)%Q -> (0 <= py_round x 3 <= 1)%Q.
Proof.
  intros [H0 H1]. unfold py_round. rewrite Qred_correct.
  change (inject_Z (10 ^ Z.of_nat 3)) with 1000%Q.
  assert (A : (0 <= CurrencyParser.round_half_even (x * 1000))%Z).
  { apply round_half_even_nonneg. lra. }
  assert (B : (CurrencyParser.round_half_even (x * 1000) <= 1000)%Z).
  { apply round_half_even_le. change (inject_Z 1000) with 1000%Q. lra. }
  rewrite Zle_Qle in A, B. change (inject_Z 0) with 0%Q in A.
  change (inject_Z 1000) with 1000%Q in B.
  split.
  - apply Qle_shift_div_l; [reflexivity | lra].
  - apply Qle_shift_div_r; [reflexivity | lra].
Qed.

Lemma round_half_even_near (q : Q) :
  (inject_Z (CurrencyParser.round_half_even q) - (1 # 2) <= q
   <= inject_Z (CurrencyParser.round_half_even q) + (1 # 2))%Q.
Proof.
  pose proof (Qfloor_le q) as L. pose proof (Qlt_floor q) as U.
  rewrite inject_Z_plus in U. change (inject_Z 1) with 1%Q in U.
  unfold CurrencyParser.round_half_even.
  destruct (Qltb (q - inject_Z (Qfloor q)) (1 # 2)) eqn:E1.
  { apply Qltb_true in E1. lra. }
  apply Qltb_false in E1.
  destruct (Qltb (1 # 2) (q - inject_Z (Qfloor q))) eqn:E2.
  { rewrite inject_Z_plus. change (inject_Z 1) with 1%Q. lra. }
  apply Qltb_false in E2.
  destruct (Z.even (Qfloor q)); [lra|].
  rewrite inject_Z_plus. change (inject_Z 1) with 1%Q. lra.
Qed.

Lemma round_half_even_tie (q : Q) :
  (q == inject_Z (CurrencyParser.round_half_even q) - (1 # 2)
   \/ q == inject_Z (CurrencyParser.round_half_even q) + (1 # 2))%Q ->
  Z.even (CurrencyParser.round_half_even q) = true.
Proof.
  pose proof (Qfloor_le q) as L. pose proof (Qlt_floor q) as U.
  rewrite inject_Z_plus in U. change (inject_Z 1) with 1%Q in U.
  unfold CurrencyParser.round_half_even.
  destruct (Qltb (q - inject_Z (Qfloor q)) (1 # 2)) eqn:E1.
  { apply Qltb_true in E1. intros [H | H]; lra. }
  apply Qltb_false in E1.
  destruct (Qltb (1 # 2) (q - inject_Z (Qfloor q))) eqn:E2.
  { apply Qltb_true in E2. rewrite inject_Z_plus. change (inject_Z 1) with 1%Q.
    intros [H | H]; lra. }
  destruct (Z.even (Qfloor q)) eqn:Ev; [intros _; exact Ev|].
  intros _. rewrite Z.even_add, Ev. reflexivity.
Qed.

(** [round(x, 3)] is a number of thousandths nearest to [x], the even
    number of thousandths when two are equally near. *)
Lemma py_round_3_nearest (x : Q) :
  exists k : Z,
    (py_round x 3 == inject_Z k / 1000)%Q /\
    (Qabs (py_round x 3 - x) <= 1 # 2000)%Q /\
    ((Qabs (py_round x 3 - x) == 1 # 2000)%Q -> Z.even k = true).
Proof.
  exists (CurrencyParser.round_half_even (x * 1000)).
  pose proof (round_half_even_near (x * 1000)) as N.
  pose proof (round_half_even_tie (x * 1000)) as T.
  assert (E : (py_round x 3
               == inject_Z (CurrencyParser.round_half_even (x * 1000)) / 1000)%Q).
  { unfold py_round. rewrite Qred_correct. reflexivity. }
  set (k := inject_Z (CurrencyParser.round_half_even (x * 1000))) in *.
  split; [exact E|]. split.
  - rewrite E. apply Qabs_Qle_condition.
    unfold Qdiv. change (/ 1000)%Q with (1 # 1000)%Q. lra.
  - rewrite E. intros H. apply T. fold k.
    revert H. unfold Qdiv. change (/ 1000)%Q with (1 # 1000)%Q.
    apply Qabs_case; intros S H; [left | right]; lra.
Qed.

(** *** Sums and means of floats *)

Lemma len_Q_cons {A : Type} (x : A) (l : list A) : (len_Q (x :: l) == len_Q l + 1)%Q.
Proof.
  unfold len_Q. simpl length. rewrite Nat2Z.inj_succ, <- Z.add_1_r.
  rewrite inject_Z_plus. reflexivity.
Qed.

Lemma inject_Z_succ (k : Z) : (inject_Z (k + 1) == inject_Z k + 1)%Q.
Proof. rewrite inject_Z_plus. reflexivity. Qed.

(** A sum of floats between 0 and 1 stays between 0 and the number of its
    terms, and below 2^53, where the sum of a float and a number up to 1
    rounds back to 2^53. *)
Lemma fsum_from_bounds (l : list Q) :
  Forall (fun x => (0 <= x <= 1)%Q) l ->
  forall (k : Z) (acc : Q),
    (0 <= k)%Z -> (0 <= acc <= inject_Z (Z.min k (2 ^ 53)))%Q ->
    (0 <= fold_left Binary64.fadd l acc
     <= inject_Z (Z.min (k + Z.of_nat (length l)) (2 ^ 53)))%Q.
Proof.
  induction 1 as [|x l Hx Hl IH]; intros k acc Hk Hacc.
  - cbn [fold_left length Z.of_nat]. rewrite Z.add_0_r. exact Hacc.
  - cbn [fold_left length]. rewrite Nat2Z.inj_succ.
    replace (k + Z.succ (Z.of_nat (length l)))%Z
      with ((k + 1) + Z.of_nat (length l))%Z by lia.
    apply IH; [lia|]. unfold Binary64.fadd. split.
    + apply b64_nonneg. lra.
    + destruct (Z_lt_ge_dec k (2 ^ 53)) as [S | B].
      * rewrite Z.min_l in * by lia.
        apply b64_le_exact; [apply b64_integer; lia|].
        rewrite inject_Z_succ. lra.
      * rewrite Z.min_r in * by lia.
        apply Qle_trans with (Binary64.b64 (inject_Z (2 ^ 53) + 1)).
        -- apply b64_le. lra.
        -- vm_compute. discriminate.
Qed.

Lemma fsum_bounds (l : list Q) :
  Forall (fun x => (0 <= x <= 1)%Q) l ->
  (0 <= fsum l <= inject_Z (Z.min (Z.of_nat (length l)) (2 ^ 53)))%Q.
Proof.
  intros H. apply (fsum_from_bounds l H 0 0%Q); [lia|].
  change (inject_Z (Z.min 0 (2 ^ 53))) with 0%Q. lra.
Qed.

Lemma float_len_lower {A : Type} (l : list A) :
  (inject_Z (Z.min (Z.of_nat (length l)) (2 ^ 53)) <= Binary64.b64 (len_Q l))%Q.
Proof.
  apply b64_ge_exact; [apply b64_integer; lia|].
  unfold len_Q. rewrite <- Zle_Qle. lia.
Qed.

(** The float mean of confidences in [0,1] is in [0,1]. *)
Lemma float_mean_unit (ocr_results : list OCRResult) :
  Forall (fun r => (0 <= confidence r <= 1)%Q) ocr_results ->
  (0 <= Orchestrator.ocr_avg_confidence_of ocr_results <= 1)%Q.
Proof.
  intros H. unfold Orchestrator.ocr_avg_confidence_of.
  destruct ocr_results as [|r rs]; [lra|].
  assert (Hall : Forall (fun x => (0 <= x <= 1)%Q) (map confidence (r :: rs))).
  { apply Forall_map. exact H. }
  pose proof (fsum_bounds _ Hall) as B. rewrite length_map in B.
  pose proof (float_len_lower (r :: rs)) as L.
  assert (P : (1 <= inject_Z (Z.min (Z.of_nat (length (r :: rs))) (2 ^ 53)))%Q).
  { change 1%Q with (inject_Z 1). rewrite <- Zle_Qle. simpl length. lia. }
  set (s := fsum (map confidence (r :: rs))) in *.
  set (n := Binary64.b64 (len_Q (r :: rs))) in *.
  unfold Binary64.fdiv. apply b64_unit. split.
  - apply Qle_shift_div_l; lra.
  - apply Qle_shift_div_r; lra.
Qed.

Lemma float_03 : Binary64.b64 (3 # 10) = (5404319552844595 # 18014398509481984)%Q.
Proof. vm_compute. reflexivity. Qed.

Lemma float_07 : Binary64.b64 (7 # 10) = (3152519739159347 # 4503599627370496)%Q.
Proof. vm_compute. reflexivity. Qed.

(** The blend of a mean and a confidence in [0,1] is in [0,1]: the floats
    0.3 and 0.7 add up to 1.0. *)
Lemma blend_unit (a t : Q) :
  (0 <= a <= 1)%Q -> (0 <= t <= 1)%Q ->
  (0 <= Orchestrator.overall_confidence_of a t <= 1)%Q.
Proof.
  intros Ha Ht. unfold Orchestrator.overall_confidence_of.
  unfold Binary64.fadd, Binary64.fmul. rewrite float_03, float_07.
  pose proof (b64_unit t Ht) as Bt.
  set (bt := Binary64.b64 t) in *.
  set (c3 := (5404319552844595 # 18014398509481984)%Q).
  set (c7 := (3152519739159347 # 4503599627370496)%Q).
  assert (P1 : (0 <= Binary64.b64 (a * c3) <= c3)%Q).
  { split; [apply b64_nonneg; subst c3; lra|].
    apply b64_le_exact; [vm_compute; reflexivity | subst c3; lra]. }
  assert (P2 : (0 <= Binary64.b64 (bt * c7) <= c7)%Q).
  { split; [apply b64_nonneg; subst c7; lra|].
    apply b64_le_exact; [vm_compute; reflexivity | subst c7; lra]. }
  split; [apply b64_nonneg; lra|].
  apply Qle_trans with (Binary64.b64 (c3 + c7)).
  - apply b64_le. lra.
  - vm_compute. discriminate.
Qed.

(** Up to 2^20 terms, the float sum differs from the sum by at most 2^-33
    for each term. *)
Lemma fsum_from_error (l : list Q) :
  Forall (fun x => (0 <= x <= 1)%Q) l ->
  forall (k : Z) (acc accx : Q),
    (0 <= k)%Z -> (k + Z.of_nat (length l) <= 2 ^ 20)%Z ->
    (0 <= acc <= inject_Z k)%Q ->
    (Qabs (acc - accx) <= inject_Z k * (1 # 2 ^ 33))%Q ->
    (Qabs (fold_left Binary64.fadd l acc - fold_left Qplus l accx)
     <= inject_Z (k + Z.of_nat (length l)) * (1 # 2 ^ 33))%Q.
Proof.
  induction 1 as [|x l Hx Hl IH]; intros k acc accx Hk Hn Hacc He.
  - cbn [fold_left length Z.of_nat]. rewrite Z.add_0_r. exact He.
  - cbn [fold_left length] in *. rewrite Nat2Z.inj_succ in *.
    replace (k + Z.succ (Z.of_nat (length l)))%Z
      with ((k + 1) + Z.of_nat (length l))%Z by lia.
    assert (K : (inject_Z (k + 1) <= inject_Z (2 ^ 20))%Q) by (rewrite <- Zle_Qle; lia).
    rewrite inject_Z_succ in K. change (inject_Z (2 ^ 20)) with 1048576%Q in K.
    assert (R : (Qabs (Binary64.b64 (acc + x) - (acc + x)) <= 1 # 2 ^ 33)%Q).
    { apply (b64_error_upto (acc + x) 20); [lia|].
      rewrite Qabs_pos by lra. change (Binary64.pow2 20) with 1048576%Q. lra. }
    apply IH; [lia | lia | |]; unfold Binary64.fadd.
    + split; [apply b64_nonneg; lra|].
      apply b64_le_exact; [apply b64_integer; lia|]. rewrite inject_Z_succ. lra.
    + rewrite inject_Z_succ.
      apply Qabs_Qle_condition in He. apply Qabs_Qle_condition in R.
      apply Qabs_Qle_condition. lra.
Qed.

(** Up to a million detections, the float mean is within 2^-33 + 2^-53 of
    the mean. *)
Lemma float_mean_error (ocr_results : list OCRResult) :
  Forall (fun r => (0 <= confidence r <= 1)%Q) ocr_results ->
  (Z.of_nat (length ocr_results) <= 1000000)%Z ->
  (Qabs (Orchestrator.ocr_avg_confidence_of ocr_results
         - OrchestratorSpec.mean_confidence ocr_results)
   <= (1 # 2 ^ 33) + (1 # 2 ^ 53))%Q.
Proof.
  intros H Hn.
  unfold Orchestrator.ocr_avg_confidence_of, OrchestratorSpec.mean_confidence.
  destruct ocr_results as [|r rs]; [vm_compute; discriminate|].
  assert (Hall : Forall (fun x => (0 <= x <= 1)%Q) (map confidence (r :: rs))).
  { apply Forall_map. exact H. }
  pose proof (fsum_bounds _ Hall) as B. rewrite length_map in B.
  pose proof (fsum_from_error _ Hall 0 0%Q 0%Q ltac:(lia)) as E.
  rewrite length_map in E. cbn [Z.add] in E.
  specialize (E ltac:(lia) ltac:(change (inject_Z 0) with 0%Q; lra)
                ltac:(vm_compute; discriminate)).
  fold (fsum (map confidence (r :: rs))) in E.
  fold (Qsum (map confidence (r :: rs))) in E.
  assert (N : Binary64.b64 (len_Q (r :: rs)) = len_Q (r :: rs)).
  { unfold len_Q. apply b64_integer. lia. }
  rewrite N. rewrite Z.min_l in B by lia. fold (len_Q (r :: rs)) in B, E.
  assert (P : (1 <= len_Q (r :: rs))%Q).
  { unfold len_Q. change 1%Q with (inject_Z 1). rewrite <- Zle_Qle. simpl length. lia. }
  set (s := fsum (map confidence (r :: rs))) in *.
  set (sx := Qsum (map confidence (r :: rs))) in *.
  set (n := len_Q (r :: rs)) in *.
  assert (U : (0 <= s / n <= 1)%Q).
  { split; [apply Qle_shift_div_l | apply Qle_shift_div_r]; lra. }
  pose proof (b64_error_unit (s / n) U) as R.
  assert (D : (Qabs (s / n - sx / n) <= 1 # 2 ^ 33)%Q).
  { apply Qabs_Qle_condition in E. apply Qabs_Qle_condition.
    setoid_replace (s / n - sx / n)%Q with ((s - sx) / n)%Q by (field; lra).
    split.
    - apply Qle_shift_div_l; [lra|]. lra.
    - apply Qle_shift_div_r; [lra|]. lra. }
  unfold Binary64.fdiv.
  apply Qabs_Qle_condition in R. apply Qabs_Qle_condition in D.
  apply Qabs_Qle_condition. lra.
Qed.

(** The float blend is within 10^-9 of the blend of the numbers that the
    floats stand for. *)
Lemma blend_error (a m t : Q) :
  (0 <= a <= 1)%Q -> (0 <= t <= 1)%Q ->
  (Qabs (a - m) <= (1 # 2 ^ 33) + (1 # 2 ^ 53))%Q ->
  (Qabs (Orchestrator.overall_confidence_of a t - ((3 # 10) * m + (7 # 10) * t))
   <= 1 # 10 ^ 9)%Q.
Proof.
  intros Ha Ht Hm. unfold Orchestrator.overall_confidence_of.
  unfold Binary64.fadd, Binary64.fmul. rewrite float_03, float_07.
  pose proof (b64_unit t Ht) as Bt. pose proof (b64_error_unit t Ht) as Et.
  set (bt := Binary64.b64 t) in *.
  set (c3 := (5404319552844595 # 18014398509481984)%Q).
  set (c7 := (3152519739159347 # 4503599627370496)%Q).
  assert (U1 : (0 <= a * c3 <= 1)%Q) by (subst c3; lra).
  assert (U2 : (0 <= bt * c7 <= 1)%Q) by (subst c7; lra).
  pose proof (b64_error_unit _ U1) as E1. pose proof (b64_error_unit _ U2) as E2.
  assert (P1 : (0 <= Binary64.b64 (a * c3) <= c3)%Q).
  { split; [apply b64_nonneg; lra|].
    apply b64_le_exact; [vm_compute; reflexivity | subst c3; lra]. }
  assert (P2 : (0 <= Binary64.b64 (bt * c7) <= c7)%Q).
  { split; [apply b64_nonneg; lra|].
    apply b64_le_exact; [vm_compute; reflexivity | subst c7; lra]. }
  set (p1 := Binary64.b64 (a * c3)) in *. set (p2 := Binary64.b64 (bt * c7)) in *.
  assert (U3 : (0 <= p1 + p2 <= 1)%Q) by (subst c3 c7; lra).
  pose proof (b64_error_unit _ U3) as E3.
  change (1 # 2 ^ 53)%Q with (1 # 9007199254740992)%Q in *.
  change (1 # 2 ^ 33)%Q with (1 # 8589934592)%Q in *.
  change (1 # 10 ^ 9)%Q with (1 # 1000000000)%Q.
  apply Qabs_Qle_condition in Hm. apply Qabs_Qle_condition in Et.
  apply Qabs_Qle_condition in E1. apply Qabs_Qle_condition in E2.
  apply Qabs_Qle_condition in E3. apply Qabs_Qle_condition.
  subst c3 c7. lra.
Qed.

Lemma extract_all_repository (today : date) (ocr_results : list OCRResult)
      (text_lines : list (list OCRResult)) :
  (6 <= year today <= 9999)%Z ->
  exists date_raw date_parsed total_raw total_value total_confidence,
    DateExtractor.extract today ocr_results = Ok (date_raw, date_parsed) /\
    TotalAmountExtractor.extract ocr_results text_lines
    = Ok (total_raw, total_value, total_confidence) /\
    (0 <= total_confidence <= 1)%Q /\
    Orchestrator.extract_all (Orchestrator.__init__ today) ocr_results text_lines
    = Ok (MkExtraction
            (MerchantExtractor.extract ocr_results MerchantExtractor.default_top_n_lines)
            date_raw (option_map isoformat date_parsed) total_raw total_value
            (py_round (Orchestrator.overall_confidence_of
                         (Orchestrator.ocr_avg_confidence_of ocr_results)
                         total_confidence) 3)).
Proof.
  intros Hy.
  destruct (date_extract_ok today ocr_results Hy) as [[date_raw date_parsed] Hd].
  destruct (total_extract_ok ocr_results text_lines) as ([[total_raw total_value] tc] & Ht & Hu).
  exists date_raw, date_parsed, total_raw, total_value, tc.
  split; [exact Hd|]. split; [exact Ht|]. split; [exact Hu|].
  unfold Orchestrator.extract_all, Orchestrator.__init__.
  cbn [merchant_extractor date_extractor total_extractor bind].
  rewrite Hd. cbn [bind]. rewrite Ht. reflexivity.
Qed.

(** C3. With the repository's extractors (and the clock in the years
    6..9999), for detections whose confidences are in [0,1] the orchestrator
    returns a result whose [confidence_score] is
    [round(0.3 * mean + 0.7 * totalConfidence, 3)] as the machine computes
    it, [totalConfidence] being the confidence that the total extractor
    returns: the mean is the float sum of the confidences divided by their
    number, the blend is formed of two float products and a float sum, and
    the score is a number of thousandths nearest to the blend, the even one
    when two are equally near.  The score lies in [0,1], and, up to a
    million detections, within 0.0005 + 10^-9 of the number
    [0.3 * mean + 0.7 * totalConfidence] itself.  With no detection,
    whatever the lines, the result has every field absent and the score
    0.0.  A single detection of confidence 0.125 and no total give 0.037:
    the float product [0.125 * 0.3] lies below 0.0375.  Confidences 0.5,
    0.5 and 0.25 with a total found by keyword give 0.755. *)
Theorem orchestrator_confidence :
  (forall (today : date) (ocr_results : list OCRResult)
          (text_lines : list (list OCRResult)),
      (6 <= year today <= 9999)%Z ->
      Forall (fun r => (0 <= confidence r <= 1)%Q) ocr_results ->
      exists result total_raw total_value total_confidence,
        TotalAmountExtractor.extract ocr_results text_lines
        = Ok (total_raw, total_value, total_confidence) /\
        Orchestrator.extract_all (Orchestrator.__init__ today) ocr_results text_lines
        = Ok result /\
        (exists (blend : Q) (k : Z),
            blend
            = Binary64.fadd
                (Binary64.fmul (Orchestrator.ocr_avg_confidence_of ocr_results)
                               (Binary64.b64 (3 # 10)))
                (Binary64.fmul (Binary64.b64 total_confidence)
                               (Binary64.b64 (7 # 10))) /\
            (confidence_score result == inject_Z k / 1000)%Q /\
            (Qabs (confidence_score result - blend) <= 1 # 2000)%Q /\
            ((Qabs (confidence_score result - blend) == 1 # 2000)%Q ->
             Z.even k = true)) /\
        (0 <= confidence_score result <= 1)%Q /\
        ((Z.of_nat (length ocr_results) <= 1000000)%Z ->
         (Qabs (Orchestrator.ocr_avg_confidence_of ocr_results
                - OrchestratorSpec.mean_confidence ocr_results)
          <= (1 # 2 ^ 33) + (1 # 2 ^ 53))%Q /\
         (Qabs (confidence_score result
                - ((3 # 10) * OrchestratorSpec.mean_confidence ocr_results
                   + (7 # 10) * total_confidence))
          <= (1 # 2000) + (1 # 10 ^ 9))%Q)) /\
  (forall (today : date) (text_lines : list (list OCRResult)),
      Orchestrator.extract_all (Orchestrator.__init__ today) [] text_lines
      = Ok OrchestratorSpec.all_absent) /\
  (let box := [(0, 0); (100, 0); (100, 20); (0, 20)]%Q in
   let d := MkOCR 0 (py "TOKO") (1 # 8) box 0 in
   Orchestrator.extract_all (Orchestrator.__init__ (MkDate 2026 11 4)) [d] [[d]]
   = Ok (MkExtraction (Some (py "TOKO")) None None None None (37 # 1000))) /\
  (let box := [(0, 0); (100, 0); (100, 20); (0, 20)]%Q in
   let name := MkOCR 0 (py "TOKO") (1 # 2) box 0 in
   let total := MkOCR 1 (py "Total") (1 # 2) box 1 in
   let amount := MkOCR 2 (py "55.000") (1 # 4) box 2 in
   Orchestrator.extract_all (Orchestrator.__init__ (MkDate 2026 11 4))
                            [name; total; amount] [[name]; [total; amount]]
   = Ok (MkExtraction (Some (py "TOKO")) None None (Some (py "55.000"))
                      (Some 55000%Q) (151 # 200))).
Proof.
  split; [|split].
  - intros today ocr_results text_lines Hy Hc.
    destruct (extract_all_repository today ocr_results text_lines Hy)
      as (date_raw & date_parsed & total_raw & total_value & tc & _ & Ht & Hu & He).
    eexists. exists total_raw, total_value, tc.
    split; [exact Ht|]. split; [exact He|].
    cbn [confidence_score].
    pose proof (float_mean_unit ocr_results Hc) as Hm.
    pose proof (blend_unit _ _ Hm Hu) as Hb.
    set (blend := Orchestrator.overall_confidence_of
                    (Orchestrator.ocr_avg_confidence_of ocr_results) tc) in *.
    destruct (py_round_3_nearest blend) as (k & K1 & K2 & K3).
    split; [|split].
    + exists blend, k. split; [reflexivity|]. split; [exact K1|]. split; assumption.
    + apply py_round_3_unit. exact Hb.
    + intros Hn.
      pose proof (float_mean_error ocr_results Hc Hn) as Em.
      split; [exact Em|].
      pose proof (blend_error _ _ tc Hm Hu Em) as Eb. fold blend in Eb.
      change (1 # 10 ^ 9)%Q with (1 # 1000000000)%Q in *.
      apply Qabs_Qle_condition in K2. apply Qabs_Qle_condition in Eb.
      apply Qabs_Qle_condition. lra.
  - intros today text_lines. reflexivity.
  - split; vm_compute; reflexivity.
Qed.

Lemma orchestrator_confidence_witness :
  let today := MkDate 2026 11 4 in
  let box := [(0, 0); (100, 0); (100, 20); (0, 20)]%Q in
  let ocr_results := [MkOCR 0 (py "TOKO MAJU") (9 # 10) box 0;
                      MkOCR 1 (py "Total") (8 # 10) box 1;
                      MkOCR 2 (py "Rp 55.000") (1 # 1) box 2] in
  let text_lines := [[MkOCR 0 (py "TOKO MAJU") (9 # 10) box 0];
                     [MkOCR 1 (py "Total") (8 # 10) box 1;
                      MkOCR 2 (py "Rp 55.000") (1 # 1) box 2]] in
  exists result total_raw total_value total_confidence,
    TotalAmountExtractor.extract ocr_results text_lines
    = Ok (total_raw, total_value, total_confidence) /\
    Orchestrator.extract_all (Orchestrator.__init__ today) ocr_results text_lines
    = Ok result /\
    (exists (blend : Q) (k : Z),
        blend
        = Binary64.fadd
            (Binary64.fmul (Orchestrator.ocr_avg_confidence_of ocr_results)
                           (Binary64.b64 (3 # 10)))
            (Binary64.fmul (Binary64.b64 total_confidence)
                           (Binary64.b64 (7 # 10))) /\
        (confidence_score result == inject_Z k / 1000)%Q /\
        (Qabs (confidence_score result - blend) <= 1 # 2000)%Q /\
        ((Qabs (confidence_score result - blend) == 1 # 2000)%Q ->
         Z.even k = true)) /\
    (0 <= confidence_score result <= 1)%Q /\
    ((Z.of_nat (length ocr_results) <= 1000000)%Z ->
     (Qabs (Orchestrator.ocr_avg_confidence_of ocr_results
            - OrchestratorSpec.mean_confidence ocr_results)
      <= (1 # 2 ^ 33) + (1 # 2 ^ 53))%Q /\
     (Qabs (confidence_score result
            - ((3 # 10) * OrchestratorSpec.mean_confidence ocr_results
               + (7 # 10) * total_confidence))
      <= (1 # 2000) + (1 # 10 ^ 9))%Q).
Proof.
  intros today box ocr_results text_lines.
  apply (proj1 orchestrator_confidence today ocr_results text_lines).
  - simpl. lia.
  - repeat constructor; discriminate.
Defined.

(** C9, as stated, fails: when the total extractor raises, [extract_all]
    raises too, although the merchant and date extractors returned. *)
Lemma total_fault_counterexample :
  let today := MkDate 2026 11 4 in
  let self := OrchestratorSpec.with_faulty_total today (Fault "unexpected") in
  let box := [(0, 0); (100, 0); (100, 20); (0, 20)]%Q in
  let ocr_results := [MkOCR 0 (py "TOKO MAJU") (9 # 10) box 0;
                      MkOCR 1 (py "11/01/2026") (9 # 10) box 1] in
  let text_lines := [[MkOCR 0 (py "TOKO MAJU") (9 # 10) box 0];
                     [MkOCR 1 (py "11/01/2026") (9 # 10) box 1]] in
  merchant_extractor self ocr_results = Ok (Some (py "TOKO MAJU")) /\
  date_extractor self ocr_results
  = Ok (Some (py "11/01/2026"), Some (MkDate 2026 1 11)) /\
  total_extractor self ocr_results text_lines = Raise (Fault "unexpected") /\
  ~ (exists result,
        Orchestrator.extract_all self ocr_results text_lines = Ok result /\
        merchant_name result = Some (py "TOKO MAJU") /\
        transaction_date_raw result = Some (py "11/01/2026") /\
        total_amount_value result = None).
Proof.
  intros today self box ocr_results text_lines.
  split; [vm_compute; reflexivity|]. split; [vm_compute; reflexivity|].
  split; [reflexivity|].
  intros (result & H & _).
  assert (E : Orchestrator.extract_all self ocr_results text_lines
              = Raise (Fault "unexpected")) by (vm_compute; reflexivity).
  rewrite E in H. discriminate H.
Qed.

(** C9, amended. [extract_all] has no handler: when the merchant and date
    extractors return and the total extractor raises, the orchestrator raises
    the same exception and returns no result.  (The total extractor of the
    repository itself returns on every input of the model.) *)
Theorem total_fault_propagates :
  (forall (self : ReceiptExtractor) (ocr_results : list OCRResult)
          (text_lines : list (list OCRResult)) (e : exn)
          (name : option str) (dated : option str * option date),
      merchant_extractor self ocr_results = Ok name ->
      date_extractor self ocr_results = Ok dated ->
      total_extractor self ocr_results text_lines = Raise e ->
      Orchestrator.extract_all self ocr_results text_lines = Raise e) /\
  (forall (ocr_results : list OCRResult) (text_lines : list (list OCRResult)),
      exists r, TotalAmountExtractor.extract ocr_results text_lines = Ok r).
Proof.
  split.
  - intros self ocr_results text_lines e name [date_raw date_parsed] Hm Hd Ht.
    unfold Orchestrator.extract_all. rewrite Hm. cbn [bind]. rewrite Hd. cbn [bind].
    rewrite Ht. reflexivity.
  - intros ocr_results text_lines.
    destruct (total_extract_ok ocr_results text_lines) as (r & H & _).
    exists r. exact H.
Qed.

Lemma total_fault_propagates_witness :
  let today := MkDate 2026 11 4 in
  let self := OrchestratorSpec.with_faulty_total today (Fault "unexpected") in
  let box := [(0, 0); (100, 0); (100, 20); (0, 20)]%Q in
  let ocr_results := [MkOCR 0 (py "TOKO MAJU") (9 # 10) box 0;
                      MkOCR 1 (py "11/01/2026") (9 # 10) box 1] in
  let text_lines := [[MkOCR 0 (py "TOKO MAJU") (9 # 10) box 0];
                     [MkOCR 1 (py "11/01/2026") (9 # 10) box 1]] in
  Orchestrator.extract_all self ocr_results text_lines = Raise (Fault "unexpected").
Proof.
  intros today self box ocr_results text_lines.
  apply (proj1 total_fault_propagates self ocr_results text_lines (Fault "unexpected")
               (Some (py "TOKO MAJU"))
               (Some (py "11/01/2026"), Some (MkDate 2026 1 11))).
  - vm_compute. reflexivity.
  - vm_compute. reflexivity.
  - reflexivity.
Defined.

(** ** The keyword strategy *)

Section KeywordFacts.

Import TotalAmountExtractor TotalSpec.

Lemma for_first_skip {A B : Type} (body : A -> res (option B)) (l1 l2 : list A) :
  Forall (fun x => body x = Ok None) l1 ->
  for_first body (l1 ++ l2) = for_first body l2.
Proof.
  induction 1 as [|x l1 Hx H IH]; simpl; [reflexivity|].
  rewrite Hx. exact IH.
Qed.

Lemma index_of_first (line : list OCRResult) (before after : list (list OCRResult)) :
  Forall (fun l => line_eqb l line = false) before ->
  index_of line (before ++ line :: after) = Ok (length before).
Proof.
  induction 1 as [|l before Hl H IH]; simpl.
  - rewrite line_eqb_refl. reflexivity.
  - rewrite Hl, IH. reflexivity.
Qed.

Lemma rev_around {A : Type} (before after : list A) (x : A) :
  rev (before ++ x :: after) = rev after ++ x :: rev before.
Proof.
  rewrite rev_app_distr. simpl. rewrite <- app_assoc. reflexivity.
Qed.

(** The scan reaches the lowest keyword line and does there what
    [on_keyword] does, when that finds an amount. *)
Lemma _extract_by_keyword_lowest (before after : list (list OCRResult))
      (line : list OCRResult) (r : total_result) :
  Forall (fun l => keyword_line l = false) after ->
  keyword_line line = true ->
  on_keyword (before ++ line :: after) line = Ok (Some r) ->
  _extract_by_keyword (before ++ line :: after) = Ok r.
Proof.
  intros Hafter Hline Hon. unfold _extract_by_keyword.
  rewrite rev_around, for_first_skip.
  - cbn [for_first]. rewrite on_line_eq, Hline, Hon. reflexivity.
  - apply Forall_rev. eapply Forall_impl; [|exact Hafter].
    intros l Hl. rewrite on_line_eq, Hl. reflexivity.
Qed.

(** The keyword strategy on lists of lines in which the keyword line is not
    equal to an earlier line: the lowest line that is not excluded and
    contains a total keyword is scanned right to left for an amount of at
    least 100, returned with confidence 0.9; failing that, the first such
    amount of the line that follows is returned with confidence 0.85. *)
Lemma keyword_strategy_without_alias (before after : list (list OCRResult))
      (line : list OCRResult) :
  Forall (fun l => keyword_line l = false) after ->
  keyword_line line = true ->
  (forall a, first_amount (rev line) = Some a ->
             _extract_by_keyword (before ++ line :: after)
             = Ok (with_confidence (9 # 10) a)) /\
  (forall a next rest,
      first_amount (rev line) = None ->
      Forall (fun l => line_eqb l line = false) before ->
      after = next :: rest ->
      first_amount next = Some a ->
      _extract_by_keyword (before ++ line :: after)
      = Ok (with_confidence (85 # 100) a)).
Proof.
  intros Hafter Hline. split.
  - intros a Ha. apply _extract_by_keyword_lowest; try assumption.
    destruct (index_of_In line (before ++ line :: after)) as (i & Hi & _).
    { apply in_or_app. right. left. reflexivity. }
    rewrite (on_keyword_at _ _ _ Hi), Ha. reflexivity.
  - intros a next rest Hnone Hfirst -> Hnext.
    apply _extract_by_keyword_lowest; try assumption.
    rewrite (on_keyword_at _ _ _ (index_of_first line before (next :: rest) Hfirst)), Hnone.
    rewrite nth_error_app2 by lia.
    replace (length before + 1 - length before)%nat with 1%nat by lia.
    cbn [nth_error]. rewrite Hnext. reflexivity.
Qed.

End KeywordFacts.

(** [text_lines.index(line)] is the position of the first line equal to
    the keyword line, which is not the position that the scan has reached
    when one detection object stands in two lines.  With the detection
    "Total" forming both the first and the third line, the scan from the
    bottom stops at the third line, finds no amount on it, and returns 500
    from the second line instead of 700 from the line that follows the
    third.  (The lines that [get_text_lines] builds hold every detection
    once.) *)
Lemma index_is_the_first_equal_line :
  let box := [(0, 0); (100, 0); (100, 20); (0, 20)]%Q in
  let total := MkOCR 0 (py "Total") (9 # 10) box 0 in
  let a500 := MkOCR 1 (py "500") (9 # 10) box 1 in
  let a700 := MkOCR 2 (py "700") (9 # 10) box 2 in
  let text_lines := [[total]; [a500]; [total]; [a700]] in
  TotalSpec.keyword_line [a700] = false /\
  TotalSpec.keyword_line [total] = true /\
  TotalSpec.first_amount (rev [total]) = None /\
  TotalSpec.first_amount [a700] = Some (py "700", 700%Q) /\
  TotalAmountExtractor.index_of [total] text_lines = Ok 0%nat /\
  TotalAmountExtractor._extract_by_keyword text_lines
  = Ok (Some (py "500"), Some 500%Q, (85 # 100)%Q) /\
  TotalAmountExtractor.extract [total; a500; a700] text_lines
  = Ok (Some (py "500"), Some 500%Q, (85 # 100)%Q).
Proof.
  intros box total a500 a700 text_lines.
  repeat split; vm_compute; reflexivity.
Qed.

(** ** Currency strings *)

Lemma number_char_digit (c : ascii) : is_digit c = true -> number_char c.
Proof.
  intros H. unfold number_char, in_set, in_items. simpl. rewrite H. reflexivity.
Qed.

Lemma nth_error_in_parts (pre run post : str) (i : nat) (c : ascii) :
  nth_error (pre ++ run ++ post) i = Some c ->
  (i < length pre /\ In c pre)%nat \/
  (length pre <= i < length pre + length run /\ In c run)%nat \/
  (length pre + length run <= i /\ In c post)%nat.
Proof.
  intros H. destruct (Nat.lt_ge_cases i (length pre)) as [L|L].
  - left. split; [exact L|]. rewrite nth_error_app1 in H by exact L.
    eapply nth_error_In; exact H.
  - rewrite nth_error_app2 in H by exact L.
    destruct (Nat.lt_ge_cases (i - length pre) (length run)) as [L2|L2].
    + right; left. split; [lia|]. rewrite nth_error_app1 in H by exact L2.
      eapply nth_error_In; exact H.
    + right; right. split; [lia|]. rewrite nth_error_app2 in H by exact L2.
      eapply nth_error_In; exact H.
Qed.

Lemma digit_in_run (pre run post : str) (i : nat) (d : ascii) :
  Forall non_digit pre -> Forall non_digit post ->
  nth_error (pre ++ run ++ post) i = Some d -> is_digit d = true ->
  (length pre <= i < length pre + length run)%nat.
Proof.
  intros Hpre Hpost Hn Hd.
  destruct (nth_error_in_parts _ _ _ _ _ Hn) as [[_ Hin]|[[L _]|[_ Hin]]].
  - rewrite Forall_forall in Hpre. specialize (Hpre d Hin).
    unfold non_digit in Hpre. congruence.
  - exact L.
  - rewrite Forall_forall in Hpost. specialize (Hpost d Hin).
    unfold non_digit in Hpost. congruence.
Qed.

Lemma interrupted_not_one_run (s : str) : interrupted s -> ~ one_run s.
Proof.
  intros (i & j & k & d1 & x & d2 & Hijk & Hi & Hj & Hk & D1 & D2 & Hx)
         (pre & run & post & -> & Hpre & Hrun & _ & Hpost).
  pose proof (digit_in_run _ _ _ _ _ Hpre Hpost Hi D1) as Li.
  pose proof (digit_in_run _ _ _ _ _ Hpre Hpost Hk D2) as Lk.
  destruct (nth_error_in_parts _ _ _ _ _ Hj) as [[L _]|[[_ Hin]|[L _]]]; try lia.
  apply Hx. rewrite Forall_forall in Hrun. apply Hrun. exact Hin.
Qed.

Lemma parse_value_one_run (s : str) (v : Q) (raw : str) :
  CurrencyParser.parse (Some s) = Ok (Some v, raw) ->
  one_run (CurrencyParser.cleaned_of (strip s)).
Proof.
  unfold CurrencyParser.parse. destruct s as [|c cs]; [discriminate|].
  set (original := strip (c :: cs)).
  destruct (is_empty _); [discriminate|].
  destruct (re_match false _ _) as [m|] eqn:E; [|discriminate].
  intros _. apply number_pattern_shape in E.
  destruct E as (pre & run & post & H1 & H2 & H3 & H4 & H5 & _).
  exists pre, run, post. repeat split; assumption.
Qed.

Lemma parse_interrupted (s : str) :
  interrupted (CurrencyParser.cleaned_of (strip s)) ->
  CurrencyParser.parse (Some s) = Ok (None, strip s).
Proof.
  intros Hs. destruct (parse_ok (Some s)) as [[v|] H]; [|exact H].
  exfalso. apply (interrupted_not_one_run _ Hs).
  eapply parse_value_one_run. exact H.
Qed.

(** ** Digit-free text has no value *)

Section Preservation.

Variable P : ascii -> Prop.

Lemma lstrip_Forall (s : str) : Forall P s -> Forall P (lstrip s).
Proof.
  induction 1 as [|x s Hx H IH]; simpl; [constructor|].
  destruct (is_space x); [exact IH | constructor; assumption].
Qed.

Lemma strip_Forall (s : str) : Forall P s -> Forall P (strip s).
Proof.
  intros H. unfold strip, rstrip.
  apply Forall_rev, lstrip_Forall, Forall_rev, lstrip_Forall. exact H.
Qed.

Lemma sub_del_Forall (ic : bool) (r : regex) (s : str) :
  Forall P s -> forall skip prev, Forall P (sub_del ic r skip prev s).
Proof.
  induction 1 as [|x s Hx H IH]; intros skip prev; simpl; [constructor|].
  destruct skip; [|apply IH].
  destruct (match_at ic r prev (x :: s)) as [m|].
  - destruct (length (m_group0 m)); [constructor; [exact Hx | apply IH] | apply IH].
  - constructor; [exact Hx | apply IH].
Qed.

Lemma cleaned_of_Forall (s : str) :
  Forall P s -> Forall P (CurrencyParser.cleaned_of s).
Proof.
  intros H. unfold CurrencyParser.cleaned_of. apply strip_Forall.
  revert s H. induction CurrencyParser.CURRENCY_PREFIXES as [|p ps IH]; intros s H.
  - exact H.
  - cbn [fold_left]. apply IH. apply sub_del_Forall. exact H.
Qed.

Lemma replace_Forall (c : ascii) (by_ s : str) :
  Forall P by_ -> Forall P s -> Forall P (replace c by_ s).
Proof.
  intros Hb. induction 1 as [|x s Hx H IH]; simpl; [constructor|].
  apply Forall_app. split; [|exact IH].
  destruct (Ascii.eqb x c); [exact Hb | constructor; [exact Hx | constructor]].
Qed.

Lemma split_Forall (c : ascii) (s : str) :
  Forall P s -> Forall (Forall P) (split c s).
Proof.
  induction 1 as [|x s Hx H IH]; simpl.
  - constructor; constructor.
  - destruct (Ascii.eqb x c).
    + constructor; [constructor | exact IH].
    + destruct (split c s) as [|p ps].
      * constructor; [constructor; [exact Hx | constructor] | constructor].
      * inv IH. constructor; [constructor; assumption | assumption].
Qed.

End Preservation.

Lemma digit_free_all_digits (s : str) :
  Forall non_digit s -> forallb is_digit s = true -> s = [].
Proof.
  destruct s as [|x s]; [reflexivity|].
  intros H F. inv H. simpl in F. unfold non_digit in *.
  apply andb_true_iff in F. destruct F as [F _]. congruence.
Qed.

Lemma decimal_digit_free (ip fp : str) :
  Forall non_digit ip -> Forall non_digit fp -> decimal ip fp = Raise ValueError.
Proof.
  intros Hi Hf. unfold decimal.
  destruct (forallb is_digit ip) eqn:Ei; [|reflexivity].
  destruct (forallb is_digit fp) eqn:Ef; [|reflexivity].
  rewrite (digit_free_all_digits ip Hi Ei), (digit_free_all_digits fp Hf Ef).
  reflexivity.
Qed.

Lemma py_float_digit_free (s : str) :
  Forall non_digit s -> py_float s = Raise ValueError.
Proof.
  intros H. unfold py_float.
  pose proof (split_Forall non_digit "." s H) as Hp.
  destruct (split "." s) as [|ip [|fp [|? ?]]]; try reflexivity.
  - inv Hp. apply decimal_digit_free; [assumption | constructor].
  - inv Hp. inv H3. apply decimal_digit_free; assumption.
Qed.

Lemma to_float_digit_free (s : str) :
  Forall non_digit s -> except_ValueError (CurrencyParser.to_float s) = Ok None.
Proof.
  intros H. unfold CurrencyParser.to_float. rewrite (py_float_digit_free s H).
  reflexivity.
Qed.

Lemma dot_non_digit : Forall non_digit (py ".").
Proof. repeat constructor. Qed.

Lemma _parse_number_string_digit_free (number_str : str) :
  Forall non_digit number_str ->
  CurrencyParser._parse_number_string number_str = Ok None.
Proof.
  intros H0. unfold CurrencyParser._parse_number_string.
  assert (H : Forall non_digit (re_sub_del false (ast CurrencyParser.WHITESPACE) number_str)).
  { apply sub_del_Forall. exact H0. }
  set (s := re_sub_del false (ast CurrencyParser.WHITESPACE) number_str) in *.
  assert (T : forall t, Forall non_digit t ->
                        except_ValueError (CurrencyParser.to_float t) = Ok None)
    by exact to_float_digit_free.
  assert (R1 : Forall non_digit (replace "," (py ".") s))
    by (apply replace_Forall; [apply dot_non_digit | exact H]).
  assert (R2 : Forall non_digit (replace "," [] s))
    by (apply replace_Forall; [constructor | exact H]).
  assert (R3 : Forall non_digit (replace "." [] s))
    by (apply replace_Forall; [constructor | exact H]).
  assert (R4 : Forall non_digit (replace "," (py ".") (replace "." [] s)))
    by (apply replace_Forall; [apply dot_non_digit | exact R3]).
  assert (M : except_ValueError (CurrencyParser.mixed s) = Ok None).
  { unfold CurrencyParser.mixed. destruct (_ <? _)%Z; apply T; assumption. }
  destruct (is_empty s); [reflexivity|].
  destruct ((count "." s =? 0)%nat && (count "," s =? 0)%nat)%bool; [apply T; exact H|].
  destruct ((count "." s =? 0)%nat && (count "," s =? 1)%nat)%bool eqn:E1.
  { apply andb_true_iff in E1. destruct E1 as [_ E1]. apply Nat.eqb_eq in E1.
    destruct (index_at_split_1 "," s E1) as [p1 ->]. simpl.
    destruct (length p1 =? 2)%nat; [apply T; assumption|].
    destruct (length p1 =? 3)%nat; apply T; assumption. }
  destruct ((count "." s =? 1)%nat && (count "," s =? 0)%nat)%bool eqn:E2.
  { apply andb_true_iff in E2. destruct E2 as [E2 _]. apply Nat.eqb_eq in E2.
    destruct (index_at_split_1 "." s E2) as [p1 ->]. simpl.
    destruct (length p1 =? 2)%nat; [apply T; assumption|].
    destruct (length p1 =? 3)%nat; apply T; assumption. }
  destruct ((1 <=? count "." s)%nat && (1 <=? count "," s)%nat)%bool; [exact M|].
  destruct ((1 <? count "." s)%nat && (count "," s =? 0)%nat)%bool; [apply T; assumption|].
  destruct ((count "." s =? 0)%nat && (1 <? count "," s)%nat)%bool;
    [apply T; assumption | exact M].
Qed.

Lemma parse_digit_free (s : str) :
  Forall non_digit s -> CurrencyParser.parse (Some s) = Ok (None, strip s).
Proof.
  intros H. destruct (parse_ok (Some s)) as [[v|] Hp]; [|exact Hp].
  exfalso. revert Hp. unfold CurrencyParser.parse.
  destruct s as [|c cs]; [discriminate|].
  set (original := strip (c :: cs)).
  assert (Hc : Forall non_digit (CurrencyParser.cleaned_of original)).
  { apply cleaned_of_Forall, strip_Forall. exact H. }
  destruct (is_empty _); [discriminate|].
  destruct (re_match false _ _) as [m|] eqn:E; [|discriminate].
  apply number_pattern_shape in E.
  destruct E as (pre & run & post & Hs & _ & _ & _ & _ & Hcap).
  unfold CurrencyParser.group1_strip. rewrite Hcap. cbn [bind].
  rewrite _parse_number_string_digit_free; [discriminate|].
  apply strip_Forall. rewrite Hs in Hc.
  apply Forall_app in Hc. destruct Hc as [_ Hc].
  apply Forall_app in Hc. destruct Hc as [Hc _]. exact Hc.
Qed.

(** C7, as stated, fails: the raw component is the stripped input, not the
    input. *)
Lemma parse_raw_counterexample :
  CurrencyParser.parse (Some (py " abc")) = Ok (None, py "abc") /\
  ~ (exists v, CurrencyParser.parse (Some (py " abc")) = Ok (v, py " abc")).
Proof.
  assert (E : CurrencyParser.parse (Some (py " abc")) = Ok (None, py "abc"))
    by (vm_compute; reflexivity).
  split; [exact E|]. intros [v H]. rewrite E in H. discriminate H.
Qed.

(** C7, amended. [parse] never raises: for [None] and for every string it
    returns a value or an absent value, paired with the input stripped of
    surrounding whitespace (the empty string for [None]).  The empty string,
    [None] and every digit-free string, "Hello World" among them, give an
    absent value. *)
Theorem parse_never_raises :
  (forall currency_string : option str,
      exists v, CurrencyParser.parse currency_string = Ok (v, raw_of currency_string)) /\
  CurrencyParser.parse (Some []) = Ok (None, []) /\
  CurrencyParser.parse None = Ok (None, []) /\
  CurrencyParser.parse (Some (py "Hello World")) = Ok (None, py "Hello World") /\
  (forall s : str,
      Forall non_digit s -> CurrencyParser.parse (Some s) = Ok (None, strip s)).
Proof.
  split; [exact parse_ok|].
  split; [reflexivity|]. split; [reflexivity|].
  split; [vm_compute; reflexivity | exact parse_digit_free].
Qed.

Lemma parse_never_raises_witness :
  CurrencyParser.parse (Some (py "  Terima kasih  ")) = Ok (None, py "Terima kasih").
Proof.
  apply (proj2 (proj2 (proj2 (proj2 parse_never_raises))) (py "  Terima kasih  ")).
  repeat constructor.
Defined.

(** ** Mixed separators *)

Section SeparatorFacts.

Import SeparatorSpec.

Lemma digit_not_space (c : ascii) : is_digit c = true -> is_space c = false.
Proof.
  destruct c as [[] [] [] [] [] [] [] []]; vm_compute; congruence.
Qed.

Lemma digit_not_sep (c : ascii) : is_digit c = true -> is_sep c = false.
Proof.
  destruct c as [[] [] [] [] [] [] [] []]; vm_compute; congruence.
Qed.

Lemma sep_cases (c : ascii) : is_sep c = true -> c = "."%char \/ c = ","%char.
Proof.
  unfold is_sep. intros H. apply orb_true_iff in H.
  destruct H as [H|H]; apply Ascii.eqb_eq in H; auto.
Qed.

Lemma numeric_no_space (s : str) :
  numeric s -> Forall (fun c => is_space c = false) s.
Proof.
  intros H. eapply Forall_impl; [|exact H]. intros c [D|S].
  - apply digit_not_space. exact D.
  - destruct (sep_cases c S) as [-> | ->]; reflexivity.
Qed.

(** [re.sub(r"\s+", "", s)] leaves a string without whitespace as it is. *)
Lemma sub_del_spaces_id (s : str) :
  Forall (fun c => is_space c = false) s ->
  forall prev, sub_del false (plus false [CSpace]) 0 prev s = s.
Proof.
  induction 1 as [|x s Hx H IH]; intros prev; [reflexivity|].
  cbn [sub_del].
  assert (E : match_at false (plus false [CSpace]) prev (x :: s) = None).
  { unfold match_at, plus. cbn [rmatch rep_greedy].
    unfold in_set, in_items. cbn [existsb in_item andb orb xorb].
    rewrite Hx. reflexivity. }
  rewrite E, IH. reflexivity.
Qed.

Lemma count_pos_not_empty (c : ascii) (s : str) :
  (1 <= count c s)%nat -> is_empty s = false.
Proof. destruct s; simpl; [lia | reflexivity]. Qed.

(** With both separators present the source takes the mixed branch. *)
Lemma _parse_number_string_mixed (s : str) :
  numeric s -> (1 <= count "." s)%nat -> (1 <= count "," s)%nat ->
  CurrencyParser._parse_number_string s
  = except_ValueError (CurrencyParser.mixed s).
Proof.
  intros Hn Hd Hc. unfold CurrencyParser._parse_number_string.
  unfold re_sub_del. rewrite (sub_del_spaces_id s (numeric_no_space s Hn)).
  rewrite (count_pos_not_empty "." s Hd).
  replace (count "." s =? 0)%nat with false by (symmetry; apply Nat.eqb_neq; lia).
  replace (count "," s =? 0)%nat with false by (symmetry; apply Nat.eqb_neq; lia).
  cbn [andb]. rewrite andb_false_r.
  replace (1 <=? count "." s)%nat with true by (symmetry; apply Nat.leb_le; lia).
  replace (1 <=? count "," s)%nat with true by (symmetry; apply Nat.leb_le; lia).
  reflexivity.
Qed.

Lemma split_last_sep_shape (s b a : str) (c : ascii) :
  split_last_sep s = Some (b, c, a) ->
  s = b ++ c :: a /\ is_sep c = true /\ Forall (fun x => is_sep x = false) a.
Proof.
  revert b. induction s as [|x s IH]; intros b H; simpl in H; [discriminate|].
  destruct (split_last_sep s) as [[[b' c'] a']|] eqn:E.
  - inv H. destruct (IH b' eq_refl) as (-> & Hc & Ha).
    repeat split; assumption.
  - destruct (is_sep x) eqn:S; [|discriminate]. inv H.
    repeat split; [exact S|].
    clear IH S. induction a as [|y a IHa]; [constructor|].
    simpl in E. destruct (split_last_sep a) as [[[? ?] ?]|]; [discriminate|].
    destruct (is_sep y) eqn:Sy; [discriminate|].
    constructor; [exact Sy | apply IHa; reflexivity].
Qed.

Lemma split_last_sep_some (s : str) (c : ascii) :
  is_sep c = true -> (1 <= count c s)%nat ->
  exists b c' a, split_last_sep s = Some (b, c', a).
Proof.
  intros Hc. induction s as [|x s IH]; simpl; [lia|].
  intros H. destruct (split_last_sep s) as [[[b c'] a]|] eqn:E.
  - eexists _, _, _; reflexivity.
  - destruct (Ascii.eqb x c) eqn:X.
    + apply Ascii.eqb_eq in X. subst x. rewrite Hc. eexists _, _, _; reflexivity.
    + simpl in H. destruct (IH H) as (? & ? & ? & ?). discriminate.
Qed.

Lemma rfind_from_absent (c : ascii) (s : str) :
  count c s = 0%nat -> forall i last, rfind_from c i last s = last.
Proof.
  induction s as [|x s IH]; intros H i last; simpl in *; [reflexivity|].
  destruct (Ascii.eqb x c); [discriminate|]. apply IH. exact H.
Qed.

Lemma rfind_from_range (c : ascii) (s : str) :
  forall i last,
    rfind_from c i last s = last \/
    (i <= rfind_from c i last s < i + Z.of_nat (length s))%Z.
Proof.
  induction s as [|x s IH]; intros i last; simpl rfind_from; [left; reflexivity|].
  change (length (x :: s)) with (S (length s)). rewrite Nat2Z.inj_succ.
  destruct (Ascii.eqb x c).
  - right. destruct (IH (i + 1)%Z i) as [-> | R]; lia.
  - destruct (IH (i + 1)%Z last) as [-> | R]; [left; reflexivity | right; lia].
Qed.

Lemma rfind_from_app (c : ascii) (b rest : str) :
  forall i last,
    rfind_from c i last (b ++ rest)
    = rfind_from c (i + Z.of_nat (length b)) (rfind_from c i last b) rest.
Proof.
  induction b as [|x b IH]; intros i last.
  - simpl. rewrite Z.add_0_r. reflexivity.
  - cbn [app rfind_from]. rewrite IH.
    change (length (x :: b)) with (S (length b)). rewrite Nat2Z.inj_succ.
    f_equal. lia.
Qed.

Lemma count_no_sep (c : ascii) (a : str) :
  is_sep c = true -> Forall (fun x => is_sep x = false) a -> count c a = 0%nat.
Proof.
  intros Hc. induction 1 as [|x a Hx H IH]; simpl; [reflexivity|].
  destruct (Ascii.eqb x c) eqn:E; [|exact IH].
  apply Ascii.eqb_eq in E. congruence.
Qed.

(** The position of the last separator, and of the other one. *)
Lemma rfind_last_sep (b a : str) (c : ascii) :
  is_sep c = true -> Forall (fun x => is_sep x = false) a ->
  rfind c (b ++ c :: a) = Z.of_nat (length b) /\
  forall c', is_sep c' = true -> c' <> c ->
             (rfind c' (b ++ c :: a) < Z.of_nat (length b))%Z.
Proof.
  intros Hc Ha. unfold rfind. split.
  - rewrite rfind_from_app. cbn [rfind_from]. rewrite Ascii.eqb_refl.
    apply rfind_from_absent. apply count_no_sep; assumption.
  - intros c' Hc' Hne. rewrite rfind_from_app. cbn [rfind_from].
    replace (Ascii.eqb c c') with false
      by (symmetry; apply Ascii.eqb_neq; congruence).
    rewrite rfind_from_absent by (apply count_no_sep; assumption).
    destruct (rfind_from_range c' b 0 (-1)) as [-> | R]; lia.
Qed.

Lemma mixed_by_last (s b a : str) (c : ascii) :
  split_last_sep s = Some (b, c, a) ->
  (c = ","%char ->
   CurrencyParser.mixed s
   = CurrencyParser.to_float (replace "," (py ".") (replace "." [] s))) /\
  (c = "."%char ->
   CurrencyParser.mixed s = CurrencyParser.to_float (replace "," [] s)).
Proof.
  intros H. destruct (split_last_sep_shape _ _ _ _ H) as (-> & Hc & Ha).
  destruct (rfind_last_sep b a c Hc Ha) as [R1 R2].
  unfold CurrencyParser.mixed. split; intros ->.
  - rewrite R1. specialize (R2 "."%char eq_refl ltac:(discriminate)).
    replace (_ <? _)%Z with true by (symmetry; apply Z.ltb_lt; exact R2).
    reflexivity.
  - rewrite R1. specialize (R2 ","%char eq_refl ltac:(discriminate)).
    replace (_ <? _)%Z with false by (symmetry; apply Z.ltb_ge; lia).
    reflexivity.
Qed.

End SeparatorFacts.

Section SeparatorAgreement.

Import SeparatorSpec.

Lemma replace_app (c : ascii) (by_ u v : str) :
  replace c by_ (u ++ v) = replace c by_ u ++ replace c by_ v.
Proof.
  induction u as [|x u IH]; simpl; [reflexivity|].
  rewrite IH, app_assoc. reflexivity.
Qed.

Lemma replace_absent (c : ascii) (by_ u : str) :
  count c u = 0%nat -> replace c by_ u = u.
Proof.
  induction u as [|x u IH]; simpl; [reflexivity|].
  destruct (Ascii.eqb x c); [discriminate|].
  intros H. simpl. rewrite IH by exact H. reflexivity.
Qed.

Lemma count_app (c : ascii) (u v : str) :
  count c (u ++ v) = (count c u + count c v)%nat.
Proof.
  induction u as [|x u IH]; simpl; [reflexivity|]. rewrite IH. lia.
Qed.

Lemma replace_dot_strip (b : str) :
  count "," b = 0%nat -> replace "." [] b = strip_seps b.
Proof.
  induction b as [|x b IH]; simpl; [reflexivity|].
  unfold is_sep. destruct (Ascii.eqb x ","); [discriminate|].
  intros H. rewrite orb_false_r. destruct (Ascii.eqb x "."); simpl; rewrite IH by exact H;
    reflexivity.
Qed.

Lemma replace_comma_strip (b : str) :
  count "." b = 0%nat -> replace "," [] b = strip_seps b.
Proof.
  induction b as [|x b IH]; simpl; [reflexivity|].
  unfold is_sep. destruct (Ascii.eqb x "."); [discriminate|].
  intros H. cbn [orb]. destruct (Ascii.eqb x ","); simpl; rewrite IH by exact H;
    reflexivity.
Qed.

Lemma strip_seps_no_sep (c : ascii) (b : str) :
  is_sep c = true -> count c (strip_seps b) = 0%nat.
Proof.
  intros Hc. induction b as [|x b IH]; simpl; [reflexivity|].
  destruct (is_sep x) eqn:S; simpl; [exact IH|].
  destruct (Ascii.eqb x c) eqn:E; [|exact IH].
  apply Ascii.eqb_eq in E. congruence.
Qed.

Lemma count_dot_after_strip (u : str) :
  count "." (replace "." [] u) = 0%nat /\
  count "," (replace "." [] u) = count "," u.
Proof.
  induction u as [|x u [IH1 IH2]]; simpl; [split; reflexivity|].
  destruct (Ascii.eqb x ".") eqn:E; simpl.
  - apply Ascii.eqb_eq in E. subst x. simpl. split; assumption.
  - rewrite E. simpl. rewrite IH1, IH2. split; reflexivity.
Qed.

Lemma count_dot_after_comma_to_dot (u : str) :
  count "." (replace "," (py ".") u) = (count "." u + count "," u)%nat.
Proof.
  change (py ".") with ["."%char].
  induction u as [|x u IH]; simpl; [reflexivity|].
  destruct (Ascii.eqb x ",") eqn:E; simpl.
  - apply Ascii.eqb_eq in E. subst x. simpl. rewrite IH. lia.
  - rewrite IH. lia.
Qed.

Lemma count_dot_after_comma_strip (u : str) :
  count "." (replace "," [] u) = count "." u.
Proof.
  induction u as [|x u IH]; simpl; [reflexivity|].
  destruct (Ascii.eqb x ",") eqn:E; simpl.
  - apply Ascii.eqb_eq in E. subst x. simpl. exact IH.
  - rewrite IH. reflexivity.
Qed.

Lemma py_float_two_dots (t : str) :
  (1 < count "." t)%nat -> py_float t = Raise ValueError.
Proof.
  intros H. unfold py_float. pose proof (split_length "." t) as L.
  destruct (split "." t) as [|? [|? [|? ?]]]; simpl in L; try lia. reflexivity.
Qed.

Lemma to_float_two_dots (t : str) :
  (1 < count "." t)%nat -> except_ValueError (CurrencyParser.to_float t) = Ok None.
Proof.
  intros H. unfold CurrencyParser.to_float. rewrite (py_float_two_dots t H). reflexivity.
Qed.

(** Where the code and the sentence agree, and where the code gives up. *)
Lemma mixed_separators_by_last (s : str) :
  numeric s -> (1 <= count "." s)%nat -> (1 <= count "," s)%nat ->
  exists b c a,
    split_last_sep s = Some (b, c, a) /\
    (c = ","%char ->
     CurrencyParser._parse_number_string s
     = except_ValueError
         (CurrencyParser.to_float (replace "," (py ".") (replace "." [] s)))) /\
    (c = "."%char ->
     CurrencyParser._parse_number_string s
     = except_ValueError (CurrencyParser.to_float (replace "," [] s))) /\
    (count c s = 1%nat -> CurrencyParser._parse_number_string s = claimed s) /\
    ((1 < count c s)%nat -> CurrencyParser._parse_number_string s = Ok None).
Proof.
  intros Hn Hd Hc.
  destruct (split_last_sep_some s "."%char eq_refl Hd) as (b & c & a & Hs).
  exists b, c, a. split; [exact Hs|].
  rewrite (_parse_number_string_mixed s Hn Hd Hc).
  destruct (mixed_by_last s b a c Hs) as [Mc Md].
  destruct (split_last_sep_shape _ _ _ _ Hs) as (E & Sc & Ha).
  assert (Ka : forall c', is_sep c' = true -> count c' a = 0%nat)
    by (intros c' Hc'; apply count_no_sep; assumption).
  split; [intros ->; rewrite Mc; reflexivity|].
  split; [intros ->; rewrite Md; reflexivity|].
  destruct (sep_cases c Sc) as [-> | ->].
  - rewrite (Md eq_refl). split.
    + intros H1. unfold claimed, by_last_separator. rewrite Hs. f_equal. f_equal.
      rewrite E in H1 |- *. rewrite count_app in H1. simpl in H1.
      rewrite replace_app. cbn [replace Ascii.eqb Bool.eqb app].
      rewrite (replace_absent "," [] a (Ka ","%char eq_refl)).
      rewrite replace_comma_strip by lia. reflexivity.
    + intros H2. apply to_float_two_dots. rewrite count_dot_after_comma_strip. exact H2.
  - rewrite (Mc eq_refl). split.
    + intros H1. unfold claimed, by_last_separator. rewrite Hs. f_equal. f_equal.
      rewrite E in H1 |- *. rewrite count_app in H1. simpl in H1.
      rewrite !replace_app. cbn [replace Ascii.eqb Bool.eqb app].
      rewrite (replace_absent "." [] a (Ka "."%char eq_refl)).
      rewrite (replace_absent "," (py ".") a (Ka ","%char eq_refl)).
      rewrite replace_dot_strip by lia.
      rewrite (replace_absent "," (py ".") (strip_seps b))
        by (apply strip_seps_no_sep; reflexivity).
      reflexivity.
    + intros H2. apply to_float_two_dots.
      rewrite count_dot_after_comma_to_dot.
      destruct (count_dot_after_strip s) as [-> ->]. exact H2.
Qed.

End SeparatorAgreement.

Ltac numeric_string :=
  repeat (apply Forall_cons; [first [left; reflexivity | right; reflexivity]|]);
  apply Forall_nil.

(** C1, as stated, fails: in 1.000,000.50 the last separator is a dot, the
    earlier dot is kept, the conversion fails and the result is absent, where
    the sentence gives 1000000.5. *)
Lemma mixed_separators_counterexample :
  let s := py "1.000,000.50" in
  SeparatorSpec.numeric s /\ (1 <= count "." s)%nat /\ (1 <= count "," s)%nat /\
  SeparatorSpec.claimed s = Ok (Some (2000001 # 2)%Q) /\
  CurrencyParser._parse_number_string s = Ok None /\
  CurrencyParser.parse (Some s) = Ok (None, s) /\
  CurrencyParser._parse_number_string s <> SeparatorSpec.claimed s.
Proof.
  intros s.
  assert (N : SeparatorSpec.numeric s).
  { unfold s. numeric_string. }
  assert (C : SeparatorSpec.claimed s = Ok (Some (2000001 # 2)%Q))
    by (vm_compute; reflexivity).
  assert (P : CurrencyParser._parse_number_string s = Ok None)
    by (vm_compute; reflexivity).
  repeat split; try assumption; try (vm_compute; lia); try (vm_compute; reflexivity).
  rewrite C, P. discriminate.
Qed.

(** C1, amended. For a string of digits, dots and commas with at least one
    of each separator, the separator that occurs last decides: after a last
    comma all dots are removed and every comma becomes a decimal point;
    after a last dot all commas are removed and every dot is kept.  When the
    last separator's character occurs once, this is the sentence's reading
    (the last separator is the decimal point, the others are removed); when
    it occurs more than once the result is absent.  50.000,00 and 50,000.00
    both parse to 50000.0. *)
Theorem mixed_separators_last_decides :
  (forall s : str,
      SeparatorSpec.numeric s -> (1 <= count "." s)%nat -> (1 <= count "," s)%nat ->
      exists b c a,
        SeparatorSpec.split_last_sep s = Some (b, c, a) /\
        (c = ","%char ->
         CurrencyParser._parse_number_string s
         = except_ValueError
             (CurrencyParser.to_float (replace "," (py ".") (replace "." [] s)))) /\
        (c = "."%char ->
         CurrencyParser._parse_number_string s
         = except_ValueError (CurrencyParser.to_float (replace "," [] s))) /\
        (count c s = 1%nat ->
         CurrencyParser._parse_number_string s = SeparatorSpec.claimed s) /\
        ((1 < count c s)%nat -> CurrencyParser._parse_number_string s = Ok None)) /\
  CurrencyParser.parse (Some (py "50.000,00")) = Ok (Some 50000%Q, py "50.000,00") /\
  CurrencyParser.parse (Some (py "50,000.00")) = Ok (Some 50000%Q, py "50,000.00") /\
  CurrencyParser.parse (Some (py "Rp 50.000,00")) = Ok (Some 50000%Q, py "Rp 50.000,00").
Proof.
  split; [exact mixed_separators_by_last|].
  repeat split; vm_compute; reflexivity.
Qed.

Lemma mixed_separators_last_decides_witness :
  let s := py "1.234.567,89" in
  exists b c a,
    SeparatorSpec.split_last_sep s = Some (b, c, a) /\
    (c = ","%char ->
     CurrencyParser._parse_number_string s
     = except_ValueError
         (CurrencyParser.to_float (replace "," (py ".") (replace "." [] s)))) /\
    (c = "."%char ->
     CurrencyParser._parse_number_string s
     = except_ValueError (CurrencyParser.to_float (replace "," [] s))) /\
    (count c s = 1%nat ->
     CurrencyParser._parse_number_string s = SeparatorSpec.claimed s) /\
    ((1 < count c s)%nat -> CurrencyParser._parse_number_string s = Ok None).
Proof.
  intros s.
  apply (proj1 mixed_separators_last_decides s).
  - unfold s. numeric_string.
  - vm_compute. lia.
  - vm_compute. lia.
Defined.

(** ** The patterns are what [re.compile] reads *)

Lemma patterns_compiled :
  Forall compiled
    (CurrencyParser.CURRENCY_PREFIXES
     ++ [CurrencyParser.NUMBER_PATTERN; CurrencyParser.WHITESPACE]
     ++ ExtractionConfig.DATE_PATTERNS
     ++ MerchantExtractor.EXCLUDE_PATTERNS
     ++ [TotalAmountExtractor.DATE_SHAPE; TotalAmountExtractor.TIME_SHAPE;
         TotalAmountExtractor.ID_SHAPE]).
Proof. repeat (apply Forall_cons; [reflexivity|]). apply Forall_nil. Qed.

(** ** Date-shaped and time-shaped text has no value *)

Lemma sub_del_first_set (ic neg : bool) (items : list citem) (r' : regex) (s : str) :
  Forall (fun x => in_set ic neg items x = false) s ->
  forall prev, sub_del ic (RSeq (RSet neg items) r') 0 prev s = s.
Proof.
  induction 1 as [|x s Hx H IH]; intros prev; [reflexivity|].
  cbn [sub_del].
  assert (E : match_at ic (RSeq (RSet neg items) r') prev (x :: s) = None).
  { unfold match_at. cbn [rmatch]. rewrite Hx. reflexivity. }
  rewrite E, IH. reflexivity.
Qed.

Lemma sub_del_first_chr (ic : bool) (c : ascii) (r' : regex) (s : str) :
  Forall (fun x => chr_eq ic c x = false) s ->
  forall prev, sub_del ic (RSeq (RChr c) r') 0 prev s = s.
Proof.
  induction 1 as [|x s Hx H IH]; intros prev; [reflexivity|].
  cbn [sub_del].
  assert (E : match_at ic (RSeq (RChr c) r') prev (x :: s) = None).
  { unfold match_at. cbn [rmatch]. rewrite Hx. reflexivity. }
  rewrite E, IH. reflexivity.
Qed.

Lemma no_prefix_start_tests (c : ascii) :
  no_prefix_start c ->
  in_set true false [CChr "R"; CChr "r"] c = false /\
  in_set true false [CChr "I"; CChr "i"] c = false /\
  chr_eq true "$" c = false /\
  in_set true false [CChr "U"; CChr "u"] c = false.
Proof.
  unfold no_prefix_start.
  destruct c as [[] [] [] [] [] [] [] []]; vm_compute; intros H;
    first [discriminate H | repeat split].
Qed.

(** Without a character that starts a prefix nothing is removed. *)
Lemma cleaned_of_plain (s : str) :
  Forall no_prefix_start s -> CurrencyParser.cleaned_of s = strip s.
Proof.
  intros H. unfold CurrencyParser.cleaned_of, CurrencyParser.CURRENCY_PREFIXES.
  cbn [fold_left ast seqs cat]. unfold re_sub_del.
  rewrite (sub_del_first_set true false [CChr "R"; CChr "r"] _ s)
    by (eapply Forall_impl; [|exact H]; intros c Hc; apply (no_prefix_start_tests c Hc)).
  rewrite (sub_del_first_set true false [CChr "I"; CChr "i"] _ s)
    by (eapply Forall_impl; [|exact H]; intros c Hc; apply (no_prefix_start_tests c Hc)).
  rewrite (sub_del_first_chr true "$" _ s)
    by (eapply Forall_impl; [|exact H]; intros c Hc; apply (no_prefix_start_tests c Hc)).
  rewrite (sub_del_first_set true false [CChr "U"; CChr "u"] _ s)
    by (eapply Forall_impl; [|exact H]; intros c Hc; apply (no_prefix_start_tests c Hc)).
  reflexivity.
Qed.

Lemma lstrip_spaces (a t : str) :
  Forall (fun c => is_space c = true) a -> lstrip (a ++ t) = lstrip t.
Proof.
  induction 1 as [|x a Hx H IH]; simpl; [reflexivity|]. rewrite Hx. exact IH.
Qed.

Lemma lstrip_solid (x : ascii) (t : str) : is_space x = false -> lstrip (x :: t) = x :: t.
Proof. intros H. simpl. rewrite H. reflexivity. Qed.

(** [strip] removes exactly the whitespace around a text that begins and
    ends with other characters. *)
Lemma strip_core (x y : ascii) (mid b : str) :
  is_space x = false -> is_space y = false ->
  Forall (fun c => is_space c = true) b ->
  strip ((x :: mid ++ [y]) ++ b) = x :: mid ++ [y].
Proof.
  intros Hx Hy Hb. unfold strip, rstrip.
  assert (E1 : lstrip ((x :: mid ++ [y]) ++ b) = (x :: mid ++ [y]) ++ b).
  { cbn [app]. apply lstrip_solid. exact Hx. }
  assert (E2 : rev ((x :: mid ++ [y]) ++ b) = rev b ++ y :: rev (x :: mid)).
  { rewrite rev_app_distr. f_equal.
    change (x :: mid ++ [y]) with ((x :: mid) ++ [y]).
    rewrite rev_app_distr. reflexivity. }
  rewrite E1, E2.
  rewrite lstrip_spaces by (apply Forall_rev; exact Hb).
  rewrite (lstrip_solid y _ Hy).
  cbn [rev]. rewrite rev_app_distr, rev_involutive. reflexivity.
Qed.

Lemma interrupted_build (d1 x d2 : ascii) (m b : str) :
  is_digit d1 = true -> is_digit d2 = true -> ~ number_char x ->
  interrupted (d1 :: m ++ x :: d2 :: b).
Proof.
  intros D1 D2 Hx.
  exists 0%nat, (S (length m)), (S (S (length m))), d1, x, d2.
  repeat split; try assumption; try lia.
  - change (nth_error (m ++ x :: d2 :: b) (length m) = Some x).
    rewrite nth_error_app2 by lia. rewrite Nat.sub_diag. reflexivity.
  - change (nth_error (m ++ x :: d2 :: b) (S (length m)) = Some d2).
    rewrite nth_error_app2 by lia.
    replace (S (length m) - length m)%nat with 1%nat by lia. reflexivity.
Qed.

Lemma digit_no_prefix_start (c : ascii) : is_digit c = true -> no_prefix_start c.
Proof.
  unfold no_prefix_start.
  destruct c as [[] [] [] [] [] [] [] []]; vm_compute; congruence.
Qed.

Lemma at_end_spaces (s : str) :
  at_end s = true ->
  Forall (fun c => is_space c = true) s /\ Forall no_prefix_start s.
Proof.
  destruct s as [|c [|? ?]]; simpl; try discriminate.
  - split; constructor.
  - intros H. apply Ascii.eqb_eq in H. subst c.
    split; (constructor; [reflexivity | constructor]).
Qed.

(** A text that is digits, one character that is no number character, and
    then text that starts with a digit and ends with one, followed by the
    end of the text, has no value.  The characters after the separator only
    have to start no prefix. *)
Lemma parse_two_digit_groups (d1 x d2 y : ascii) (m mid after : str) :
  is_digit d1 = true -> Forall (fun c => is_digit c = true) m ->
  ~ number_char x -> no_prefix_start x -> is_space x = false ->
  is_digit d2 = true -> Forall no_prefix_start mid -> is_digit y = true ->
  at_end after = true ->
  let text := (d1 :: (m ++ x :: d2 :: mid) ++ [y]) ++ after in
  CurrencyParser.parse (Some text) = Ok (None, strip text).
Proof.
  intros D1 Dm Hx Px Sx D2 Pmid Dy Hend text.
  destruct (at_end_spaces after Hend) as [Safter Pafter].
  assert (Hstrip : strip text = d1 :: (m ++ x :: d2 :: mid) ++ [y]).
  { apply strip_core; [apply digit_not_space; exact D1
                      | apply digit_not_space; exact Dy | exact Safter]. }
  assert (Hplain : Forall no_prefix_start (strip text)).
  { rewrite Hstrip. constructor; [apply digit_no_prefix_start; exact D1|].
    apply Forall_app. split.
    - apply Forall_app. split.
      + eapply Forall_impl; [|exact Dm]. apply digit_no_prefix_start.
      + constructor; [exact Px|]. constructor; [apply digit_no_prefix_start; exact D2|].
        exact Pmid.
    - constructor; [apply digit_no_prefix_start; exact Dy | constructor]. }
  apply (parse_interrupted text).
  rewrite (cleaned_of_plain _ Hplain), Hstrip.
  rewrite <- (app_nil_r (d1 :: (m ++ x :: d2 :: mid) ++ [y])).
  rewrite (strip_core d1 y _ [] (digit_not_space d1 D1) (digit_not_space y Dy)
                      (Forall_nil _)).
  change (d1 :: (m ++ x :: d2 :: mid) ++ [y]) with (d1 :: (m ++ x :: d2 :: mid) ++ [y]).
  rewrite <- app_assoc. cbn [app].
  apply interrupted_build; assumption.
Qed.

Ltac bounds :=
  repeat match goal with
    | H : forall h, Some ?n = Some h -> _ |- _ => specialize (H n eq_refl)
    | H : forall h, None = Some h -> _ |- _ => clear H
    end.

Lemma set_digit (c : ascii) : in_set false false [CDigit] c = true -> is_digit c = true.
Proof.
  unfold in_set, in_items. cbn [existsb in_item andb orb xorb].
  rewrite !orb_false_r. auto.
Qed.

Lemma dash_or_slash_cases (x : ascii) :
  in_set false false [CChr "/"; CChr "-"] x = true ->
  ~ number_char x /\ no_prefix_start x /\ is_space x = false.
Proof.
  unfold number_char, no_prefix_start.
  destruct x as [[] [] [] [] [] [] [] []]; vm_compute; intros H;
    first [discriminate H | repeat split; discriminate].
Qed.

Lemma colon_cases (x : ascii) :
  chr_eq false ":" x = true ->
  ~ number_char x /\ no_prefix_start x /\ is_space x = false.
Proof.
  unfold number_char, no_prefix_start.
  destruct x as [[] [] [] [] [] [] [] []]; vm_compute; intros H;
    first [discriminate H | repeat split; discriminate].
Qed.

Ltac inv_all :=
  unfold plus, star, digits, digit_ in *;
  repeat match goal with
    | H : matches _ (ROpt _) _ _ _ _ _ |- _ => inv H
    | H : matches _ (RAlt _ _) _ _ _ _ _ |- _ => inv H
    | H : matches _ (RSeq _ _) _ _ _ _ _ |- _ => inv H
    | H : matches _ (RGroup _ _) _ _ _ _ _ |- _ => inv H
    | H : matches _ (RRep _ _ _ _) _ _ _ _ _ |- _ => inv H
    | H : matches _ (RChr _) _ _ _ _ _ |- _ => inv H
    | H : matches _ (RSet _ _) _ _ _ _ _ |- _ => inv H
    | H : matches _ RBol _ _ _ _ _ |- _ => inv H
    | H : matches _ REol _ _ _ _ _ |- _ => inv H
    | H : matches _ RWordB _ _ _ _ _ |- _ => inv H
    | H : matches _ REmpty _ _ _ _ _ |- _ => inv H
    end;
  bounds.

Ltac list_eq :=
  repeat (progress (cbn [app]; rewrite <- ?app_assoc; rewrite ?app_nil_r));
  reflexivity.

Lemma digits_no_prefix_start (w : str) :
  Forall (fun x => in_set false false [CDigit] x = true) w -> Forall no_prefix_start w.
Proof.
  intros H. eapply Forall_impl; [|exact H].
  intros c Hc. apply digit_no_prefix_start, set_digit. exact Hc.
Qed.

Lemma digits_first (w : str) :
  (1 <= length w)%nat -> Forall (fun x => in_set false false [CDigit] x = true) w ->
  exists d t, w = d :: t /\ is_digit d = true.
Proof.
  intros L H. destruct w as [|d t]; [simpl in L; lia|].
  inv H. exists d, t. split; [reflexivity | apply set_digit; assumption].
Qed.

Lemma digits_last (pre w : str) :
  (1 <= length w)%nat -> Forall (fun x => in_set false false [CDigit] x = true) w ->
  exists body y, pre ++ w = body ++ [y] /\ is_digit y = true.
Proof.
  intros L H. destruct (exists_last (l := w)) as (w' & y & ->).
  { intro E. subst w. simpl in L. lia. }
  apply Forall_app in H. destruct H as [_ H]. inv H.
  exists (pre ++ w'), y. split; [apply app_assoc | apply set_digit; assumption].
Qed.

(** Digits, a character that is no number character, and a tail of at least
    two characters that starts and ends with a digit: no value. *)
Lemma parse_digit_groups (D1 t body after : str) (x d2 y : ascii) :
  (1 <= length D1)%nat -> Forall (fun c => in_set false false [CDigit] c = true) D1 ->
  ~ number_char x /\ no_prefix_start x /\ is_space x = false ->
  is_digit d2 = true -> t <> [] ->
  d2 :: t = body ++ [y] -> is_digit y = true ->
  Forall no_prefix_start (d2 :: t) ->
  at_end after = true ->
  CurrencyParser.parse (Some ((D1 ++ x :: d2 :: t) ++ after))
  = Ok (None, strip ((D1 ++ x :: d2 :: t) ++ after)).
Proof.
  intros L1 F1 (Nx & Px & Sx) D2 Ht Eb Dy Pt Hend.
  destruct D1 as [|d1 m]; [simpl in L1; lia|].
  apply Forall_cons_iff in F1. destruct F1 as [F1 Fm].
  destruct body as [|b0 mid].
  { exfalso. inversion Eb. contradiction. }
  rewrite Eb in Pt |- *. injection Eb as E0 _. subst b0.
  replace (((d1 :: m) ++ x :: (d2 :: mid) ++ [y]) ++ after)
    with ((d1 :: (m ++ x :: d2 :: mid) ++ [y]) ++ after) by list_eq.
  apply Forall_cons_iff in Pt. destruct Pt as [_ Pt].
  apply Forall_app in Pt. destruct Pt as [Pmid _].
  apply parse_two_digit_groups; try assumption.
  - apply set_digit. assumption.
  - eapply Forall_impl; [|exact Fm]. intros c Hc. apply set_digit. exact Hc.
Qed.

Lemma looks_like_date_no_value (text : str) (m : match_obj) :
  re_match false (ast TotalAmountExtractor.DATE_SHAPE) text = Some m ->
  CurrencyParser.parse (Some text) = Ok (None, strip text).
Proof.
  unfold re_match. intros H. apply match_at_sound in H. destruct H as [Ht M].
  cbn [TotalAmountExtractor.DATE_SHAPE TotalAmountExtractor.TIME_SHAPE ast seqs cat] in M.
  unfold MerchantExtractor.dash_or_slash in M.
  inv_all.
  lazymatch goal with
  | Hg : [] ++ ?w1 ++ [?s1] ++ ?w2 ++ [?s2] ++ ?w3 ++ [] = m_group0 m,
    S1 : in_set _ _ _ ?s1 = true, S2 : in_set _ _ _ ?s2 = true,
    Hend : at_end _ = true |- _ =>
      rewrite <- Hg; clear Hg;
      assert (F1 : Forall (fun x => in_set false false [CDigit] x = true) w1) by assumption;
      assert (F2 : Forall (fun x => in_set false false [CDigit] x = true) w2) by assumption;
      assert (F3 : Forall (fun x => in_set false false [CDigit] x = true) w3) by assumption;
      assert (L1 : (2 <= length w1)%nat) by assumption;
      assert (L2 : (2 <= length w2)%nat) by assumption;
      assert (L3 : (2 <= length w3)%nat) by assumption;
      destruct (digits_first w2) as (d2 & t & E2 & D2); [lia | exact F2 |];
      destruct (digits_last (w2 ++ [s2]) w3) as (body & y & Eb & Dy);
        [lia | exact F3 |];
      replace (([] ++ w1 ++ [s1] ++ w2 ++ [s2] ++ w3 ++ []) ++ m_after m)
        with ((w1 ++ s1 :: d2 :: t ++ [s2] ++ w3) ++ m_after m)
        by (rewrite E2; list_eq);
      apply (parse_digit_groups w1 (t ++ [s2] ++ w3) body _ s1 d2 y);
        [ lia | exact F1 | apply dash_or_slash_cases; exact S1
        | exact D2
        | intro E; apply app_eq_nil in E; destruct E; discriminate
        | rewrite <- Eb, E2; list_eq | exact Dy
        | change (d2 :: t ++ [s2] ++ w3) with ((d2 :: t) ++ [s2] ++ w3);
          rewrite <- E2; apply Forall_app; split;
          [ apply digits_no_prefix_start; exact F2
          | apply Forall_app; split;
            [ constructor; [apply (dash_or_slash_cases _ S2) | constructor]
            | apply digits_no_prefix_start; exact F3 ] ]
        | exact Hend ]
  end.
Qed.

Lemma looks_like_time_no_value (text : str) (m : match_obj) :
  re_match false (ast TotalAmountExtractor.TIME_SHAPE) text = Some m ->
  CurrencyParser.parse (Some text) = Ok (None, strip text).
Proof.
  unfold re_match. intros H. apply match_at_sound in H. destruct H as [Ht M].
  cbn [TotalAmountExtractor.DATE_SHAPE TotalAmountExtractor.TIME_SHAPE ast seqs cat] in M.
  inv_all.
  - lazymatch goal with
    | Hg : [] ++ ?w1 ++ [?s1] ++ ?w2 ++ ([?s2] ++ ?w3) ++ [] = m_group0 m,
      S1 : chr_eq _ _ ?s1 = true, S2 : chr_eq _ _ ?s2 = true,
      Hend : at_end _ = true |- _ =>
        rewrite <- Hg; clear Hg;
        assert (F1 : Forall (fun x => in_set false false [CDigit] x = true) w1) by assumption;
        assert (F2 : Forall (fun x => in_set false false [CDigit] x = true) w2) by assumption;
        assert (F3 : Forall (fun x => in_set false false [CDigit] x = true) w3) by assumption;
        assert (L1 : (2 <= length w1)%nat) by assumption;
        assert (L2 : (2 <= length w2)%nat) by assumption;
        assert (L3 : (2 <= length w3)%nat) by assumption;
        destruct (digits_first w2) as (d2 & t & E2 & D2); [lia | exact F2 |];
        destruct (digits_last (w2 ++ [s2]) w3) as (body & y & Eb & Dy);
          [lia | exact F3 |];
        replace (([] ++ w1 ++ [s1] ++ w2 ++ ([s2] ++ w3) ++ []) ++ m_after m)
          with ((w1 ++ s1 :: d2 :: t ++ [s2] ++ w3) ++ m_after m)
          by (rewrite E2; list_eq);
        apply (parse_digit_groups w1 (t ++ [s2] ++ w3) body _ s1 d2 y);
          [ lia | exact F1 | apply colon_cases; exact S1
          | exact D2
          | intro E; apply app_eq_nil in E; destruct E; discriminate
          | rewrite <- Eb, E2; list_eq | exact Dy
          | change (d2 :: t ++ [s2] ++ w3) with ((d2 :: t) ++ [s2] ++ w3);
            rewrite <- E2; apply Forall_app; split;
            [ apply digits_no_prefix_start; exact F2
            | apply Forall_app; split;
              [ constructor; [apply (colon_cases _ S2) | constructor]
              | apply digits_no_prefix_start; exact F3 ] ]
          | exact Hend ]
    end.
  - lazymatch goal with
    | Hg : [] ++ ?w1 ++ [?s1] ++ ?w2 ++ [] ++ [] = m_group0 m,
      S1 : chr_eq _ _ ?s1 = true,
      Hend : at_end _ = true |- _ =>
        rewrite <- Hg; clear Hg;
        assert (F1 : Forall (fun x => in_set false false [CDigit] x = true) w1) by assumption;
        assert (F2 : Forall (fun x => in_set false false [CDigit] x = true) w2) by assumption;
        assert (L1 : (2 <= length w1)%nat) by assumption;
        assert (L2 : (2 <= length w2)%nat) by assumption;
        destruct (digits_first w2) as (d2 & t & E2 & D2); [lia | exact F2 |];
        destruct (digits_last [] w2) as (body & y & Eb & Dy); [lia | exact F2 |];
        replace (([] ++ w1 ++ [s1] ++ w2 ++ [] ++ []) ++ m_after m)
          with ((w1 ++ s1 :: d2 :: t) ++ m_after m)
          by (rewrite E2; list_eq);
        apply (parse_digit_groups w1 t body _ s1 d2 y);
          [ lia | exact F1 | apply colon_cases; exact S1
          | exact D2
          | intro E; subst t; rewrite E2 in L2; simpl in L2; lia
          | rewrite <- Eb, E2; reflexivity | exact Dy
          | rewrite <- E2; apply digits_no_prefix_start; exact F2
          | exact Hend ]
    end.
Qed.


(** * Further properties *)

(** ** Numeric text *)

(** A greedy repetition without upper bound takes a whole run when what
    follows accepts the end of the run. *)
Lemma rep_greedy_all {A : Type} (p : ascii -> bool) (w : str) :
  Forall (fun x => p x = true) w ->
  forall (lo : nat) (prev : option ascii) (caps : captures) (k : kont A) (a : A),
    (lo <= length w)%nat ->
    k (prev_after prev w) [] caps = Some a ->
    rep_greedy p lo None prev w caps k = Some a.
Proof.
  induction 1 as [|x w Hx Hw IH]; intros lo prev caps k a Hlo Hk.
  - simpl in *. destruct lo; [exact Hk | lia].
  - cbn [rep_greedy option_map]. rewrite Hx. cbn [andb].
    rewrite (IH (Nat.pred lo) (Some x) caps k a); [reflexivity | simpl in Hlo; lia | exact Hk].
Qed.

(** A repetition that may be empty stops at a character it does not accept. *)
Lemma rep_greedy_stop {A : Type} (p : ascii -> bool) (x : ascii) (s : str)
      (hi : option nat) (prev : option ascii) (caps : captures) (k : kont A) :
  p x = false ->
  rep_greedy p 0 hi prev (x :: s) caps k = k prev (x :: s) caps.
Proof. intros H. cbn [rep_greedy]. rewrite H. reflexivity. Qed.

Lemma digit_or_sep_class (c : ascii) :
  digit_or_sep c -> in_set false false CurrencyParser.number_class c = true.
Proof.
  intros [D | [-> | ->]]; [|reflexivity|reflexivity].
  unfold in_set, in_items, CurrencyParser.number_class. cbn [existsb in_item].
  rewrite D. reflexivity.
Qed.

Lemma digit_or_sep_no_space (c : ascii) : digit_or_sep c -> is_space c = false.
Proof.
  intros [D | [-> | ->]]; [apply digit_not_space; exact D | reflexivity | reflexivity].
Qed.

Lemma digit_or_sep_no_prefix (c : ascii) : digit_or_sep c -> no_prefix_start c.
Proof.
  intros [D | [-> | ->]]; [apply digit_no_prefix_start; exact D | reflexivity | reflexivity].
Qed.

Lemma lstrip_id (s : str) : Forall (fun c => is_space c = false) s -> lstrip s = s.
Proof. destruct 1 as [|x s Hx _]; [reflexivity | apply lstrip_solid; exact Hx]. Qed.

Lemma strip_id (s : str) : Forall (fun c => is_space c = false) s -> strip s = s.
Proof.
  intros H. unfold strip, rstrip. rewrite (lstrip_id s H).
  rewrite lstrip_id by (apply Forall_rev; exact H). apply rev_involutive.
Qed.

(** [NUMBER_PATTERN] on a text of digits, dots and commas that starts with a
    digit: the group is the whole text. *)
Lemma number_pattern_numeric (d : ascii) (t : str) :
  is_digit d = true -> Forall digit_or_sep t ->
  re_match false (ast CurrencyParser.NUMBER_PATTERN) (d :: t)
  = Some (MkMatch (d :: t) [(1%nat, d :: t)] []).
Proof.
  intros D Ht.
  unfold re_match, match_at, CurrencyParser.NUMBER_PATTERN.
  cbn [ast seqs cat star plus rmatch].
  rewrite rep_greedy_stop
    by (unfold in_set, in_items; cbn [existsb in_item]; rewrite D; reflexivity).
  erewrite (rep_greedy_all (in_set false false CurrencyParser.number_class) (d :: t)).
  - reflexivity.
  - constructor; [apply digit_or_sep_class; left; exact D|].
    eapply Forall_impl; [|exact Ht]. apply digit_or_sep_class.
  - simpl. lia.
  - cbn [rep_greedy at_end]. rewrite Nat.sub_0_r, !firstn_all. reflexivity.
Qed.

(** On such a text [parse] is [_parse_number_string], and the raw string is
    the text. *)
Lemma parse_numeric (d : ascii) (t : str) :
  is_digit d = true -> Forall digit_or_sep t ->
  exists v, CurrencyParser._parse_number_string (d :: t) = Ok v /\
            CurrencyParser.parse (Some (d :: t)) = Ok (v, d :: t).
Proof.
  intros D Ht.
  assert (Hall : Forall digit_or_sep (d :: t)) by (constructor; [left; exact D | exact Ht]).
  assert (Hs : strip (d :: t) = d :: t).
  { apply strip_id. eapply Forall_impl; [|exact Hall]. apply digit_or_sep_no_space. }
  destruct (_parse_number_string_ok (d :: t)) as [v Hv].
  exists v. split; [exact Hv|].
  unfold CurrencyParser.parse. rewrite Hs.
  rewrite cleaned_of_plain
    by (eapply Forall_impl; [|exact Hall]; apply digit_or_sep_no_prefix).
  rewrite Hs. cbn [is_empty].
  rewrite (number_pattern_numeric d t D Ht).
  unfold CurrencyParser.group1_strip. cbn [m_caps get_cap Nat.eqb].
  rewrite Hs. cbn [bind]. rewrite Hv. cbn [bind]. destruct v; reflexivity.
Qed.

Lemma decimal_number_of (ip fp : str) :
  Forall (fun c => is_digit c = true) ip -> Forall (fun c => is_digit c = true) fp ->
  ip ++ fp <> [] ->
  decimal ip fp = Ok (Binary64.b64 (number_of ip fp)).
Proof.
  intros Hi Hf Hne. unfold decimal, number_of.
  rewrite (proj2 (forallb_forall is_digit ip)) by (apply Forall_forall; exact Hi).
  rewrite (proj2 (forallb_forall is_digit fp)) by (apply Forall_forall; exact Hf).
  assert (E : (is_empty ip && is_empty fp)%bool = false).
  { destruct ip; [|reflexivity]. destruct fp; [|reflexivity]. contradiction Hne. reflexivity. }
  rewrite E. cbn [andb negb]. f_equal. apply b64_comp.
  rewrite Qred_correct, Qmake_Qdiv.
  rewrite Z2Pos.id by (apply Z.pow_pos_nonneg; lia). reflexivity.
Qed.

Lemma count_digit (c : ascii) (s : str) :
  is_digit c = false -> Forall (fun x => is_digit x = true) s -> count c s = 0%nat.
Proof.
  intros Hc. induction 1 as [|x s Hx H IH]; [reflexivity|]. simpl.
  destruct (Ascii.eqb x c) eqn:E; [|exact IH].
  apply Ascii.eqb_eq in E. subst x. congruence.
Qed.

Lemma split_absent (c : ascii) (s : str) : count c s = 0%nat -> split c s = [s].
Proof.
  induction s as [|x s IH]; [reflexivity|]. simpl.
  destruct (Ascii.eqb x c); [discriminate|]. intros H. rewrite (IH H). reflexivity.
Qed.

Lemma split_once (c : ascii) (a b : str) :
  count c a = 0%nat -> count c b = 0%nat -> split c (a ++ c :: b) = [a; b].
Proof.
  intros Ha Hb. induction a as [|x a IH]; simpl.
  - rewrite Ascii.eqb_refl, (split_absent c b Hb). reflexivity.
  - simpl in Ha. destruct (Ascii.eqb x c); [discriminate|]. rewrite (IH Ha). reflexivity.
Qed.

Lemma py_float_digits (s : str) :
  s <> [] -> Forall (fun c => is_digit c = true) s ->
  py_float s = Ok (Binary64.b64 (number_of s [])).
Proof.
  intros Hne H. unfold py_float.
  rewrite (split_absent "." s (count_digit "." s eq_refl H)).
  apply decimal_number_of; [exact H | constructor | rewrite app_nil_r; exact Hne].
Qed.

Lemma py_float_point (a b : str) :
  Forall (fun c => is_digit c = true) a -> Forall (fun c => is_digit c = true) b ->
  a ++ b <> [] ->
  py_float (a ++ "."%char :: b) = Ok (Binary64.b64 (number_of a b)).
Proof.
  intros Ha Hb Hne. unfold py_float.
  rewrite (split_once "." a b (count_digit "." a eq_refl Ha) (count_digit "." b eq_refl Hb)).
  apply decimal_number_of; assumption.
Qed.

Lemma digits_no_space (s : str) :
  Forall (fun c => is_digit c = true) s -> Forall (fun c => is_space c = false) s.
Proof. intros H. eapply Forall_impl; [|exact H]. apply digit_not_space. Qed.

Lemma digit_or_sep_of_digit (s : str) :
  Forall (fun c => is_digit c = true) s -> Forall digit_or_sep s.
Proof. intros H. eapply Forall_impl; [|exact H]. intros c D. left. exact D. Qed.

Lemma _parse_number_string_no_space (s : str) :
  Forall digit_or_sep s ->
  re_sub_del false (ast CurrencyParser.WHITESPACE) s = s.
Proof.
  intros H. unfold re_sub_del. apply sub_del_spaces_id.
  eapply Forall_impl; [|exact H]. apply digit_or_sep_no_space.
Qed.

(** Digits only: the integer they denote. *)
Lemma _parse_number_string_digits (s : str) :
  s <> [] -> Forall (fun c => is_digit c = true) s ->
  CurrencyParser._parse_number_string s = Ok (Some (Binary64.b64 (number_of s []))).
Proof.
  intros Hne H. unfold CurrencyParser._parse_number_string.
  rewrite (_parse_number_string_no_space s (digit_or_sep_of_digit s H)).
  destruct s as [|x s]; [contradiction Hne; reflexivity|]. cbn [is_empty].
  rewrite (count_digit "." _ eq_refl H), (count_digit "," _ eq_refl H).
  cbn [Nat.eqb andb]. unfold CurrencyParser.to_float.
  rewrite (py_float_digits _ Hne H). reflexivity.
Qed.

Lemma app_digits (a b : str) :
  Forall (fun c => is_digit c = true) a -> Forall (fun c => is_digit c = true) b ->
  Forall (fun c => is_digit c = true) (a ++ b).
Proof. intros Ha Hb. apply Forall_app. split; assumption. Qed.

Lemma count_one (c c' : ascii) (a b : str) :
  count c a = 0%nat -> count c b = 0%nat ->
  count c (a ++ c' :: b) = if Ascii.eqb c' c then 1%nat else 0%nat.
Proof.
  intros Ha Hb. rewrite count_app. simpl. rewrite Ha, Hb.
  destruct (Ascii.eqb c' c); reflexivity.
Qed.

Lemma replace_one (c : ascii) (by_ a b : str) :
  count c a = 0%nat -> count c b = 0%nat ->
  replace c by_ (a ++ c :: b) = a ++ by_ ++ b.
Proof.
  intros Ha Hb. rewrite replace_app. simpl. rewrite Ascii.eqb_refl.
  rewrite (replace_absent c by_ a Ha), (replace_absent c by_ b Hb). reflexivity.
Qed.

(** One dot: three digits after it make it a thousands separator, any other
    number of digits a decimal point. *)
Lemma _parse_number_string_one_dot (a b : str) :
  a <> [] ->
  Forall (fun c => is_digit c = true) a -> Forall (fun c => is_digit c = true) b ->
  CurrencyParser._parse_number_string (a ++ "."%char :: b)
  = Ok (Some (Binary64.b64 (if (length b =? 3)%nat then number_of (a ++ b) []
                             else number_of a b))).
Proof.
  intros Hne Ha Hb.
  assert (Hab : a ++ b <> []) by (destruct a; [contradiction Hne; reflexivity | discriminate]).
  unfold CurrencyParser._parse_number_string.
  rewrite _parse_number_string_no_space
    by (apply Forall_app; split;
        [apply digit_or_sep_of_digit; exact Ha
        | constructor; [right; left; reflexivity | apply digit_or_sep_of_digit; exact Hb]]).
  replace (is_empty (a ++ "."%char :: b)) with false by (destruct a; reflexivity).
  rewrite (count_one "." "." a b (count_digit "." a eq_refl Ha) (count_digit "." b eq_refl Hb)).
  rewrite (count_one "," "." a b (count_digit "," a eq_refl Ha) (count_digit "," b eq_refl Hb)).
  cbn [Ascii.eqb Bool.eqb Nat.eqb andb].
  rewrite (split_once "." a b (count_digit "." a eq_refl Ha) (count_digit "." b eq_refl Hb)).
  cbn [index_at nth_error bind].
  unfold CurrencyParser.to_float.
  rewrite (replace_one "." [] a b (count_digit "." a eq_refl Ha) (count_digit "." b eq_refl Hb)).
  cbn [app].
  rewrite (py_float_point a b Ha Hb Hab).
  rewrite (py_float_digits (a ++ b) Hab (app_digits a b Ha Hb)).
  destruct (length b =? 2)%nat eqn:E2; destruct (length b =? 3)%nat eqn:E3;
    try reflexivity.
  apply Nat.eqb_eq in E2. apply Nat.eqb_eq in E3. lia.
Qed.

(** One comma: the same rule. *)
Lemma _parse_number_string_one_comma (a b : str) :
  a <> [] ->
  Forall (fun c => is_digit c = true) a -> Forall (fun c => is_digit c = true) b ->
  CurrencyParser._parse_number_string (a ++ ","%char :: b)
  = Ok (Some (Binary64.b64 (if (length b =? 3)%nat then number_of (a ++ b) []
                             else number_of a b))).
Proof.
  intros Hne Ha Hb.
  assert (Hab : a ++ b <> []) by (destruct a; [contradiction Hne; reflexivity | discriminate]).
  unfold CurrencyParser._parse_number_string.
  rewrite _parse_number_string_no_space
    by (apply Forall_app; split;
        [apply digit_or_sep_of_digit; exact Ha
        | constructor; [right; right; reflexivity | apply digit_or_sep_of_digit; exact Hb]]).
  replace (is_empty (a ++ ","%char :: b)) with false by (destruct a; reflexivity).
  rewrite (count_one "." "," a b (count_digit "." a eq_refl Ha) (count_digit "." b eq_refl Hb)).
  rewrite (count_one "," "," a b (count_digit "," a eq_refl Ha) (count_digit "," b eq_refl Hb)).
  cbn [Ascii.eqb Bool.eqb Nat.eqb andb].
  rewrite (split_once "," a b (count_digit "," a eq_refl Ha) (count_digit "," b eq_refl Hb)).
  cbn [index_at nth_error bind].
  unfold CurrencyParser.to_float.
  rewrite (replace_one "," [] a b (count_digit "," a eq_refl Ha) (count_digit "," b eq_refl Hb)).
  rewrite (replace_one "," (py ".") a b (count_digit "," a eq_refl Ha) (count_digit "," b eq_refl Hb)).
  cbn [app py list_ascii_of_string].
  rewrite (py_float_point a b Ha Hb Hab).
  rewrite (py_float_digits (a ++ b) Hab (app_digits a b Ha Hb)).
  destruct (length b =? 2)%nat eqn:E2; destruct (length b =? 3)%nat eqn:E3;
    try reflexivity.
  apply Nat.eqb_eq in E2. apply Nat.eqb_eq in E3. lia.
Qed.

Lemma count_other (c c' : ascii) (s : str) :
  is_digit c' = false -> c' <> c ->
  Forall (fun x => is_digit x = true \/ x = c) s -> count c' s = 0%nat.
Proof.
  intros Hd Hc. induction 1 as [|x s Hx H IH]; [reflexivity|]. simpl. rewrite IH.
  destruct (Ascii.eqb x c') eqn:E; [|reflexivity].
  apply Ascii.eqb_eq in E. subst x. destruct Hx as [D | ->]; congruence.
Qed.

Lemma replace_filter (c : ascii) (s : str) :
  is_digit c = false ->
  Forall (fun x => is_digit x = true \/ x = c) s ->
  replace c [] s = filter is_digit s.
Proof.
  intros Hc. induction 1 as [|x s Hx H IH]; [reflexivity|]. simpl. rewrite IH.
  destruct Hx as [D | ->].
  - rewrite D. destruct (Ascii.eqb x c) eqn:E; [|reflexivity].
    apply Ascii.eqb_eq in E. subst x. congruence.
  - rewrite Ascii.eqb_refl, Hc. reflexivity.
Qed.

Lemma filter_digits (s : str) : Forall (fun c => is_digit c = true) (filter is_digit s).
Proof.
  apply Forall_forall. intros x Hx. apply filter_In in Hx. apply Hx.
Qed.

(** Two or more dots and no comma: every dot is a thousands separator. *)
Lemma _parse_number_string_dots (d : ascii) (t : str) :
  is_digit d = true ->
  Forall (fun x => is_digit x = true \/ x = "."%char) t ->
  (2 <= count "." t)%nat ->
  CurrencyParser._parse_number_string (d :: t)
  = Ok (Some (Binary64.b64 (number_of (filter is_digit (d :: t)) []))).
Proof.
  intros D Ht Hc.
  assert (Hall : Forall (fun x => is_digit x = true \/ x = "."%char) (d :: t))
    by (constructor; [left; exact D | exact Ht]).
  unfold CurrencyParser._parse_number_string.
  rewrite _parse_number_string_no_space
    by (eapply Forall_impl; [|exact Hall]; intros c [H | ->];
        [left; exact H | right; left; reflexivity]).
  cbn [is_empty].
  rewrite (count_other "." "," (d :: t) eq_refl ltac:(discriminate) Hall).
  assert (Hd : count "." (d :: t) = count "." t).
  { simpl. destruct (Ascii.eqb d ".") eqn:E; [|reflexivity].
    apply Ascii.eqb_eq in E. subst d. discriminate D. }
  rewrite Hd.
  replace (count "." t =? 0)%nat with false by (symmetry; apply Nat.eqb_neq; lia).
  replace (count "." t =? 1)%nat with false by (symmetry; apply Nat.eqb_neq; lia).
  replace (1 <? count "." t)%nat with true by (symmetry; apply Nat.ltb_lt; lia).
  cbn [Nat.eqb Nat.leb andb]. rewrite andb_false_r. cbn [andb].
  unfold CurrencyParser.to_float.
  rewrite (replace_filter "." (d :: t) eq_refl Hall).
  rewrite py_float_digits; [reflexivity | | apply filter_digits].
  simpl. rewrite D. discriminate.
Qed.

(** Two or more commas and no dot: every comma is a thousands separator. *)
Lemma _parse_number_string_commas (d : ascii) (t : str) :
  is_digit d = true ->
  Forall (fun x => is_digit x = true \/ x = ","%char) t ->
  (2 <= count "," t)%nat ->
  CurrencyParser._parse_number_string (d :: t)
  = Ok (Some (Binary64.b64 (number_of (filter is_digit (d :: t)) []))).
Proof.
  intros D Ht Hc.
  assert (Hall : Forall (fun x => is_digit x = true \/ x = ","%char) (d :: t))
    by (constructor; [left; exact D | exact Ht]).
  unfold CurrencyParser._parse_number_string.
  rewrite _parse_number_string_no_space
    by (eapply Forall_impl; [|exact Hall]; intros c [H | ->];
        [left; exact H | right; right; reflexivity]).
  cbn [is_empty].
  rewrite (count_other "," "." (d :: t) eq_refl ltac:(discriminate) Hall).
  assert (Hd : count "," (d :: t) = count "," t).
  { simpl. destruct (Ascii.eqb d ",") eqn:E; [|reflexivity].
    apply Ascii.eqb_eq in E. subst d. discriminate D. }
  rewrite Hd.
  replace (count "," t =? 0)%nat with false by (symmetry; apply Nat.eqb_neq; lia).
  replace (count "," t =? 1)%nat with false by (symmetry; apply Nat.eqb_neq; lia).
  replace (1 <? count "," t)%nat with true by (symmetry; apply Nat.ltb_lt; lia).
  cbn [Nat.eqb Nat.leb Nat.ltb andb].
  unfold CurrencyParser.to_float.
  rewrite (replace_filter "," (d :: t) eq_refl Hall).
  rewrite py_float_digits; [reflexivity | | apply filter_digits].
  simpl. rewrite D. discriminate.
Qed.

(** ** Currency prefixes *)

(** A greedy repetition takes a run that ends at a character it does not
    accept, when what follows the repetition accepts that position. *)
Lemma rep_greedy_run {A : Type} (p : ascii -> bool) (w : str) (x : ascii) (s : str) :
  Forall (fun c => p c = true) w -> p x = false ->
  forall (prev : option ascii) (caps : captures) (k : kont A) (a : A),
    (forall q, k q (x :: s) caps = Some a) ->
    rep_greedy p 0 None prev (w ++ x :: s) caps k = Some a.
Proof.
  intros Hw Hx. induction Hw as [|c w Hc Hw IH]; intros prev caps k a Hk.
  - cbn [app]. rewrite rep_greedy_stop by exact Hx. apply Hk.
  - cbn [app rep_greedy option_map Nat.pred]. rewrite Hc. cbn [andb].
    rewrite (IH (Some c) caps k a Hk). reflexivity.
Qed.

Lemma sub_del_skip (ic : bool) (r : regex) (w s : str) :
  forall prev, exists q, sub_del ic r (length w) prev (w ++ s) = sub_del ic r 0 q s.
Proof.
  induction w as [|x w IH]; intros prev; [exists prev; reflexivity|].
  cbn [length app sub_del]. apply IH.
Qed.

Lemma sub_del_miss (ic : bool) (r : regex) (prev : option ascii) (x : ascii) (s : str) :
  match_at ic r prev (x :: s) = None ->
  sub_del ic r 0 prev (x :: s) = x :: sub_del ic r 0 (Some x) s.
Proof. intros H. cbn [sub_del]. rewrite H. reflexivity. Qed.

Lemma sub_del_hit (ic : bool) (r : regex) (prev : option ascii) (x : ascii)
      (w s : str) (caps : captures) :
  match_at ic r prev ((x :: w) ++ s) = Some (MkMatch (x :: w) caps s) ->
  exists q, sub_del ic r 0 prev ((x :: w) ++ s) = sub_del ic r 0 q s.
Proof.
  intros H. cbn [app sub_del]. cbn [app] in H. rewrite H. cbn [m_group0 length].
  apply sub_del_skip.
Qed.

(** A prefix pattern deletes nothing from a text none of whose characters
    can start it, wherever the scan stands. *)
Lemma sub_del_set_any (ic neg : bool) (items : list citem) (r' : regex) (s : str) :
  Forall (fun x => in_set ic neg items x = false) s ->
  forall n prev, (n = 0)%nat -> sub_del ic (RSeq (RSet neg items) r') n prev s = s.
Proof. intros H n prev ->. apply sub_del_first_set. exact H. Qed.

Ltac by_cases c := destruct c as [[] [] [] [] [] [] [] []]; vm_compute; congruence.

Lemma lower_r_set (c : ascii) :
  to_lower c = "r"%char -> in_set true false [CChr "R"; CChr "r"] c = true.
Proof. by_cases c. Qed.
Lemma lower_p_set (c : ascii) :
  to_lower c = "p"%char -> in_set true false [CChr "P"; CChr "p"] c = true.
Proof. by_cases c. Qed.
Lemma lower_i_set (c : ascii) :
  to_lower c = "i"%char -> in_set true false [CChr "I"; CChr "i"] c = true.
Proof. by_cases c. Qed.
Lemma lower_d_set (c : ascii) :
  to_lower c = "d"%char -> in_set true false [CChr "D"; CChr "d"] c = true.
Proof. by_cases c. Qed.
Lemma lower_u_set (c : ascii) :
  to_lower c = "u"%char -> in_set true false [CChr "U"; CChr "u"] c = true.
Proof. by_cases c. Qed.
Lemma lower_s_set (c : ascii) :
  to_lower c = "s"%char -> in_set true false [CChr "S"; CChr "s"] c = true.
Proof. by_cases c. Qed.

Lemma space_starts_none (c : ascii) : is_space c = true -> starts_none c.
Proof. unfold starts_none. destruct c as [[] [] [] [] [] [] [] []]; vm_compute; intros H;
  first [discriminate H | repeat split]. Qed.

Lemma digit_or_sep_starts_none (c : ascii) : digit_or_sep c -> starts_none c.
Proof.
  intros H. apply no_prefix_start_tests.
  destruct H as [D | [-> | ->]]; [apply digit_no_prefix_start; exact D | reflexivity | reflexivity].
Qed.

Lemma space_not_p (c : ascii) :
  is_space c = true -> in_set true false [CChr "P"; CChr "p"] c = false.
Proof. by_cases c. Qed.
Lemma digit_not_p (c : ascii) :
  is_digit c = true -> in_set true false [CChr "P"; CChr "p"] c = false.
Proof. by_cases c. Qed.
Lemma space_not_dot (c : ascii) : is_space c = true -> chr_eq true "." c = false.
Proof. by_cases c. Qed.
Lemma digit_not_dot (c : ascii) : is_digit c = true -> chr_eq true "." c = false.
Proof. by_cases c. Qed.
Lemma space_set (c : ascii) : is_space c = true -> in_set true false [CSpace] c = true.
Proof. by_cases c. Qed.
Lemma digit_not_space_set (c : ascii) :
  is_digit c = true -> in_set true false [CSpace] c = false.
Proof. by_cases c. Qed.

(** Whitespace followed by a digit starts with a space or with the digit. *)
Lemma spaces_digit_head (sp : str) (d : ascii) (t : str) :
  Forall (fun c => is_space c = true) sp -> is_digit d = true ->
  exists h rest, sp ++ d :: t = h :: rest /\ (is_space h = true \/ is_digit h = true).
Proof.
  intros Hsp D. destruct Hsp as [|x sp Hx _].
  - exists d, t. split; [reflexivity | right; exact D].
  - exists x, (sp ++ d :: t). split; [reflexivity | left; exact Hx].
Qed.

Lemma spaces_then (A : Type) (sp : str) (d : ascii) (t : str) (prev : option ascii)
      (caps : captures) (k : kont A) (a : A) :
  Forall (fun c => is_space c = true) sp -> is_digit d = true ->
  (forall q, k q (d :: t) caps = Some a) ->
  rep_greedy (in_set true false [CSpace]) 0 None prev (sp ++ d :: t) caps k = Some a.
Proof.
  intros Hsp D Hk. apply rep_greedy_run; [|apply digit_not_space_set; exact D | exact Hk].
  eapply Forall_impl; [|exact Hsp]. apply space_set.
Qed.

Lemma match_at_result (ic : bool) (r : regex) (prev : option ascii) (pre after : str) :
  (forall (k : kont match_obj) (a : match_obj),
      (forall q, k q after [] = Some a) ->
      rmatch ic r prev (pre ++ after) [] k = Some a) ->
  match_at ic r prev (pre ++ after) = Some (MkMatch pre [] after).
Proof.
  intros H. unfold match_at. apply H. intros _.
  rewrite firstn_consumed. reflexivity.
Qed.

Lemma match_rp (prev : option ascii) (c1 c2 : ascii) (dot sp : str) (d : ascii) (t : str) :
  to_lower c1 = "r"%char -> to_lower c2 = "p"%char ->
  dot = [] \/ dot = ["."%char] ->
  Forall (fun c => is_space c = true) sp -> is_digit d = true ->
  match_at true P_rp prev ((c1 :: c2 :: dot ++ sp) ++ d :: t)
  = Some (MkMatch (c1 :: c2 :: dot ++ sp) [] (d :: t)).
Proof.
  intros H1 H2 Hdot Hsp D. apply match_at_result. intros k a Hk.
  unfold P_rp. cbn [nth CurrencyParser.CURRENCY_PREFIXES ast seqs cat star rmatch app].
  rewrite (lower_r_set c1 H1), (lower_p_set c2 H2).
  destruct Hdot as [-> | ->]; cbn [app].
  - destruct (spaces_digit_head sp d t Hsp D) as (h & rest & E & Hh).
    rewrite E.
    replace (chr_eq true "." h) with false
      by (symmetry; destruct Hh; [apply space_not_dot | apply digit_not_dot]; assumption).
    rewrite <- E. apply spaces_then; assumption.
  - replace (chr_eq true "." ".") with true by reflexivity.
    rewrite (spaces_then match_obj sp d t (Some "."%char) [] k a Hsp D Hk). reflexivity.
Qed.

Lemma match_idr (prev : option ascii) (c1 c2 c3 : ascii) (sp : str) (d : ascii) (t : str) :
  to_lower c1 = "i"%char -> to_lower c2 = "d"%char -> to_lower c3 = "r"%char ->
  Forall (fun c => is_space c = true) sp -> is_digit d = true ->
  match_at true P_idr prev ((c1 :: c2 :: c3 :: sp) ++ d :: t)
  = Some (MkMatch (c1 :: c2 :: c3 :: sp) [] (d :: t)).
Proof.
  intros H1 H2 H3 Hsp D. apply match_at_result. intros k a Hk.
  unfold P_idr. cbn [nth CurrencyParser.CURRENCY_PREFIXES ast seqs cat star rmatch app].
  rewrite (lower_i_set c1 H1), (lower_d_set c2 H2), (lower_r_set c3 H3).
  apply spaces_then; assumption.
Qed.

Lemma match_dollar (prev : option ascii) (sp : str) (d : ascii) (t : str) :
  Forall (fun c => is_space c = true) sp -> is_digit d = true ->
  match_at true P_dollar prev (("$"%char :: sp) ++ d :: t)
  = Some (MkMatch ("$"%char :: sp) [] (d :: t)).
Proof.
  intros Hsp D. apply match_at_result. intros k a Hk.
  unfold P_dollar. cbn [nth CurrencyParser.CURRENCY_PREFIXES ast seqs cat star rmatch app].
  replace (chr_eq true "$" "$") with true by reflexivity.
  apply spaces_then; assumption.
Qed.

Lemma match_usd (prev : option ascii) (c1 c2 c3 : ascii) (sp : str) (d : ascii) (t : str) :
  to_lower c1 = "u"%char -> to_lower c2 = "s"%char -> to_lower c3 = "d"%char ->
  Forall (fun c => is_space c = true) sp -> is_digit d = true ->
  match_at true P_usd prev ((c1 :: c2 :: c3 :: sp) ++ d :: t)
  = Some (MkMatch (c1 :: c2 :: c3 :: sp) [] (d :: t)).
Proof.
  intros H1 H2 H3 Hsp D. apply match_at_result. intros k a Hk.
  unfold P_usd. cbn [nth CurrencyParser.CURRENCY_PREFIXES ast seqs cat star rmatch app].
  rewrite (lower_u_set c1 H1), (lower_s_set c2 H2), (lower_d_set c3 H3).
  apply spaces_then; assumption.
Qed.

Lemma del_none (s : str) :
  Forall starts_none s ->
  forall prev,
    sub_del true P_rp 0 prev s = s /\ sub_del true P_idr 0 prev s = s /\
    sub_del true P_dollar 0 prev s = s /\ sub_del true P_usd 0 prev s = s.
Proof.
  intros H prev.
  unfold P_rp, P_idr, P_dollar, P_usd.
  cbn [nth CurrencyParser.CURRENCY_PREFIXES ast seqs cat].
  repeat split.
  - apply sub_del_first_set. eapply Forall_impl; [|exact H]. intros c Hc. apply Hc.
  - apply sub_del_first_set. eapply Forall_impl; [|exact H]. intros c Hc. apply Hc.
  - apply sub_del_first_chr. eapply Forall_impl; [|exact H]. intros c Hc. apply Hc.
  - apply sub_del_first_set. eapply Forall_impl; [|exact H]. intros c Hc. apply Hc.
Qed.

Lemma numeric_starts_none (d : ascii) (t : str) :
  is_digit d = true -> Forall digit_or_sep t -> Forall starts_none (d :: t).
Proof.
  intros D Ht. constructor; [apply digit_or_sep_starts_none; left; exact D|].
  eapply Forall_impl; [|exact Ht]. apply digit_or_sep_starts_none.
Qed.

Lemma tail_starts_none (sp : str) (d : ascii) (t : str) :
  Forall (fun c => is_space c = true) sp -> is_digit d = true -> Forall digit_or_sep t ->
  Forall starts_none (sp ++ d :: t).
Proof.
  intros Hsp D Ht. apply Forall_app. split.
  - eapply Forall_impl; [|exact Hsp]. apply space_starts_none.
  - apply numeric_starts_none; assumption.
Qed.

Lemma lower_not_r (c : ascii) :
  to_lower c = "i"%char \/ to_lower c = "d"%char \/ to_lower c = "u"%char
  \/ to_lower c = "s"%char \/ c = "$"%char ->
  in_set true false [CChr "R"; CChr "r"] c = false.
Proof. destruct c as [[] [] [] [] [] [] [] []]; vm_compute; intuition congruence. Qed.

Lemma lower_not_i (c : ascii) :
  to_lower c = "d"%char \/ to_lower c = "u"%char \/ to_lower c = "s"%char \/ c = "$"%char ->
  in_set true false [CChr "I"; CChr "i"] c = false.
Proof. destruct c as [[] [] [] [] [] [] [] []]; vm_compute; intuition congruence. Qed.

Lemma lower_not_dollar (c : ascii) :
  to_lower c = "d"%char \/ to_lower c = "u"%char \/ to_lower c = "s"%char ->
  chr_eq true "$" c = false.
Proof. destruct c as [[] [] [] [] [] [] [] []]; vm_compute; intuition congruence. Qed.

(** The four substitutions take a prefix off a number and leave the number. *)
Lemma cleaned_of_prefixed (pre : str) (d : ascii) (t : str) :
  currency_prefix pre -> is_digit d = true -> Forall digit_or_sep t ->
  CurrencyParser.cleaned_of (pre ++ d :: t) = strip (d :: t).
Proof.
  intros Hpre D Ht.
  pose proof (del_none (d :: t) (numeric_starts_none d t D Ht)) as Hnum.
  unfold CurrencyParser.cleaned_of. f_equal.
  change (fold_left (fun cleaned p => re_sub_del true (ast p) cleaned)
                    CurrencyParser.CURRENCY_PREFIXES (pre ++ d :: t))
    with (re_sub_del true P_usd (re_sub_del true P_dollar
            (re_sub_del true P_idr (re_sub_del true P_rp (pre ++ d :: t))))).
  unfold re_sub_del.
  destruct Hpre as [c1 c2 dot sp H1 H2 Hdot Hsp | c1 c2 c3 sp H1 H2 H3 Hsp
                   | sp Hsp | c1 c2 c3 sp H1 H2 H3 Hsp].
  - destruct (sub_del_hit true P_rp None c1 (c2 :: dot ++ sp) (d :: t) []
                (match_rp None c1 c2 dot sp d t H1 H2 Hdot Hsp D)) as [q ->].
    rewrite (proj1 (Hnum q)).
    rewrite (proj1 (proj2 (Hnum None))), (proj1 (proj2 (proj2 (Hnum None)))).
    apply Hnum.
  - assert (E : sub_del true P_rp 0 None ((c1 :: c2 :: c3 :: sp) ++ d :: t)
                = (c1 :: c2 :: c3 :: sp) ++ d :: t).
    { cbn [app].
      assert (M1 : forall prev c s, in_set true false [CChr "R"; CChr "r"] c = false ->
                     match_at true P_rp prev (c :: s) = None).
      { intros prev c s Hc. unfold match_at, P_rp.
        cbn [nth CurrencyParser.CURRENCY_PREFIXES ast seqs cat rmatch]. rewrite Hc. reflexivity. }
      rewrite sub_del_miss by (apply M1, lower_not_r; auto).
      rewrite sub_del_miss by (apply M1, lower_not_r; auto).
      rewrite sub_del_miss.
      - rewrite (proj1 (del_none _ (tail_starts_none sp d t Hsp D Ht) _)). reflexivity.
      - unfold match_at, P_rp.
        cbn [nth CurrencyParser.CURRENCY_PREFIXES ast seqs cat rmatch].
        rewrite (lower_r_set c3 H3).
        destruct (spaces_digit_head sp d t Hsp D) as (h & rest & -> & Hh).
        replace (in_set true false [CChr "P"; CChr "p"] h) with false; [reflexivity|].
        symmetry. destruct Hh; [apply space_not_p | apply digit_not_p]; assumption. }
    rewrite E.
    destruct (sub_del_hit true P_idr None c1 (c2 :: c3 :: sp) (d :: t) []
                (match_idr None c1 c2 c3 sp d t H1 H2 H3 Hsp D)) as [q ->].
    rewrite (proj1 (proj2 (Hnum q))), (proj1 (proj2 (proj2 (Hnum None)))).
    apply Hnum.
  - assert (Hall : Forall (fun c => in_set true false [CChr "R"; CChr "r"] c = false /\
                                    in_set true false [CChr "I"; CChr "i"] c = false)
                          (("$"%char :: sp) ++ d :: t)).
    { cbn [app]. constructor; [split; reflexivity|].
      eapply Forall_impl; [|exact (tail_starts_none sp d t Hsp D Ht)].
      intros c Hc. split; apply Hc. }
    assert (E1 : sub_del true P_rp 0 None (("$"%char :: sp) ++ d :: t)
                 = ("$"%char :: sp) ++ d :: t).
    { unfold P_rp. cbn [nth CurrencyParser.CURRENCY_PREFIXES ast seqs cat].
      apply sub_del_first_set. eapply Forall_impl; [|exact Hall]. intros c Hc. apply Hc. }
    assert (E2 : sub_del true P_idr 0 None (("$"%char :: sp) ++ d :: t)
                 = ("$"%char :: sp) ++ d :: t).
    { unfold P_idr. cbn [nth CurrencyParser.CURRENCY_PREFIXES ast seqs cat].
      apply sub_del_first_set. eapply Forall_impl; [|exact Hall]. intros c Hc. apply Hc. }
    rewrite E1, E2.
    destruct (sub_del_hit true P_dollar None "$" sp (d :: t) []
                (match_dollar None sp d t Hsp D)) as [q ->].
    rewrite (proj1 (proj2 (proj2 (Hnum q)))). apply Hnum.
  - assert (Hall : Forall (fun c => in_set true false [CChr "R"; CChr "r"] c = false /\
                                    in_set true false [CChr "I"; CChr "i"] c = false /\
                                    chr_eq true "$" c = false)
                          ((c1 :: c2 :: c3 :: sp) ++ d :: t)).
    { cbn [app].
      constructor; [repeat split; [apply lower_not_r | apply lower_not_i
                                   | apply lower_not_dollar]; auto|].
      constructor; [repeat split; [apply lower_not_r | apply lower_not_i
                                   | apply lower_not_dollar]; auto|].
      constructor; [repeat split; [apply lower_not_r | apply lower_not_i
                                   | apply lower_not_dollar]; auto|].
      eapply Forall_impl; [|exact (tail_starts_none sp d t Hsp D Ht)].
      intros c Hc. repeat split; apply Hc. }
    assert (E1 : sub_del true P_rp 0 None ((c1 :: c2 :: c3 :: sp) ++ d :: t)
                 = (c1 :: c2 :: c3 :: sp) ++ d :: t).
    { unfold P_rp. cbn [nth CurrencyParser.CURRENCY_PREFIXES ast seqs cat].
      apply sub_del_first_set. eapply Forall_impl; [|exact Hall]. intros c Hc. apply Hc. }
    assert (E2 : sub_del true P_idr 0 None ((c1 :: c2 :: c3 :: sp) ++ d :: t)
                 = (c1 :: c2 :: c3 :: sp) ++ d :: t).
    { unfold P_idr. cbn [nth CurrencyParser.CURRENCY_PREFIXES ast seqs cat].
      apply sub_del_first_set. eapply Forall_impl; [|exact Hall]. intros c Hc. apply Hc. }
    assert (E3 : sub_del true P_dollar 0 None ((c1 :: c2 :: c3 :: sp) ++ d :: t)
                 = (c1 :: c2 :: c3 :: sp) ++ d :: t).
    { unfold P_dollar. cbn [nth CurrencyParser.CURRENCY_PREFIXES ast seqs cat].
      apply sub_del_first_chr. eapply Forall_impl; [|exact Hall]. intros c Hc. apply Hc. }
    rewrite E1, E2, E3.
    destruct (sub_del_hit true P_usd None c1 (c2 :: c3 :: sp) (d :: t) []
                (match_usd None c1 c2 c3 sp d t H1 H2 H3 Hsp D)) as [q ->].
    apply Hnum.
Qed.

(** ** The value of a currency string *)

Lemma Qred_inject_Z (n : Z) : Qred (inject_Z n) = inject_Z n.
Proof.
  unfold Qred, inject_Z.
  pose proof (Z.ggcd_gcd n 1) as Hg. pose proof (Z.ggcd_correct_divisors n 1) as Hd.
  destruct (Z.ggcd n 1) as (g, (aa, bb)). simpl in Hg.
  rewrite Z.gcd_1_r in Hg. subst g. destruct Hd as [Ha Hb].
  rewrite Z.mul_1_l in Ha, Hb. subst aa bb. reflexivity.
Qed.

Lemma number_of_whole (s : str) : number_of s [] = inject_Z (digits_val 0 s).
Proof.
  unfold number_of. rewrite app_nil_r.
  transitivity (Qred (inject_Z (digits_val 0 s))); [|apply Qred_inject_Z].
  apply Qred_complete. cbn [length Z.of_nat]. change (inject_Z (10 ^ 0)) with 1%Q.
  unfold Qeq, Qdiv, Qmult, Qinv, inject_Z. simpl. lia.
Qed.

Lemma lower_letter_not_space (c : ascii) :
  to_lower c = "r"%char \/ to_lower c = "i"%char \/ to_lower c = "u"%char
  \/ c = "$"%char ->
  is_space c = false.
Proof. destruct c as [[] [] [] [] [] [] [] []]; vm_compute; intuition congruence. Qed.

Lemma rstrip_snoc (l : str) (a : ascii) :
  is_space a = false -> rstrip (l ++ [a]) = l ++ [a].
Proof.
  intros H. unfold rstrip. rewrite rev_app_distr. cbn [rev app].
  rewrite (lstrip_solid a _ H). cbn [rev]. rewrite rev_involutive. reflexivity.
Qed.

(** [strip] leaves a text that begins and ends with other characters. *)
Lemma strip_ends (x : ascii) (s l : str) (a : ascii) :
  is_space x = false -> is_space a = false -> x :: s = l ++ [a] ->
  strip (x :: s) = x :: s.
Proof.
  intros Hx Ha E. unfold strip. rewrite (lstrip_solid x s Hx), E.
  apply rstrip_snoc. exact Ha.
Qed.

Lemma numeric_last (d : ascii) (t : str) :
  is_digit d = true -> Forall digit_or_sep t ->
  exists l a, d :: t = l ++ [a] /\ is_space a = false.
Proof.
  intros D Ht.
  assert (Hall : Forall digit_or_sep (d :: t)) by (constructor; [left; exact D | exact Ht]).
  destruct (exists_last (l := d :: t) ltac:(discriminate)) as (l & a & E).
  exists l, a. split; [exact E|].
  rewrite E in Hall. apply Forall_app in Hall. destruct Hall as [_ Hall].
  inversion Hall; subst. apply digit_or_sep_no_space. assumption.
Qed.

Lemma currency_prefix_head (pre : str) :
  currency_prefix pre -> exists x pre', pre = x :: pre' /\ is_space x = false.
Proof.
  intros [c1 c2 dot sp H1 _ _ _ | c1 c2 c3 sp H1 _ _ _ | sp _ | c1 c2 c3 sp H1 _ _ _];
    eexists; eexists; (split; [reflexivity|]); apply lower_letter_not_space; auto.
Qed.

(** A number behind an optional prefix: the value is that of the number,
    the raw string is the whole text. *)
Lemma parse_prefixed (pre : str) (d : ascii) (t : str) :
  optional_prefix pre -> is_digit d = true -> Forall digit_or_sep t ->
  exists v, CurrencyParser._parse_number_string (d :: t) = Ok v /\
            CurrencyParser.parse (Some (pre ++ d :: t)) = Ok (v, pre ++ d :: t).
Proof.
  intros [-> | Hpre] D Ht; [exact (parse_numeric d t D Ht)|].
  assert (Hall : Forall digit_or_sep (d :: t)) by (constructor; [left; exact D | exact Ht]).
  assert (Hs : strip (d :: t) = d :: t).
  { apply strip_id. eapply Forall_impl; [|exact Hall]. apply digit_or_sep_no_space. }
  destruct (_parse_number_string_ok (d :: t)) as [v Hv].
  exists v. split; [exact Hv|].
  destruct (currency_prefix_head pre Hpre) as (x & pre' & E & Hx).
  destruct (numeric_last d t D Ht) as (l & a & El & Ha).
  assert (Hwhole : strip (pre ++ d :: t) = pre ++ d :: t).
  { rewrite E. cbn [app]. apply (strip_ends x _ (x :: pre' ++ l) a Hx Ha).
    rewrite El. cbn [app]. rewrite app_assoc. reflexivity. }
  pose proof (cleaned_of_prefixed pre d t Hpre D Ht) as Hc. rewrite Hs in Hc.
  unfold CurrencyParser.parse.
  rewrite Hwhole, Hc. rewrite E at 1. cbn [app is_empty].
  rewrite (number_pattern_numeric d t D Ht).
  unfold CurrencyParser.group1_strip. cbn [m_caps get_cap Nat.eqb].
  rewrite Hs. cbn [bind]. rewrite Hv. cbn [bind]. destruct v; reflexivity.
Qed.

(** X1. A currency prefix in front of a number changes nothing but the raw
    string: for a text of digits, dots and commas that starts with a digit
    and a prefix [Rp], [Rp.], [IDR], [$] or [USD] (in either case, with any
    whitespace after it), [parse] gives the prefixed text the value that it
    gives the number alone, and returns the whole text as raw string. *)
Theorem currency_prefix_transparent (pre : str) (d : ascii) (t : str) :
  currency_prefix pre -> is_digit d = true -> Forall digit_or_sep t ->
  exists v,
    CurrencyParser.parse (Some (d :: t)) = Ok (v, d :: t) /\
    CurrencyParser.parse (Some (pre ++ d :: t)) = Ok (v, pre ++ d :: t).
Proof.
  intros Hpre D Ht.
  destruct (parse_prefixed [] d t (or_introl eq_refl) D Ht) as (v & Hv & Hp).
  destruct (parse_prefixed pre d t (or_intror Hpre) D Ht) as (v' & Hv' & Hp').
  rewrite Hv in Hv'. inversion Hv'; subst v'.
  exists v. split; assumption.
Qed.

Ltac digit_list := repeat (constructor; [reflexivity|]); try apply Forall_nil.

Lemma currency_prefix_transparent_witness :
  exists v,
    CurrencyParser.parse (Some (py "50.000")) = Ok (v, py "50.000") /\
    CurrencyParser.parse (Some (py "Rp. 50.000")) = Ok (v, py "Rp. 50.000").
Proof.
  apply (currency_prefix_transparent (py "Rp. ") "5" (py "0.000")).
  - apply (@prefix_rp "R" "p" ["."%char] [" "%char]);
      [reflexivity | reflexivity | right; reflexivity | repeat constructor].
  - reflexivity.
  - repeat (constructor; [first [left; reflexivity | right; left; reflexivity]|]).
    constructor.
Defined.

Lemma digit_value_range (c : ascii) :
  is_digit c = true -> (0 <= Z.of_N (code c) - 48 <= 9)%Z.
Proof. destruct c as [[] [] [] [] [] [] [] []]; vm_compute; intuition congruence. Qed.

Lemma digits_val_nonneg (s : str) :
  Forall (fun c => is_digit c = true) s ->
  forall acc, (0 <= acc)%Z -> (0 <= digits_val acc s)%Z.
Proof.
  induction 1 as [|c s Hc Hs IH]; intros acc Hacc; [exact Hacc|].
  cbn [digits_val]. apply IH. pose proof (digit_value_range c Hc). lia.
Qed.


(** The float of a whole number of moderate size is that number. *)
Lemma b64_digits (s : str) :
  all_digits s -> (digits_val 0 s <= 2 ^ 53)%Z ->
  Binary64.b64 (inject_Z (digits_val 0 s)) = inject_Z (digits_val 0 s).
Proof.
  intros Hs Hn. apply b64_integer.
  pose proof (digits_val_nonneg s Hs 0 ltac:(lia)). lia.
Qed.

(** X2. A non-empty string of digits, with or without a currency prefix,
    parses to the binary64 number nearest to the integer that the digits
    denote: to the integer itself up to 2^53 = 9007199254740992, and to a
    neighbour beyond ([9007199254740993] gives [9007199254740992.0]).  The
    digits are to denote a number that rounds to a finite float (309 digits
    and more give [inf], which has no counterpart here). *)
Theorem parse_whole_number (pre s : str) :
  optional_prefix pre -> s <> [] -> all_digits s ->
  Binary64.finite (inject_Z (digits_val 0 s)) ->
  CurrencyParser.parse (Some (pre ++ s))
  = Ok (Some (Binary64.b64 (inject_Z (digits_val 0 s))), pre ++ s) /\
  ((digits_val 0 s <= 2 ^ 53)%Z ->
   CurrencyParser.parse (Some (pre ++ s))
   = Ok (Some (inject_Z (digits_val 0 s)), pre ++ s)) /\
  CurrencyParser.parse (Some (py "9007199254740993"))
  = Ok (Some 9007199254740992%Q, py "9007199254740993").
Proof.
  intros Hpre Hne Hs _.
  assert (P : CurrencyParser.parse (Some (pre ++ s))
              = Ok (Some (Binary64.b64 (inject_Z (digits_val 0 s))), pre ++ s)).
  { destruct s as [|d t]; [contradiction Hne; reflexivity|].
    inversion Hs as [|? ? D Ht]; subst.
    destruct (parse_prefixed pre d t Hpre D (digit_or_sep_of_digit t Ht)) as (v & Hv & Hp).
    rewrite (_parse_number_string_digits (d :: t) Hne Hs), number_of_whole in Hv.
    inversion Hv; subst v. exact Hp. }
  split; [exact P|]. split.
  - intros Hn. rewrite P, (b64_digits s Hs Hn). reflexivity.
  - vm_compute. reflexivity.
Qed.

Lemma parse_whole_number_witness :
  CurrencyParser.parse (Some (py "IDR 75000")) = Ok (Some 75000%Q, py "IDR 75000").
Proof.
  refine (proj1 (proj2 (parse_whole_number (py "IDR ") (py "75000") _ _ _ _)) _).
  - right. apply (@prefix_idr "I" "D" "R" [" "%char]); try reflexivity. repeat constructor.
  - discriminate.
  - repeat constructor.
  - vm_compute. reflexivity.
  - vm_compute. discriminate.
Defined.

(** X3. Digits, one dot or one comma, digits: when exactly three digits
    follow the separator it is a thousands separator and the value is the
    float of the integer of all the digits; with any other number of digits
    after it (none, one, two, four, ...) it is a decimal point and the value
    is the float of that decimal number.  Dot and comma are treated alike.
    The float of a number is the binary64 number nearest to it: an integer
    up to 2^53 is its own float, [9007199254740.993] gives
    [9007199254740992.0], and [0.1] gives the float that is written [0.1]. *)
Theorem parse_single_separator (pre a b : str) (sep : ascii) :
  optional_prefix pre -> a <> [] -> all_digits a -> all_digits b ->
  sep = "."%char \/ sep = ","%char ->
  Binary64.finite (inject_Z (digits_val 0 (a ++ b))) ->
  CurrencyParser.parse (Some (pre ++ a ++ sep :: b))
  = Ok (Some (Binary64.b64 (if (length b =? 3)%nat
                            then inject_Z (digits_val 0 (a ++ b))
                            else number_of a b)),
        pre ++ a ++ sep :: b) /\
  (length b = 3%nat -> (digits_val 0 (a ++ b) <= 2 ^ 53)%Z ->
   CurrencyParser.parse (Some (pre ++ a ++ sep :: b))
   = Ok (Some (inject_Z (digits_val 0 (a ++ b))), pre ++ a ++ sep :: b)) /\
  CurrencyParser.parse (Some (py "9007199254740.993"))
  = Ok (Some 9007199254740992%Q, py "9007199254740.993") /\
  CurrencyParser.parse (Some (py "0.1"))
  = Ok (Some (3602879701896397 # 36028797018963968)%Q, py "0.1").
Proof.
  intros Hpre Hne Ha Hb Hsep _.
  assert (P : CurrencyParser.parse (Some (pre ++ a ++ sep :: b))
              = Ok (Some (Binary64.b64 (if (length b =? 3)%nat
                                        then inject_Z (digits_val 0 (a ++ b))
                                        else number_of a b)),
                    pre ++ a ++ sep :: b)).
  { destruct a as [|d t]; [contradiction Hne; reflexivity|].
    inversion Ha as [|? ? D Ht]; subst.
    assert (Htail : Forall digit_or_sep (t ++ sep :: b)).
    { apply Forall_app. split; [apply digit_or_sep_of_digit; exact Ht|].
      constructor; [right; exact Hsep | apply digit_or_sep_of_digit; exact Hb]. }
    destruct (parse_prefixed pre d (t ++ sep :: b) Hpre D Htail) as (v & Hv & Hp).
    change (d :: t ++ sep :: b) with ((d :: t) ++ sep :: b) in Hv, Hp.
    rewrite Hp. f_equal. f_equal. rewrite <- number_of_whole.
    destruct Hsep as [-> | ->].
    - rewrite (_parse_number_string_one_dot (d :: t) b Hne Ha Hb) in Hv.
      inversion Hv. reflexivity.
    - rewrite (_parse_number_string_one_comma (d :: t) b Hne Ha Hb) in Hv.
      inversion Hv. reflexivity. }
  split; [exact P|]. split; [|split].
  - intros H3 Hn. rewrite P, H3. cbn [Nat.eqb].
    rewrite (b64_digits (a ++ b) (app_digits a b Ha Hb) Hn). reflexivity.
  - vm_compute. reflexivity.
  - vm_compute. reflexivity.
Qed.

Lemma parse_single_separator_witness :
  CurrencyParser.parse (Some (py "Rp 50.000")) = Ok (Some 50000%Q, py "Rp 50.000") /\
  CurrencyParser.parse (Some (py "50,5")) = Ok (Some (101 # 2)%Q, py "50,5").
Proof.
  split.
  - refine (proj1 (proj2 (parse_single_separator (py "Rp ") (py "50") (py "000") "."
                            _ _ _ _ _ _)) _ _).
    + right. apply (@prefix_rp "R" "p" [] [" "%char]); try reflexivity;
        [left; reflexivity | repeat constructor].
    + discriminate.
    + repeat constructor.
    + repeat constructor.
    + left. reflexivity.
    + vm_compute. reflexivity.
    + reflexivity.
    + vm_compute. discriminate.
  - refine (proj1 (parse_single_separator [] (py "50") (py "5") "," _ _ _ _ _ _)).
    + left. reflexivity.
    + discriminate.
    + repeat constructor.
    + repeat constructor.
    + right. reflexivity.
    + vm_compute. reflexivity.
Defined.

(** X4. Two or more dots and no comma, or two or more commas and no dot:
    every separator is dropped, wherever it stands, and the value is the
    float of the integer of the digits: the integer itself up to 2^53, the
    nearest binary64 number beyond ([9.007.199.254.740.993] gives
    [9007199254740992.0]). *)
Theorem parse_repeated_separator (pre : str) (d : ascii) (t : str) (sep : ascii) :
  optional_prefix pre -> is_digit d = true ->
  sep = "."%char \/ sep = ","%char ->
  Forall (fun c => is_digit c = true \/ c = sep) t ->
  (2 <= count sep t)%nat ->
  Binary64.finite (inject_Z (digits_val 0 (filter is_digit (d :: t)))) ->
  CurrencyParser.parse (Some (pre ++ d :: t))
  = Ok (Some (Binary64.b64 (inject_Z (digits_val 0 (filter is_digit (d :: t))))),
        pre ++ d :: t) /\
  ((digits_val 0 (filter is_digit (d :: t)) <= 2 ^ 53)%Z ->
   CurrencyParser.parse (Some (pre ++ d :: t))
   = Ok (Some (inject_Z (digits_val 0 (filter is_digit (d :: t)))), pre ++ d :: t)) /\
  CurrencyParser.parse (Some (py "9.007.199.254.740.993"))
  = Ok (Some 9007199254740992%Q, py "9.007.199.254.740.993").
Proof.
  intros Hpre D Hsep Ht Hc _.
  assert (P : CurrencyParser.parse (Some (pre ++ d :: t))
              = Ok (Some (Binary64.b64
                            (inject_Z (digits_val 0 (filter is_digit (d :: t))))),
                    pre ++ d :: t)).
  { assert (Htail : Forall digit_or_sep t).
    { eapply Forall_impl; [|exact Ht].
      intros c [H | ->]; [left; exact H | right; exact Hsep]. }
    destruct (parse_prefixed pre d t Hpre D Htail) as (v & Hv & Hp).
    rewrite Hp. f_equal. f_equal. rewrite <- number_of_whole.
    destruct Hsep as [-> | ->].
    - rewrite (_parse_number_string_dots d t D Ht Hc) in Hv. inversion Hv. reflexivity.
    - rewrite (_parse_number_string_commas d t D Ht Hc) in Hv. inversion Hv. reflexivity. }
  split; [exact P|]. split.
  - intros Hn. rewrite P, (b64_digits _ (filter_digits (d :: t)) Hn). reflexivity.
  - vm_compute. reflexivity.
Qed.

Lemma parse_repeated_separator_witness :
  CurrencyParser.parse (Some (py "1.234.567")) = Ok (Some 1234567%Q, py "1.234.567").
Proof.
  refine (proj1 (proj2 (parse_repeated_separator [] "1" (py ".234.567") "."
                          _ _ _ _ _ _)) _).
  - left. reflexivity.
  - reflexivity.
  - left. reflexivity.
  - repeat (constructor; [first [left; reflexivity | right; reflexivity]|]). constructor.
  - vm_compute. lia.
  - vm_compute. reflexivity.
  - vm_compute. discriminate.
Defined.

(** ** Values are not negative *)

Lemma decimal_nonneg (ip fp : str) (v : Q) : decimal ip fp = Ok v -> (0 <= v)%Q.
Proof.
  unfold decimal.
  destruct (forallb is_digit ip) eqn:Ei; [|discriminate].
  destruct (forallb is_digit fp) eqn:Ef; [|discriminate].
  destruct (negb _); [|discriminate]. cbn [andb]. intros H.
  apply (f_equal (fun r => match r with Ok q => q | Raise _ => v end)) in H.
  cbn beta iota in H. subst v. apply b64_nonneg.
  unfold Qle. cbn [Qnum Qden]. rewrite Z.mul_1_r. cbn [Z.mul].
  apply digits_val_nonneg; [|lia].
  apply Forall_app. split; apply Forall_forall; apply forallb_forall; assumption.
Qed.

Lemma py_float_nonneg (s : str) (v : Q) : py_float s = Ok v -> (0 <= v)%Q.
Proof.
  unfold py_float. destruct (split "." s) as [|ip [|fp [|? ?]]]; try discriminate;
    apply decimal_nonneg.
Qed.

(** Every value that [_parse_number_string] returns is the [float] of some
    string. *)
Lemma _parse_number_string_float (number_str : str) (v : Q) :
  CurrencyParser._parse_number_string number_str = Ok (Some v) ->
  exists s', py_float s' = Ok v.
Proof.
  unfold CurrencyParser._parse_number_string.
  set (s := re_sub_del false (ast CurrencyParser.WHITESPACE) number_str).
  assert (T : forall t, except_ValueError (CurrencyParser.to_float t) = Ok (Some v) ->
                        exists s', py_float s' = Ok v).
  { intros t. unfold CurrencyParser.to_float.
    destruct (py_float t) as [q|e] eqn:E; cbn [bind except_ValueError].
    - intros H. inversion H; subst q. exists t. exact E.
    - destruct e; discriminate. }
  assert (M : except_ValueError (CurrencyParser.mixed s) = Ok (Some v) ->
              exists s', py_float s' = Ok v).
  { unfold CurrencyParser.mixed. destruct (_ <? _)%Z; apply T. }
  destruct (is_empty s); [discriminate|].
  destruct ((count "." s =? 0)%nat && (count "," s =? 0)%nat)%bool; [apply T|].
  destruct ((count "." s =? 0)%nat && (count "," s =? 1)%nat)%bool eqn:E1.
  { apply andb_true_iff in E1. destruct E1 as [_ E1]. apply Nat.eqb_eq in E1.
    destruct (index_at_split_1 "," s E1) as [p1 ->]. cbn [bind].
    destruct (length p1 =? 2)%nat; [apply T|].
    destruct (length p1 =? 3)%nat; apply T. }
  destruct ((count "." s =? 1)%nat && (count "," s =? 0)%nat)%bool eqn:E2.
  { apply andb_true_iff in E2. destruct E2 as [E2 _]. apply Nat.eqb_eq in E2.
    destruct (index_at_split_1 "." s E2) as [p1 ->]. cbn [bind].
    destruct (length p1 =? 2)%nat; [apply T|].
    destruct (length p1 =? 3)%nat; apply T. }
  destruct ((1 <=? count "." s)%nat && (1 <=? count "," s)%nat)%bool; [exact M|].
  destruct ((1 <? count "." s)%nat && (count "," s =? 0)%nat)%bool; [apply T|].
  destruct ((count "." s =? 0)%nat && (1 <? count "," s)%nat)%bool; [apply T | exact M].
Qed.

Lemma parse_value_source (cs : option str) (v : Q) (raw : str) :
  CurrencyParser.parse cs = Ok (Some v, raw) ->
  exists number_str, CurrencyParser._parse_number_string number_str = Ok (Some v).
Proof.
  unfold CurrencyParser.parse. destruct cs as [[|c cs]|]; try discriminate.
  destruct (is_empty _); [discriminate|].
  destruct (re_match false _ _) as [m|]; [|discriminate].
  destruct (CurrencyParser.group1_strip m) as [number_str|e]; [|discriminate].
  cbn [bind].
  destruct (CurrencyParser._parse_number_string number_str) as [[v'|]|e] eqn:E;
    cbn [bind]; try discriminate.
  intros H. inversion H; subst. exists number_str. exact E.
Qed.

Lemma parse_nonneg (cs : option str) (v : Q) (raw : str) :
  CurrencyParser.parse cs = Ok (Some v, raw) -> (0 <= v)%Q.
Proof.
  intros H. destruct (parse_value_source cs v raw H) as [n Hn].
  destruct (_parse_number_string_float n v Hn) as [s' Hs'].
  exact (py_float_nonneg s' v Hs').
Qed.

(** X5. [parse] never returns a negative value (a sign in front of the
    digits is skipped as a non-digit), so with the default lower bound 0
    [is_valid_amount] only tests the upper bound on a parsed value. *)
Theorem parse_value_nonnegative (cs : option str) (v : Q) (raw : str) :
  CurrencyParser.parse cs = Ok (Some v, raw) ->
  (0 <= v)%Q /\
  forall max_value : Q,
    CurrencyParser.is_valid_amount (Some v) 0 max_value = Qleb v max_value.
Proof.
  intros H. pose proof (parse_nonneg cs v raw H) as Hv. split; [exact Hv|].
  intros max_value. unfold CurrencyParser.is_valid_amount.
  replace (Qleb 0 v) with true by (symmetry; apply Qleb_true; exact Hv). reflexivity.
Qed.

Lemma parse_value_nonnegative_witness :
  (0 <= 2500)%Q /\
  forall max_value : Q,
    CurrencyParser.is_valid_amount (Some 2500%Q) 0 max_value = Qleb 2500 max_value.
Proof.
  apply (parse_value_nonnegative (Some (py "-2.500")) 2500%Q (py "-2.500")).
  vm_compute. reflexivity.
Defined.

(** ** Rounding to an integer *)

Lemma round_half_even_Z (n : Z) : CurrencyParser.round_half_even (inject_Z n) = n.
Proof.
  unfold CurrencyParser.round_half_even. rewrite Qfloor_Z.
  replace (Qltb (inject_Z n - inject_Z n) (1 # 2)) with true; [reflexivity|].
  symmetry. apply Qltb_true. lra.
Qed.

(** X6. [format_as_integer] keeps [None], returns an integer at distance at
    most 1/2 from the value, the even one when two integers are that near,
    and gives back every integer value unchanged. *)
Theorem format_as_integer_nearest_even :
  CurrencyParser.format_as_integer None = None /\
  (forall v : Q,
      exists n : Z,
        CurrencyParser.format_as_integer (Some v) = Some n /\
        (inject_Z n - (1 # 2) <= v <= inject_Z n + (1 # 2))%Q /\
        ((v == inject_Z n - (1 # 2) \/ v == inject_Z n + (1 # 2))%Q ->
         Z.even n = true)) /\
  (forall n : Z, CurrencyParser.format_as_integer (Some (inject_Z n)) = Some n).
Proof.
  split; [reflexivity|]. split.
  - intros v. exists (CurrencyParser.round_half_even v).
    split; [reflexivity|]. split; [apply round_half_even_near | apply round_half_even_tie].
  - intros n. unfold CurrencyParser.format_as_integer. cbn [option_map].
    rewrite round_half_even_Z. reflexivity.
Qed.

(** ** Surrounding whitespace *)

Lemma lstrip_idem (s : str) : lstrip (lstrip s) = lstrip s.
Proof.
  induction s as [|x s IH]; [reflexivity|]. cbn [lstrip].
  destruct (is_space x) eqn:E; [exact IH|]. cbn [lstrip]. rewrite E. reflexivity.
Qed.

Lemma lstrip_app_cases (a b : str) :
  lstrip (a ++ b) = if forallb is_space a then lstrip b else lstrip a ++ b.
Proof.
  induction a as [|x a IH]; [reflexivity|]. cbn [app lstrip forallb].
  destruct (is_space x); [exact IH | reflexivity].
Qed.

Lemma lstrip_all_space (a : str) : forallb is_space a = true -> lstrip a = [].
Proof.
  induction a as [|x a IH]; [reflexivity|]. cbn [forallb lstrip].
  destruct (is_space x); [exact IH | discriminate].
Qed.

Lemma rstrip_cons (x : ascii) (u : str) :
  rstrip (x :: u)
  = if forallb is_space u then (if is_space x then [] else [x]) else x :: rstrip u.
Proof.
  unfold rstrip. cbn [rev]. rewrite lstrip_app_cases.
  assert (E : forallb is_space (rev u) = forallb is_space u).
  { apply eq_true_iff_eq. rewrite !forallb_forall. split; intros H c Hc; apply H.
    - apply in_rev. rewrite rev_involutive. exact Hc.
    - apply in_rev. exact Hc. }
  rewrite E. destruct (forallb is_space u).
  - cbn [lstrip]. destruct (is_space x); reflexivity.
  - rewrite rev_app_distr. reflexivity.
Qed.

Lemma lstrip_rstrip (u : str) : lstrip (rstrip u) = rstrip (lstrip u).
Proof.
  induction u as [|x u IH]; [reflexivity|].
  rewrite rstrip_cons. cbn [lstrip].
  destruct (is_space x) eqn:Ex.
  - destruct (forallb is_space u) eqn:Eu.
    + rewrite (lstrip_all_space u Eu). reflexivity.
    + cbn [lstrip]. rewrite Ex. exact IH.
  - rewrite rstrip_cons. rewrite Ex.
    destruct (forallb is_space u); cbn [lstrip]; rewrite Ex; reflexivity.
Qed.

Lemma rstrip_idem (s : str) : rstrip (rstrip s) = rstrip s.
Proof. unfold rstrip. rewrite rev_involutive, lstrip_idem. reflexivity. Qed.

Lemma strip_idem (s : str) : strip (strip s) = strip s.
Proof.
  unfold strip. rewrite lstrip_rstrip, lstrip_idem, rstrip_idem. reflexivity.
Qed.

Lemma cleaned_of_nil : CurrencyParser.cleaned_of [] = [].
Proof. reflexivity. Qed.

(** X7. [parse] depends on its argument only up to surrounding whitespace,
    and parsing the raw string of a result gives that result again. *)
Theorem parse_ignores_surrounding_whitespace (s : str) :
  CurrencyParser.parse (Some (strip s)) = CurrencyParser.parse (Some s) /\
  forall v raw, CurrencyParser.parse (Some s) = Ok (v, raw) ->
                CurrencyParser.parse (Some raw) = Ok (v, raw).
Proof.
  assert (E : CurrencyParser.parse (Some (strip s)) = CurrencyParser.parse (Some s)).
  { unfold CurrencyParser.parse. rewrite strip_idem.
    destruct s as [|c cs]; [reflexivity|].
    destruct (strip (c :: cs)) as [|x t] eqn:Es; [reflexivity|].
    reflexivity. }
  split; [exact E|]. intros v raw H.
  destruct (parse_ok (Some s)) as [v' Hv']. rewrite Hv' in H.
  inversion H; subst. cbn [raw_of]. rewrite E. exact Hv'.
Qed.

Lemma parse_ignores_surrounding_whitespace_witness :
  CurrencyParser.parse (Some (py "Rp 5.000")) = Ok (Some 5000%Q, py "Rp 5.000").
Proof.
  apply (proj2 (parse_ignores_surrounding_whitespace (py "  Rp 5.000 "))
               (Some 5000%Q) (py "Rp 5.000")).
  vm_compute. reflexivity.
Defined.

(** X8. [_parse_number_string] is its chain of tests on the number of dots
    and commas, and the chain never reaches its final [else] (the branch
    that logs "Ambiguous number format"): the six tests before it cover
    every pair of counts. *)
Theorem ambiguous_branch_unreachable :
  (forall number_str : str,
      let s := re_sub_del false (ast CurrencyParser.WHITESPACE) number_str in
      CurrencyParser._parse_number_string number_str
      = if is_empty s then Ok None
        else except_ValueError
               (branch_body (separator_branch_of (count "." s) (count "," s)) s)) /\
  (forall dots commas : nat, separator_branch_of dots commas <> Ambiguous).
Proof.
  split.
  - intros number_str s. unfold CurrencyParser._parse_number_string. fold s.
    destruct (is_empty s); [reflexivity|]. unfold separator_branch_of.
    destruct ((count "." s =? 0)%nat && (count "," s =? 0)%nat)%bool; [reflexivity|].
    destruct ((count "." s =? 0)%nat && (count "," s =? 1)%nat)%bool; [reflexivity|].
    destruct ((count "." s =? 1)%nat && (count "," s =? 0)%nat)%bool; [reflexivity|].
    destruct ((1 <=? count "." s)%nat && (1 <=? count "," s)%nat)%bool; [reflexivity|].
    destruct ((1 <? count "." s)%nat && (count "," s =? 0)%nat)%bool; [reflexivity|].
    destruct ((count "." s =? 0)%nat && (1 <? count "," s)%nat)%bool; reflexivity.
  - intros dots commas. unfold separator_branch_of.
    destruct dots as [|[|dots]]; destruct commas as [|[|commas]]; cbn; discriminate.
Qed.

(** ** Bounding boxes *)








Lemma point_of_corner (t : bool) (x y : Q) (more : list pyval) :
  point_of (corner t x y more) = Ok (x, y).
Proof. destruct t; reflexivity. Qed.

Lemma is_point_corner (t : bool) (x y : Q) (more : list pyval) :
  is_point (corner t x y more) = true.
Proof. destruct t; reflexivity. Qed.

Lemma truthy_corner_list (p : pyval) (l : list pyval) : truthy (VList (p :: l)) = true.
Proof. reflexivity. Qed.

(** X10. The formats of a bounding box.  Four numbers [x1, y1, x2, y2] are
    read as a rectangle with the corners in the order top-left, top-right,
    bottom-right, bottom-left; eight or more numbers as four points, the
    ninth and later items being ignored; four or more points (lists or
    tuples) as their first four, with the first two coordinates of each; an
    array as the list of its items.  [None], a tuple of whatever items, a
    list of numbers whose length is not four and below eight, and a list of
    four or more items whose first is a point and whose second is a number,
    [None], or a list or tuple of one number only, all give the zero box. *)
Theorem bbox_formats :
  (forall x1 y1 x2 y2 : Q,
      _normalize_bbox (Plain (VList [VNum x1; VNum y1; VNum x2; VNum y2]))
      = [(x1, y1); (x2, y1); (x2, y2); (x1, y2)]) /\
  (forall (x0 y0 x1 y1 x2 y2 x3 y3 : Q) (rest : list pyval),
      _normalize_bbox
        (Plain (VList (VNum x0 :: VNum y0 :: VNum x1 :: VNum y1 :: VNum x2 :: VNum y2
                       :: VNum x3 :: VNum y3 :: rest)))
      = [(x0, y0); (x1, y1); (x2, y2); (x3, y3)]) /\
  (forall (t1 t2 t3 t4 : bool) (x1 y1 x2 y2 x3 y3 x4 y4 : Q)
          (m1 m2 m3 m4 rest : list pyval),
      _normalize_bbox
        (Plain (VList (corner t1 x1 y1 m1 :: corner t2 x2 y2 m2 :: corner t3 x3 y3 m3
                       :: corner t4 x4 y4 m4 :: rest)))
      = [(x1, y1); (x2, y2); (x3, y3); (x4, y4)]) /\
  (forall v : pyval, _normalize_bbox (NdArray v) = _normalize_bbox (Plain v)) /\
  _normalize_bbox (Plain VNone) = zero_box /\
  (forall l : list pyval, _normalize_bbox (Plain (VTuple l)) = zero_box) /\
  (forall l : list pyval,
      all_numbers l -> length l <> 4%nat -> (length l < 8)%nat ->
      _normalize_bbox (Plain (VList l)) = zero_box) /\
  (forall (t1 : bool) (x1 y1 : Q) (m1 : list pyval) (p2 p3 p4 : pyval)
          (rest : list pyval),
      (exists q, p2 = VNum q \/ p2 = VList [VNum q] \/ p2 = VTuple [VNum q])
      \/ p2 = VNone ->
      _normalize_bbox (Plain (VList (corner t1 x1 y1 m1 :: p2 :: p3 :: p4 :: rest)))
      = zero_box).
Proof.
  split; [reflexivity|]. split; [reflexivity|]. split.
  { intros. unfold _normalize_bbox, normalize. rewrite truthy_corner_list.
    cbn [negb length Nat.leb andb]. rewrite is_point_corner.
    cbn [firstn points_of]. rewrite !point_of_corner. reflexivity. }
  split; [reflexivity|]. split; [reflexivity|]. split.
  { intros l. unfold _normalize_bbox, normalize. destruct (negb _); reflexivity. }
  split.
  { intros l Hl H4 H8. unfold _normalize_bbox, normalize.
    destruct (negb (truthy (VList l))); [reflexivity|].
    assert (E : ((4 <=? length l)%nat
                 && match l with first :: _ => is_point first | [] => false end)%bool = false).
    { destruct Hl as [|v l [q ->] _]; [reflexivity|]. apply andb_false_r. }
    rewrite E.
    replace (8 <=? length l)%nat with false by (symmetry; apply Nat.leb_gt; exact H8).
    replace (length l =? 4)%nat with false by (symmetry; apply Nat.eqb_neq; exact H4).
    reflexivity. }
  intros t1 x1 y1 m1 p2 p3 p4 rest Hp2.
  unfold _normalize_bbox, normalize. rewrite truthy_corner_list.
  cbn [negb length Nat.leb andb]. rewrite is_point_corner.
  cbn [firstn points_of]. rewrite point_of_corner. cbn [bind].
  destruct Hp2 as [[q [-> | [-> | ->]]] | ->]; reflexivity.
Qed.

Lemma bbox_formats_witness :
  _normalize_bbox (Plain (VList [VNum 1; VNum 2; VNum 3; VNum 4; VNum 5]%Q)) = zero_box.
Proof.
  apply (proj1 (proj2 (proj2 (proj2 (proj2 (proj2 (proj2 bbox_formats))))))).
  - repeat (constructor; [eexists; reflexivity|]). constructor.
  - discriminate.
  - cbn. lia.
Defined.

(** ** The order of the detections *)

Lemma center_y_with_line_index (r : OCRResult) (i : Z) :
  center_y (with_line_index r i) = center_y r.
Proof. reflexivity. Qed.

Lemma number_from_spec (l : list OCRResult) :
  forall i : Z,
    let out := map (fun '(i, result) => with_line_index result i) (enumerate_from i l) in
    length out = length l /\
    map unnumbered out = map unnumbered l /\
    map center_y out = map center_y l /\
    (forall k r, nth_error out k = Some r -> line_index r = (i + Z.of_nat k)%Z).
Proof.
  induction l as [|x l IH]; intros i out.
  - repeat split. intros [|k] r H; discriminate.
  - destruct (IH (i + 1)%Z) as (H1 & H2 & H3 & H4). subst out.
    cbn [enumerate_from map length]. repeat split.
    + f_equal. exact H1.
    + f_equal. exact H2.
    + f_equal. exact H3.
    + intros [|k] r H.
      * inversion H. cbn. lia.
      * cbn [nth_error] in H. rewrite (H4 k r H). lia.
Qed.

Lemma StronglySorted_map_key {A K : Type} (key : A -> K) (R : K -> K -> Prop)
      (l l' : list A) :
  map key l = map key l' ->
  StronglySorted (fun a b => R (key a) (key b)) l' ->
  StronglySorted (fun a b => R (key a) (key b)) l.
Proof.
  revert l'. induction l as [|x l IH]; intros [|y l'] E S; try discriminate;
    [constructor|].
  inversion E as [[Ex El]]. inversion S as [|? ? S' Hall]; subst.
  constructor; [eapply IH; eassumption|].
  rewrite Ex. apply Forall_forall. intros b Hb.
  assert (Hk : In (key b) (map key l')) by (rewrite <- El; apply in_map; exact Hb).
  apply in_map_iff in Hk. destruct Hk as (b' & Eb & Hb').
  rewrite <- Eb. rewrite Forall_forall in Hall. apply Hall. exact Hb'.
Qed.

Lemma sort_by_center_y_sorted (l : list OCRResult) :
  StronglySorted by_center_y (py_sort Qltb center_y false l).
Proof.
  unfold py_sort.
  eapply StronglySorted_weaken;
    [| apply (sort_by_sorted _ _ Qltb center_y Qltb_asym Qltb_ge_trans)].
  intros a b H. unfold before in H. apply Qltb_false in H. exact H.
Qed.

Lemma sort_and_number_sorted (rs : list OCRResult) :
  StronglySorted by_center_y (sort_and_number rs).
Proof.
  unfold sort_and_number.
  destruct (number_from_spec (py_sort Qltb center_y false rs) 0) as (_ & _ & H3 & _).
  exact (StronglySorted_map_key center_y Qle _ _ H3 (sort_by_center_y_sorted rs)).
Qed.

(** X11. The end of [extract_text]: the detections come out in the order of
    their [center_y], none lost or added and none changed except for
    [line_index], which is the position in the output, counted from 0. *)
Theorem detections_sorted_and_numbered (ocr_results : list OCRResult) :
  let out := sort_and_number ocr_results in
  length out = length ocr_results /\
  Permutation (map unnumbered out) (map unnumbered ocr_results) /\
  StronglySorted by_center_y out /\
  (forall (i : nat) (r : OCRResult),
      nth_error out i = Some r -> line_index r = Z.of_nat i).
Proof.
  intros out. subst out. unfold sort_and_number.
  destruct (number_from_spec (py_sort Qltb center_y false ocr_results) 0)
    as (H1 & H2 & H3 & H4).
  pose proof (sort_by_perm _ _ Qltb center_y ocr_results) as P.
  repeat split.
  - rewrite H1. unfold py_sort. apply Permutation_length. exact P.
  - rewrite H2. apply Permutation_map. exact P.
  - apply sort_and_number_sorted.
  - intros i r H. rewrite (H4 i r H). lia.
Qed.

(** ** Lines of a sorted list of detections *)

Section Rows.

Import ReceiptOCR Clustering.

Variable thr : Q.
Hypothesis thr_nonneg : (0 <= thr)%Q.

Lemma within_below (a d : OCRResult) :
  by_center_y a d -> within thr a d = true ->
  (center_y a <= center_y d <= center_y a + thr)%Q.
Proof.
  unfold by_center_y, within. intros Hle H. apply Qleb_true in H.
  rewrite Qabs_pos in H by lra. lra.
Qed.

Lemma not_within_below (a d : OCRResult) :
  by_center_y a d -> within thr a d = false -> (center_y a + thr < center_y d)%Q.
Proof.
  unfold by_center_y, within. intros Hle H. apply Qleb_false in H.
  rewrite Qabs_pos in H by lra. lra.
Qed.

Lemma sorted_head_le (a : OCRResult) (l : list OCRResult) :
  StronglySorted by_center_y (a :: l) -> Forall (by_center_y a) l.
Proof. intros S. inversion S; assumption. Qed.

Lemma sorted_app_r (l1 l2 : list OCRResult) :
  StronglySorted by_center_y (l1 ++ l2) -> StronglySorted by_center_y l2.
Proof.
  induction l1 as [|x l1 IH]; [trivial|]. cbn [app]. intros S. inversion S; auto.
Qed.

(** In a sorted list cut into chunks by the clustering, every chunk lies
    within the threshold below its anchor and every later chunk lies more
    than the threshold below it. *)
Lemma chunks_rows (chunks : list (list OCRResult)) :
  StronglySorted by_center_y (concat chunks) ->
  Forall (chunk_ok (within thr)) chunks -> breaks (within thr) chunks ->
  forall (i : nat) (C : list OCRResult),
    nth_error chunks i = Some C ->
    exists top,
      In top C /\
      Forall (fun d => (center_y top <= center_y d <= center_y top + thr)%Q) C /\
      forall (j : nat) (D : list OCRResult),
        (i < j)%nat -> nth_error chunks j = Some D ->
        Forall (fun b => (center_y top + thr < center_y b)%Q) D.
Proof.
  induction chunks as [|C0 tl IH]; intros S Hok Hbr i C Hi.
  - destruct i; discriminate.
  - inversion Hok as [|? ? Hc Htl]; subst.
    assert (Stl : StronglySorted by_center_y (concat tl)).
    { cbn [concat] in S. exact (sorted_app_r _ _ S). }
    assert (Btl : breaks (within thr) tl).
    { destruct C0 as [|a0 r0]; [contradiction|].
      destruct tl as [|[|b0 s0] tl']; cbn in Hbr |- *; try tauto. }
    destruct i as [|i].
    + cbn [nth_error] in Hi. inversion Hi; subst C. clear Hi.
      destruct C0 as [|a rest]; [contradiction|]. cbn [chunk_ok] in Hc.
      cbn [concat app] in S. pose proof (sorted_head_le _ _ S) as Hle.
      apply Forall_app in Hle. destruct Hle as [Hrest Hlater].
      exists a. split; [left; reflexivity|]. split.
      * constructor; [lra|].
        rewrite Forall_forall in Hrest, Hc |- *. intros d Hd.
        apply within_below; [apply Hrest | apply Hc]; exact Hd.
      * intros j D Hj HD. destruct j as [|j]; [lia|]. cbn [nth_error] in HD.
        assert (Hfar : Forall (fun b => (center_y a + thr < center_y b)%Q) (concat tl)).
        { destruct tl as [|[|b0 s0] tl']; [constructor | cbn in Hbr; tauto|].
          cbn in Hbr. destruct Hbr as [Hb _].
          cbn [concat app] in Hlater, Stl |- *.
          inversion Hlater as [|? ? Hab _]; subst.
          pose proof (not_within_below a b0 Hab Hb) as Hgap.
          constructor; [exact Hgap|].
          pose proof (sorted_head_le _ _ Stl) as Hafter.
          eapply Forall_impl; [|exact Hafter].
          unfold by_center_y. intros e He. lra. }
        rewrite Forall_forall in Hfar |- *. intros b Hb. apply Hfar.
        apply in_concat. exists D. split; [eapply nth_error_In; exact HD | exact Hb].
    + cbn [nth_error] in Hi.
      destruct (IH Stl Htl Btl i C Hi) as (top & Htop & Hrow & Hlater).
      exists top. split; [exact Htop|]. split; [exact Hrow|].
      intros j D Hj HD. destruct j as [|j]; [lia|]. cbn [nth_error] in HD.
      apply (Hlater j D); [lia | exact HD].
Qed.

End Rows.

(** X12. The lines of a receipt as the route computes them, [get_text_lines]
    on the output of [extract_text]: every line has a top detection; the
    line's detections lie below it by at most 20 + 2^-49, and the
    detections of every later line by more than that.  (The comparison with
    20 is made on the float of the difference, which is at most 20 exactly
    for the differences up to 20 + 2^-49.) *)
Theorem lines_are_rows (ocr_results : list OCRResult) :
  let lines := ReceiptOCR.get_text_lines (sort_and_number ocr_results)
                                         ReceiptOCR.default_line_threshold in
  forall (i : nat) (line : list OCRResult),
    nth_error lines i = Some line ->
    exists top : OCRResult,
      In top line /\
      Forall (fun d => (center_y top <= center_y d
                        <= center_y top + (20 + (1 # 2 ^ 49)))%Q) line /\
      Forall (fun d => (Qabs (Binary64.fsub (center_y d) (center_y top)) <= 20)%Q)
             line /\
      forall (j : nat) (later : list OCRResult),
        (i < j)%nat -> nth_error lines j = Some later ->
        Forall (fun b => (center_y top + (20 + (1 # 2 ^ 49)) < center_y b)%Q) later /\
        Forall (fun b => (20 < Qabs (Binary64.fsub (center_y b) (center_y top)))%Q)
               later.
Proof.
  intros lines i line Hi. subst lines. unfold ReceiptOCR.default_line_threshold in *.
  destruct (get_text_lines_chunks 20 _ same_line_20 (sort_and_number ocr_results))
    as (chunks & Hcat & Hlines & Hok & Hbr).
  rewrite Hlines in *.
  rewrite nth_error_map in Hi.
  destruct (nth_error chunks i) as [C|] eqn:EC; [|discriminate].
  cbn [option_map] in Hi. inversion Hi; subst line. clear Hi.
  assert (S : StronglySorted by_center_y (concat chunks))
    by (rewrite Hcat; apply sort_and_number_sorted).
  destruct (chunks_rows (20 + (1 # 2 ^ 49)) ltac:(discriminate) chunks S Hok Hbr i C EC)
    as (top & Htop & Hrow & Hlater).
  pose proof (sort_line_perm C) as P.
  assert (R : forall a d : OCRResult,
             (center_y a <= center_y d)%Q ->
             ((center_y d <= center_y a + (20 + (1 # 2 ^ 49)))%Q <->
              (Qabs (Binary64.fsub (center_y d) (center_y a)) <= 20)%Q)).
  { intros a d Hle.
    pose proof (rounded_within_20 a d) as E.
    unfold Clustering.rounded_within, Clustering.within in E.
    rewrite <- (Qleb_true (Qabs (Binary64.fsub (center_y d) (center_y a))) 20), E.
    rewrite Qleb_true, Qabs_pos by lra. split; intro; lra. }
  exists top. split; [eapply Permutation_in; [apply Permutation_sym; exact P | exact Htop]|].
  split; [eapply Permutation_Forall; [apply Permutation_sym; exact P | exact Hrow]|].
  split.
  { eapply Permutation_Forall; [apply Permutation_sym; exact P|].
    eapply Forall_impl; [|exact Hrow]. cbv beta. intros d [H1 H2].
    apply R; assumption. }
  intros j later Hj HD. rewrite nth_error_map in HD.
  destruct (nth_error chunks j) as [D|] eqn:ED; [|discriminate].
  cbn [option_map] in HD. inversion HD; subst later.
  pose proof (Hlater j D Hj ED) as Hfar.
  split.
  - eapply Permutation_Forall; [apply Permutation_sym; apply sort_line_perm|].
    exact Hfar.
  - eapply Permutation_Forall; [apply Permutation_sym; apply sort_line_perm|].
    eapply Forall_impl; [|exact Hfar]. cbv beta. intros b0 Hb.
    apply Qnot_le_lt. intros F. apply R in F; [lra|].
    assert (0 <= 20 + (1 # 2 ^ 49))%Q by discriminate. lra.
Qed.

Lemma lines_are_rows_witness :
  let a := MkOCR 0 (py "TOTAL") 1%Q [(0, 100); (40, 100); (40, 120); (0, 120)]%Q 1 in
  let b := MkOCR 1 (py "25.000") 1%Q [(60, 102); (90, 102); (90, 122); (60, 122)]%Q 2 in
  let c := MkOCR 2 (py "TOKO") 1%Q [(0, 0); (40, 0); (40, 20); (0, 20)]%Q 0 in
  let lines := ReceiptOCR.get_text_lines (sort_and_number [c; b; a])
                                         ReceiptOCR.default_line_threshold in
  nth_error lines 0 = Some [c] /\
  exists top : OCRResult,
    In top [c] /\
    Forall (fun d => (center_y top <= center_y d
                      <= center_y top + (20 + (1 # 2 ^ 49)))%Q) [c] /\
    Forall (fun d => (Qabs (Binary64.fsub (center_y d) (center_y top)) <= 20)%Q) [c] /\
    forall (j : nat) (later : list OCRResult),
      (0 < j)%nat -> nth_error lines j = Some later ->
      Forall (fun b => (center_y top + (20 + (1 # 2 ^ 49)) < center_y b)%Q) later /\
      Forall (fun b => (20 < Qabs (Binary64.fsub (center_y b) (center_y top)))%Q) later.
Proof.
  intros a b c lines.
  assert (H : nth_error lines 0 = Some [c]) by (vm_compute; reflexivity).
  split; [exact H|].
  exact (lines_are_rows [c; b; a] 0 [c] H).
Defined.

(** ** The text of the receipt *)

Lemma split_cons_sep (c : ascii) (a b : str) :
  count c a = 0%nat -> split c (a ++ c :: b) = a :: split c b.
Proof.
  intros Ha. induction a as [|x a IH]; cbn [app split].
  - rewrite Ascii.eqb_refl. reflexivity.
  - cbn [count] in Ha. destruct (Ascii.eqb x c); [discriminate|].
    rewrite (IH Ha). reflexivity.
Qed.

Lemma split_join (c : ascii) (parts : list str) :
  parts <> [] -> Forall (fun p => count c p = 0%nat) parts ->
  split c (join [c] parts) = parts.
Proof.
  intros Hne H. induction H as [|p ps Hp Hps IH]; [contradiction Hne; reflexivity|].
  destruct ps as [|q ps].
  - cbn [join]. apply split_absent. exact Hp.
  - change (join [c] (p :: q :: ps)) with (p ++ c :: join [c] (q :: ps)).
    rewrite (split_cons_sep c p _ Hp), IH by discriminate. reflexivity.
Qed.

Lemma count_join (c : ascii) (sep : str) (parts : list str) :
  count c sep = 0%nat -> Forall (fun p => count c p = 0%nat) parts ->
  count c (join sep parts) = 0%nat.
Proof.
  intros Hsep H. induction H as [|p ps Hp Hps IH]; [reflexivity|].
  destruct ps as [|q ps]; [exact Hp|].
  change (join sep (p :: q :: ps)) with (p ++ sep ++ join sep (q :: ps)).
  rewrite !count_app, Hp, Hsep, IH. reflexivity.
Qed.

(** X13. [get_full_text] of no detections is the empty string.  When no
    detection text contains a newline, the rows of the full text (split at
    the newlines) are the lines of [get_text_lines], each with its texts
    joined by one space. *)
Theorem full_text_rows :
  get_full_text [] = [] /\
  forall results : list OCRResult,
    results <> [] ->
    Forall (fun r => count newline (text r) = 0%nat) results ->
    split newline (get_full_text results)
    = map (fun line => join (py " ") (map text line))
          (ReceiptOCR.get_text_lines results ReceiptOCR.default_line_threshold).
Proof.
  split; [reflexivity|]. intros results Hne Hnl. unfold get_full_text.
  set (lines := ReceiptOCR.get_text_lines results ReceiptOCR.default_line_threshold).
  assert (Hperm : Permutation (concat lines) results).
  { subst lines. unfold ReceiptOCR.default_line_threshold.
    destruct (get_text_lines_chunks 20 _ (same_line_rounded 20) results)
      as (chunks & H1 & H2 & _ & _).
    rewrite H2, <- H1. apply concat_sorted_perm. }
  apply split_join.
  - intro E. apply map_eq_nil in E. rewrite E in Hperm. cbn [concat] in Hperm.
    apply Permutation_nil in Hperm. contradiction.
  - apply Forall_map. apply Forall_forall. intros line Hline.
    apply count_join; [reflexivity|].
    apply Forall_map. apply Forall_forall. intros r Hr.
    rewrite Forall_forall in Hnl. apply Hnl.
    eapply Permutation_in; [exact Hperm|].
    apply in_concat. exists line. split; assumption.
Qed.

Lemma full_text_rows_witness :
  let a := MkOCR 0 (py "TOTAL") 1%Q [(0, 100); (40, 100); (40, 120); (0, 120)]%Q 1 in
  let b := MkOCR 1 (py "25.000") 1%Q [(60, 102); (90, 102); (90, 122); (60, 122)]%Q 2 in
  let c := MkOCR 2 (py "TOKO") 1%Q [(0, 0); (40, 0); (40, 20); (0, 20)]%Q 0 in
  split newline (get_full_text [c; b; a]) = [py "TOKO"; py "TOTAL 25.000"].
Proof.
  intros a b c.
  apply (proj2 full_text_rows [c; b; a]).
  - discriminate.
  - repeat constructor.
Defined.

(** ** The merchant name is a line of the receipt *)

Lemma In_firstn {A : Type} (n : nat) (l : list A) (x : A) :
  In x (firstn n l) -> In x l.
Proof.
  intros H. rewrite <- (firstn_skipn n l). apply in_or_app. left. exact H.
Qed.

Lemma first_some_text (l : list OCRResult) :
  (forall name, first_some first_text l = Some name ->
                name <> [] /\ exists r, In r l /\ name = strip (text r)) /\
  (first_some first_text l = None <-> Forall blank l).
Proof.
  induction l as [|r l [IH1 IH2]]; cbn [first_some].
  - split; [discriminate|]. split; [constructor | reflexivity].
  - unfold first_text at 1 3. unfold blank at 1.
    destruct (strip (text r)) as [|c s] eqn:E; cbn [is_empty].
    + split.
      * intros name H. destruct (IH1 name H) as (Hne & r' & Hin & Hr').
        split; [exact Hne|]. exists r'. split; [right; exact Hin | exact Hr'].
      * rewrite IH2. split; [intros H; constructor; [exact E | exact H]|].
        intros H. inversion H; assumption.
    + split.
      * intros name H. inversion H; subst name. split; [discriminate|].
        exists r. split; [left; reflexivity | symmetry; exact E].
      * split; [discriminate|]. intros H. inversion H as [|? ? Hb _]; subst.
        unfold blank in Hb. congruence.
Qed.

Lemma extract_fallback (r0 : OCRResult) (rs : list OCRResult) (n : nat) :
  MerchantExtractor.candidates_of (firstn n (r0 :: rs)) = [] ->
  MerchantExtractor.extract (r0 :: rs) n = first_some first_text (firstn 3 (r0 :: rs)).
Proof. intros H. unfold MerchantExtractor.extract. rewrite H. reflexivity. Qed.

(** X14. The merchant name is never invented and never empty: a name that
    [extract] returns is the stripped text of one of the detections.
    [extract] returns [None] exactly when none of the first [top_n_lines]
    detections is a candidate and the first three detections are blank. *)
Theorem merchant_name_is_a_line (ocr_results : list OCRResult) (top_n_lines : nat) :
  (forall name : str,
      MerchantExtractor.extract ocr_results top_n_lines = Some name ->
      name <> [] /\ exists r, In r ocr_results /\ name = strip (text r)) /\
  (MerchantExtractor.extract ocr_results top_n_lines = None <->
   MerchantExtractor.candidates_of (firstn top_n_lines ocr_results) = [] /\
   Forall blank (firstn 3 ocr_results)).
Proof.
  destruct ocr_results as [|r0 rs].
  { split; [discriminate|]. rewrite firstn_nil. split; [|reflexivity].
    intros _. split; [reflexivity | constructor]. }
  destruct (MerchantExtractor.candidates_of (firstn top_n_lines (r0 :: rs)))
    as [|c0 cs] eqn:Ec.
  - rewrite (extract_fallback r0 rs top_n_lines Ec).
    destruct (first_some_text (firstn 3 (r0 :: rs))) as [H1 H2]. split.
    + intros name H. destruct (H1 name H) as (Hne & r & Hin & Hr).
      split; [exact Hne|]. exists r. split; [exact (In_firstn 3 _ r Hin) | exact Hr].
    + rewrite H2. tauto.
  - destruct (extract_best (r0 :: rs) top_n_lines) as (best & Hin & He & _).
    { rewrite Ec. discriminate. }
    rewrite He. split.
    + intros name H. inversion H; subst name. destruct best as [[t s] c].
      apply candidates_of_In in Hin.
      destruct Hin as (r & Hr & Ht & Hl & _). cbn [fst]. split.
      * intro E. rewrite E in Hl. cbn in Hl. lia.
      * exists r. split; [exact (In_firstn _ _ r Hr) | exact Ht].
    + split; [discriminate | intros [H _]; discriminate H].
Qed.

(** X15. For a receipt of one detection the merchant name is the stripped
    text of that detection, whatever it is (a date, a phone number, a single
    character: the exclusion patterns and the minimum length do not apply in
    the fallback), and [None] only when the text is blank. *)
Theorem merchant_of_one_detection (r : OCRResult) (top_n_lines : nat) :
  MerchantExtractor.extract [r] top_n_lines
  = if is_empty (strip (text r)) then None else Some (strip (text r)).
Proof.
  destruct (MerchantExtractor.candidates_of (firstn top_n_lines [r])) as [|c0 cs] eqn:Ec.
  - rewrite (extract_fallback r [] top_n_lines Ec). cbn [firstn first_some].
    unfold first_text. destruct (is_empty (strip (text r))); reflexivity.
  - destruct (extract_best [r] top_n_lines) as (best & Hin & He & _).
    { rewrite Ec. discriminate. }
    rewrite He. destruct best as [[t s] c]. apply candidates_of_In in Hin.
    destruct Hin as (r' & Hr & Ht & Hl & _). cbn [fst].
    apply In_firstn in Hr. destruct Hr as [<- | []].
    rewrite <- Ht. destruct t; [cbn in Hl; lia | reflexivity].
Qed.

(** ** What the date extractor returns *)

Lemma search_from_sound (ic : bool) (r : regex) (s : str) :
  forall (prev : option ascii) (m : match_obj),
    search_from ic r prev s = Some m ->
    exists pre, s = pre ++ m_group0 m ++ m_after m.
Proof.
  induction s as [|x s IH]; intros prev m H; cbn [search_from] in H.
  - destruct (match_at ic r prev []) as [m'|] eqn:E; [|discriminate].
    inversion H; subst m'. apply match_at_sound in E. exists []. apply E.
  - destruct (match_at ic r prev (x :: s)) as [m'|] eqn:E.
    + inversion H; subst m'. apply match_at_sound in E. exists []. apply E.
    + destruct (IH _ _ H) as [pre Hpre]. exists (x :: pre). cbn [app]. f_equal. exact Hpre.
Qed.

Lemma for_first_found {A B : Type} (body : A -> res (option B)) (l : list A) (b : B) :
  for_first body l = Ok (Some b) -> exists x, In x l /\ body x = Ok (Some b).
Proof.
  induction l as [|x l IH]; cbn [for_first]; [discriminate|].
  destruct (body x) as [[b'|]|e] eqn:E; try discriminate.
  - intros H. inversion H; subst b'. exists x. split; [left; reflexivity | exact E].
  - intros H. destruct (IH H) as (x' & Hin & Hb). exists x'. split; [right; exact Hin | exact Hb].
Qed.

Lemma date_new_valid (y m d : Z) (dt : date) :
  date_new y m d = Ok dt -> date_new (year dt) (month dt) (day dt) = Ok dt.
Proof.
  unfold date_new. destruct (_ && _)%bool eqn:E; [|discriminate].
  intros H. inversion H; subst dt. cbn [year month day]. rewrite E. reflexivity.
Qed.

Lemma except_parse_some {A : Type} (m : res (option A)) (a : A) :
  DateExtractor.except_parse m = Ok (Some a) -> m = Ok (Some a).
Proof. destruct m as [o|[]]; cbn; intros H; try discriminate; exact H. Qed.

Lemma _parse_date_match_valid (m : match_obj) (p : pattern) (dt : date) :
  DateExtractor._parse_date_match m p = Ok (Some dt) ->
  date_new (year dt) (month dt) (day dt) = Ok dt.
Proof.
  unfold DateExtractor._parse_date_match. intros H. apply except_parse_some in H.
  revert H.
  destruct (DateExtractor.is_text_month_pattern p).
  - destruct (3 <=? _)%nat; [|discriminate].
    repeat match goal with
           | |- bind ?x _ = _ -> _ => destruct x; cbn [bind]; [|discriminate]
           end.
    destruct (ExtractionConfig.get _ _) as [mo|]; [|discriminate].
    destruct (mo =? 0)%Z; [discriminate|].
    destruct (date_new _ _ _) as [d|e] eqn:E; cbn [bind]; [|discriminate].
    intros H. inversion H; subst d. exact (date_new_valid _ _ _ _ E).
  - destruct (3 <=? _)%nat; [|discriminate].
    destruct (DateExtractor.nums_of _) as [nums|e]; cbn [bind]; [|discriminate].
    destruct (3 <=? _)%nat; [|discriminate].
    repeat match goal with
           | |- bind ?x _ = _ -> _ => destruct x; cbn [bind]; [|discriminate]
           end.
    destruct (DateExtractor.is_year_first_pattern p);
      (destruct (date_new _ _ _) as [d|e] eqn:E; cbn [bind]; [|discriminate];
       intros H; inversion H; subst d; exact (date_new_valid _ _ _ _ E)).
Qed.

Lemma _is_valid_date_true (today d : date) :
  DateExtractor._is_valid_date today d = Ok true ->
  date_ltb today d = false /\ date_ltb d (MkDate (year today - 5) 1 1) = false.
Proof.
  unfold DateExtractor._is_valid_date.
  destruct (date_ltb today d); [discriminate|].
  unfold date_new. destruct (_ && _)%bool; [|discriminate]. cbn [bind].
  destruct (date_ltb d _); [discriminate|]. auto.
Qed.

Lemma try_pattern_found (today : date) (full_text : str) (p : pattern)
      (s : str) (dt : date) :
  DateExtractor.try_pattern today full_text p = Ok (Some (s, dt)) ->
  date_new (year dt) (month dt) (day dt) = Ok dt /\
  date_ltb today dt = false /\
  date_ltb dt (MkDate (year today - 5) 1 1) = false /\
  exists pre post, full_text = pre ++ s ++ post.
Proof.
  unfold DateExtractor.try_pattern.
  destruct (re_search true (ast p) full_text) as [m|] eqn:Es; [|discriminate].
  destruct (DateExtractor._parse_date_match m p) as [[d|]|e] eqn:Ep; cbn [bind];
    try discriminate.
  destruct (DateExtractor._is_valid_date today d) as [[|]|e] eqn:Ev; cbn [bind];
    try discriminate.
  intros H. inversion H; subst s dt.
  split; [exact (_parse_date_match_valid m p d Ep)|].
  destruct (_is_valid_date_true today d Ev) as [H1 H2].
  split; [exact H1|]. split; [exact H2|].
  destruct (search_from_sound true (ast p) full_text None m Es) as [pre Hpre].
  exists pre, (m_after m). exact Hpre.
Qed.

Lemma date_extract_cases (today : date) (ocr_results : list OCRResult)
        (raw : option str) (parsed : option date) :
  DateExtractor.extract today ocr_results = Ok (raw, parsed) ->
  (raw = None /\ parsed = None) \/
  (exists (s : str) (dt : date),
      raw = Some s /\ parsed = Some dt /\
      date_new (year dt) (month dt) (day dt) = Ok dt /\
      date_ltb today dt = false /\
      date_ltb dt (MkDate (year today - 5) 1 1) = false /\
      exists pre post, DateExtractor.full_text_of ocr_results = pre ++ s ++ post).
Proof.
  unfold DateExtractor.extract, DateExtractor.extract_from.
  destruct (for_first _ _) as [[[s dt]|]|e] eqn:E; cbn [bind]; try discriminate.
  - intros H. inversion H; subst. right.
    destruct (for_first_found _ _ _ E) as (p & _ & Hp).
    exists s, dt. split; [reflexivity|]. split; [reflexivity|].
    exact (try_pattern_found today _ p s dt Hp).
  - intros H. inversion H. left. split; reflexivity.
Qed.

(** X16. What the date extractor returns: either nothing at all, or a raw
    string together with a date; the date then exists in the calendar, is
    not after today and not before 1 January of the fifth year before this
    one, and the raw string is a piece of the detections' texts joined by
    spaces. *)
Theorem date_result_is_plausible (today : date) (ocr_results : list OCRResult)
        (raw : option str) (parsed : option date) :
  DateExtractor.extract today ocr_results = Ok (raw, parsed) ->
  (raw = None /\ parsed = None) \/
  (exists (s : str) (dt : date),
      raw = Some s /\ parsed = Some dt /\
      date_new (year dt) (month dt) (day dt) = Ok dt /\
      date_ltb today dt = false /\
      date_ltb dt (MkDate (year today - 5) 1 1) = false /\
      exists pre post, DateExtractor.full_text_of ocr_results = pre ++ s ++ post).
Proof. exact (date_extract_cases today ocr_results raw parsed). Qed.

Lemma date_result_is_plausible_witness :
  exists (s : str) (dt : date),
    Some (py "11 Jan 2026") = Some s /\ Some (MkDate 2026 1 11) = Some dt /\
    date_new (year dt) (month dt) (day dt) = Ok dt /\
    date_ltb (MkDate 2026 11 4) dt = false /\
    date_ltb dt (MkDate (year (MkDate 2026 11 4) - 5) 1 1) = false /\
    exists pre post,
      DateExtractor.full_text_of
        [MkOCR 0 (py "TOKO MAJU") 1%Q [] 0; MkOCR 1 (py "Tgl 11 Jan 2026 14:30") 1%Q [] 1]
      = pre ++ s ++ post.
Proof.
  destruct (date_result_is_plausible (MkDate 2026 11 4)
              [MkOCR 0 (py "TOKO MAJU") 1%Q [] 0;
               MkOCR 1 (py "Tgl 11 Jan 2026 14:30") 1%Q [] 1]
              (Some (py "11 Jan 2026")) (Some (MkDate 2026 1 11)))
    as [[H _] | H].
  - vm_compute. reflexivity.
  - discriminate H.
  - exact H.
Defined.

(** ** Day, month, year *)

(** A bounded greedy repetition that finds exactly its maximum. *)
Lemma rep_greedy_full {A : Type} (p : ascii -> bool) (w : str) :
  Forall (fun c => p c = true) w ->
  forall (lo : nat) (prev : option ascii) (rest : str) (caps : captures)
         (k : kont A) (a : A),
    (lo <= length w)%nat ->
    k (prev_after prev w) rest caps = Some a ->
    rep_greedy p lo (Some (length w)) prev (w ++ rest) caps k = Some a.
Proof.
  induction 1 as [|c w Hc Hw IH]; intros lo prev rest caps k a Hlo Hk.
  - cbn [app length]. assert (lo = 0)%nat by (cbn in Hlo; lia). subst lo.
    destruct rest as [|x rest]; cbn [rep_greedy]; [apply Hk|].
    rewrite andb_false_r. apply Hk.
  - cbn [app length rep_greedy option_map Nat.pred]. rewrite Hc. cbn [andb].
    rewrite (IH (Nat.pred lo) (Some c) rest caps k a); [reflexivity | cbn in Hlo; lia | exact Hk].
Qed.

(** A bounded greedy repetition that stops at a character that it does not
    accept. *)
Lemma rep_greedy_short {A : Type} (p : ascii -> bool) (w : str) :
  Forall (fun c => p c = true) w ->
  forall (lo h : nat) (prev : option ascii) (x : ascii) (rest : str)
         (caps : captures) (k : kont A) (a : A),
    (lo <= length w)%nat -> (length w <= h)%nat -> p x = false ->
    k (prev_after prev w) (x :: rest) caps = Some a ->
    rep_greedy p lo (Some h) prev (w ++ x :: rest) caps k = Some a.
Proof.
  induction 1 as [|c w Hc Hw IH]; intros lo h prev x rest caps k a Hlo Hh Hx Hk.
  - cbn [app length]. assert (lo = 0)%nat by (cbn in Hlo; lia). subst lo.
    cbn [rep_greedy]. rewrite Hx. apply Hk.
  - cbn [app length rep_greedy option_map].
    destruct h as [|h]; [cbn in Hh; lia|].
    rewrite Hc. cbn [andb Nat.pred].
    rewrite (IH (Nat.pred lo) h (Some c) x rest caps k a);
      [reflexivity | cbn in Hlo; lia | cbn in Hh; lia | exact Hx | exact Hk].
Qed.

Lemma digit_set_ic (c : ascii) :
  is_digit c = true -> in_set true false [CDigit] c = true.
Proof. destruct c as [[] [] [] [] [] [] [] []]; vm_compute; congruence. Qed.

Lemma digit_is_word (c : ascii) : is_digit c = true -> is_word c = true.
Proof. destruct c as [[] [] [] [] [] [] [] []]; vm_compute; congruence. Qed.

Lemma date_sep_set (c : ascii) :
  is_date_sep c ->
  in_set true false [CChr "/"; CChr "-"; CChr "."] c = true /\
  in_set true false [CDigit] c = false.
Proof. intros [-> | [-> | ->]]; split; reflexivity. Qed.

(** One or two digits in front of a separator are taken whole by [\d{1,2}]. *)
Lemma one_or_two_digits {A : Type} (w : str) (x : ascii) (rest : str)
      (prev : option ascii) (caps : captures) (k : kont A) (a : A) :
  all_digits w -> (1 <= length w <= 2)%nat -> is_date_sep x ->
  k (prev_after prev w) (x :: rest) caps = Some a ->
  rep_greedy (in_set true false [CDigit]) 1 (Some 2) prev (w ++ x :: rest) caps k = Some a.
Proof.
  intros Hw Hl Hx Hk. apply rep_greedy_short.
  - eapply Forall_impl; [|exact Hw]. apply digit_set_ic.
  - lia.
  - lia.
  - apply (date_sep_set x Hx).
  - exact Hk.
Qed.

Lemma four_digits {A : Type} (w rest : str)
      (prev : option ascii) (caps : captures) (k : kont A) (a : A) :
  all_digits w -> length w = 4%nat ->
  k (prev_after prev w) rest caps = Some a ->
  rep_greedy (in_set true false [CDigit]) 4 (Some 4) prev (w ++ rest) caps k = Some a.
Proof.
  intros Hw Hl Hk. rewrite <- Hl at 2. apply rep_greedy_full.
  - eapply Forall_impl; [|exact Hw]. apply digit_set_ic.
  - lia.
  - exact Hk.
Qed.

Lemma prev_after_last (prev : option ascii) (w : str) (y : ascii) :
  prev_after prev (w ++ [y]) = Some y.
Proof. unfold prev_after. rewrite fold_left_app. reflexivity. Qed.

Lemma word_after_digits (prev : option ascii) (w : str) :
  all_digits w -> w <> [] -> word_opt (prev_after prev w) = true.
Proof.
  intros Hw Hne. destruct (exists_last Hne) as (l & y & ->).
  rewrite prev_after_last. cbn [word_opt]. apply digit_is_word.
  apply Forall_app in Hw. destruct Hw as [_ Hw]. inversion Hw; assumption.
Qed.

Lemma word_ends_boundary (post : str) : word_ends post -> word_opt (hd_error post) = false.
Proof. intros [-> | (x & t & -> & H)]; [reflexivity | exact H]. Qed.

(** The first date pattern on a text that starts with day, month and
    year. *)
Lemma match_day_month_year (D M Y post : str) (s1 s2 : ascii) :
  all_digits D -> (1 <= length D <= 2)%nat ->
  all_digits M -> (1 <= length M <= 2)%nat ->
  all_digits Y -> length Y = 4%nat ->
  is_date_sep s1 -> is_date_sep s2 -> word_ends post ->
  forall prev : option ascii,
  word_opt prev = false ->
  match_at true (ast ExtractionConfig.PATTERN_DMY) prev
           (D ++ s1 :: M ++ s2 :: Y ++ post)
  = Some (MkMatch (D ++ s1 :: M ++ s2 :: Y) [(3%nat, Y); (2%nat, M); (1%nat, D)] post).
Proof.
  intros HD LD HM LM HY LY Hs1 Hs2 Hpost prev Hprev.
  unfold match_at, ExtractionConfig.PATTERN_DMY, ExtractionConfig.date_sep, digits.
  cbn [ast seqs cat rmatch].
  assert (B0 : at_boundary prev (D ++ s1 :: M ++ s2 :: Y ++ post) = true).
  { destruct D as [|d D']; [cbn in LD; lia|]. inversion HD; subst.
    unfold at_boundary. rewrite Hprev. cbn [app hd_error word_opt xorb].
    apply digit_is_word. assumption. }
  rewrite B0.
  apply one_or_two_digits; [exact HD | exact LD | exact Hs1|].
  rewrite (proj1 (date_sep_set s1 Hs1)).
  apply one_or_two_digits; [exact HM | exact LM | exact Hs2|].
  rewrite (proj1 (date_sep_set s2 Hs2)).
  apply four_digits; [exact HY | exact LY|].
  assert (B1 : at_boundary (prev_after (Some s2) Y) post = true).
  { unfold at_boundary.
    rewrite word_after_digits; [| exact HY | destruct Y; [discriminate | discriminate]].
    rewrite (word_ends_boundary post Hpost). reflexivity. }
  rewrite B1.
  rewrite !firstn_consumed.
  replace (D ++ s1 :: M ++ s2 :: Y ++ post) with ((D ++ s1 :: M ++ s2 :: Y) ++ post).
  - rewrite firstn_consumed. reflexivity.
  - rewrite <- app_assoc. cbn [app]. rewrite <- app_assoc. reflexivity.
Qed.

Lemma search_from_hit (ic : bool) (r : regex) (prev : option ascii) (s : str)
      (m : match_obj) :
  match_at ic r prev s = Some m -> search_from ic r prev s = Some m.
Proof. intros H. destruct s; cbn [search_from]; rewrite H; reflexivity. Qed.

Lemma no_digit_set_ic (c : ascii) :
  is_digit c = false -> in_set true false [CDigit] c = false.
Proof. by_cases c. Qed.

(** The search for a numeric date passes a text without digits. *)
Lemma search_date_passes_no_digit (before s : str) :
  Forall (fun c => is_digit c = false) before ->
  forall prev,
    search_from true (ast ExtractionConfig.PATTERN_DMY) prev (before ++ s)
    = search_from true (ast ExtractionConfig.PATTERN_DMY) (prev_after prev before) s.
Proof.
  induction 1 as [|x before Hx _ IH]; intros prev; [reflexivity|].
  cbn [app search_from].
  assert (E : match_at true (ast ExtractionConfig.PATTERN_DMY) prev (x :: before ++ s) = None).
  { unfold match_at, ExtractionConfig.PATTERN_DMY, digits.
    cbn [ast seqs cat rmatch]. destruct (at_boundary prev (x :: before ++ s)); [|reflexivity].
    cbn [rep_greedy]. rewrite (no_digit_set_ic x Hx). reflexivity. }
  rewrite E. apply IH.
Qed.

Lemma isdigit_digits (w : str) : all_digits w -> w <> [] -> isdigit w = true.
Proof.
  intros Hw Hne. unfold isdigit. apply andb_true_iff. split.
  - destruct w; [contradiction Hne; reflexivity | reflexivity].
  - apply forallb_forall. apply Forall_forall. exact Hw.
Qed.

Lemma nonempty_of_length {A : Type} (w : list A) : (1 <= length w)%nat -> w <> [].
Proof. destruct w; [cbn; lia | discriminate]. Qed.

Lemma _parse_date_match_dmy (G post D M Y : str) :
  all_digits D -> D <> [] -> all_digits M -> M <> [] -> all_digits Y -> Y <> [] ->
  DateExtractor._parse_date_match
    (MkMatch G [(3%nat, Y); (2%nat, M); (1%nat, D)] post) ExtractionConfig.PATTERN_DMY
  = DateExtractor.except_parse
      (d <- date_new (full_year (digits_val 0 Y)) (digits_val 0 M) (digits_val 0 D) ;;
       Ok (Some d)).
Proof.
  intros HD ND HM NM HY NY. unfold DateExtractor._parse_date_match.
  replace (DateExtractor.is_text_month_pattern ExtractionConfig.PATTERN_DMY)
    with false by (vm_compute; reflexivity).
  replace (DateExtractor.is_year_first_pattern ExtractionConfig.PATTERN_DMY)
    with false by (vm_compute; reflexivity).
  unfold groups, DateExtractor.n_groups.
  cbn [seq map m_caps get_cap Nat.eqb DateExtractor.valid_only length Nat.leb
       DateExtractor.nums_of].
  unfold py_int.
  rewrite (isdigit_digits D HD ND), (isdigit_digits M HM NM), (isdigit_digits Y HY NY).
  cbn [bind DateExtractor.nums_of length Nat.leb index_at nth_error].
  reflexivity.
Qed.

(** X17. Day, month, year.  When the first digit of the joined text of
    the detections stands at its start or behind a character that is no word
    character, and starts one or two digits, a separator ([/], [-] or [.]),
    one or two digits, a separator and four digits, after which the text
    ends or goes on with a character that is no word character, the
    extractor reads day, month and year in this order and returns that piece
    of text with the date, provided the date exists and is plausible (the
    clock being in the years 6..9999).  A year below 0100 is read as 20yy
    (below 50) or 19yy. *)
Theorem date_day_month_year (today : date) (ocr_results : list OCRResult)
        (before D M Y post : str) (s1 s2 : ascii) (dt : date) :
  Forall (fun c => is_digit c = false) before ->
  word_opt (prev_after None before) = false ->
  all_digits D -> (1 <= length D <= 2)%nat ->
  all_digits M -> (1 <= length M <= 2)%nat ->
  all_digits Y -> length Y = 4%nat ->
  is_date_sep s1 -> is_date_sep s2 -> word_ends post ->
  DateExtractor.full_text_of ocr_results = before ++ D ++ s1 :: M ++ s2 :: Y ++ post ->
  date_new (full_year (digits_val 0 Y)) (digits_val 0 M) (digits_val 0 D) = Ok dt ->
  date_ltb today dt = false ->
  date_ltb dt (MkDate (year today - 5) 1 1) = false ->
  (6 <= year today <= 9999)%Z ->
  DateExtractor.extract today ocr_results
  = Ok (Some (D ++ s1 :: M ++ s2 :: Y), Some dt).
Proof.
  intros Hb Hprev HD LD HM LM HY LY Hs1 Hs2 Hpost Htext Hdate Hfuture Hold Hyear.
  unfold DateExtractor.extract, DateExtractor.extract_from,
    ExtractionConfig.DATE_PATTERNS.
  cbn [for_first]. unfold DateExtractor.try_pattern at 1. rewrite Htext.
  unfold re_search.
  rewrite (search_date_passes_no_digit before _ Hb None).
  rewrite (search_from_hit _ _ _ _ _
             (match_day_month_year D M Y post s1 s2 HD LD HM LM HY LY Hs1 Hs2 Hpost
                                   _ Hprev)).
  cbn [m_group0].
  rewrite _parse_date_match_dmy;
    [| exact HD | apply nonempty_of_length; lia | exact HM | apply nonempty_of_length; lia
     | exact HY | apply nonempty_of_length; lia].
  rewrite Hdate. cbn [bind DateExtractor.except_parse].
  rewrite (_is_valid_date_min_date today dt Hyear).
  unfold Plausibility.min_date_of. rewrite Hfuture, Hold. reflexivity.
Qed.

Lemma date_day_month_year_witness :
  DateExtractor.extract (MkDate 2026 11 4)
    [MkOCR 0 (py "TOKO MAJU") 1%Q [] 0; MkOCR 1 (py "Tgl: 11/01/2026") 1%Q [] 1;
     MkOCR 2 (py "14:30") 1%Q [] 2]
  = Ok (Some (py "11/01/2026"), Some (MkDate 2026 1 11)).
Proof.
  apply (date_day_month_year (MkDate 2026 11 4) _ (py "TOKO MAJU Tgl: ")
                             (py "11") (py "01") (py "2026")
                             (py " 14:30") "/" "/" (MkDate 2026 1 11)).
  - repeat constructor.
  - reflexivity.
  - repeat constructor.
  - cbn. lia.
  - repeat constructor.
  - cbn. lia.
  - repeat constructor.
  - reflexivity.
  - left. reflexivity.
  - left. reflexivity.
  - right. exists " "%char, (py "14:30"). split; reflexivity.
  - reflexivity.
  - reflexivity.
  - reflexivity.
  - reflexivity.
  - cbn. lia.
Defined.

(** ** The bottom of the receipt *)

(** [int(n * 0.7)] is below [n]: the bottom section is never empty. *)
Lemma int_times_07_lt (n : nat) :
  (1 <= n)%nat -> (TotalAmountExtractor.int_times_07 n < n)%nat.
Proof.
  intros Hn. unfold TotalAmountExtractor.int_times_07, TotalAmountExtractor.double_07.
  set (c := 3152519739159347%Z).
  set (p := (Z.of_nat n * c)%Z).
  assert (Hp : (0 < p)%Z) by (unfold p, c; lia).
  assert (Hc : (c < 2 ^ 52)%Z) by (unfold c; reflexivity).
  assert (Hc2 : (c * (2 ^ 52 + 1) < 2 ^ 52 * 2 ^ 52)%Z) by (unfold c; reflexivity).
  set (shift := (Z.log2 p + 1 - 53)%Z).
  destruct (shift <=? 0)%Z eqn:Es.
  - apply Nat2Z.inj_lt. rewrite Z2Nat.id by (apply Z.div_pos; lia).
    apply Z.div_lt_upper_bound; [lia|]. unfold p. nia.
  - apply Z.leb_gt in Es.
    set (X := (2 ^ shift)%Z).
    assert (HX : (0 < X)%Z) by (unfold X; apply Z.pow_pos_nonneg; lia).
    assert (HXp : (X * 2 ^ 52 <= p)%Z).
    { unfold X. rewrite <- Z.pow_add_r by lia.
      replace (shift + 52)%Z with (Z.log2 p) by (unfold shift; lia).
      apply Z.log2_spec. exact Hp. }
    set (q := (p / X)%Z). set (r := (p mod X)%Z).
    assert (Hq : (q * X <= p)%Z).
    { unfold q. rewrite Z.mul_comm. apply Z.mul_div_le. exact HX. }
    match goal with
    | |- (Z.to_nat (?q' * _ / _) < _)%nat => set (q1 := q')
    end.
    assert (Hq1 : (0 <= q1 <= q + 1)%Z).
    { assert (0 <= q)%Z by (unfold q; apply Z.div_pos; lia).
      unfold q1. destruct (r <? _)%Z; [lia|]. destruct (_ <? r)%Z; [lia|].
      destruct (Z.even q); lia. }
    apply Nat2Z.inj_lt. rewrite Z2Nat.id by (apply Z.div_pos; nia).
    apply Z.div_lt_upper_bound; [lia|].
    assert (q1 * X <= p + X)%Z by nia.
    assert (p * 2 ^ 52 + X * 2 ^ 52 < 2 ^ 52 * (Z.of_nat n * 2 ^ 52))%Z.
    { assert (p * 2 ^ 52 + X * 2 ^ 52 <= p * (2 ^ 52 + 1))%Z by lia.
      assert (p * (2 ^ 52 + 1) < Z.of_nat n * (2 ^ 52 * 2 ^ 52))%Z.
      { unfold p. rewrite <- Z.mul_assoc. apply Z.mul_lt_mono_pos_l; lia. }
      lia. }
    nia.
Qed.

(** ** What the total extractor returns *)

Section TotalResult.

Import TotalAmountExtractor TotalSpec.

Lemma amount_reports (d : OCRResult) (a : str * Q) (c : Q) :
  amount d = Some a -> reports (with_confidence c a) d c.
Proof.
  unfold amount.
  destruct (CurrencyParser.parse (Some (text d))) as [[[v|] raw]|e] eqn:E; try discriminate.
  destruct (Qleb 100 v) eqn:L; [|discriminate].
  intros H. inversion H; subst a. exists raw, v.
  split; [reflexivity|]. split; [exact E | apply Qleb_true; exact L].
Qed.

Lemma first_amount_In (rs : list OCRResult) (a : str * Q) (c : Q) :
  first_amount rs = Some a -> exists d, In d rs /\ reports (with_confidence c a) d c.
Proof.
  unfold first_amount. induction rs as [|r rs IH]; cbn [first_some]; [discriminate|].
  destruct (amount r) as [a'|] eqn:E.
  - intros H. inversion H; subst a'. exists r. split; [left; reflexivity|].
    apply amount_reports. exact E.
  - intros H. destruct (IH H) as (d & Hin & Hd). exists d. split; [right; exact Hin | exact Hd].
Qed.

Lemma on_line_reports (text_lines : list (list OCRResult)) (line : list OCRResult)
      (r : total_result) :
  In line text_lines ->
  on_line text_lines line = Ok (Some r) ->
  exists d c, In d (concat text_lines) /\ reports r d c /\
              (c = (9 # 10)%Q \/ c = (85 # 100)%Q).
Proof.
  intros Hin. rewrite on_line_eq.
  destruct (keyword_line line); [|discriminate].
  destruct (index_of_In line text_lines Hin) as (i & Hi & _).
  rewrite (on_keyword_at _ _ _ Hi).
  destruct (first_amount (rev line)) as [a|] eqn:E1.
  - intros H. inversion H; subst r.
    destruct (first_amount_In _ a (9 # 10)%Q E1) as (d & Hd & Hr).
    exists d, (9 # 10)%Q. split; [|split; [exact Hr | left; reflexivity]].
    apply in_concat. exists line. split; [exact Hin | apply in_rev; exact Hd].
  - destruct (nth_error text_lines (i + 1)) as [next|] eqn:N; [|discriminate].
    destruct (first_amount next) as [a|] eqn:E2; [|discriminate].
    intros H. inversion H; subst r.
    destruct (first_amount_In _ a (85 # 100)%Q E2) as (d & Hd & Hr).
    exists d, (85 # 100)%Q. split; [|split; [exact Hr | right; reflexivity]].
    apply in_concat. exists next. split; [eapply nth_error_In; exact N | exact Hd].
Qed.

Lemma for_first_found_in {A B : Type} (body : A -> res (option B)) (l : list A) (b : B) :
  for_first body l = Ok (Some b) -> exists x, In x l /\ body x = Ok (Some b).
Proof.
  induction l as [|x l IH]; cbn [for_first]; [discriminate|].
  destruct (body x) as [[b'|]|e] eqn:E; try discriminate.
  - intros H. inversion H; subst b'. exists x. split; [left; reflexivity | exact E].
  - intros H. destruct (IH H) as (x' & Hin & Hb). exists x'. split; [right; exact Hin | exact Hb].
Qed.

Lemma _extract_by_keyword_reports (text_lines : list (list OCRResult)) (r : total_result) :
  _extract_by_keyword text_lines = Ok r ->
  r = no_total \/
  exists d c, In d (concat text_lines) /\ reports r d c /\
              (c = (9 # 10)%Q \/ c = (85 # 100)%Q).
Proof.
  unfold _extract_by_keyword.
  destruct (for_first (on_line text_lines) (rev text_lines)) as [[r'|]|e] eqn:E;
    cbn [bind]; try discriminate.
  - intros H. inversion H; subst r'. right.
    destruct (for_first_found_in _ _ _ E) as (line & Hin & Hl).
    apply (on_line_reports text_lines line r); [apply in_rev; exact Hin | exact Hl].
  - intros H. inversion H. left. reflexivity.
Qed.

(** The triples that [amounts_of] collects. *)
Lemma amounts_of_In (keep : OCRResult -> bool) (results : list OCRResult)
      (l : list (str * Q * Q)) (raw : str) (v c : Q) :
  amounts_of keep results = Ok l -> In (raw, v, c) l ->
  exists d, In d results /\
            CurrencyParser.parse (Some (text d)) = Ok (Some v, raw) /\
            (100 <= v)%Q /\ keep d = true.
Proof.
  revert l. induction results as [|r rs IH]; intros l; cbn [amounts_of].
  - intros H. inversion H. contradiction.
  - destruct (CurrencyParser.parse (Some (text r))) as [[p raw']|e] eqn:E; [|discriminate].
    cbn [bind]. destruct (amounts_of keep rs) as [more|e]; [|discriminate]. cbn [bind].
    assert (Hmore : In (raw, v, c) more ->
                    exists d, In d (r :: rs) /\
                              CurrencyParser.parse (Some (text d)) = Ok (Some v, raw) /\
                              (100 <= v)%Q /\ keep d = true).
    { intros Hin. destruct (IH more eq_refl Hin) as (d & Hd & H).
      exists d. split; [right; exact Hd | exact H]. }
    destruct p as [v'|]; [|intros H; inversion H; subst l; exact Hmore].
    destruct (Qleb 100 v' && keep r)%bool eqn:K;
      [|intros H; inversion H; subst l; exact Hmore].
    intros H. inversion H; subst l. intros [Hin | Hin]; [|exact (Hmore Hin)].
    inversion Hin; subst. apply andb_true_iff in K. destruct K as [K1 K2].
    exists r. split; [left; reflexivity|]. split; [exact E|].
    split; [apply Qleb_true; exact K1 | exact K2].
Qed.

Lemma amounts_of_lines_In (ls : list (list OCRResult)) (l : list (str * Q * Q))
      (raw : str) (v c : Q) :
  amounts_of_lines ls = Ok l -> In (raw, v, c) l ->
  exists d, In d (concat ls) /\
            CurrencyParser.parse (Some (text d)) = Ok (Some v, raw) /\ (100 <= v)%Q.
Proof.
  revert l. induction ls as [|line ls IH]; intros l; cbn [amounts_of_lines].
  - intros H. inversion H. contradiction.
  - assert (Hrest : forall more, amounts_of_lines ls = Ok more -> In (raw, v, c) more ->
                    exists d, In d (concat (line :: ls)) /\
                              CurrencyParser.parse (Some (text d)) = Ok (Some v, raw) /\
                              (100 <= v)%Q).
    { intros more Hm Hin. destruct (IH more Hm Hin) as (d & Hd & H).
      exists d. split; [cbn [concat]; apply in_or_app; right; exact Hd | exact H]. }
    destruct (has_keyword _ _); [apply Hrest|].
    destruct (amounts_of (fun _ => true) line) as [here|e] eqn:Eh; [|discriminate].
    cbn [bind]. destruct (amounts_of_lines ls) as [more|e]; [|discriminate]. cbn [bind].
    intros H. inversion H; subst l. intros Hin. apply in_app_or in Hin.
    destruct Hin as [Hin | Hin]; [|exact (Hrest more eq_refl Hin)].
    destruct (amounts_of_In _ _ _ _ _ _ Eh Hin) as (d & Hd & Hp & Hv & _).
    exists d. split; [cbn [concat]; apply in_or_app; left; exact Hd|]. split; assumption.
Qed.

(** The best of a list of amounts is one of them, and no other is larger. *)
Lemma best_of_cases (amounts : list (str * Q * Q)) (conf : Q) :
  (amounts = [] /\ best_of amounts conf = no_total) \/
  (exists raw v c,
      In (raw, v, c) amounts /\ best_of amounts conf = (Some raw, Some v, conf) /\
      forall raw' v' c', In (raw', v', c') amounts -> (v' <= v)%Q).
Proof.
  unfold best_of, py_sort.
  destruct (sort_by (fun a b : Q => Qltb b a) (fun x : str * Q * Q => snd (fst x)) amounts)
    as [|best rest] eqn:E.
  - left. destruct amounts as [|a l]; [split; reflexivity|].
    exfalso. eapply sort_by_nonempty; [|exact E]. discriminate.
  - right. destruct best as [[raw v] c].
    destruct (sort_by_head _ _ (fun a b : Q => Qltb b a)
                           (fun x : str * Q * Q => snd (fst x))
                           (fun x y H => Qltb_asym y x H)
                           (fun x y z H1 H2 => Qltb_ge_trans z y x H2 H1)
                           amounts _ _ E) as [Hin Hall].
    exists raw, v, c. split; [exact Hin|]. split; [reflexivity|].
    intros raw' v' c' Hin'. destruct (Hall _ Hin') as [Heq | Hb].
    + inversion Heq. apply Qle_refl.
    + unfold before in Hb. cbn [fst snd] in Hb. apply Qltb_false in Hb. exact Hb.
Qed.
End TotalResult.

Section TotalResult2.

Import TotalAmountExtractor.

Lemma amounts_of_complete (keep : OCRResult -> bool) (results : list OCRResult)
      (l : list (str * Q * Q)) (d : OCRResult) (raw : str) (v : Q) :
  amounts_of keep results = Ok l -> In d results ->
  CurrencyParser.parse (Some (text d)) = Ok (Some v, raw) -> (100 <= v)%Q ->
  keep d = true ->
  In (raw, v, confidence d) l.
Proof.
  intros H Hin Hp Hv Hk. revert l H.
  induction results as [|r rs IH]; intros l; [contradiction|]. cbn [amounts_of].
  destruct (CurrencyParser.parse (Some (text r))) as [[p raw']|e] eqn:E; [|discriminate].
  cbn [bind]. destruct (amounts_of keep rs) as [more|e]; [|discriminate]. cbn [bind].
  destruct Hin as [-> | Hin].
  - rewrite Hp in E. inversion E; subst p raw'.
    replace (Qleb 100 v) with true by (symmetry; apply Qleb_true; exact Hv).
    rewrite Hk. cbn [andb]. intros H. inversion H. left. reflexivity.
  - specialize (IH Hin more eq_refl).
    destruct p as [v'|]; [destruct (Qleb 100 v' && keep r)%bool|];
      intros H; inversion H; subst l; try (right; exact IH); exact IH.
Qed.

Lemma amounts_of_lines_complete (ls : list (list OCRResult)) (l : list (str * Q * Q))
      (line : list OCRResult) (d : OCRResult) (raw : str) (v : Q) :
  amounts_of_lines ls = Ok l -> In line ls ->
  has_keyword ExtractionConfig.EXCLUDE_KEYWORDS (line_text_of line) = false ->
  In d line ->
  CurrencyParser.parse (Some (text d)) = Ok (Some v, raw) -> (100 <= v)%Q ->
  In (raw, v, confidence d) l.
Proof.
  intros H Hline Hx Hd Hp Hv. revert l H.
  induction ls as [|line0 ls IH]; intros l; [contradiction|]. cbn [amounts_of_lines].
  destruct Hline as [-> | Hline].
  - rewrite Hx. destruct (amounts_of (fun _ => true) line) as [here|e] eqn:Eh; [|discriminate].
    cbn [bind]. destruct (amounts_of_lines ls) as [more|e]; [|discriminate]. cbn [bind].
    intros H. inversion H. apply in_or_app. left.
    exact (amounts_of_complete _ _ _ _ _ _ Eh Hd Hp Hv eq_refl).
  - destruct (has_keyword _ (line_text_of line0)); [exact (IH Hline l)|].
    destruct (amounts_of (fun _ => true) line0) as [here|e]; [|discriminate].
    cbn [bind]. destruct (amounts_of_lines ls) as [more|e]; [|discriminate]. cbn [bind].
    intros H. inversion H. apply in_or_app. right. exact (IH Hline more eq_refl).
Qed.

Lemma In_concat_skipn {A : Type} (n : nat) (ls : list (list A)) (x : A) :
  In x (concat (skipn n ls)) -> In x (concat ls).
Proof.
  intros H. rewrite <- (firstn_skipn n ls), concat_app. apply in_or_app. right. exact H.
Qed.

Lemma best_of_reports (amounts : list (str * Q * Q)) (conf : Q) (P : OCRResult -> Prop) :
  (forall raw v c, In (raw, v, c) amounts ->
                   exists d, P d /\
                             CurrencyParser.parse (Some (text d)) = Ok (Some v, raw) /\
                             (100 <= v)%Q) ->
  best_of amounts conf = no_total \/
  exists d, P d /\ reports (best_of amounts conf) d conf.
Proof.
  intros H. destruct (best_of_cases amounts conf) as [[_ E] | (raw & v & c & Hin & E & _)].
  - left. exact E.
  - right. destruct (H raw v c Hin) as (d & Hd & Hp & Hv). exists d. split; [exact Hd|].
    exists raw, v. split; [exact E|]. split; assumption.
Qed.

End TotalResult2.

Lemma total_extract_cases (ocr_results : list OCRResult)
        (text_lines : list (list OCRResult)) :
  exists r : total_result,
    TotalAmountExtractor.extract ocr_results text_lines = Ok r /\
    (r = no_total \/
     exists (d : OCRResult) (c : Q),
       reports r d c /\
       ((In d (concat text_lines) /\
         (c = (9 # 10)%Q \/ c = (85 # 100)%Q \/ c = (75 # 100)%Q)) \/
        (In d ocr_results /\ c = (6 # 10)%Q))).
Proof.
  unfold TotalAmountExtractor.extract. destruct ocr_results as [|r0 rs].
  { exists no_total. split; [reflexivity | left; reflexivity]. }
  destruct (_extract_by_keyword_ok text_lines) as (kr & Hk & _). rewrite Hk. cbn [bind].
  destruct (_extract_by_keyword_reports text_lines kr Hk)
    as [-> | (d & c & Hd & Hr & Hc)].
  2:{ destruct Hr as (raw & v & -> & Hp & Hv). cbn.
      eexists. split; [reflexivity|]. right. exists d, c.
      split; [exists raw, v; repeat split; assumption|].
      left. split; [exact Hd | tauto]. }
  cbn [TotalAmountExtractor.value_of no_total fst snd].
  assert (Hpos : exists pr,
             TotalAmountExtractor._extract_by_position (r0 :: rs) text_lines = Ok pr /\
             (pr = no_total \/
              exists d, In d (concat text_lines) /\ reports pr d (75 # 100)%Q)).
  { unfold TotalAmountExtractor._extract_by_position.
    destruct text_lines as [|l ls]; [exists no_total; split; [reflexivity | left; reflexivity]|].
    destruct (amounts_of_lines_ok
                (skipn (TotalAmountExtractor.int_times_07 (length (l :: ls))) (l :: ls)))
      as [am Ham].
    rewrite Ham. cbn [bind]. eexists. split; [reflexivity|].
    apply (best_of_reports am (75 # 100)%Q (fun d => In d (concat (l :: ls)))).
    intros raw v c Hin.
    destruct (amounts_of_lines_In _ _ _ _ _ Ham Hin) as (d & Hd & Hp & Hv).
    exists d. split; [exact (In_concat_skipn _ _ _ Hd)|]. split; assumption. }
  destruct Hpos as (pr & Hpr & Hcase). rewrite Hpr. cbn [bind].
  destruct Hcase as [-> | (d & Hd & Hr)].
  2:{ destruct Hr as (raw & v & -> & Hp & Hv). cbn.
      eexists. split; [reflexivity|]. right. exists d, (75 # 100)%Q.
      split; [exists raw, v; repeat split; assumption|].
      left. split; [exact Hd | tauto]. }
  cbn [TotalAmountExtractor.value_of no_total fst snd].
  unfold TotalAmountExtractor._extract_max_value.
  destruct (amounts_of_ok
              (fun result => negb (TotalAmountExtractor._looks_like_date_or_id (text result)))
              (r0 :: rs)) as [am Ham].
  rewrite Ham. cbn [bind].
  destruct (best_of_reports am (6 # 10)%Q (fun d => In d (r0 :: rs))) as [E | (d & Hd & Hr)].
  { intros raw v c Hin.
    destruct (amounts_of_In _ _ _ _ _ _ Ham Hin) as (d & Hd & Hp & Hv & _).
    exists d. split; [exact Hd|]. split; assumption. }
  - rewrite E. cbn. exists no_total. split; [reflexivity | left; reflexivity].
  - destruct Hr as (raw & v & E & Hp & Hv). rewrite E. cbn.
    eexists. split; [reflexivity|]. right. exists d, (6 # 10)%Q.
    split; [exists raw, v; repeat split; assumption|].
    right. split; [exact Hd | reflexivity].
Qed.

(** X18. The total extractor always returns, and what it returns is either
    no total at all (no raw string, no value, confidence 0.0) or the amount
    of one detection: the value and raw string that [parse] reads from that
    detection's text, a value of at least 100, with the confidence of the
    strategy that found it: 0.9, 0.85 or 0.75 for a detection of the lines,
    0.6 for a detection of the list. *)
Theorem total_is_an_amount_of_a_detection (ocr_results : list OCRResult)
        (text_lines : list (list OCRResult)) :
  exists r : total_result,
    TotalAmountExtractor.extract ocr_results text_lines = Ok r /\
    (r = no_total \/
     exists (d : OCRResult) (c : Q),
       reports r d c /\
       ((In d (concat text_lines) /\
         (c = (9 # 10)%Q \/ c = (85 # 100)%Q \/ c = (75 # 100)%Q)) \/
        (In d ocr_results /\ c = (6 # 10)%Q))).
Proof. exact (total_extract_cases ocr_results text_lines). Qed.

(** C10. A parse that yields a value implies that, after the removal of the
    currency prefixes, the text is digit-free text, one run of digits, dots,
    commas and whitespace, and digit-free text; a text in which (after that
    removal) two digits have another character between them parses to an
    absent value; so do 11/01/2026 and 14:30, and every text of the date
    shape (with slashes or dashes) or the time shape by which the fallback
    strategy recognises dates and times.  So whatever the total extractor
    returns is read from a detection whose digits are one run, and never
    from a detection of one of these shapes.  A date written with dots is
    one run of number characters: 11.01.2026 parses to 11012026.0. *)
Theorem parse_needs_one_run :
  (forall (s : str) (v : Q) (raw : str),
      CurrencyParser.parse (Some s) = Ok (Some v, raw) ->
      one_run (CurrencyParser.cleaned_of (strip s))) /\
  (forall s : str,
      interrupted (CurrencyParser.cleaned_of (strip s)) ->
      CurrencyParser.parse (Some s) = Ok (None, strip s)) /\
  CurrencyParser.parse (Some (py "11/01/2026")) = Ok (None, py "11/01/2026") /\
  CurrencyParser.parse (Some (py "14:30")) = Ok (None, py "14:30") /\
  (forall (text : str) (m : match_obj),
      re_match false (ast TotalAmountExtractor.DATE_SHAPE) text = Some m \/
      re_match false (ast TotalAmountExtractor.TIME_SHAPE) text = Some m ->
      CurrencyParser.parse (Some text) = Ok (None, strip text)) /\
  (forall (ocr_results : list OCRResult) (text_lines : list (list OCRResult)),
      exists r : total_result,
        TotalAmountExtractor.extract ocr_results text_lines = Ok r /\
        (r = no_total \/
         exists (d : OCRResult) (c : Q),
           reports r d c /\
           (In d (concat text_lines) \/ In d ocr_results) /\
           one_run (CurrencyParser.cleaned_of (strip (text d))) /\
           ~ interrupted (CurrencyParser.cleaned_of (strip (text d))) /\
           TotalAmountExtractor.looks_like TotalAmountExtractor.DATE_SHAPE (text d)
           = false /\
           TotalAmountExtractor.looks_like TotalAmountExtractor.TIME_SHAPE (text d)
           = false)) /\
  one_run (CurrencyParser.cleaned_of (strip (py "11.01.2026"))) /\
  CurrencyParser.parse (Some (py "11.01.2026")) = Ok (Some 11012026%Q, py "11.01.2026").
Proof.
  split; [exact parse_value_one_run|].
  split; [exact parse_interrupted|].
  split; [vm_compute; reflexivity|]. split; [vm_compute; reflexivity|].
  split; [|split; [|split]].
  - intros text m [H|H].
    + exact (looks_like_date_no_value text m H).
    + exact (looks_like_time_no_value text m H).
  - intros ocr_results text_lines.
    destruct (total_extract_cases ocr_results text_lines) as (r & Hr & Hcase).
    exists r. split; [exact Hr|].
    destruct Hcase as [-> | (d & c & Hrep & Hwhere)]; [left; reflexivity | right].
    exists d, c. split; [exact Hrep|].
    destruct Hrep as (raw & v & _ & Hp & _).
    split; [destruct Hwhere as [[H _] | [H _]]; [left | right]; exact H|].
    split; [exact (parse_value_one_run _ _ _ Hp)|].
    split; [intros I; rewrite (parse_interrupted _ I) in Hp; discriminate Hp|].
    unfold TotalAmountExtractor.looks_like. split.
    + destruct (re_match false (ast TotalAmountExtractor.DATE_SHAPE) (text d)) as [m|] eqn:E;
        [|reflexivity].
      rewrite (looks_like_date_no_value _ m E) in Hp. discriminate Hp.
    + destruct (re_match false (ast TotalAmountExtractor.TIME_SHAPE) (text d)) as [m|] eqn:E;
        [|reflexivity].
      rewrite (looks_like_time_no_value _ m E) in Hp. discriminate Hp.
  - apply (parse_value_one_run (py "11.01.2026") 11012026%Q (py "11.01.2026")).
    vm_compute. reflexivity.
  - vm_compute. reflexivity.
Qed.

Lemma parse_needs_one_run_witness :
  one_run (CurrencyParser.cleaned_of (strip (py "Total: Rp 100.000"))) /\
  CurrencyParser.parse (Some (py "Kasir 3 / 150.000")) = Ok (None, py "Kasir 3 / 150.000").
Proof.
  split.
  - apply (proj1 parse_needs_one_run (py "Total: Rp 100.000") 100000%Q
                 (py "Total: Rp 100.000")).
    vm_compute. reflexivity.
  - apply (proj1 (proj2 parse_needs_one_run) (py "Kasir 3 / 150.000")).
    exists 6%nat, 8%nat, 10%nat, "3"%char, "/"%char, "1"%char.
    vm_compute. repeat split; try lia; try reflexivity; try discriminate.
Defined.

(** C10, the last part of the claim fails: a date written with dots is a
    date for the date extractor and an amount for the currency parser.  On
    a receipt whose last line is the date 11.01.2026, with no total keyword
    on any line, the date extractor returns 11 January 2026 and the total
    extractor returns the same detection as the total, 11012026.0, through
    the position strategy. *)
Theorem dotted_date_taken_as_total :
  let today := MkDate 2026 11 4 in
  let name := MkOCR 0 (py "TOKO MAJU") (9 # 10) [(0, 0); (90, 0); (90, 20); (0, 20)]%Q 0 in
  let item := MkOCR 1 (py "Kopi") (9 # 10) [(0, 40); (40, 40); (40, 60); (0, 60)]%Q 1 in
  let price := MkOCR 2 (py "25.000") (9 # 10) [(60, 40); (110, 40); (110, 60); (60, 60)]%Q 2 in
  let dated := MkOCR 3 (py "11.01.2026") (9 # 10) [(0, 80); (90, 80); (90, 100); (0, 100)]%Q 3 in
  let ocr_results := [name; item; price; dated] in
  let text_lines := [[name]; [item; price]; [dated]] in
  ReceiptOCR.get_text_lines ocr_results ReceiptOCR.default_line_threshold = text_lines /\
  DateExtractor.extract today ocr_results
  = Ok (Some (py "11.01.2026"), Some (MkDate 2026 1 11)) /\
  CurrencyParser.parse (Some (text dated)) = Ok (Some 11012026%Q, py "11.01.2026") /\
  TotalAmountExtractor._extract_by_keyword text_lines = Ok no_total /\
  TotalAmountExtractor._extract_by_position ocr_results text_lines
  = Ok (Some (py "11.01.2026"), Some 11012026%Q, (75 # 100)%Q) /\
  TotalAmountExtractor.extract ocr_results text_lines
  = Ok (Some (py "11.01.2026"), Some 11012026%Q, (75 # 100)%Q) /\
  (exists e : extraction,
      Orchestrator.extract_all (Orchestrator.__init__ today) ocr_results text_lines = Ok e /\
      transaction_date e = Some (py "2026-01-11") /\
      total_amount_raw e = Some (py "11.01.2026") /\
      total_amount_value e = Some 11012026%Q).
Proof.
  intros today name item price dated ocr_results text_lines.
  split; [vm_compute; reflexivity|]. split; [vm_compute; reflexivity|].
  split; [vm_compute; reflexivity|]. split; [vm_compute; reflexivity|].
  split; [vm_compute; reflexivity|]. split; [vm_compute; reflexivity|].
  eexists. split; [vm_compute; reflexivity|].
  repeat split.
Qed.

(** [int(n * 0.7)] on integers is the integer part of the float product,
    here for the lengths up to 4000. *)
Lemma int_times_07_float :
  Forall (fun n : nat =>
            Z.of_nat (TotalAmountExtractor.int_times_07 n)
            = Qfloor (Binary64.fmul (inject_Z (Z.of_nat n)) (Binary64.b64 (7 # 10))))
         (seq 0 4001).
Proof.
  apply Forall_forall. intros n Hn.
  assert (B : forallb
                (fun n : nat =>
                   (Z.of_nat (TotalAmountExtractor.int_times_07 n)
                    =? Qfloor (Binary64.fmul (inject_Z (Z.of_nat n))
                                             (Binary64.b64 (7 # 10))))%Z)
                (seq 0 4001) = true) by (vm_compute; reflexivity).
  rewrite forallb_forall in B. apply Z.eqb_eq. exact (B n Hn).
Qed.

(** X19. The position strategy.  The bottom section starts at line
    [int(len * 0.7)], which is below the number of lines, so it is never
    empty and always holds the last line.  What the strategy returns is no
    total or the amount of a detection of the bottom section, with
    confidence 0.75; and every amount of at least 100 in a line of the
    bottom section without exclusion keyword forces a result at least as
    large. *)
Theorem position_strategy_bottom (ocr_results : list OCRResult)
        (text_lines : list (list OCRResult)) :
  text_lines <> [] ->
  let start := TotalAmountExtractor.int_times_07 (length text_lines) in
  (start < length text_lines)%nat /\
  exists r : total_result,
    TotalAmountExtractor._extract_by_position ocr_results text_lines = Ok r /\
    (r = no_total \/
     exists d, In d (concat (skipn start text_lines)) /\ reports r d (75 # 100)%Q) /\
    (forall (line : list OCRResult) (d : OCRResult) (raw : str) (v : Q),
        In line (skipn start text_lines) ->
        TotalAmountExtractor.has_keyword
          ExtractionConfig.EXCLUDE_KEYWORDS (TotalAmountExtractor.line_text_of line) = false ->
        In d line ->
        CurrencyParser.parse (Some (text d)) = Ok (Some v, raw) -> (100 <= v)%Q ->
        exists raw' v', r = (Some raw', Some v', (75 # 100)%Q) /\ (v <= v')%Q).
Proof.
  intros Hne start.
  assert (Hstart : (start < length text_lines)%nat).
  { apply int_times_07_lt. destruct text_lines; [contradiction Hne; reflexivity | cbn; lia]. }
  split; [exact Hstart|].
  unfold TotalAmountExtractor._extract_by_position.
  destruct text_lines as [|l ls]; [contradiction Hne; reflexivity|].
  fold start.
  destruct (amounts_of_lines_ok (skipn start (l :: ls))) as [am Ham].
  rewrite Ham. cbn [bind]. eexists. split; [reflexivity|]. split.
  - apply (best_of_reports am (75 # 100)%Q
                           (fun d => In d (concat (skipn start (l :: ls))))).
    intros raw v c Hin.
    destruct (amounts_of_lines_In _ _ _ _ _ Ham Hin) as (d & Hd & Hp & Hv).
    exists d. split; [exact Hd|]. split; assumption.
  - intros line d raw v Hline Hx Hd Hp Hv.
    pose proof (amounts_of_lines_complete _ _ _ _ _ _ Ham Hline Hx Hd Hp Hv) as Hin.
    destruct (best_of_cases am (75 # 100)%Q) as [[E _] | (raw' & v' & c' & _ & E & Hmax)].
    + rewrite E in Hin. contradiction.
    + exists raw', v'. split; [exact E|]. exact (Hmax _ _ _ Hin).
Qed.

Lemma position_strategy_bottom_witness :
  let a := MkOCR 0 (py "TOKO") 1%Q [] 0 in
  let b := MkOCR 1 (py "Rp 12.500") 1%Q [] 1 in
  let c := MkOCR 2 (py "Rp 40.000") 1%Q [] 2 in
  let start := TotalAmountExtractor.int_times_07 (length [[a]; [b]; [c]]) in
  (start < length [[a]; [b]; [c]])%nat /\
  exists r : total_result,
    TotalAmountExtractor._extract_by_position [a; b; c] [[a]; [b]; [c]] = Ok r /\
    (r = no_total \/
     exists d, In d (concat (skipn start [[a]; [b]; [c]])) /\ reports r d (75 # 100)%Q) /\
    (forall (line : list OCRResult) (d : OCRResult) (raw : str) (v : Q),
        In line (skipn start [[a]; [b]; [c]]) ->
        TotalAmountExtractor.has_keyword
          ExtractionConfig.EXCLUDE_KEYWORDS (TotalAmountExtractor.line_text_of line) = false ->
        In d line ->
        CurrencyParser.parse (Some (text d)) = Ok (Some v, raw) -> (100 <= v)%Q ->
        exists raw' v', r = (Some raw', Some v', (75 # 100)%Q) /\ (v <= v')%Q).
Proof.
  intros a b c.
  apply (position_strategy_bottom [a; b; c] [[a]; [b]; [c]]). discriminate.
Defined.

(** ** The keyword strategy on the lines of the pipeline *)

Lemma NoDup_app_disjoint {A : Type} (l1 l2 : list A) (a : A) :
  NoDup (l1 ++ l2) -> In a l1 -> In a l2 -> False.
Proof.
  induction l1 as [|x l1 IH]; [contradiction|]. cbn [app]. intros H [-> | Hin] H2.
  - inversion H as [|? ? Hx _]; subst. apply Hx. apply in_or_app. right. exact H2.
  - inversion H; subst. exact (IH ltac:(assumption) Hin H2).
Qed.

Lemma get_text_lines_facts (results : list OCRResult) (thr : Q) :
  Permutation (concat (ReceiptOCR.get_text_lines results thr)) results /\
  Forall (fun line => line <> []) (ReceiptOCR.get_text_lines results thr).
Proof.
  destruct (get_text_lines_chunks thr _ (same_line_rounded thr) results)
    as (chunks & H1 & H2 & H3 & _).
  rewrite H2. split.
  - rewrite <- H1. apply concat_sorted_perm.
  - apply Forall_map. eapply Forall_impl; [|exact H3].
    intros c Hc. apply sort_line_nonempty. exact (chunk_ok_nonempty _ c Hc).
Qed.

(** Lines in which no detection occurs twice are pairwise different for
    [==]. *)
Lemma lines_differ (before after : list (list OCRResult)) (line : list OCRResult) :
  NoDup (map oid (concat (before ++ line :: after))) ->
  Forall (fun l => l <> []) (before ++ line :: after) ->
  Forall (fun l => TotalAmountExtractor.line_eqb l line = false) before.
Proof.
  intros Hnd Hne. apply Forall_forall. intros l Hl.
  destruct (TotalAmountExtractor.line_eqb l line) eqn:E; [exfalso | reflexivity].
  rewrite Forall_forall in Hne.
  assert (Hl' : l <> []) by (apply Hne; apply in_or_app; left; exact Hl).
  destruct l as [|x l']; [contradiction Hl'; reflexivity|].
  destruct line as [|y line']; [discriminate E|].
  cbn [TotalAmountExtractor.line_eqb] in E. apply andb_true_iff in E. destruct E as [E _].
  unfold TotalAmountExtractor.result_eqb in E. apply Nat.eqb_eq in E.
  rewrite concat_app, map_app in Hnd.
  apply (NoDup_app_disjoint _ _ (oid x) Hnd).
  - apply in_map. apply in_concat. exists (x :: l'). split; [exact Hl | left; reflexivity].
  - rewrite E. apply in_map. cbn [concat]. left. reflexivity.
Qed.

(** X20. On the lines that [get_text_lines] builds from detections with
    distinct identities, [text_lines.index(line)] is the position of the
    line, so the keyword strategy is as its comments say: the lowest line
    that is not excluded and has a total keyword is scanned right to left
    for an amount of at least 100 (confidence 0.9), and failing that the
    line immediately after it is scanned left to right (confidence
    0.85). *)
Theorem keyword_strategy_on_pipeline_lines
        (results : list OCRResult) (thr : Q)
        (before after : list (list OCRResult)) (line : list OCRResult) :
  NoDup (map oid results) ->
  ReceiptOCR.get_text_lines results thr = before ++ line :: after ->
  Forall (fun l => TotalSpec.keyword_line l = false) after ->
  TotalSpec.keyword_line line = true ->
  TotalAmountExtractor.index_of line (before ++ line :: after) = Ok (length before) /\
  (forall a, TotalSpec.first_amount (rev line) = Some a ->
             TotalAmountExtractor._extract_by_keyword (before ++ line :: after)
             = Ok (TotalSpec.with_confidence (9 # 10) a)) /\
  (forall a next rest,
      TotalSpec.first_amount (rev line) = None ->
      after = next :: rest ->
      TotalSpec.first_amount next = Some a ->
      TotalAmountExtractor._extract_by_keyword (before ++ line :: after)
      = Ok (TotalSpec.with_confidence (85 # 100) a)).
Proof.
  intros Hnd Hlines Hafter Hline.
  destruct (get_text_lines_facts results thr) as [Hperm Hne]. rewrite Hlines in Hperm, Hne.
  assert (Hdiff : Forall (fun l => TotalAmountExtractor.line_eqb l line = false) before).
  { apply lines_differ with (after := after); [|exact Hne].
    eapply Permutation_NoDup; [|exact Hnd].
    apply Permutation_map. apply Permutation_sym. exact Hperm. }
  destruct (keyword_strategy_without_alias before after line Hafter Hline) as [K1 K2].
  split; [exact (index_of_first line before after Hdiff)|].
  split; [exact K1|].
  intros a next rest Hnone Hrest Hnext. exact (K2 a next rest Hnone Hdiff Hrest Hnext).
Qed.

Lemma keyword_strategy_on_pipeline_lines_witness :
  let t := MkOCR 0 (py "TOTAL") 1%Q [(0, 100); (40, 100); (40, 120); (0, 120)]%Q 1 in
  let a := MkOCR 1 (py "Rp 25.000") 1%Q [(0, 140); (90, 140); (90, 160); (0, 160)]%Q 2 in
  let c := MkOCR 2 (py "TOKO") 1%Q [(0, 0); (40, 0); (40, 20); (0, 20)]%Q 0 in
  TotalAmountExtractor._extract_by_keyword [[c]; [t]; [a]]
  = Ok (Some (py "Rp 25.000"), Some 25000%Q, (85 # 100)%Q).
Proof.
  intros t a c.
  apply (proj2 (proj2 (keyword_strategy_on_pipeline_lines
                         [c; t; a] 20%Q [[c]] [[a]] [t]
                         ltac:(repeat constructor; cbn; intuition discriminate)
                         eq_refl
                         ltac:(repeat constructor)
                         eq_refl))
               (py "Rp 25.000", 25000%Q) [a] []); reflexivity.
Defined.

(** ** The keyword strategy, line by line *)

Section KeywordScan.

Import TotalAmountExtractor TotalSpec.

Lemma keyword_line_nonempty (line : list OCRResult) :
  keyword_line line = true -> line <> [].
Proof. intros H E. subst line. discriminate H. Qed.

(** When no detection stands in two places, no line above a non-empty line
    is equal to it. *)
Lemma lines_above_differ (before after : list (list OCRResult)) (line : list OCRResult) :
  NoDup (map oid (concat (before ++ line :: after))) ->
  line <> [] ->
  Forall (fun l => line_eqb l line = false) before.
Proof.
  intros Hnd Hne. apply Forall_forall. intros l Hl.
  destruct (line_eqb l line) eqn:E; [exfalso | reflexivity].
  destruct line as [|y line']; [contradiction Hne; reflexivity|].
  destruct l as [|x l']; [discriminate E|].
  cbn [line_eqb] in E. apply andb_true_iff in E. destruct E as [E _].
  unfold result_eqb in E. apply Nat.eqb_eq in E.
  rewrite concat_app, map_app in Hnd.
  apply (NoDup_app_disjoint _ _ (oid x) Hnd).
  - apply in_map. apply in_concat. exists (x :: l'). split; [exact Hl | left; reflexivity].
  - rewrite E. apply in_map. cbn [concat]. left. reflexivity.
Qed.

Lemma nth_error_next {A : Type} (before after : list A) (x : A) :
  nth_error (before ++ x :: after) (length before + 1) = hd_error after.
Proof.
  rewrite nth_error_app2 by lia.
  replace (length before + 1 - length before)%nat with 1%nat by lia.
  destruct after; reflexivity.
Qed.

(** The loop over the lines, from any line upwards, is the scan of the
    specification. *)
Lemma keyword_loop_scan (text_lines : list (list OCRResult)) :
  NoDup (map oid (concat text_lines)) ->
  forall above below : list (list OCRResult),
    text_lines = above ++ below ->
    (found <- for_first (on_line text_lines) (rev above) ;;
     match found with
     | Some r => Ok r
     | None => Ok no_total
     end)
    = Ok (keyword_scan below (rev above)).
Proof.
  intros Hnd above. induction above as [|line above IH] using rev_ind;
    intros below Hsplit.
  - reflexivity.
  - rewrite rev_app_distr. cbn [rev app for_first keyword_scan].
    rewrite <- app_assoc in Hsplit. cbn [app] in Hsplit.
    rewrite on_line_eq.
    destruct (keyword_line line) eqn:K; [|exact (IH (line :: below) Hsplit)].
    assert (Hi : index_of line text_lines = Ok (length above)).
    { rewrite Hsplit. apply index_of_first.
      apply lines_above_differ with (after := below);
        [rewrite <- Hsplit; exact Hnd | apply keyword_line_nonempty; exact K]. }
    rewrite (on_keyword_at _ _ _ Hi).
    destruct (first_amount (rev line)) as [a|]; [reflexivity|].
    rewrite Hsplit at 1. rewrite nth_error_next.
    destruct below as [|next rest]; cbn [hd_error option_map].
    + exact (IH [line] Hsplit).
    + destruct (first_amount next) as [a|]; [reflexivity|].
      exact (IH (line :: next :: rest) Hsplit).
Qed.

Lemma keyword_scan_passes (after below above : list (list OCRResult)) :
  Forall (fun l => keyword_line l = false) after ->
  keyword_scan below (rev after ++ above) = keyword_scan (after ++ below) above.
Proof.
  revert below. induction after as [|l after IH] using rev_ind; intros below H.
  - reflexivity.
  - apply Forall_app in H. destruct H as [H Hl]. inversion Hl as [|? ? Kl _]; subst.
    rewrite rev_app_distr. cbn [rev app keyword_scan]. rewrite Kl.
    rewrite (IH (l :: below) H), <- app_assoc. reflexivity.
Qed.

End KeywordScan.

(** C2. The keyword strategy, for every list of lines in which no detection
    stands in two places (as in the lines that [get_text_lines] builds), is
    the scan that the specification words: the lines are visited from the
    bottom; a line with an exclusion keyword, and a line without a total
    keyword, is passed over; on the first line with a total keyword the
    detections are read from right to left, and the first value of at least
    100 is returned with confidence 0.9; when the line has none, the first
    such value of the line immediately below it is returned with confidence
    0.85.  (When that line has none either, the visit goes on upwards.)  Four
    receipts show the parts of the rule: the rightmost of two amounts on the
    keyword line wins and a quantity below 100 is passed over; the lower of
    two keyword lines wins; a keyword line with an exclusion keyword is
    skipped; and an amount on the line below a bare keyword is returned
    with 0.85. *)
Theorem keyword_strategy_bottom_up :
  (forall text_lines : list (list OCRResult),
      NoDup (map oid (concat text_lines)) ->
      TotalAmountExtractor._extract_by_keyword text_lines
      = Ok (TotalSpec.keyword_strategy text_lines)) /\
  (forall (before after : list (list OCRResult)) (line : list OCRResult),
      NoDup (map oid (concat (before ++ line :: after))) ->
      Forall (fun l => TotalSpec.keyword_line l = false) after ->
      TotalSpec.keyword_line line = true ->
      (forall a, TotalSpec.first_amount (rev line) = Some a ->
                 TotalAmountExtractor._extract_by_keyword (before ++ line :: after)
                 = Ok (TotalSpec.with_confidence (9 # 10) a)) /\
      (forall a next rest,
          TotalSpec.first_amount (rev line) = None ->
          after = next :: rest ->
          TotalSpec.first_amount next = Some a ->
          TotalAmountExtractor._extract_by_keyword (before ++ line :: after)
          = Ok (TotalSpec.with_confidence (85 # 100) a))) /\
  (forall line : list OCRResult,
      TotalSpec.keyword_line line = true <->
      (forall kw, In kw ExtractionConfig.EXCLUDE_KEYWORDS ->
                  contains kw (lower (join (py " ") (map text line))) = false) /\
      (exists kw, In kw ExtractionConfig.TOTAL_KEYWORDS /\
                  contains kw (lower (join (py " ") (map text line))) = true)) /\
  (forall r : OCRResult,
      (forall raw v, TotalSpec.amount r = Some (raw, v) <->
                     CurrencyParser.parse (Some (text r)) = Ok (Some v, raw) /\
                     (100 <= v)%Q)) /\
  (let name := MkOCR 0 (py "TOKO MAJU") (9 # 10) [] 0 in
   let total := MkOCR 1 (py "Total") (9 # 10) [] 1 in
   let first := MkOCR 2 (py "60.000") (9 # 10) [] 2 in
   let second := MkOCR 3 (py "50.000") (9 # 10) [] 3 in
   let qty := MkOCR 4 (py "2") (9 # 10) [] 4 in
   TotalAmountExtractor._extract_by_keyword [[name]; [total; first; second; qty]]
   = Ok (Some (py "50.000"), Some 50000%Q, (9 # 10)%Q)) /\
  (let sub := MkOCR 0 (py "Subtotal") (9 # 10) [] 0 in
   let a40 := MkOCR 1 (py "40.000") (9 # 10) [] 1 in
   let total := MkOCR 2 (py "Total") (9 # 10) [] 2 in
   let a45 := MkOCR 3 (py "45.000") (9 # 10) [] 3 in
   let disc := MkOCR 4 (py "Total Diskon") (9 # 10) [] 4 in
   let a5 := MkOCR 5 (py "5.000") (9 # 10) [] 5 in
   TotalAmountExtractor._extract_by_keyword [[sub; a40]; [total; a45]]
   = Ok (Some (py "45.000"), Some 45000%Q, (9 # 10)%Q) /\
   TotalAmountExtractor._extract_by_keyword [[total; a45]; [disc; a5]]
   = Ok (Some (py "45.000"), Some 45000%Q, (9 # 10)%Q)) /\
  (let name := MkOCR 0 (py "TOKO MAJU") (9 # 10) [] 0 in
   let total := MkOCR 1 (py "TOTAL") (9 # 10) [] 1 in
   let amount := MkOCR 2 (py "Rp 25.000") (9 # 10) [] 2 in
   let thanks := MkOCR 3 (py "Terima kasih") (9 # 10) [] 3 in
   TotalAmountExtractor._extract_by_keyword [[name]; [total]; [amount]; [thanks]]
   = Ok (Some (py "Rp 25.000"), Some 25000%Q, (85 # 100)%Q)).
Proof.
  assert (R : forall text_lines : list (list OCRResult),
             NoDup (map oid (concat text_lines)) ->
             TotalAmountExtractor._extract_by_keyword text_lines
             = Ok (TotalSpec.keyword_strategy text_lines)).
  { intros text_lines Hnd.
    unfold TotalAmountExtractor._extract_by_keyword, TotalSpec.keyword_strategy.
    apply (keyword_loop_scan text_lines Hnd text_lines []).
    rewrite app_nil_r. reflexivity. }
  split; [exact R|]. split; [|split; [|split]].
  - intros before after line Hnd Hafter Hline.
    assert (S : TotalSpec.keyword_strategy (before ++ line :: after)
                = TotalSpec.keyword_scan after (line :: rev before)).
    { unfold TotalSpec.keyword_strategy.
      rewrite rev_app_distr. cbn [rev]. rewrite <- app_assoc. cbn [app].
      rewrite (keyword_scan_passes after [] (line :: rev before) Hafter).
      rewrite app_nil_r. reflexivity. }
    split.
    + intros a Ha. rewrite (R _ Hnd), S. cbn [TotalSpec.keyword_scan].
      rewrite Hline, Ha. reflexivity.
    + intros a next rest Hnone -> Hnext. rewrite (R _ Hnd), S.
      cbn [TotalSpec.keyword_scan]. rewrite Hline, Hnone.
      cbn [hd_error option_map]. rewrite Hnext. reflexivity.
  - intros line. unfold TotalSpec.keyword_line, TotalSpec.excluded,
      TotalAmountExtractor.has_keyword, TotalAmountExtractor.line_text_of.
    set (t := lower (join (py " ") (map text line))).
    rewrite andb_true_iff, negb_true_iff, existsb_exists.
    split.
    + intros [E K]. split; [|exact K].
      intros kw Hkw. destruct (contains kw t) eqn:C; [|reflexivity].
      assert (X : existsb (fun kw => contains kw t) ExtractionConfig.EXCLUDE_KEYWORDS = true).
      { apply existsb_exists. exists kw. split; assumption. }
      rewrite X in E. discriminate E.
    + intros [E K]. split; [|exact K].
      destruct (existsb _ ExtractionConfig.EXCLUDE_KEYWORDS) eqn:X; [|reflexivity].
      apply existsb_exists in X. destruct X as (kw & Hkw & C).
      rewrite (E kw Hkw) in C. discriminate C.
  - intros r raw v. unfold TotalSpec.amount.
    destruct (CurrencyParser.parse (Some (text r))) as [[[w|] raw'] | e].
    + destruct (Qleb 100 w) eqn:E.
      * split.
        -- intros H. inversion H; subst. split; [reflexivity | apply Qleb_true; exact E].
        -- intros [H _]. inversion H; subst. reflexivity.
      * split; [discriminate|]. intros [H L]. inversion H; subst.
        apply Qleb_true in L. rewrite L in E. discriminate E.
    + split; [discriminate | intros [H _]; discriminate H].
    + split; [discriminate | intros [H _]; discriminate H].
  - repeat split; vm_compute; reflexivity.
Qed.

Lemma keyword_strategy_bottom_up_witness :
  let name := MkOCR 0 (py "TOKO MAJU") (9 # 10) [] 0 in
  let total := MkOCR 1 (py "TOTAL") (9 # 10) [] 1 in
  let amount := MkOCR 2 (py "Rp 25.000") (9 # 10) [] 2 in
  TotalAmountExtractor._extract_by_keyword [[name]; [total]; [amount]]
  = Ok (TotalSpec.keyword_strategy [[name]; [total]; [amount]]) /\
  TotalSpec.keyword_strategy [[name]; [total]; [amount]]
  = (Some (py "Rp 25.000"), Some 25000%Q, (85 # 100)%Q).
Proof.
  intros name total amount. split.
  - apply (proj1 keyword_strategy_bottom_up [[name]; [total]; [amount]]).
    repeat constructor; cbn; intuition discriminate.
  - vm_compute. reflexivity.
Defined.

(** ** The fields of an extraction *)

Lemma round_half_even_ge (q : Q) (n : Z) :
  (inject_Z n <= q)%Q -> (n <= CurrencyParser.round_half_even q)%Z.
Proof.
  intros H.
  assert (F : (n <= Qfloor q)%Z).
  { rewrite <- (Qfloor_Z n). apply Qfloor_resp_le. exact H. }
  destruct (round_half_even_cases q) as [-> | [-> _]]; lia.
Qed.

Lemma py_round_3_le_03 (x : Q) : (x <= 3 # 10)%Q -> (py_round x 3 <= 3 # 10)%Q.
Proof.
  intros H. unfold py_round.
  match goal with
  | |- (Qred ?q <= _)%Q =>
      apply Qle_trans with q; [apply Qle_lteq; right; apply Qred_correct|]
  end.
  change (inject_Z (10 ^ Z.of_nat 3)) with 1000%Q.
  assert (B : (CurrencyParser.round_half_even (x * 1000) <= 300)%Z).
  { apply round_half_even_le. change (inject_Z 300) with 300%Q. lra. }
  rewrite Zle_Qle in B. change (inject_Z 300) with 300%Q in B.
  apply Qle_shift_div_r; [reflexivity|]. lra.
Qed.

Lemma py_round_3_ge_042 (x : Q) : (4196 # 10000 <= x)%Q -> (42 # 100 <= py_round x 3)%Q.
Proof.
  intros H. unfold py_round.
  match goal with
  | |- (_ <= Qred ?q)%Q =>
      apply Qle_trans with q; [|apply Qle_lteq; right; symmetry; apply Qred_correct]
  end.
  change (inject_Z (10 ^ Z.of_nat 3)) with 1000%Q.
  assert (B : (420 <= CurrencyParser.round_half_even (x * 1000))%Z).
  { pose proof (round_half_even_near (x * 1000)) as N.
    assert (L : (inject_Z 419 < inject_Z (CurrencyParser.round_half_even (x * 1000)))%Q).
    { change (inject_Z 419) with 419%Q. lra. }
    rewrite <- Zlt_Qlt in L. lia. }
  rewrite Zle_Qle in B. change (inject_Z 420) with 420%Q in B.
  apply Qle_shift_div_l; [reflexivity|]. lra.
Qed.

(** Without a total the float blend is the float of [mean * 0.3], which is
    at most the float 0.3. *)
Lemma blend_without_total (a : Q) :
  (0 <= a <= 1)%Q -> (Orchestrator.overall_confidence_of a 0 <= 3 # 10)%Q.
Proof.
  intros Ha. unfold Orchestrator.overall_confidence_of.
  unfold Binary64.fadd, Binary64.fmul. rewrite float_03, float_07.
  replace (Binary64.b64 (Binary64.b64 0 * (3152519739159347 # 4503599627370496)))
    with 0%Q by (vm_compute; reflexivity).
  set (c3 := (5404319552844595 # 18014398509481984)%Q).
  assert (P1 : (Binary64.b64 (a * c3) <= c3)%Q).
  { apply b64_le_exact; [vm_compute; reflexivity | subst c3; lra]. }
  apply Qle_trans with c3; [|vm_compute; discriminate].
  apply b64_le_exact; [vm_compute; reflexivity | lra].
Qed.

(** With a total, whose confidence is 0.6 at least, the float blend is at
    least the float of [0.6 * 0.7], which is just below 0.42. *)
Lemma blend_with_total (a t : Q) :
  (0 <= a)%Q -> (6 # 10 <= t)%Q ->
  (4196 # 10000 <= Orchestrator.overall_confidence_of a t)%Q.
Proof.
  intros Ha Ht. unfold Orchestrator.overall_confidence_of.
  unfold Binary64.fadd, Binary64.fmul. rewrite float_03, float_07.
  set (c3 := (5404319552844595 # 18014398509481984)%Q).
  set (c7 := (3152519739159347 # 4503599627370496)%Q).
  assert (P1 : (0 <= Binary64.b64 (a * c3))%Q) by (apply b64_nonneg; subst c3; lra).
  assert (Bt : (Binary64.b64 (6 # 10) <= Binary64.b64 t)%Q) by (apply b64_le; exact Ht).
  replace (Binary64.b64 (6 # 10)) with (5404319552844595 # 9007199254740992)%Q in Bt
    by (vm_compute; reflexivity).
  set (bt := Binary64.b64 t) in *.
  assert (P2 : (Binary64.b64 ((5404319552844595 # 9007199254740992) * c7)
                <= Binary64.b64 (bt * c7))%Q).
  { apply b64_le. subst c7. lra. }
  replace (Binary64.b64 ((5404319552844595 # 9007199254740992) * c7))
    with (7566047373982433 # 18014398509481984)%Q in P2 by (vm_compute; reflexivity).
  set (p1 := Binary64.b64 (a * c3)) in *. set (p2 := Binary64.b64 (bt * c7)) in *.
  apply Qle_trans with (Binary64.b64 (7566047373982433 # 18014398509481984)).
  - vm_compute. discriminate.
  - apply b64_le. lra.
Qed.

(** X21. The fields of an extraction hang together (repository extractors, clock
    in the years 6..9999, detection confidences in [0,1]): the date is
    present exactly when its raw string is, the total value exactly when its
    raw string is; a total is never below 100; and the score tells whether
    a total was found: it is at most 0.3 without a total and at least 0.42
    with one. *)
Theorem extraction_is_coherent (today : date) (ocr_results : list OCRResult)
        (text_lines : list (list OCRResult)) :
  (6 <= year today <= 9999)%Z ->
  Forall (fun r => (0 <= confidence r <= 1)%Q) ocr_results ->
  exists e : extraction,
    Orchestrator.extract_all (Orchestrator.__init__ today) ocr_results text_lines = Ok e /\
    (transaction_date e = None <-> transaction_date_raw e = None) /\
    (total_amount_value e = None <-> total_amount_raw e = None) /\
    (forall v, total_amount_value e = Some v -> (100 <= v)%Q) /\
    (total_amount_value e = None -> (confidence_score e <= 3 # 10)%Q) /\
    (total_amount_value e <> None -> (42 # 100 <= confidence_score e)%Q).
Proof.
  intros Hy Hc.
  destruct (extract_all_repository today ocr_results text_lines Hy)
    as (date_raw & date_parsed & total_raw & total_value & tc & Hd & Ht & Hu & He).
  eexists. split; [exact He|].
  cbn [transaction_date transaction_date_raw total_amount_value total_amount_raw
       confidence_score].
  pose proof (float_mean_unit ocr_results Hc) as Hm.
  split.
  { destruct (date_extract_cases today ocr_results date_raw date_parsed Hd)
      as [[-> ->] | (s & dt & -> & -> & _)]; cbn [option_map]; split; intros H;
      first [reflexivity | discriminate H]. }
  destruct (total_extract_cases ocr_results text_lines) as (r & Hr & Hcase).
  rewrite Ht in Hr. inversion Hr; subst r. clear Hr.
  destruct Hcase as [E | (d & c & (raw & v & E & _ & Hv) & Hconf)].
  - inversion E; subst. split; [tauto|]. split; [discriminate|]. split.
    + intros _. apply py_round_3_le_03. apply blend_without_total. exact Hm.
    + intros H. contradiction H. reflexivity.
  - inversion E; subst. split; [split; discriminate|]. split.
    + intros v0 H. inversion H; subst v0. exact Hv.
    + split; [discriminate|]. intros _.
      apply py_round_3_ge_042. apply blend_with_total; [lra|].
      destruct Hconf as [[_ [-> | [-> | ->]]] | [_ ->]]; lra.
Qed.

Lemma extraction_is_coherent_witness :
  let today := MkDate 2026 11 4 in
  let ocr_results := [MkOCR 0 (py "TOKO MAJU") (9 # 10) [] 0;
                      MkOCR 1 (py "Terima kasih") (8 # 10) [] 1] in
  exists e : extraction,
    Orchestrator.extract_all (Orchestrator.__init__ today) ocr_results
                             [[MkOCR 0 (py "TOKO MAJU") (9 # 10) [] 0];
                              [MkOCR 1 (py "Terima kasih") (8 # 10) [] 1]] = Ok e /\
    (transaction_date e = None <-> transaction_date_raw e = None) /\
    (total_amount_value e = None <-> total_amount_raw e = None) /\
    (forall v, total_amount_value e = Some v -> (100 <= v)%Q) /\
    (total_amount_value e = None -> (confidence_score e <= 3 # 10)%Q) /\
    (total_amount_value e <> None -> (42 # 100 <= confidence_score e)%Q).
Proof.
  intros today ocr_results.
  apply (extraction_is_coherent today ocr_results).
  - cbn. lia.
  - repeat constructor; discriminate.
Defined.

(** ** The matches of the amount pattern *)

Lemma sep_set_ic (c : ascii) :
  in_set true false [CChr "."; CChr ","] c = true <-> (c = "."%char \/ c = ","%char).
Proof. destruct c as [[] [] [] [] [] [] [] []]; vm_compute; intuition congruence. Qed.

Lemma digit_set_ic_eq (c : ascii) : in_set true false [CDigit] c = is_digit c.
Proof. destruct c as [[] [] [] [] [] [] [] []]; reflexivity. Qed.

Lemma thousands_sound {A : Type} (k : kont A) (caps : captures) (a : A) :
  forall (n : nat) (s : str) (prev : option ascii),
    (length s <= n)%nat ->
    thousands prev s caps k = Some a ->
    exists w after,
      s = w ++ after /\ grouped w /\ k (prev_after prev w) after caps = Some a.
Proof.
  assert (Stop : forall s prev, k prev s caps = Some a ->
                 exists w after,
                   s = w ++ after /\ grouped w /\ k (prev_after prev w) after caps = Some a).
  { intros s prev H. exists [], s. repeat split; [constructor | exact H]. }
  induction n as [|n IH]; intros s prev Hn H.
  - destruct s; [|simpl in Hn; lia]. apply Stop. exact H.
  - destruct s as [|x [|d1 [|d2 [|d3 s']]]]; cbn [thousands] in H;
      try (apply Stop; exact H).
    destruct (in_set true false [CChr "."; CChr ","] x
              && in_set true false [CDigit] d1 && in_set true false [CDigit] d2
              && in_set true false [CDigit] d3)%bool eqn:E; [|apply Stop; exact H].
    destruct (thousands (Some d3) s' caps k) as [a'|] eqn:R; [|apply Stop; exact H].
    inversion H; subst a'. clear H.
    apply IH in R; [|simpl in Hn; lia].
    destruct R as (w & after & -> & G & Hk).
    rewrite !andb_true_iff in E. destruct E as [[[E0 E1] E2] E3].
    rewrite digit_set_ic_eq in E1, E2, E3. apply sep_set_ic in E0.
    exists (x :: d1 :: d2 :: d3 :: w), after.
    split; [reflexivity|]. split; [constructor; assumption|exact Hk].
Qed.

Lemma set_r_lower (c : ascii) :
  in_set true false [CChr "R"; CChr "r"] c = true -> to_lower c = "r"%char.
Proof. by_cases c. Qed.
Lemma set_p_lower (c : ascii) :
  in_set true false [CChr "P"; CChr "p"] c = true -> to_lower c = "p"%char.
Proof. by_cases c. Qed.
Lemma set_i_lower (c : ascii) :
  in_set true false [CChr "I"; CChr "i"] c = true -> to_lower c = "i"%char.
Proof. by_cases c. Qed.
Lemma set_d_lower (c : ascii) :
  in_set true false [CChr "D"; CChr "d"] c = true -> to_lower c = "d"%char.
Proof. by_cases c. Qed.
Lemma chr_dot_ic (c : ascii) : chr_eq true "." c = true -> c = "."%char.
Proof. by_cases c. Qed.
Lemma set_space_ic (c : ascii) : in_set true false [CSpace] c = is_space c.
Proof. destruct c as [[] [] [] [] [] [] [] []]; reflexivity. Qed.

(** What the prefix of the pattern matches. *)
Lemma amount_prefix_matches (prev : option ascii) (w after : str) (caps caps' : captures) :
  matches true amount_prefix prev w after caps caps' ->
  caps' = caps /\ amount_prefix_of w.
Proof.
  unfold amount_prefix. cbn [seqs cat]. intros M.
  inv M; [|split; [reflexivity | left; reflexivity]].
  match goal with H : matches _ (RAlt _ _) _ _ _ _ _ |- _ => inv H end.
  - inv_all; (split; [reflexivity|]);
      match goal with
      | |- amount_prefix_of ([?a] ++ [?b] ++ [?c] ++ ?w) => right; left; exists a, b, [c], w
      | |- amount_prefix_of ([?a] ++ [?b] ++ [] ++ ?w) => right; left; exists a, b, [], w
      end;
      (split; [reflexivity|]);
      (split; [apply set_r_lower; assumption|]);
      (split; [apply set_p_lower; assumption|]);
      (split; [|unfold all_spaces; eapply Forall_impl; [|eassumption]; intros c Hc;
                cbv beta in Hc |- *; rewrite <- set_space_ic; exact Hc]).
    + right. match goal with H : chr_eq _ _ ?y = true |- _ => apply chr_dot_ic in H; subst y end.
      reflexivity.
    + left. reflexivity.
  - inv_all. split; [reflexivity|].
    match goal with
    | |- amount_prefix_of ([?a] ++ [?b] ++ [?c] ++ ?w) => right; right; exists a, b, c, w
    end.
    split; [reflexivity|].
    split; [apply set_i_lower; assumption|].
    split; [apply set_d_lower; assumption|].
    split; [apply set_r_lower; assumption|].
    unfold all_spaces. eapply Forall_impl; [|eassumption]. intros c Hc.
    cbv beta in Hc |- *. rewrite <- set_space_ic. exact Hc.
Qed.

(** A repetition that may take nothing fails only if what follows fails. *)
Lemma rep_greedy_0_total {A : Type} (p : ascii -> bool) (caps : captures) (k : kont A) :
  (forall q s, k q s caps <> None) ->
  forall (s : str) (hi : option nat) (prev : option ascii),
    rep_greedy p 0 hi prev s caps k <> None.
Proof.
  intros Hk s hi prev. destruct s as [|x s]; cbn [rep_greedy]; [apply Hk|].
  destruct (p x && _)%bool; [|apply Hk].
  destruct (rep_greedy p _ _ _ s caps k); [discriminate | apply Hk].
Qed.

Lemma rep_greedy_1_total {A : Type} (p : ascii -> bool) (caps : captures) (k : kont A)
      (d : ascii) (t : str) (hi : option nat) (prev : option ascii) :
  (forall q s, k q s caps <> None) ->
  p d = true -> hi <> Some 0%nat ->
  rep_greedy p 1 hi prev (d :: t) caps k <> None.
Proof.
  intros Hk Hd Hhi. cbn [rep_greedy Nat.pred]. rewrite Hd.
  replace (match hi with Some 0%nat => false | _ => true end) with true
    by (destruct hi as [[|h]|]; congruence).
  cbn [andb].
  pose proof (rep_greedy_0_total p caps k Hk t (option_map Nat.pred hi) (Some d)) as H.
  destruct (rep_greedy p 0 _ _ t caps k); [discriminate | contradiction].
Qed.

Lemma thousands_total {A : Type} (caps : captures) (k : kont A) :
  (forall q s, k q s caps <> None) ->
  forall (s : str) (prev : option ascii), thousands prev s caps k <> None.
Proof.
  intros Hk s prev.
  destruct s as [|x [|d1 [|d2 [|d3 s']]]]; cbn [thousands]; try apply Hk.
  destruct (_ && _)%bool; [|apply Hk].
  destruct (thousands (Some d3) s' caps k); [discriminate | apply Hk].
Qed.

Lemma opt_total {A : Type} (r : regex) (caps : captures) (k : kont A)
      (prev : option ascii) (s : str) :
  k prev s caps <> None -> rmatch true (ROpt r) prev s caps k <> None.
Proof.
  intros Hk. cbn [rmatch]. destruct (rmatch true r prev s caps k); [discriminate | exact Hk].
Qed.

Lemma decimals_matches (prev : option ascii) (w after : str) (caps caps' : captures) :
  matches true amount_decimals prev w after caps caps' ->
  caps' = caps /\ decimal_part w.
Proof.
  unfold amount_decimals. intros M. inv M; [|split; [reflexivity | left; reflexivity]].
  inv_all. split; [reflexivity|].
  match goal with
  | |- decimal_part ([?x] ++ ?f) => right; exists x, f
  end.
  split; [reflexivity|].
  split; [apply sep_set_ic; assumption|].
  split; [|lia].
  unfold all_digits. eapply Forall_impl; [|eassumption]. intros c Hc.
  cbv beta in Hc |- *. rewrite <- digit_set_ic_eq. exact Hc.
Qed.

Lemma firstn_consumed3 (a b c after : str) :
  firstn (length (a ++ b ++ c ++ after) - length after) (a ++ b ++ c ++ after)
  = a ++ b ++ c.
Proof.
  replace (a ++ b ++ c ++ after) with ((a ++ b ++ c) ++ after)
    by (rewrite <- !app_assoc; reflexivity).
  apply firstn_consumed.
Qed.

(** Group 1 is always matched by its first alternative: the second one
    starts with a digit as well, and where there is a digit the first one
    does not fail. *)
Lemma amount_number_sound (s : str) (p1 : option ascii) (s1 : str) (c1 : captures)
      (m : match_obj) :
  amount_number s p1 s1 c1 = Some m ->
  exists num after,
    s1 = num ++ after /\ grouped_number num /\
    m = MkMatch (firstn (length s - length after) s) ((1%nat, num) :: c1) after.
Proof.
  unfold amount_number. intros H.
  match type of H with
  | match ?first with _ => _ end = _ => destruct first as [m'|] eqn:E1
  end.
  - inversion H; subst m'. clear H.
    apply rmatch_sound in E1. destruct E1 as (h & s2 & c2 & -> & Mh & E2).
    unfold digits in Mh. inv Mh.
    apply (thousands_sound _ _ _ (length s2)) in E2; [|lia].
    destruct E2 as (g & s3 & -> & G & E3).
    apply rmatch_sound in E3. destruct E3 as (dec & after & c3 & -> & Md & E4).
    apply decimals_matches in Md. destruct Md as [-> Hdec].
    rewrite firstn_consumed3 in E4. inversion E4; subst m. clear E4.
    exists (h ++ g ++ dec), after.
    split; [rewrite <- !app_assoc; reflexivity|].
    split; [|reflexivity].
    exists h, g, dec. split; [reflexivity|].
    split.
    { unfold all_digits. eapply Forall_impl; [|eassumption]. intros c Hc.
      cbv beta in Hc |- *. rewrite <- digit_set_ic_eq. exact Hc. }
    bounds. split; [lia|]. split; assumption.
  - exfalso.
    apply rmatch_sound in H. destruct H as (w & after & c2 & -> & M & _).
    inv M. unfold digits in *.
    match goal with
    | H : matches _ (RRep 1 None _ _) _ ?w1 _ _ _ |- _ => inv H; destruct w1 as [|d t]
    end; [simpl in *; lia|].
    match goal with H : Forall _ (d :: t) |- _ => inv H end.
    revert E1. cbn [app]. cbn [rmatch].
    apply rep_greedy_1_total; [|assumption|discriminate].
    intros q s0. apply thousands_total. intros q' s'. apply opt_total. discriminate.
Qed.

(** A match of the pattern: an optional prefix and a number of the first
    alternative, which is group 1. *)
Lemma amount_at_sound (prev : option ascii) (s : str) (m : match_obj) :
  amount_at prev s = Some m ->
  exists pre num after,
    s = pre ++ num ++ after /\ m = MkMatch (pre ++ num) [(1%nat, num)] after /\
    amount_prefix_of pre /\ grouped_number num.
Proof.
  unfold amount_at. intros H.
  apply rmatch_sound in H. destruct H as (pre & s1 & c1 & -> & Mp & H).
  apply amount_prefix_matches in Mp. destruct Mp as [-> Hpre].
  apply amount_number_sound in H. destruct H as (num & after & -> & Hnum & ->).
  exists pre, num, after. split; [reflexivity|]. split; [|split; assumption].
  f_equal.
  replace (pre ++ num ++ after) with ((pre ++ num) ++ after)
    by (rewrite <- app_assoc; reflexivity).
  apply firstn_consumed.
Qed.

Lemma grouped_digit_or_sep (g : str) : grouped g -> Forall digit_or_sep g.
Proof.
  induction 1 as [|x d1 d2 d3 w Hx H1 H2 H3 _ IH]; [constructor|].
  constructor; [right; exact Hx|].
  repeat (constructor; [left; assumption|]). exact IH.
Qed.

Lemma decimal_part_digit_or_sep (w : str) : decimal_part w -> Forall digit_or_sep w.
Proof.
  intros [-> | (x & f & -> & Hx & Hf & _)]; [constructor|].
  constructor; [right; exact Hx|].
  eapply Forall_impl; [|exact Hf]. intros c Hc. left. exact Hc.
Qed.

(** Such a number starts with a digit and consists of digits, dots and
    commas. *)
Lemma grouped_number_numeric (num : str) :
  grouped_number num ->
  exists d t, num = d :: t /\ is_digit d = true /\ Forall digit_or_sep t.
Proof.
  intros (h & g & dec & -> & Hh & Hl & Hg & Hd).
  destruct Hh as [|d h Hd' Hh]; [simpl in Hl; lia|].
  exists d, (h ++ g ++ dec). split; [reflexivity|]. split; [exact Hd'|].
  apply Forall_app. split.
  - eapply Forall_impl; [|exact Hh]. intros c Hc. left. exact Hc.
  - apply Forall_app. split;
      [apply grouped_digit_or_sep; exact Hg | apply decimal_part_digit_or_sep; exact Hd].
Qed.

Lemma amount_prefix_optional (pre : str) : amount_prefix_of pre -> optional_prefix pre.
Proof.
  intros [-> | [(c1 & c2 & dot & sp & -> & H1 & H2 & Hd & Hs)
               | (c1 & c2 & c3 & sp & -> & H1 & H2 & H3 & Hs)]].
  - left. reflexivity.
  - right. apply prefix_rp; assumption.
  - right. apply prefix_idr; assumption.
Qed.

Lemma lower_letter_not_digit (c : ascii) :
  to_lower c = "r"%char \/ to_lower c = "p"%char \/ to_lower c = "i"%char
  \/ to_lower c = "d"%char \/ c = "."%char ->
  is_digit c = false.
Proof. destruct c as [[] [] [] [] [] [] [] []]; vm_compute; intuition congruence. Qed.

Lemma space_not_digit (c : ascii) : is_space c = true -> is_digit c = false.
Proof. by_cases c. Qed.

Lemma amount_prefix_no_digit (pre : str) :
  amount_prefix_of pre -> Forall (fun c => is_digit c = false) pre.
Proof.
  assert (Hsp : forall sp, all_spaces sp -> Forall (fun c => is_digit c = false) sp).
  { intros sp H. eapply Forall_impl; [|exact H]. apply space_not_digit. }
  intros [-> | [(c1 & c2 & dot & sp & -> & H1 & H2 & Hd & Hs)
               | (c1 & c2 & c3 & sp & -> & H1 & H2 & H3 & Hs)]].
  - constructor.
  - constructor; [apply lower_letter_not_digit; auto|].
    constructor; [apply lower_letter_not_digit; auto|].
    apply Forall_app. split; [|apply Hsp; exact Hs].
    destruct Hd as [-> | ->]; repeat constructor.
  - repeat (constructor; [apply lower_letter_not_digit; auto|]).
    apply Hsp. exact Hs.
Qed.

(** The value and raw string that [parse] gives a match. *)
Lemma parse_amount (pre num : str) :
  amount_prefix_of pre -> grouped_number num ->
  exists v, CurrencyParser._parse_number_string num = Ok v /\
            CurrencyParser.parse (@Some str (pre ++ num)) = Ok (v, pre ++ num).
Proof.
  intros Hpre Hnum.
  destruct (grouped_number_numeric num Hnum) as (d & t & -> & Hd & Ht).
  apply parse_prefixed; [apply amount_prefix_optional; exact Hpre | exact Hd | exact Ht].
Qed.

Lemma match_in_step (x : ascii) (s : str) (pos : nat) (pm : nat * match_obj) :
  match_in s (S pos) pm -> match_in (x :: s) pos pm.
Proof.
  intros [Hp (pre & num & after & E & R)]. split; [lia|].
  exists pre, num, after. split; [|exact R].
  replace (fst pm - pos)%nat with (S (fst pm - S pos)) by lia. exact E.
Qed.

Lemma grouped_number_nonempty (num : str) : grouped_number num -> (1 <= length num)%nat.
Proof.
  intros H. destruct (grouped_number_numeric num H) as (d & t & -> & _). simpl. lia.
Qed.

(** The matches of [finditer] are matches of the pattern at their
    positions, from left to right, and none starts before the one before it
    has ended. *)
Lemma finditer_spec (s : str) :
  forall (skip : nat) (prev : option ascii) (pos : nat),
    Forall (fun pm => match_in s pos pm /\ (pos + skip <= fst pm)%nat)
           (finditer skip prev pos s) /\
    StronglySorted match_before (finditer skip prev pos s).
Proof.
  induction s as [|x s IH]; intros skip prev pos.
  - destruct skip as [|n]; cbn [finditer]; [|split; constructor].
    destruct (amount_at prev []) as [m|] eqn:E; [|split; constructor].
    apply amount_at_sound in E. destruct E as (pre & num & after & E & _ & _ & Hn).
    apply grouped_number_nonempty in Hn.
    apply (f_equal (@length ascii)) in E. rewrite !length_app in E. simpl in E. lia.
  - assert (Step : forall n q,
               Forall (fun pm => match_in (x :: s) pos pm /\ (pos + S n <= fst pm)%nat)
                      (finditer n q (S pos) s)).
    { intros n q. destruct (IH n q (S pos)) as [F _].
      eapply Forall_impl; [|exact F]. intros pm [M L].
      split; [apply match_in_step; exact M | lia]. }
    destruct skip as [|n]; cbn [finditer].
    + destruct (amount_at prev (x :: s)) as [m|] eqn:E.
      * apply amount_at_sound in E.
        destruct E as (pre & num & after & E & -> & Hpre & Hnum).
        pose proof (grouped_number_nonempty num Hnum) as Hl.
        cbn [m_group0].
        set (n := Nat.pred (length (pre ++ num))).
        assert (Hn : S n = length (pre ++ num)) by (subst n; rewrite length_app; lia).
        split.
        -- constructor.
           ++ split; [|simpl; lia]. split; [simpl; lia|].
              exists pre, num, after. cbn [fst snd]. rewrite Nat.sub_diag.
              split; [exact E|]. split; [reflexivity|]. split; assumption.
           ++ eapply Forall_impl; [|exact (Step n (Some x))]. intros pm [M L].
              split; [exact M | lia].
        -- constructor; [apply (IH n (Some x) (S pos))|].
           eapply Forall_impl; [|exact (Step n (Some x))]. intros pm [_ L].
           unfold match_before. cbn [fst snd m_group0]. lia.
      * split.
        -- eapply Forall_impl; [|exact (Step 0%nat (Some x))]. intros pm [M L].
           split; [exact M | lia].
        -- apply (IH 0%nat (Some x) (S pos)).
    + split; [exact (Step n (Some x)) | apply (IH n (Some x) (S pos))].
Qed.

(** The loop keeps the matches that [parse] reads as a positive value, in
    their order. *)
Lemma amounts_of_matches_spec (text : str) (ms : list (nat * match_obj)) :
  Forall (match_in text 0) ms -> StronglySorted match_before ms ->
  exists results,
    amounts_of_matches ms = Ok results /\
    Forall (amount_in text) results /\
    StronglySorted amount_before results /\
    Forall (fun a => exists pm, In pm ms /\ snd a = fst pm) results.
Proof.
  induction ms as [|[p m] rest IH]; intros F S.
  - exists []. repeat split; constructor.
  - inv F. inv S.
    match goal with H : match_in _ _ _ |- _ => destruct H as [_ (pre & num & after & E & Em & Hpre & Hnum)] end.
    cbn [fst snd] in E, Em. rewrite Nat.sub_0_r in E. subst m.
    destruct IH as (results & Hr & Fr & Sr & Ir); [assumption | assumption |].
    destruct (parse_amount pre num Hpre Hnum) as (v & _ & Hv).
    assert (Weak : Forall (fun a => exists pm, In pm ((p, MkMatch (pre ++ num) [(1%nat, num)] after) :: rest)
                                            /\ snd a = fst pm) results).
    { eapply Forall_impl; [|exact Ir]. intros a (pm & Hin & Ha).
      exists pm. split; [right; exact Hin | exact Ha]. }
    assert (Eq : amounts_of_matches ((p, MkMatch (pre ++ num) [(1%nat, num)] after) :: rest)
                 = Ok (match v with
                       | Some v0 => if Qltb 0 v0 then (pre ++ num, v0, p) :: results else results
                       | None => results
                       end)).
    { cbn [amounts_of_matches m_group0]. rewrite Hv. cbn [bind]. rewrite Hr. cbn [bind].
      destruct v as [v|]; [destruct (Qltb 0 v)|]; reflexivity. }
    rewrite Eq. clear Eq.
    destruct v as [v|]; [|exists results; repeat split; assumption].
    destruct (Qltb 0 v) eqn:Pos; [|exists results; repeat split; assumption].
    exists ((pre ++ num, v, p) :: results). split; [reflexivity|].
    split; [|split].
    + constructor; [|exact Fr].
      exists pre, num, after. split; [exact E|]. split; [reflexivity|].
      split; [exact Hpre|]. split; [exact Hnum|].
      split; [apply Qltb_true; exact Pos | exact Hv].
    + constructor; [exact Sr|].
      rewrite Forall_forall. intros a Ha.
      rewrite Forall_forall in Ir. destruct (Ir a Ha) as (pm & Hin & Hpos).
      match goal with H : Forall (match_before _) rest |- _ =>
        rewrite Forall_forall in H; specialize (H pm Hin); unfold match_before in H;
        cbn [fst snd m_group0] in H end.
      unfold amount_before. cbn [fst snd]. lia.
    + constructor; [|exact Weak].
      eexists. split; [left; reflexivity | reflexivity].
Qed.

Lemma finditer_matches (text : str) :
  Forall (match_in text 0) (finditer 0 None 0 text) /\
  StronglySorted match_before (finditer 0 None 0 text).
Proof.
  destruct (finditer_spec text 0 None 0) as [F S]. split; [|exact S].
  eapply Forall_impl; [|exact F]. intros pm [M _]. exact M.
Qed.

Lemma extract_all_amounts_spec (text : str) :
  exists results,
    extract_all_amounts text = Ok results /\
    Forall (amount_in text) results /\
    StronglySorted amount_before results.
Proof.
  destruct (finditer_matches text) as [F S].
  destruct (amounts_of_matches_spec text _ F S) as (results & H1 & H2 & H3 & _).
  exists results. repeat split; assumption.
Qed.

(** ** The greedy match of a number *)

(** A bounded repetition takes a run that fills the bound or ends at a
    character that it does not accept, when what follows accepts that. *)
Lemma rep_greedy_take {A : Type} (p : ascii -> bool) (w : str) :
  Forall (fun c => p c = true) w ->
  forall (lo h : nat) (prev : option ascii) (rest : str) (caps : captures)
         (k : kont A) (a : A),
    (lo <= length w)%nat -> (length w <= h)%nat ->
    (length w = h \/ match rest with [] => True | x :: _ => p x = false end) ->
    k (prev_after prev w) rest caps = Some a ->
    rep_greedy p lo (Some h) prev (w ++ rest) caps k = Some a.
Proof.
  induction 1 as [|c w Hc Hw IH]; intros lo h prev rest caps k a Hlo Hh Hend Hk.
  - cbn [app length] in *. assert (lo = 0)%nat by lia. subst lo.
    destruct rest as [|x rest]; cbn [rep_greedy]; [exact Hk|].
    destruct Hend as [<- | Hx]; [rewrite andb_false_r; exact Hk|].
    rewrite Hx. exact Hk.
  - cbn [app length rep_greedy option_map].
    destruct h as [|h]; [cbn in Hh; lia|].
    rewrite Hc. cbn [andb Nat.pred].
    rewrite (IH (Nat.pred lo) h (Some c) rest caps k a);
      [reflexivity | cbn in Hlo; lia | cbn in Hh; lia | | exact Hk].
    destruct Hend as [E | E]; [left; cbn in E; lia | right; exact E].
Qed.














(** ** What [extract_all_amounts] returns *)

Lemma In_skipn_text {A : Type} (n : nat) (l : list A) (x : A) : In x (skipn n l) -> In x l.
Proof.
  intros H. rewrite <- (firstn_skipn n l). apply in_or_app. right. exact H.
Qed.

Lemma runs_digits (h : str) :
  all_digits h ->
  forall (k : nat) (r : str),
    (k + length h <= 3)%nat ->
    digit_runs_le3 k (h ++ r) = digit_runs_le3 (k + length h) r.
Proof.
  induction 1 as [|x h Hx _ IH]; intros k r Hk.
  - cbn [app length]. rewrite Nat.add_0_r. reflexivity.
  - cbn [app length digit_runs_le3] in *. rewrite Hx.
    replace (k <? 3)%nat with true by (symmetry; apply Nat.ltb_lt; lia).
    cbn [andb]. rewrite IH by lia. f_equal. lia.
Qed.

Lemma runs_no_digits (pre : str) :
  Forall (fun c => is_digit c = false) pre ->
  forall r, digit_runs_le3 0 (pre ++ r) = digit_runs_le3 0 r.
Proof.
  induction 1 as [|x pre Hx _ IH]; intros r; [reflexivity|].
  cbn [app digit_runs_le3]. rewrite Hx. apply IH.
Qed.

Lemma sep_not_digit (x : ascii) : x = "."%char \/ x = ","%char -> is_digit x = false.
Proof. intros [-> | ->]; reflexivity. Qed.

Lemma runs_decimal_part (dec : str) (k : nat) :
  decimal_part dec -> digit_runs_le3 k dec = true.
Proof.
  intros [-> | (x & f & -> & Hx & Hf & Hl)]; [reflexivity|].
  cbn [digit_runs_le3]. rewrite (sep_not_digit x Hx).
  rewrite <- (app_nil_r f). rewrite (runs_digits f Hf) by (simpl; lia). reflexivity.
Qed.

Lemma runs_grouped (g : str) :
  grouped g ->
  forall (dec : str) (k : nat), decimal_part dec -> digit_runs_le3 k (g ++ dec) = true.
Proof.
  induction 1 as [|x d1 d2 d3 w Hx H1 H2 H3 _ IH]; intros dec k Hdec.
  - cbn [app]. apply runs_decimal_part. exact Hdec.
  - cbn [app digit_runs_le3]. rewrite (sep_not_digit x Hx), H1, H2, H3.
    cbn [Nat.ltb Nat.leb andb]. apply IH. exact Hdec.
Qed.

Lemma runs_amount (pre num : str) :
  amount_prefix_of pre -> grouped_number num -> digit_runs_le3 0 (pre ++ num) = true.
Proof.
  intros Hpre (h & g & dec & -> & Hh & Hl & Hg & Hdec).
  rewrite (runs_no_digits pre (amount_prefix_no_digit pre Hpre)).
  rewrite (runs_digits h Hh) by (simpl; lia).
  apply runs_grouped; assumption.
Qed.

(** X22. [extract_all_amounts] never raises, and every item of its result
    is an amount of the text: the raw string is not empty and stands in the
    text at the start position, the value is positive and is the value that
    [parse] gives the raw string, which [parse] returns unchanged.  The
    items come in the order of the text and do not overlap: each one starts
    where the one before it has ended, or later. *)
Theorem amounts_stand_in_the_text (text : str) :
  exists results,
    extract_all_amounts text = Ok results /\
    Forall (fun '(raw, v, pos) =>
              raw <> [] /\
              firstn (length raw) (skipn pos text) = raw /\
              (0 < v)%Q /\
              CurrencyParser.parse (Some raw) = Ok (Some v, raw))
           results /\
    StronglySorted amount_before results.
Proof.
  destruct (extract_all_amounts_spec text) as (results & H1 & H2 & H3).
  exists results. split; [exact H1|]. split; [|exact H3].
  eapply Forall_impl; [|exact H2].
  intros [[raw v] pos] (pre & num & after & E & -> & Hpre & Hnum & Hv & Hp).
  split; [|split; [|split; [exact Hv | exact Hp]]].
  - destruct (grouped_number_numeric num Hnum) as (d & t & -> & _).
    destruct pre; discriminate.
  - rewrite E, app_assoc. rewrite firstn_app, Nat.sub_diag, firstn_all.
    cbn [firstn]. apply app_nil_r.
Qed.

(** X23. The raw strings of [extract_all_amounts] are grouped numbers
    behind an optional prefix [Rp] or [IDR]: one to three digits, rounds of
    a separator and three digits, and at the end possibly a separator and
    one or two digits.  So no raw string has more than three digits in a
    row. *)
Theorem amounts_are_grouped_numbers (text : str) :
  exists results,
    extract_all_amounts text = Ok results /\
    Forall (fun '(raw, _, _) =>
              (exists pre num,
                  raw = pre ++ num /\ amount_prefix_of pre /\ grouped_number num) /\
              digit_runs_le3 0 raw = true)
           results.
Proof.
  destruct (extract_all_amounts_spec text) as (results & H1 & H2 & _).
  exists results. split; [exact H1|].
  eapply Forall_impl; [|exact H2].
  intros [[raw v] pos] (pre & num & after & _ & -> & Hpre & Hnum & _).
  split; [exists pre, num; repeat split; assumption|].
  apply runs_amount; assumption.
Qed.







(** X26. A text without a digit holds no amount: the result is the empty
    list (as it is for the empty text). *)
Theorem no_digit_no_amount (text : str) :
  Forall (fun x => is_digit x = false) text ->
  extract_all_amounts text = Ok [].
Proof.
  intros Hno.
  destruct (extract_all_amounts_spec text) as (results & H1 & H2 & _).
  rewrite H1. destruct results as [|[[raw v] pos] results]; [reflexivity|].
  exfalso. inv H2.
  match goal with H : amount_in _ _ |- _ =>
    destruct H as (pre & num & after & E & _ & _ & Hnum & _) end.
  destruct (grouped_number_numeric num Hnum) as (d & t & -> & Hd & _).
  rewrite Forall_forall in Hno.
  assert (Hin : In d text).
  { apply (In_skipn_text pos). rewrite E. apply in_or_app. right. left. reflexivity. }
  rewrite (Hno d Hin) in Hd. discriminate.
Qed.

Lemma no_digit_no_amount_witness : extract_all_amounts (py "Hello World, Rp. -") = Ok [].
Proof. apply no_digit_no_amount. repeat constructor. Defined.

(** ** Numbers and names *)

Lemma digit_not_alpha (c : ascii) : is_digit c = true -> is_alpha c = false.
Proof. by_cases c. Qed.

Lemma digit_not_upper (c : ascii) : is_digit c = true -> is_upper c = false.
Proof. by_cases c. Qed.

Lemma isdigit_no_letter (t : str) :
  isdigit t = true -> any_alpha t = false /\ isupper t = false.
Proof.
  unfold isdigit, any_alpha, isupper. intros H.
  apply andb_true_iff in H. destruct H as [_ H].
  rewrite forallb_forall in H.
  assert (A : existsb is_alpha t = false).
  { apply not_true_is_false. intros E. apply existsb_exists in E.
    destruct E as (c & Hin & Hc). rewrite (digit_not_alpha c (H c Hin)) in Hc. discriminate. }
  assert (U : existsb is_upper t = false).
  { apply not_true_is_false. intros E. apply existsb_exists in E.
    destruct E as (c & Hin & Hc). rewrite (digit_not_upper c (H c Hin)) in Hc. discriminate. }
  split; [exact A | rewrite U; reflexivity].
Qed.

(** A text of digits scores at most -1 on a line with an index that is not
    negative; a text with a letter scores at least 1. *)
Lemma score_of_number (t : str) (r : OCRResult) :
  isdigit t = true -> (0 <= line_index r)%Z ->
  (MerchantExtractor._score_merchant_candidate t r <= -1)%Q.
Proof.
  intros Hd Hl. destruct (isdigit_no_letter t Hd) as [Ha Hu].
  unfold MerchantExtractor._score_merchant_candidate. rewrite Hd, Ha, Hu. cbn [andb].
  assert (B : (inject_Z (Z.max 0 (3 - line_index r)) <= 3)%Q).
  { change 3%Q with (inject_Z 3). rewrite <- Zle_Qle. lia. }
  destruct ((3 <=? length t) && (length t <=? 50))%bool%nat; lra.
Qed.

Lemma score_of_name (t : str) (r : OCRResult) :
  any_alpha t = true -> (1 <= MerchantExtractor._score_merchant_candidate t r)%Q.
Proof.
  intros Ha.
  assert (Hd : isdigit t = false).
  { destruct (isdigit t) eqn:E; [|reflexivity].
    destruct (isdigit_no_letter t E) as [A _]. congruence. }
  unfold MerchantExtractor._score_merchant_candidate. rewrite Hd, Ha.
  assert (B : (0 <= inject_Z (Z.max 0 (3 - line_index r)))%Q).
  { change 0%Q with (inject_Z 0). rewrite <- Zle_Qle. lia. }
  destruct (isupper t && (3 <? length t)%nat)%bool,
           ((3 <=? length t) && (length t <=? 50))%bool%nat; lra.
Qed.

(** X27. A number is not taken for the merchant name beside a name.  When
    the line indices of the first [top_n_lines] detections are not negative
    (as [extract_text] numbers them) and one of the candidates has a letter,
    the merchant name is not a string of digits: a text of digits scores at
    most -1, a text with a letter at least 1. *)
Theorem merchant_is_no_number_beside_a_name (ocr_results : list OCRResult)
        (top_n_lines : nat) (c : str * Q * Q) :
  (forall r, In r (firstn top_n_lines ocr_results) -> (0 <= line_index r)%Z) ->
  In c (MerchantExtractor.candidates_of (firstn top_n_lines ocr_results)) ->
  any_alpha (fst (fst c)) = true ->
  exists name,
    MerchantExtractor.extract ocr_results top_n_lines = Some name /\
    isdigit name = false.
Proof.
  intros Hidx Hc Ha.
  destruct (extract_best ocr_results top_n_lines) as (best & Hin & He & Hmax).
  { intros E. rewrite E in Hc. contradiction. }
  exists (fst (fst best)). split; [exact He|].
  destruct (isdigit (fst (fst best))) eqn:Ed; [exfalso | reflexivity].
  pose proof (Hmax c Hc) as Hle.
  destruct best as [[tb sb] cb]. destruct c as [[tc sc] cc].
  cbn [fst snd] in *.
  apply candidates_of_In in Hin. destruct Hin as (rb & Hrb & _ & _ & _ & -> & _).
  apply candidates_of_In in Hc. destruct Hc as (rc & _ & _ & _ & _ & -> & _).
  pose proof (score_of_number tb rb Ed (Hidx rb Hrb)) as H1.
  pose proof (score_of_name tc rc Ha) as H2.
  unfold MerchantSpec.key_le, MerchantExtractor.candidate_key in Hle. cbn [fst snd] in Hle.
  destruct Hle as [Hlt | [Heq _]]; [lra | rewrite Heq in H2; lra].
Qed.

Lemma merchant_is_no_number_beside_a_name_witness :
  let results := [MkOCR 0 (py "12345") 1%Q [] 0;
                  MkOCR 1 (py "kopi") (5 # 10)%Q [] 1] in
  exists name,
    MerchantExtractor.extract results 5 = Some name /\ isdigit name = false.
Proof.
  intros results.
  apply (merchant_is_no_number_beside_a_name results 5
           (py "kopi",
            MerchantExtractor._score_merchant_candidate (py "kopi")
              (MkOCR 1 (py "kopi") (5 # 10)%Q [] 1),
            (5 # 10)%Q)).
  - intros r [<- | [<- | []]]; cbn; lia.
  - vm_compute. right. left. reflexivity.
  - reflexivity.
Defined.

(** ** Dates with the name of the month *)

Lemma str_eqb_eq (a b : str) : str_eqb a b = true -> a = b.
Proof.
  revert b. induction a as [|x a IH]; intros [|y b] H; cbn [str_eqb] in H;
    try discriminate; [reflexivity|].
  apply andb_true_iff in H. destruct H as [H1 H2].
  apply Ascii.eqb_eq in H1. subst y. f_equal. apply IH. exact H2.
Qed.

Lemma length_py (s : string) : length (py s) = String.length s.
Proof. unfold py. induction s as [|c s IH]; [reflexivity|]. cbn. f_equal. exact IH. Qed.

Lemma get_In (m : list (string * Z)) (k : str) (v : Z) :
  ExtractionConfig.get m k = Some v -> exists kv, In kv m /\ py (fst kv) = k /\ snd kv = v.
Proof.
  induction m as [|[k' v'] m IH]; cbn [ExtractionConfig.get]; [discriminate|].
  destruct (str_eqb (py k') k) eqn:E.
  - intros H. inversion H; subst v'. apply str_eqb_eq in E.
    exists (k', v). split; [left; reflexivity | split; [exact E | reflexivity]].
  - intros H. destruct (IH H) as (kv & Hin & Hk). exists kv. split; [right; exact Hin | exact Hk].
Qed.

(** A key of three letters that [MONTH_MAP] has is one of sixteen. *)
Lemma get_three_letters (l1 l2 l3 : ascii) (mo : Z) :
  ExtractionConfig.get ExtractionConfig.MONTH_MAP [l1; l2; l3] = Some mo ->
  In ([l1; l2; l3], mo) three_letter_months.
Proof.
  intros H. apply get_In in H. destruct H as ([k v] & Hin & Hk & Hv).
  cbn [fst snd] in Hk, Hv. subst v.
  unfold three_letter_months. apply in_map_iff. exists (k, mo).
  split; [cbn [fst snd]; rewrite Hk; reflexivity|].
  apply filter_In. split; [exact Hin|]. cbn [fst].
  apply Nat.eqb_eq. rewrite <- length_py, Hk. reflexivity.
Qed.

(** A greedy repetition without upper bound takes a run that ends at a
    character that it does not accept, when what follows accepts that. *)
Lemma rep_greedy_until {A : Type} (p : ascii -> bool) (w : str) :
  Forall (fun c => p c = true) w ->
  forall (lo : nat) (prev : option ascii) (rest : str) (caps : captures)
         (k : kont A) (a : A),
    (lo <= length w)%nat ->
    match rest with [] => True | x :: _ => p x = false end ->
    k (prev_after prev w) rest caps = Some a ->
    rep_greedy p lo None prev (w ++ rest) caps k = Some a.
Proof.
  induction 1 as [|c w Hc Hw IH]; intros lo prev rest caps k a Hlo Hend Hk.
  - cbn [app length] in *. assert (lo = 0)%nat by lia. subst lo.
    destruct rest as [|x rest]; cbn [rep_greedy]; [exact Hk|].
    rewrite Hend. exact Hk.
  - cbn [app length rep_greedy option_map]. rewrite Hc. cbn [andb].
    rewrite (IH (Nat.pred lo) (Some c) rest caps k a);
      [reflexivity | cbn in Hlo; lia | exact Hend | exact Hk].
Qed.

Lemma word_set_ic (c : ascii) : in_set true false [CWord] c = is_word c.
Proof. destruct c as [[] [] [] [] [] [] [] []]; reflexivity. Qed.

Lemma space_not_word (c : ascii) : is_space c = true -> is_word c = false.
Proof. by_cases c. Qed.

Lemma lower_letter_no_space (c : ascii) :
  is_lower (to_lower c) = true -> is_space c = false.
Proof. by_cases c. Qed.

Lemma date_sep_of_set (c : ascii) :
  in_set true false [CChr "/"; CChr "-"; CChr "."] c = true -> is_date_sep c.
Proof.
  unfold is_date_sep.
  destruct c as [[] [] [] [] [] [] [] []]; vm_compute; intuition congruence.
Qed.

(** The sixteen alternatives of group 2 take the first three letters of a
    word that starts with one of them, in either case. *)
Lemma month_alternatives {A : Type} (c1 c2 c3 : ascii) (mo : Z) :
  In ([to_lower c1; to_lower c2; to_lower c3], mo) three_letter_months ->
  (1 <= mo <= 12)%Z /\
  (is_lower (to_lower c1) = true /\ is_lower (to_lower c2) = true /\
   is_lower (to_lower c3) = true) /\
  forall (prev : option ascii) (rest : str) (caps : captures) (K : kont A),
    rmatch true
      (alts (map lit ["jan"; "feb"; "mar"; "apr"; "may"; "mei"; "jun"; "jul"; "aug";
                      "agu"; "sep"; "oct"; "okt"; "nov"; "dec"; "des"]%string))
      prev (c1 :: c2 :: c3 :: rest) caps K
    = K (Some c3) rest caps.
Proof.
  intros H.
  let t := eval vm_compute in three_letter_months in
  change three_letter_months with t in H.
  cbn [In] in H.
  repeat (destruct H as [H | H]); try contradiction;
    injection H as H1 H2 H3 Hm; subst mo;
    (split; [lia|]);
    (split; [rewrite <- H1, <- H2, <- H3; repeat split; reflexivity|]);
    intros prev rest caps K;
    cbn [alts map lit lit_l py list_ascii_of_string rmatch]; unfold chr_eq;
    rewrite <- H1, <- H2, <- H3;
    repeat match goal with
      | |- context [Ascii.eqb ?a ?b] =>
          let v := eval vm_compute in (Ascii.eqb a b) in
          change (Ascii.eqb a b) with v; cbv iota
      end;
    destruct (K (Some c3) rest caps); reflexivity.
Qed.

Lemma space_head_not_digit (sp rest : str) :
  all_spaces sp -> sp <> [] ->
  match sp ++ rest with [] => True | x :: _ => in_set true false [CDigit] x = false end.
Proof.
  intros Hs Hne. destruct Hs as [|x sp Hx _]; [contradiction Hne; reflexivity|].
  cbn [app]. rewrite digit_set_ic_eq. apply space_not_digit. exact Hx.
Qed.

Lemma space_head_not_word (sp rest : str) :
  all_spaces sp -> sp <> [] ->
  match sp ++ rest with [] => True | x :: _ => in_set true false [CWord] x = false end.
Proof.
  intros Hs Hne. destruct Hs as [|x sp Hx _]; [contradiction Hne; reflexivity|].
  cbn [app]. rewrite word_set_ic. apply space_not_word. exact Hx.
Qed.

(** The third date pattern on a text that starts with a day, the name of a
    month and a year. *)
Lemma match_day_monthname_year (D sp1 w sp2 Y post : str) (c1 c2 c3 : ascii) (mo : Z) :
  all_digits D -> (1 <= length D <= 2)%nat ->
  all_spaces sp1 -> sp1 <> [] ->
  In ([to_lower c1; to_lower c2; to_lower c3], mo) three_letter_months ->
  Forall (fun c => is_word c = true) w ->
  all_spaces sp2 -> sp2 <> [] ->
  all_digits Y -> length Y = 4%nat -> word_ends post ->
  forall prev : option ascii,
  word_opt prev = false ->
  match_at true (ast ExtractionConfig.PATTERN_D_MON_Y) prev
           (D ++ sp1 ++ c1 :: c2 :: c3 :: w ++ sp2 ++ Y ++ post)
  = Some (MkMatch (D ++ sp1 ++ c1 :: c2 :: c3 :: w ++ sp2 ++ Y)
                  [(3%nat, Y); (2%nat, [c1; c2; c3]); (1%nat, D)] post).
Proof.
  intros HD LD Hs1 N1 Hmo Hw Hs2 N2 HY LY Hpost prev Hprev.
  destruct (month_alternatives (A := match_obj) c1 c2 c3 mo Hmo) as (_ & (Hl & _ & _) & Halt).
  unfold match_at, ExtractionConfig.PATTERN_D_MON_Y, ExtractionConfig.spaces1, digits,
    plus, star.
  cbn [ast seqs cat rmatch].
  assert (B0 : at_boundary prev (D ++ sp1 ++ c1 :: c2 :: c3 :: w ++ sp2 ++ Y ++ post) = true).
  { destruct D as [|d D']; [cbn in LD; lia|]. inversion HD; subst.
    unfold at_boundary. rewrite Hprev. cbn [app hd_error word_opt xorb].
    apply digit_is_word. assumption. }
  rewrite B0.
  apply rep_greedy_take;
    [eapply Forall_impl; [|exact HD]; apply digit_set_ic | lia | lia
    | right; apply space_head_not_digit; assumption |].
  apply rep_greedy_until;
    [eapply Forall_impl; [|exact Hs1]; apply space_set
    | destruct sp1; [contradiction N1; reflexivity | cbn; lia]
    | rewrite set_space_ic; apply lower_letter_no_space; exact Hl |].
  rewrite Halt.
  apply rep_greedy_until;
    [eapply Forall_impl; [|exact Hw]; intros c Hc; rewrite word_set_ic; exact Hc
    | lia | apply space_head_not_word; assumption |].
  apply rep_greedy_until;
    [eapply Forall_impl; [|exact Hs2]; apply space_set
    | destruct sp2; [contradiction N2; reflexivity | cbn; lia]
    | destruct Y as [|y Y']; [discriminate LY|]; inversion HY; subst;
      cbn [app]; apply digit_not_space_set; assumption |].
  apply four_digits; [exact HY | exact LY|].
  assert (B1 : forall q, at_boundary (prev_after q Y) post = true).
  { intros q. unfold at_boundary.
    rewrite word_after_digits; [| exact HY | destruct Y; discriminate].
    rewrite (word_ends_boundary post Hpost). reflexivity. }
  rewrite B1.
  rewrite !firstn_consumed.
  replace (c1 :: c2 :: c3 :: w ++ sp2 ++ Y ++ post)
    with ([c1; c2; c3] ++ w ++ sp2 ++ Y ++ post) by reflexivity.
  rewrite firstn_consumed.
  replace (D ++ sp1 ++ [c1; c2; c3] ++ w ++ sp2 ++ Y ++ post)
    with ((D ++ sp1 ++ c1 :: c2 :: c3 :: w ++ sp2 ++ Y) ++ post).
  - rewrite firstn_consumed. reflexivity.
  - rewrite <- !app_assoc. cbn [app]. rewrite <- !app_assoc. reflexivity.
Qed.

Lemma search_from_matches (ic : bool) (r : regex) (s : str) :
  forall (prev : option ascii) (m : match_obj),
    search_from ic r prev s = Some m ->
    exists pre q,
      s = pre ++ m_group0 m ++ m_after m /\
      matches ic r q (m_group0 m) (m_after m) [] (m_caps m).
Proof.
  induction s as [|x s IH]; intros prev m H; cbn [search_from] in H.
  - destruct (match_at ic r prev []) as [m'|] eqn:E; [|discriminate].
    inversion H; subst m'. apply match_at_sound in E. exists [], prev. exact E.
  - destruct (match_at ic r prev (x :: s)) as [m'|] eqn:E.
    + inversion H; subst m'. apply match_at_sound in E. exists [], prev. exact E.
    + destruct (IH _ _ H) as (pre & q & Hpre & M). exists (x :: pre), q.
      split; [cbn [app]; f_equal; exact Hpre | exact M].
Qed.

Lemma no_digit_sep_digit_spec (a : str) :
  forall (d1 x d2 : ascii) (b : str),
    no_digit_sep_digit (a ++ d1 :: x :: d2 :: b) = true ->
    is_digit d1 = true -> is_date_sep x -> is_digit d2 = true -> False.
Proof.
  induction a as [|y a IH]; intros d1 x d2 b H H1 Hx H2.
  - cbn [app no_digit_sep_digit] in H. rewrite H1, H2 in H.
    destruct Hx as [-> | [-> | ->]]; discriminate H.
  - cbn [app] in H. cbn [no_digit_sep_digit] in H.
    apply andb_true_iff in H. destruct H as [_ H]. exact (IH _ _ _ _ H H1 Hx H2).
Qed.

(** A run of digits, a separator and a run of digits hold a separator
    between two digits. *)
Lemma runs_around_separator (pre w1 w2 rest : str) (x : ascii) :
  Forall (fun c => in_set true false [CDigit] c = true) w1 -> (1 <= length w1)%nat ->
  Forall (fun c => in_set true false [CDigit] c = true) w2 -> (1 <= length w2)%nat ->
  in_set true false [CChr "/"; CChr "-"; CChr "."] x = true ->
  no_digit_sep_digit (pre ++ w1 ++ x :: w2 ++ rest) = true -> False.
Proof.
  intros H1 L1 H2 L2 Hx H.
  destruct (exists_last (l := w1)) as (w1' & d1 & E1); [destruct w1; [cbn in L1; lia | discriminate]|].
  destruct w2 as [|d2 w2']; [cbn in L2; lia|].
  subst w1. apply Forall_app in H1. destruct H1 as [_ H1]. inv H1. inv H2.
  rewrite digit_set_ic_eq in *.
  apply (no_digit_sep_digit_spec (pre ++ w1') d1 x d2 (w2' ++ rest));
    [|assumption | apply date_sep_of_set; exact Hx | assumption].
  rewrite <- H. f_equal. rewrite <- !app_assoc. reflexivity.
Qed.

(** The two numeric date patterns need a separator between two digits. *)
Lemma numeric_dates_need_separator (s : str) :
  no_digit_sep_digit s = true ->
  re_search true (ast ExtractionConfig.PATTERN_DMY) s = None /\
  re_search true (ast ExtractionConfig.PATTERN_YMD) s = None.
Proof.
  intros Hs. unfold re_search. split.
  - destruct (search_from true (ast ExtractionConfig.PATTERN_DMY) None s) as [m|] eqn:E;
      [exfalso | reflexivity].
    apply search_from_matches in E. destruct E as (pre & q & Es & M).
    unfold ExtractionConfig.PATTERN_DMY, ExtractionConfig.date_sep, digits in M.
    cbn [ast seqs cat] in M. revert Es M. generalize (m_after m) (m_caps m) (m_group0 m).
    intros after caps g Es M. subst s.
    inv_all.
    match goal with
    | Hs : no_digit_sep_digit (pre ++ ([] ++ ?w1 ++ [?x] ++ ?w2 ++ ?r) ++ ?after) = true |- _ =>
        apply (runs_around_separator pre w1 w2 (r ++ after) x);
        first [assumption | lia | (rewrite <- Hs; f_equal; list_eq)]
    end.
  - destruct (search_from true (ast ExtractionConfig.PATTERN_YMD) None s) as [m|] eqn:E;
      [exfalso | reflexivity].
    apply search_from_matches in E. destruct E as (pre & q & Es & M).
    unfold ExtractionConfig.PATTERN_YMD, ExtractionConfig.date_sep, digits in M.
    cbn [ast seqs cat] in M. revert Es M. generalize (m_after m) (m_caps m) (m_group0 m).
    intros after caps g Es M. subst s.
    inv_all.
    match goal with
    | Hs : no_digit_sep_digit (pre ++ ([] ++ ?w1 ++ [?x] ++ ?w2 ++ ?r) ++ ?after) = true |- _ =>
        apply (runs_around_separator pre w1 w2 (r ++ after) x);
        first [assumption | lia | (rewrite <- Hs; f_equal; list_eq)]
    end.
Qed.

Lemma match_needs_digit (prev : option ascii) (x : ascii) (s : str) :
  is_digit x = false ->
  match_at true (ast ExtractionConfig.PATTERN_D_MON_Y) prev (x :: s) = None.
Proof.
  intros Hx. unfold match_at, ExtractionConfig.PATTERN_D_MON_Y, digits.
  cbn [ast seqs cat rmatch]. destruct (at_boundary prev (x :: s)); [|reflexivity].
  cbn [rep_greedy]. rewrite digit_set_ic_eq, Hx. reflexivity.
Qed.

(** The search passes a text without digits. *)
Lemma search_passes_no_digit (before s : str) :
  Forall (fun c => is_digit c = false) before ->
  forall prev,
    search_from true (ast ExtractionConfig.PATTERN_D_MON_Y) prev (before ++ s)
    = search_from true (ast ExtractionConfig.PATTERN_D_MON_Y) (prev_after prev before) s.
Proof.
  induction 1 as [|x before Hx _ IH]; intros prev; [reflexivity|].
  cbn [app search_from]. rewrite (match_needs_digit prev x _ Hx). apply IH.
Qed.

Lemma _parse_date_match_text_month (G post D Y : str) (c1 c2 c3 : ascii) (mo : Z) :
  all_digits D -> D <> [] -> all_digits Y -> Y <> [] ->
  ExtractionConfig.get ExtractionConfig.MONTH_MAP [to_lower c1; to_lower c2; to_lower c3]
  = Some mo ->
  (1 <= mo)%Z ->
  DateExtractor._parse_date_match
    (MkMatch G [(3%nat, Y); (2%nat, [c1; c2; c3]); (1%nat, D)] post)
    ExtractionConfig.PATTERN_D_MON_Y
  = DateExtractor.except_parse
      (d <- date_new (digits_val 0 Y) mo (digits_val 0 D) ;; Ok (Some d)).
Proof.
  intros HD ND HY NY Hmo Hpos. unfold DateExtractor._parse_date_match.
  replace (DateExtractor.is_text_month_pattern ExtractionConfig.PATTERN_D_MON_Y)
    with true by (vm_compute; reflexivity).
  unfold groups, DateExtractor.n_groups.
  cbn [seq map m_caps get_cap Nat.eqb DateExtractor.valid_only length Nat.leb
       index_at nth_error bind lower].
  unfold py_int.
  rewrite (isdigit_digits D HD ND), (isdigit_digits Y HY NY).
  cbn [bind]. rewrite Hmo.
  replace (mo =? 0)%Z with false by (symmetry; apply Z.eqb_neq; lia).
  reflexivity.
Qed.

(** X28. Day, name of the month, year.  Let the joined text of the
    detections have no separator ([/], [-] or [.]) between two digits, and
    let its first digit stand at its start or behind a character that is no
    word character, and start one or two digits, whitespace, a word whose
    first three letters are, in either case, a key of [MONTH_MAP] (jan, feb,
    mar, apr, may, mei, jun, jul, aug, agu, sep, oct, okt, nov, dec, des),
    whitespace and four digits, after which the text ends or goes on with a
    character that is no word character.  Then the extractor returns that
    piece of text with the date of this day, month and year, provided the
    date exists and is plausible (the clock being in the years 6..9999).
    The letters of the word after the third are not looked at. *)
Theorem date_day_monthname_year (today : date) (ocr_results : list OCRResult)
        (before D sp1 w sp2 Y post : str) (c1 c2 c3 : ascii) (mo : Z) (dt : date) :
  Forall (fun c => is_digit c = false) before ->
  word_opt (prev_after None before) = false ->
  all_digits D -> (1 <= length D <= 2)%nat ->
  all_spaces sp1 -> sp1 <> [] ->
  ExtractionConfig.get ExtractionConfig.MONTH_MAP [to_lower c1; to_lower c2; to_lower c3]
  = Some mo ->
  Forall (fun c => is_word c = true) w ->
  all_spaces sp2 -> sp2 <> [] ->
  all_digits Y -> length Y = 4%nat ->
  word_ends post ->
  DateExtractor.full_text_of ocr_results
  = before ++ D ++ sp1 ++ c1 :: c2 :: c3 :: w ++ sp2 ++ Y ++ post ->
  no_digit_sep_digit (DateExtractor.full_text_of ocr_results) = true ->
  date_new (digits_val 0 Y) mo (digits_val 0 D) = Ok dt ->
  date_ltb today dt = false ->
  date_ltb dt (MkDate (year today - 5) 1 1) = false ->
  (6 <= year today <= 9999)%Z ->
  DateExtractor.extract today ocr_results
  = Ok (Some (D ++ sp1 ++ c1 :: c2 :: c3 :: w ++ sp2 ++ Y), Some dt).
Proof.
  intros Hb Hprev HD LD Hs1 N1 Hget Hw Hs2 N2 HY LY Hpost Htext Hnum Hdate
         Hfuture Hold Hyear.
  pose proof (get_three_letters _ _ _ _ Hget) as Hmo.
  destruct (month_alternatives (A := match_obj) c1 c2 c3 mo Hmo) as (Hrange & _ & _).
  destruct (numeric_dates_need_separator _ Hnum) as [No1 No2].
  unfold DateExtractor.extract, DateExtractor.extract_from,
    ExtractionConfig.DATE_PATTERNS.
  cbn [for_first]. unfold DateExtractor.try_pattern at 1. rewrite No1.
  unfold DateExtractor.try_pattern at 1. rewrite No2.
  unfold DateExtractor.try_pattern at 1.
  rewrite Htext. unfold re_search.
  rewrite (search_passes_no_digit before _ Hb None).
  rewrite (search_from_hit _ _ _ _ _
             (match_day_monthname_year D sp1 w sp2 Y post c1 c2 c3 mo
                HD LD Hs1 N1 Hmo Hw Hs2 N2 HY LY Hpost _ Hprev)).
  cbn [m_group0].
  rewrite (_parse_date_match_text_month _ post D Y c1 c2 c3 mo);
    [| exact HD | apply nonempty_of_length; lia | exact HY
     | apply nonempty_of_length; lia | exact Hget | lia].
  rewrite Hdate. cbn [bind DateExtractor.except_parse].
  rewrite (_is_valid_date_min_date today dt Hyear).
  unfold Plausibility.min_date_of. rewrite Hfuture, Hold. reflexivity.
Qed.

Lemma date_day_monthname_year_witness :
  DateExtractor.extract (MkDate 2026 11 4)
    [MkOCR 0 (py "Jl. Sudirman") 1%Q [] 0; MkOCR 1 (py "Tgl:") 1%Q [] 1;
     MkOCR 2 (py "3 AGUSTUS 2026") 1%Q [] 2; MkOCR 3 (py "14:30") 1%Q [] 3]
  = Ok (Some (py "3 AGUSTUS 2026"), Some (MkDate 2026 8 3)).
Proof.
  apply (date_day_monthname_year (MkDate 2026 11 4) _
           (py "Jl. Sudirman Tgl: ") (py "3") (py " ") (py "STUS") (py " ") (py "2026")
           (py " 14:30") "A" "G" "U" 8 (MkDate 2026 8 3)).
  - repeat constructor.
  - reflexivity.
  - repeat constructor.
  - cbn. lia.
  - repeat constructor.
  - discriminate.
  - reflexivity.
  - repeat constructor.
  - repeat constructor.
  - discriminate.
  - repeat constructor.
  - reflexivity.
  - right. exists " "%char, (py "14:30"). split; reflexivity.
  - reflexivity.
  - reflexivity.
  - reflexivity.
  - reflexivity.
  - reflexivity.
  - cbn. lia.
Defined.

(** ** The fallback strategy *)

(** On a detection that has a value, the test for dates and identifiers is
    the test for identifiers: a text of the date shape or of the time shape
    has no value. *)
Lemma valued_looks_like (text : str) (v : Q) (raw : str) :
  CurrencyParser.parse (Some text) = Ok (Some v, raw) ->
  TotalAmountExtractor._looks_like_date_or_id text
  = TotalAmountExtractor.looks_like TotalAmountExtractor.ID_SHAPE text.
Proof.
  intros Hp. unfold TotalAmountExtractor._looks_like_date_or_id.
  unfold TotalAmountExtractor.looks_like at 1.
  destruct (re_match false (ast TotalAmountExtractor.DATE_SHAPE) text) as [m|] eqn:Ed.
  { rewrite (looks_like_date_no_value text m Ed) in Hp. discriminate. }
  cbn [MerchantExtractor.is_some].
  unfold TotalAmountExtractor.looks_like at 1.
  destruct (re_match false (ast TotalAmountExtractor.TIME_SHAPE) text) as [m|] eqn:Et.
  { rewrite (looks_like_time_no_value text m Et) in Hp. discriminate. }
  cbn [MerchantExtractor.is_some].
  destruct (TotalAmountExtractor.looks_like TotalAmountExtractor.ID_SHAPE text); reflexivity.
Qed.

(** X29. The fallback strategy.  [_extract_max_value] always returns.  Its
    result is no total, or the amount of a detection that does not look like
    an identifier (two or more capital letters and then six or more digits),
    with the confidence 0.6; and it is at least as large as the amount of
    every such detection whose value is at least 100.  The tests for the
    date shape and the time shape exclude nothing that has a value. *)
Theorem fallback_is_the_largest_amount (ocr_results : list OCRResult) :
  exists r : total_result,
    TotalAmountExtractor._extract_max_value ocr_results = Ok r /\
    (r = no_total \/
     exists d,
       In d ocr_results /\ reports r d (6 # 10)%Q /\
       TotalAmountExtractor.looks_like TotalAmountExtractor.ID_SHAPE (text d) = false) /\
    (forall (d : OCRResult) (raw : str) (v : Q),
        In d ocr_results ->
        CurrencyParser.parse (Some (text d)) = Ok (Some v, raw) -> (100 <= v)%Q ->
        TotalAmountExtractor.looks_like TotalAmountExtractor.ID_SHAPE (text d) = false ->
        exists raw' v', r = (Some raw', Some v', (6 # 10)%Q) /\ (v <= v')%Q).
Proof.
  unfold TotalAmountExtractor._extract_max_value.
  set (keep := fun result : OCRResult =>
                 negb (TotalAmountExtractor._looks_like_date_or_id (text result))).
  destruct (amounts_of_ok keep ocr_results) as [l Hl]. rewrite Hl. cbn [bind].
  eexists. split; [reflexivity|].
  destruct (best_of_cases l (6 # 10)%Q) as [[El E] | (raw & v & c & Hin & E & Hmax)].
  - rewrite E. split; [left; reflexivity|].
    intros d raw v Hd Hp Hv Hid. exfalso.
    assert (Hk : keep d = true).
    { unfold keep. rewrite (valued_looks_like _ _ _ Hp), Hid. reflexivity. }
    pose proof (amounts_of_complete keep ocr_results l d raw v Hl Hd Hp Hv Hk) as H.
    rewrite El in H. contradiction.
  - rewrite E. split.
    + right. destruct (amounts_of_In keep ocr_results l raw v c Hl Hin)
        as (d & Hd & Hp & Hv & Hk).
      exists d. split; [exact Hd|]. split.
      * exists raw, v. split; [reflexivity|]. split; assumption.
      * unfold keep in Hk. rewrite (valued_looks_like _ _ _ Hp) in Hk.
        apply negb_true_iff. exact Hk.
    + intros d raw0 v0 Hd Hp Hv Hid.
      assert (Hk : keep d = true).
      { unfold keep. rewrite (valued_looks_like _ _ _ Hp), Hid. reflexivity. }
      pose proof (amounts_of_complete keep ocr_results l d raw0 v0 Hl Hd Hp Hv Hk) as H.
      exists raw, v. split; [reflexivity|]. exact (Hmax _ _ _ H).
Qed.
